(* ===== verification/_CoqProject ===== *)
-Q . S2P
Prelude.v
GoLib.v
Effects.v
KubeApi.v
ConfigTypes.v
Calls.v
Webhook.v
ConfigurationController.v
Watches.v
Executor.v
NodeController.v
HealthCheck.v
Bootstrap.v
Main.v
TextTemplate.v
TemplateText.v
TemplatesRBAC.v
TemplatesDeployments.v
TemplatesDaemonSets.v
TemplatesServices.v
CrdsResolvers.v
CrdsNatGateway.v
CrdsRules.v
CrdsNetworks.v
Crds.v
PlainText.v
Render.v
TemplateCheck.v
RenderValues.v
Guarantees.v
System.v
TestServer.v
TestRender.v
ConfigurationFacts.v
DeletionFacts.v
ReconcileFacts.v
NodeFacts.v
HealthFacts.v
RenderFacts.v
RenderObjects.v
NumberFacts.v
CrdFacts.v
GoMemory.v
DeepCopy.v
GoMemoryFacts.v
DeepCopyFacts.v
MainFacts.v
SystemFacts.v
Convergence.v
OperatorFacts.v
ConfigurationWitnesses.v
NodeWitnesses.v
SystemWitnesses.v
RenderWitnesses.v
