(* ===== verification/Prelude.v ===== *)
(** * kubeovn-operator: a verification library

    The operator deploys Kube-OVN: it watches one Configuration object, renders
    the manifests of the control plane from templates, applies them to the
    cluster, cleans up nodes that leave, checks the health of the OVN databases,
    and tears everything down when the Configuration is deleted. This library
    is a model of its Go code, under src/, with theorems about it.

    ** The program and its parts

    - cmd/main.go: the start of the operator: flags, certificates, two managers.
    - api/v1: the Configuration type, its conditions and the constants, and the
      generated deep copies.
    - internal/controller/configuration_controller.go: the main reconcile loop.
    - internal/controller/node_controller.go: finalizers of nodes, cleanup of
      nodes that are deleted.
    - internal/controller/healthcheck_controller.go: the periodic health check.
    - internal/executor: commands in pods.
    - internal/bootstrap: the default Configuration.
    - internal/webhook: defaults of the resource quantities.
    - internal/render and internal/templates: the generation of the objects.
    The three controllers share the API server only: the node controller and the
    health check write the status of the Configuration the main loop reads.

    ** How the code is modelled

    A Go function that talks to the API server is a program of the free monad of
    [Effects] over the calls [callE] of [Calls]: each method call of the client
    (Get, List, Patch, Create, Delete, the dynamic client, the exec into a pod,
    the event recorder) and the clock is a constructor. [runs p t o] says that
    [p] can observe the trace [t] of calls and answers and end with the outcome
    [o], a value or a panic. The answers are not constrained: the theorems hold
    for every behaviour of the API server, of other clients and of the network,
    at every interleaving. [runs_total] says that a program always has a run,
    and [exec] computes the one of a given handler. Pure functions of the code
    are functions of the model; an error is a value of [error], a struct a
    Record, a map of the code a [gmap] or, when its order shows, a list.
    Logging has no effect on the state and is left out.
    A nil slice and an empty one are the same list. A deep copy is the value
    itself: [DeepCopyFacts] proves, on a model of Go's memory, that the copies
    of the code share no cell with their originals, which is what makes values
    of the controllers' copies faithful.

    Code outside the repository is a parameter, with the documented behaviour
    the operator relies on as laws: [KubeLib]/[KubeLaws] (apimachinery and
    controller-runtime: errors, finalizers, selectors, quantities),
    [ControllerLib] (scheme and owner references), [RenderLib]/[RenderLaws]
    (sprig, helm's lookup, nested maps, the YAML decoder),
    [BootstrapLib]/[BootstrapLaws] (the backoff loop), [WatchLib]/[WatchLaws]
    (enqueueing), [LibTypes]/[LibLaws] (deep copies of library types). [TestServer] and
    [TestRender] give concrete instances and an in-memory API server.
    The language's own text/template is modelled, as far as the templates use
    it, in [TextTemplate]: lexer, parser and evaluator are executable.

    ** The files

    - [Prelude]: results with their bind, lists, automation, the scope
      [kube_scope]. [GoLib]: strings, slices and durations of Go. [Effects]:
      programs, runs, the error-stopping loops, [inv_runs], which takes a run
      apart, and three ways to reason on programs: [only] (the calls it can
      issue), [wp] (what it guarantees when its answers satisfy an assumption)
      and [ends] (its execution against a handler). [KubeApi]: the Kubernetes
      types.
    - [ConfigTypes] (api/v1), [Calls] (the calls and what traces say about them).
    - [Webhook], [ConfigurationController], [Executor], [NodeController],
      [HealthCheck], [Bootstrap]: one file per component, with the names of the
      code. The interface [Renderer] states what the main loop needs of the
      generator; [CleanupScripts] what the node controller needs. [Watches]: what
      wakes the main loop up. [Main]: the program that sets everything up, and the
      process in which it runs beside the goroutine of the webhook manager.
    - [TextTemplate], [TemplateText], [TemplatesRBAC], [TemplatesDeployments],
      [TemplatesDaemonSets], [TemplatesServices]: the template language and every
      template, character by character (a caret stands for the double quote).
      [CrdsResolvers], [CrdsNatGateway], [CrdsRules], [CrdsNetworks], [Crds]: the
      24 CustomResourceDefinitions (a tilde stands for the double quote).
      [PlainText]: texts without actions, as these are, render to themselves.
    - [Render]: internal/render; implements [Renderer] and [CleanupScripts].
    - [TemplateCheck]: a static checker for templates with its soundness.
      [RenderValues]: the type of the values, and that every template checks.
    - [GoMemory]: values in memory, with pointers and slices, and the statements
      of deep copies. [DeepCopy]: every method of zz_generated.deepcopy.go in
      that language. [GoMemoryFacts]: a decision procedure for the completeness
      of such a method, and its soundness.
    - [Guarantees]: one walk over the three controllers, for every invariant of
      the Configuration that its operations preserve (the class [Stable]).
      [System]: the operator among other clients of the API server, as a step
      relation: any number of workers of the controllers and the bootstrapper,
      one call at a time, stale reads, crashes, and the law of the server's
      merge patches (the class [ApiServerLaws]).
    - [ConfigurationFacts], [DeletionFacts], [ReconcileFacts], [NodeFacts],
      [HealthFacts], [RenderFacts], [RenderObjects], [NumberFacts], [CrdFacts],
      [OperatorFacts], [SystemFacts], [Convergence], [DeepCopyFacts],
      [MainFacts]: the theorems. [ConfigurationWitnesses], [NodeWitnesses],
      [SystemWitnesses], [RenderWitnesses]: their concrete instances.

    ** What the theorems show

    - The main loop: objects are applied only behind the finalizer and with
      known master nodes, a successful application is complete and does not
      depend on the order of the map of object types, failed writes are
      reported, a status patch is the last call and changes nothing but the status
      and the image tag, the conditions stay well formed, the addresses are those
      of the nodes listed with the label of the spec; what happens to the waiting
      condition when these nodes disappear.
    - The system: from an empty server, in every interleaving, every stored
      status is well formed ([SystemFacts]); and in an environment that works
      and does not change, two reconciles reach a steady state that the next
      ones keep ([Convergence]).
    - Deletion: nothing is removed before every custom resource is gone; with
      which finalizers nodes are released.
    - Nodes: a node is released only after the cleanup of both databases, of the
      status and of the chassis, on the leader pods; which errors are lost.
    - Health checks: their gates, their result on every branch, the interval
      with the overflow of its 64 bits, which pod is asked.
    - The webhook, the bootstrapper (it ends, with at most one creation), the
      start of the process (nothing runs before a complete setup, and the error of
      either manager ends it), the deep
      copies (equal, of the same type, nothing shared).
    - The generator: [GenerateObjects] refines the decoding of the rendered
      texts, and no reconcile panics with the operator's own templates. The
      proof is the static checker: it accepts every template for the type of
      the values of any Configuration, and accepted templates render.
    - The custom resource definitions pass through the generator unchanged, for
      every Configuration, so the deletion lists what was applied.
    - Parts of the output: affinity, scripts, services, optional objects,
      numbers, and fields that templates read under a name nobody writes.

    ** Fuel and bounds

    [parse_items] and the evaluator recurse on the template itself; the parser of
    pipelines keeps an explicit stack. [digits] has the binary logarithm of its
    argument as fuel, which bounds the number of decimal digits
    ([digits_gt]); [shortest] tries the 17 precisions that suffice for a
    [float64] ([shortest_from_exact]). Durations are 64-bit integers with their
    wrap-around; times are unbounded.

    ** What is not modelled

    - The SetupWithManager functions of the node controller, of the health check
      and of the webhook: one registration each; the parsing of the command line.
    - In [System], clients other than the operator keep the status of the
      Configuration; a deletion is any change that stores no version.
    - In [GoMemory], a slice stands for its whole backing array, times hold no
      pointer, and the deep copies of library types are parameters.
    - The test infrastructure (internal/testinfra, test/) and the manifests that
      deploy the operator itself.
    - The defaults and validations of the API markers, applied by the server.
    - The template of the TLS secret is modelled but not accepted by the checker,
      since it generates certificates and reads the cluster. *)

From stdpp Require Export base tactics list strings option gmap sorting pretty.
From Stdlib Require Export ZArith Lia.

#[export] Set Warnings "-clear-no-such-hyp,-register-all".

(** ** Notations, in a scope of their own *)

Declare Scope kube_scope.
Delimit Scope kube_scope with kube.

(** Results of fallible Go calls that return a value or an error. *)
Inductive res (E A : Type) : Type :=
| Err (e : E)
| Ok (a : A).
Arguments Err {E A} e.
Arguments Ok {E A} a.

Definition res_bind {E A B} (r : res E A) (f : A -> res E B) : res E B :=
  match r with
  | Err e => Err e
  | Ok a => f a
  end.

Definition is_ok {E A} (r : res E A) : bool :=
  match r with
  | Ok _ => true
  | Err _ => false
  end.

Notation "x <-? c1 ; c2" := (res_bind c1 (fun x => c2))
  (at level 100, c1 at next level, right associativity) : kube_scope.
(** ** Automation *)

Create HintDb kube.
Create Rewrite HintDb kube.

(** [break_match] destructs the scrutinee of a [match] in the goal or in a
    hypothesis, innermost first, keeping the equation. *)
Ltac break_inner t :=
  lazymatch t with
  | context [match ?x with _ => _ end] => break_inner x
  | _ => destruct t eqn:?
  end.

Ltac break_match :=
  match goal with
  | |- context [match ?x with _ => _ end] => break_inner x
  | H : context [match ?x with _ => _ end] |- _ => break_inner x
  end.

(** Split every conjunction and existential among the hypotheses. *)
Ltac split_hyps :=
  repeat match goal with
    | H : _ /\ _ |- _ => destruct H
    | H : exists _, _ |- _ => destruct H
    end.

(** ** Generic lemmas *)

Section res_lemmas.
Context {E A B : Type}.

Lemma res_bind_ok (r : res E A) (f : A -> res E B) b :
  res_bind r f = Ok b <-> exists a, r = Ok a /\ f a = Ok b.
Proof.
  destruct r as [e|a]; cbn; split.
  - intros [=].
  - intros (? & [=] & _).
  - eauto.
  - intros (? & [= <-] & ?). done.
Qed.

Lemma is_ok_true (r : res E A) : is_ok r = true <-> exists a, r = Ok a.
Proof.
  destruct r; cbn; split; intros H; try done.
  - by destruct H.
  - eauto.
Qed.

End res_lemmas.

Section list_lemmas.
Context {A : Type}.

(** The first element satisfying a boolean test: Go's
    [for _, v := range l { if p(v) { return v } }]. *)
Fixpoint find_first (p : A -> bool) (l : list A) : option A :=
  match l with
  | [] => None
  | x :: l' => if p x then Some x else find_first p l'
  end.

(** Update the first element satisfying a test, or append a new one:
    Go's [for i := range l { if p(l[i]) { l[i] = f(l[i]); return } };
    l = append(l, d)]. *)
Fixpoint update_first_or_append (p : A -> bool) (f : A -> A) (d : A) (l : list A) : list A :=
  match l with
  | [] => [d]
  | x :: l' => if p x then f x :: l' else x :: update_first_or_append p f d l'
  end.

Lemma find_first_Some p l x :
  find_first p l = Some x -> In x l /\ p x = true.
Proof.
  induction l as [|y l IH]; cbn; [discriminate|].
  destruct (p y) eqn:Hy; [intros [= ->]; auto|]. intros [? ?]%IH. auto.
Qed.

Lemma find_first_None p l :
  find_first p l = None <-> forall x, In x l -> p x = false.
Proof.
  induction l as [|y l IH]; cbn; [by split|].
  destruct (p y) eqn:Hy; split.
  - discriminate.
  - intros H. rewrite (H y) in Hy by auto. discriminate.
  - intros H x [<-|Hx]; [done|]. by apply IH.
  - intros H. apply IH. auto.
Qed.

Lemma find_first_app p l1 l2 :
  find_first p (l1 ++ l2) =
  match find_first p l1 with Some x => Some x | None => find_first p l2 end.
Proof. induction l1 as [|y l IH]; cbn; [done|]. by destruct (p y). Qed.

Lemma find_first_update p f d l :
  (forall x, p x = true -> p (f x) = true) -> p d = true ->
  find_first p (update_first_or_append p f d l) =
  Some (match find_first p l with Some x => f x | None => d end).
Proof.
  intros Hf Hd. induction l as [|y l IH]; cbn; [by rewrite Hd|].
  destruct (p y) eqn:Hy; cbn; [by rewrite Hf|]. by rewrite Hy.
Qed.

Lemma find_first_update_ne p q f d l :
  (forall x, p x = true -> q x = false /\ q (f x) = false) -> q d = false ->
  find_first q (update_first_or_append p f d l) = find_first q l.
Proof.
  intros Hf Hd. induction l as [|y l IH]; cbn; [by rewrite Hd|].
  destruct (p y) eqn:Hy; cbn; [destruct (Hf y Hy) as [-> ->]; done|]. by rewrite IH.
Qed.

Lemma update_first_length p f d l :
  length (update_first_or_append p f d l) =
  match find_first p l with Some _ => length l | None => S (length l) end.
Proof.
  induction l as [|y l IH]; cbn; [done|].
  destruct (p y); cbn; [done|]. rewrite IH. by destruct (find_first p l).
Qed.

(** Updating keeps any key that the update function keeps. *)
Lemma update_first_map {B} (g : A -> B) p f d l :
  (forall x, p x = true -> g (f x) = g x) ->
  map g (update_first_or_append p f d l) =
  map g l ++ match find_first p l with Some _ => [] | None => [g d] end.
Proof.
  intros Hg. induction l as [|y l IH]; cbn; [done|].
  destruct (p y) eqn:Hy; cbn; [by rewrite Hg, app_nil_r|]. by rewrite IH.
Qed.

End list_lemmas.

#[export] Hint Resolve find_first_Some : kube.
