(* ===== verification/GoLib.v ===== *)
(** * The parts of the Go language and its standard library the operator uses

    Machine integers ([int64] wrap-around), [time.Duration] and [time.Time],
    [strings.Join] and [strings.Split], [slices.Sort], [slices.Equal] and
    [slices.Contains]. The definitions follow the documented behaviour of the
    Go standard library; the program's own code starts in [ConfigTypes]. *)

From S2P Require Import Prelude.

(** ** Machine integers *)

Section int64.
Local Open Scope Z_scope.

Definition int64_min : Z := - 2 ^ 63.
Definition int64_max : Z := 2 ^ 63 - 1.

(** Two's complement wrap-around of a mathematical integer. *)
Definition int64_wrap (z : Z) : Z := (z + 2 ^ 63) `mod` 2 ^ 64 - 2 ^ 63.

Lemma int64_wrap_id z : int64_min <= z <= int64_max -> int64_wrap z = z.
Proof.
  unfold int64_min, int64_max, int64_wrap. intros H.
  rewrite Z.mod_small by lia. lia.
Qed.

Lemma int64_wrap_range z : int64_min <= int64_wrap z <= int64_max.
Proof.
  unfold int64_min, int64_max, int64_wrap.
  pose proof (Z.mod_pos_bound (z + 2 ^ 63) (2 ^ 64) ltac:(lia)). lia.
Qed.

End int64.

(** ** Package time *)

Section time.
Local Open Scope Z_scope.

(** [time.Duration]: an [int64] number of nanoseconds. *)
Definition Duration := Z.

(** [time.Time]: nanoseconds since the zero time, January 1 of year 1 UTC. *)
Definition Time := Z.

Definition zeroTime : Time := 0.
Definition time_Second : Duration := 1000000000.

(** [a * b] on durations: an [int64] product, with wrap-around. *)
Definition Duration_mul (a b : Duration) : Duration := int64_wrap (a * b).

Definition Time_Add (t : Time) (d : Duration) : Time := t + d.
Definition Time_Before (t u : Time) : bool := t <? u.

End time.

(** ** Package strings *)

Fixpoint strings_Join (elems : list string) (sep : string) : string :=
  match elems with
  | [] => ""
  | [e] => e
  | e :: rest => e +:+ sep +:+ strings_Join rest sep
  end.

(** [strings.Split s sep] for a one-byte separator. *)
Fixpoint strings_Split (s : string) (sep : Ascii.ascii) : list string :=
  match s with
  | EmptyString => [""]
  | String c s' =>
      if Ascii.eqb c sep then "" :: strings_Split s' sep
      else match strings_Split s' sep with
           | [] => [String c ""]
           | w :: ws => String c w :: ws
           end
  end%string.

Lemma strings_Split_not_nil s sep : strings_Split s sep <> [].
Proof. destruct s; cbn; repeat case_match; congruence. Qed.

(** Splitting and joining with the same separator is the identity. *)
Lemma strings_Join_Split s sep :
  strings_Join (strings_Split s sep) (String sep "") = s.
Proof.
  induction s as [|c s IH]; [done|]. cbn [strings_Split].
  pose proof (strings_Split_not_nil s sep) as Hne.
  destruct (Ascii.eqb_spec c sep) as [->|Hc];
    destruct (strings_Split s sep) as [|w ws]; try done.
  - change (String sep (strings_Join (w :: ws) (String sep "")) = String sep s).
    by rewrite IH.
  - rewrite <- IH. by destruct ws.
Qed.

(** ** Package slices *)

(** [slices.Sort] on strings: ascending, by bytes. *)
Definition slices_Sort (x : list string) : list string := merge_sort String.le x.

Definition slices_Equal (a b : list string) : bool := bool_decide (a = b).
Definition slices_Contains (s : list string) (v : string) : bool := bool_decide (v ∈ s).

Lemma slices_Sort_Permutation x : slices_Sort x ≡ₚ x.
Proof. apply merge_sort_Permutation. Qed.

Lemma slices_Sort_Sorted x : StronglySorted String.le (slices_Sort x).
Proof. apply (StronglySorted_merge_sort _). Qed.

(** Two slices sort to the same slice exactly when they have the same
    elements with the same multiplicities. *)
Lemma slices_Sort_eq x y : slices_Sort x = slices_Sort y <-> x ≡ₚ y.
Proof.
  split; intros H.
  - by rewrite <- (slices_Sort_Permutation x), H, slices_Sort_Permutation.
  - apply (StronglySorted_unique String.le); auto using slices_Sort_Sorted.
    by rewrite !slices_Sort_Permutation.
Qed.

Lemma slices_Sort_idemp x : slices_Sort (slices_Sort x) = slices_Sort x.
Proof. apply slices_Sort_eq, slices_Sort_Permutation. Qed.

Lemma slices_Contains_spec s v : slices_Contains s v = true <-> v ∈ s.
Proof. apply bool_decide_eq_true. Qed.

#[export] Hint Resolve slices_Sort_Permutation slices_Sort_Sorted int64_wrap_range : kube.
#[export] Hint Rewrite slices_Sort_idemp : kube.
