(* ===== verification/Effects.v ===== *)
(** * Effectful Go code as finite trees of calls

    A handler of the operator interacts with the outside world (API server,
    remote exec, clock, event recorder) through calls whose answers it cannot
    predict. [prog E A] is the tree of such an execution: a value, a Go panic,
    or a call [e : E X] and the continuation for each answer in [X].

    [runs p t o]: in some environment the program performs the calls of the
    trace [t], with the answers recorded there, and ends with outcome [o].
    Nothing is assumed about the answers, so a theorem on all runs covers any
    behaviour of the API server and any interleaving with other clients.

    [exec h p w] runs a program against a handler [h] of the calls, a state
    transformer on some world [W]; every execution is a run ([exec_runs]).

    All loops of the operator are over finite lists, so the trees are finite
    and every program ends in every environment ([runs_total]). *)

From S2P Require Import Prelude.

Section prog.
Context {E : Type -> Type}.

Inductive prog (A : Type) : Type :=
| Ret (a : A)
| Panic (msg : string)
| Vis {X : Type} (e : E X) (k : X -> prog A).

Inductive outcome (A : Type) : Type :=
| Done (a : A)
| Panicked (msg : string).

(** One call together with its answer. *)
Inductive obs : Type :=
| Obs {X : Type} (e : E X) (r : X).

End prog.
Arguments prog E A : clear implicits.
Arguments obs E : clear implicits.
Arguments Ret {E A} a.
Arguments Panic {E A} msg.
Arguments Vis {E A X} e k.
Arguments Done {A} a.
Arguments Panicked {A} msg.

Definition trace (E : Type -> Type) := list (obs E).

Section operations.
Context {E : Type -> Type}.

Fixpoint bind {A B} (p : prog E A) (f : A -> prog E B) : prog E B :=
  match p with
  | Ret a => f a
  | Panic m => Panic m
  | Vis e k => Vis e (fun x => bind (k x) f)
  end.

Definition call {X} (e : E X) : prog E X := Vis e Ret.

Fixpoint runs {A} (p : prog E A) (t : trace E) (o : outcome A) : Prop :=
  match p with
  | Ret a => t = [] /\ o = Done a
  | Panic m => t = [] /\ o = Panicked m
  | Vis e k => exists r t', t = Obs e r :: t' /\ runs (k r) t' o
  end.

(** A handler answers calls from a state of the world. *)
Definition handler (W : Type) := forall X, E X -> W -> X * W.

Fixpoint exec {W A} (h : handler W) (p : prog E A) (w : W) : outcome A * W :=
  match p with
  | Ret a => (Done a, w)
  | Panic m => (Panicked m, w)
  | Vis e k => let '(r, w') := h _ e w in exec h (k r) w'
  end.

(** The calls an execution makes, with their answers. *)
Fixpoint exec_trace {W A} (h : handler W) (p : prog E A) (w : W) : trace E :=
  match p with
  | Ret _ | Panic _ => []
  | Vis e k => let '(r, w') := h _ e w in Obs e r :: exec_trace h (k r) w'
  end.

(** Every call the program can issue, whatever the answers, satisfies [P]. *)
Fixpoint only {A} (P : forall X, E X -> Prop) (p : prog E A) : Prop :=
  match p with
  | Ret _ | Panic _ => True
  | Vis e k => P _ e /\ forall r, only P (k r)
  end.

(** [for x in l { if err := f(x); err != nil { return err } }]: the first
    error stops the loop. *)
Fixpoint for_each {A Err} (l : list A) (f : A -> prog E (option Err)) : prog E (option Err) :=
  match l with
  | [] => Ret None
  | x :: l' => bind (f x) (fun e =>
      match e with
      | Some err => Ret (Some err)
      | None => for_each l' f
      end)
  end.

(** The same loop for a body that updates a variable [s] of its caller. *)
Fixpoint fold_each {A S Err} (l : list A) (f : A -> S -> prog E (S * option Err)) (s : S) :
    prog E (S * option Err) :=
  match l with
  | [] => Ret (s, None)
  | x :: l' => bind (f x s) (fun res =>
      match res with
      | (s', Some err) => Ret (s', Some err)
      | (s', None) => fold_each l' f s'
      end)
  end.

End operations.
Arguments handler E W : clear implicits.

Notation "x <- c1 ;; c2" := (bind c1 (fun x => c2))
  (at level 100, c1 at next level, right associativity) : kube_scope.
Notation "c1 ;;; c2" := (bind c1 (fun _ => c2))
  (at level 100, right associativity) : kube_scope.

(** ** Lemmas *)

Section lemmas.
Context {E : Type -> Type}.

Lemma runs_call {X} (e : E X) t o :
  runs (call e) t o <-> exists r, t = [Obs e r] /\ o = Done r.
Proof.
  cbn. split.
  - intros (r & ? & -> & -> & ->). eauto.
  - intros (r & -> & ->). eauto.
Qed.

Lemma runs_bind {A B} (p : prog E A) (f : A -> prog E B) t o :
  runs (bind p f) t o <->
  (exists a t1 t2, t = t1 ++ t2 /\ runs p t1 (Done a) /\ runs (f a) t2 o) \/
  (exists m, runs p t (Panicked m) /\ o = Panicked m).
Proof.
  revert t. induction p as [a|m|X e k IH]; intros t; cbn.
  - split.
    + intros H. left. by exists a, [], t.
    + intros [(a' & t1 & t2 & -> & [-> Ha] & H)|(m & [_ Ha] & _)]; [|done].
      by injection Ha as ->.
  - split.
    + intros [-> ->]. right. by exists m.
    + intros [(a' & t1 & t2 & _ & [_ Ha] & _)|(m' & [-> Ha] & ->)]; [done|].
      by injection Ha as ->.
  - split.
    + intros (r & t' & -> & H). apply IH in H as [(a & t1 & t2 & -> & H1 & H2)|(m & H1 & ->)].
      * left. exists a, (Obs e r :: t1), t2. repeat split; eauto.
      * right. exists m. split; eauto.
    + intros [(a & t1 & t2 & -> & (r & t' & -> & H1) & H2)|(m & (r & t' & -> & H1) & ->)].
      * exists r, (t' ++ t2). split; [done|]. apply IH. left. eauto 6.
      * exists r, t'. split; [done|]. apply IH. right. eauto.
Qed.

Lemma exec_runs {W A} (h : handler E W) (p : prog E A) w :
  runs p (exec_trace h p w) (exec h p w).1.
Proof.
  revert w. induction p as [a|m|X e k IH]; intros w; cbn; [done..|].
  destruct (h X e w) as [r w']. eauto.
Qed.

(** A program always has a run: it ends in every environment. *)
Lemma runs_total {W A} (h : handler E W) (w : W) (p : prog E A) :
  exists t o, runs p t o.
Proof. exists (exec_trace h p w), (exec h p w).1. apply exec_runs. Qed.

Lemma exec_bind {W A B} (h : handler E W) (p : prog E A) (f : A -> prog E B) w :
  exec h (bind p f) w =
  match exec h p w with
  | (Done a, w') => exec h (f a) w'
  | (Panicked m, w') => (Panicked m, w')
  end.
Proof.
  revert w. induction p as [a|m|X e k IH]; intros w; cbn; [done..|].
  destruct (h X e w) as [r w']. apply IH.
Qed.

Lemma only_bind {A B} P (p : prog E A) (f : A -> prog E B) :
  only P p -> (forall a, only P (f a)) -> only P (bind p f).
Proof.
  intros Hp Hf. induction p as [a|m|X e k IH]; cbn in *; auto.
  destruct Hp as [He Hk]. auto.
Qed.

Lemma only_call {X} (P : forall X, E X -> Prop) (e : E X) : P X e -> only P (call e).
Proof. cbn. auto. Qed.

Lemma only_weaken {A} (P Q : forall X, E X -> Prop) (p : prog E A) :
  (forall X e, P X e -> Q X e) -> only P p -> only Q p.
Proof.
  intros HPQ. induction p as [a|m|X e k IH]; cbn; auto.
  intros [He Hk]. auto.
Qed.

Lemma only_for_each {A Err} P (l : list A) (f : A -> prog E (option Err)) :
  (forall x, In x l -> only P (f x)) -> only P (for_each l f).
Proof.
  induction l as [|x l IH]; intros H; cbn; [done|].
  apply only_bind; [apply H; by left|]. intros [err|]; cbn; [done|].
  apply IH. intros y Hy. apply H. by right.
Qed.

Lemma only_fold_each {A S Err} P (l : list A) (f : A -> S -> prog E (S * option Err)) s :
  (forall x s, In x l -> only P (f x s)) -> only P (fold_each l f s).
Proof.
  revert s. induction l as [|x l IH]; intros s H; cbn; [done|].
  apply only_bind; [apply H; by left|]. intros [s' [err|]]; cbn; [done|].
  apply IH. intros y s'' Hy. apply H. by right.
Qed.

(** Every observation of a run comes from an issued call. *)
Definition obs_of (P : forall X, E X -> Prop) (o : obs E) : Prop :=
  match o with Obs e _ => P _ e end.

Lemma only_runs {A} P (p : prog E A) t o :
  only P p -> runs p t o -> Forall (obs_of P) t.
Proof.
  revert t. induction p as [a|m|X e k IH]; intros t; cbn.
  - intros _ [-> _]. constructor.
  - intros _ [-> _]. constructor.
  - intros [He Hk] (r & t' & -> & H). constructor; [done|]. eauto.
Qed.

(** Runs of the error-stopping loop: either every iteration succeeded, or the
    first failing iteration is the last one executed. *)
Inductive for_each_runs {A Err} (f : A -> prog E (option Err)) :
  list A -> trace E -> outcome (option Err) -> Prop :=
| fe_nil : for_each_runs f [] [] (Done None)
| fe_ok x l t1 t2 o :
    runs (f x) t1 (Done None) -> for_each_runs f l t2 o ->
    for_each_runs f (x :: l) (t1 ++ t2) o
| fe_err x l t err :
    runs (f x) t (Done (Some err)) -> for_each_runs f (x :: l) t (Done (Some err))
| fe_panic x l t m :
    runs (f x) t (Panicked m) -> for_each_runs f (x :: l) t (Panicked m).

Lemma runs_for_each {A Err} (f : A -> prog E (option Err)) l t o :
  runs (for_each l f) t o <-> for_each_runs f l t o.
Proof.
  revert t. induction l as [|x l IH]; intros t; cbn.
  - split; [intros [-> ->]; constructor|inversion 1; subst; done].
  - rewrite runs_bind. split.
    + intros [(e & t1 & t2 & -> & H1 & H2)|(m & H1 & ->)]; [|by constructor].
      destruct e as [err|]; cbn in H2.
      * destruct H2 as [-> ->]. rewrite app_nil_r. by constructor.
      * constructor; [done|]. by apply IH.
    + inversion 1; subst.
      * left. exists None, t1, t2. rewrite IH. done.
      * left. exists (Some err), t, []. rewrite app_nil_r. cbn. done.
      * right. eauto.
Qed.

(** What a loop body guarantees of the trace of a successful iteration holds
    of the trace of a successful loop. *)
Lemma runs_for_each_Forall {A Err} (P : obs E -> Prop) (f : A -> prog E (option Err)) l t :
  (forall x t, In x l -> runs (f x) t (Done None) -> Forall P t) ->
  runs (for_each l f) t (Done None) -> Forall P t.
Proof.
  intros Hf Hr. apply runs_for_each in Hr. revert Hf.
  remember (Done None) as o eqn:Ho. induction Hr; intros Hf; subst; try done.
  apply Forall_app. split; [apply (Hf x); [by left|done]|].
  apply IHHr; [done|]. intros y t Hy. apply Hf. by right.
Qed.

(** The same for the list of values a projection extracts from the trace. *)
Lemma runs_for_each_omap {A B Err} (g : obs E -> option B) (h : A -> list B)
    (f : A -> prog E (option Err)) l t :
  (forall x t, In x l -> runs (f x) t (Done None) -> omap g t = h x) ->
  runs (for_each l f) t (Done None) -> omap g t = flat_map h l.
Proof.
  intros Hf Hr. apply runs_for_each in Hr. revert Hf.
  remember (Done None) as o eqn:Ho. induction Hr; intros Hf; subst; try done.
  rewrite omap_app. cbn. f_equal; [apply Hf; [by left|done]|].
  apply IHHr; [done|]. intros y t Hy. apply Hf. by right.
Qed.

(** A fold that reaches its end without an error went through every
    iteration successfully. *)
Lemma runs_fold_each_ok {A S Err} (f : A -> S -> prog E (S * option Err)) l s t s' :
  runs (fold_each l f s) t (Done (s', None)) ->
  match l with
  | [] => t = [] /\ s' = s
  | x :: l' => exists s1 t1 t2, t = t1 ++ t2 /\ runs (f x s) t1 (Done (s1, None)) /\
      runs (fold_each l' f s1) t2 (Done (s', None))
  end.
Proof.
  destruct l as [|x l]; cbn.
  - intros [-> [= ->]]. done.
  - rewrite runs_bind. intros [([s1 [e|]] & t1 & t2 & -> & H1 & H2)|(m & _ & [=])].
    + by destruct H2 as [_ [=]].
    + eauto 7.
Qed.

Lemma runs_fold_each_Forall {A S Err} (P : obs E -> Prop)
    (f : A -> S -> prog E (S * option Err)) l s t s' :
  (forall x s t s', In x l -> runs (f x s) t (Done (s', None)) -> Forall P t) ->
  runs (fold_each l f s) t (Done (s', None)) -> Forall P t.
Proof.
  revert s t. induction l as [|x l IH]; intros s t Hf Hr; apply runs_fold_each_ok in Hr.
  - by destruct Hr as [-> _].
  - destruct Hr as (s1 & t1 & t2 & -> & H1 & H2). apply Forall_app.
    split; [apply (Hf x) in H1; [done|by left]|].
    apply (IH s1); [|done]. intros y s2 t3 s3 Hy. apply Hf. by right.
Qed.

(** An invariant of the variable a successful fold updates. *)
Lemma runs_fold_each_inv {A S Err} (I : S -> Prop)
    (f : A -> S -> prog E (S * option Err)) l s t s' :
  (forall x s t s', In x l -> I s -> runs (f x s) t (Done (s', None)) -> I s') ->
  I s -> runs (fold_each l f s) t (Done (s', None)) -> I s'.
Proof.
  revert s t. induction l as [|x l IH]; intros s t Hf Hs Hr; apply runs_fold_each_ok in Hr.
  - by destruct Hr as [_ ->].
  - destruct Hr as (s1 & t1 & t2 & -> & H1 & H2).
    apply (IH s1 t2); [|apply (Hf x s t1); [by left|done..]|done].
    intros y s2 t3 s3 Hy. apply Hf. by right.
Qed.

(** Weakest preconditions. Under the assumption [P] on the answers of the
    environment, a program only issues calls that satisfy [G], panics only if
    [D], and returns a value that satisfies [Q]. *)
Section wp.
Context (D : Prop) (P : forall X, E X -> X -> Prop) (G : forall X, E X -> Prop).

Fixpoint wp {A} (Q : A -> Prop) (p : prog E A) : Prop :=
  match p with
  | Ret a => Q a
  | Panic _ => D
  | Vis e k => G _ e /\ forall x, P _ e x -> wp Q (k x)
  end.

(** The answers of a trace satisfy the assumption. *)
Definition answers (o : obs E) : Prop :=
  match o with Obs e x => P _ e x end.

Lemma wp_runs {A} (Q : A -> Prop) p t o :
  wp Q p -> runs p t o -> Forall answers t ->
  match o with Done a => Q a | Panicked _ => D end.
Proof.
  revert t. induction p as [a|m|X e k IH]; intros t; cbn.
  - by intros Hq [_ ->].
  - by intros Hd [_ ->].
  - intros [_ Hp] (x & t' & -> & Hr) [Hx Ht]%Forall_cons. exact (IH x t' (Hp x Hx) Hr Ht).
Qed.

Lemma wp_bind {A B} (Q : B -> Prop) (p : prog E A) (f : A -> prog E B) :
  wp (fun a => wp Q (f a)) p -> wp Q (bind p f).
Proof. induction p as [a|m|X e k IH]; cbn; [auto..|]. intros [He Hp]. auto. Qed.

Lemma wp_weaken {A} (Q Q' : A -> Prop) (p : prog E A) :
  (forall a, Q a -> Q' a) -> wp Q p -> wp Q' p.
Proof. intros HQ. induction p as [a|m|X e k IH]; cbn; [auto..|]. intros [He Hp]. auto. Qed.

(** A sequence, with a postcondition of its first part. *)
Lemma wp_seq {A B} (R : A -> Prop) (Q : B -> Prop) (p : prog E A) (f : A -> prog E B) :
  wp R p -> (forall a, R a -> wp Q (f a)) -> wp Q (bind p f).
Proof. intros Hp Hf. apply wp_bind. by apply (wp_weaken R). Qed.

Lemma wp_for_each {A Err} (l : list A) (f : A -> prog E (option Err)) :
  (forall x, In x l -> wp (fun _ => True) (f x)) -> wp (fun _ => True) (for_each l f).
Proof.
  induction l as [|x l IH]; intros H; cbn; [done|].
  apply (wp_seq (fun _ => True)); [apply H; by left|]. intros [err|] _; cbn; [done|].
  apply IH. intros y Hy. apply H. by right.
Qed.

Lemma wp_fold_each {A S Err} (I : S -> Prop) (l : list A)
    (f : A -> S -> prog E (S * option Err)) s :
  (forall x s, In x l -> I s -> wp (fun r => I r.1) (f x s)) -> I s ->
  wp (fun r => I r.1) (fold_each l f s).
Proof.
  revert s. induction l as [|x l IH]; intros s H Hs; cbn; [done|].
  apply (wp_seq (fun r => I r.1)); [by apply H; [left|]|]. intros [s' [err|]] Hs'; cbn; [done|].
  apply IH; [|exact Hs']. intros y s'' Hy. apply H. by right.
Qed.

End wp.

(** A guarantee on the calls of all runs, for a program given by its runs. *)
Lemma runs_wp {A} (h : handler E unit) (P : forall X, E X -> X -> Prop)
    (G : forall X, E X -> Prop) (p : prog E A) :
  (forall t o, runs p t o -> Forall (obs_of G) t) -> wp True P G (fun _ => True) p.
Proof.
  induction p as [a|m|X e k IH]; cbn; intros H; [done..|]. split.
  - destruct (runs_total h tt (k (h X e tt).1)) as (t & o & Hr).
    assert (Hf : Forall (obs_of G) (Obs e (h X e tt).1 :: t)) by (apply (H _ o); eauto).
    by apply Forall_cons in Hf as [? _].
  - intros x _. apply IH. intros t o Hr.
    assert (Hf : Forall (obs_of G) (Obs e x :: t)) by (apply (H _ o); eauto).
    by apply Forall_cons in Hf as [_ ?].
Qed.

(** Executions against a handler that end without a panic, in a state of the
    world that satisfies a postcondition. *)
Section ends.
Context {W : Type} (h : handler E W).

Definition ends {A} (p : prog E A) (w : W) (Q : A -> W -> Prop) : Prop :=
  match exec h p w with (Done a, w') => Q a w' | (Panicked _, _) => False end.

Lemma ends_call {X A} (e : E X) (k : X -> prog E A) w Q :
  ends (k (h X e w).1) (h X e w).2 Q -> ends (Vis e k) w Q.
Proof. unfold ends. cbn. by destruct (h X e w). Qed.

Lemma ends_seq {A B} (p : prog E A) (f : A -> prog E B) w R Q :
  ends p w R -> (forall a w', R a w' -> ends (f a) w' Q) -> ends (bind p f) w Q.
Proof.
  unfold ends. rewrite exec_bind. destruct (exec h p w) as [[a|m] w']; [|done].
  intros Ha Hf. by apply Hf.
Qed.

Lemma ends_mono {A} (p : prog E A) w (Q Q' : A -> W -> Prop) :
  ends p w Q -> (forall a w', Q a w' -> Q' a w') -> ends p w Q'.
Proof. unfold ends. destruct (exec h p w) as [[a|m] w']; auto. Qed.

(** A loop whose body succeeds and keeps an invariant of the world. *)
Lemma ends_for_each {A Err} (J : W -> Prop) (l : list A) (f : A -> prog E (option Err)) w :
  (forall x w, In x l -> J w -> ends (f x) w (fun e w' => e = None /\ J w')) -> J w ->
  ends (for_each l f) w (fun e w' => e = None /\ J w').
Proof.
  revert w. induction l as [|x l IH]; intros w Hf Hw; [done|]. cbn [for_each].
  eapply ends_seq; [apply Hf; [by left|done]|]. intros e w' [-> Hw']. apply IH; [|done].
  intros y w'' Hy. apply Hf. by right.
Qed.

Lemma ends_fold_each {A S Err} (J : S -> W -> Prop) (l : list A)
    (f : A -> S -> prog E (S * option Err)) s w :
  (forall x s w, In x l -> J s w -> ends (f x s) w (fun r w' => r.2 = None /\ J r.1 w')) -> J s w ->
  ends (fold_each l f s) w (fun r w' => r.2 = None /\ J r.1 w').
Proof.
  revert s w. induction l as [|x l IH]; intros s w Hf Hw; [done|]. cbn [fold_each].
  eapply ends_seq; [apply Hf; [by left|done]|]. intros [s' e] w' [He Hw']. cbn in He. subst e.
  apply IH; [|exact Hw']. intros y s'' w'' Hy. apply Hf. by right.
Qed.

Lemma exec_trace_bind {A B} (p : prog E A) (f : A -> prog E B) w :
  exec_trace h (bind p f) w =
  exec_trace h p w ++
  match exec h p w with (Done a, w') => exec_trace h (f a) w' | (Panicked _, _) => [] end.
Proof.
  revert w. induction p as [a|m|X e k IH]; intros w; cbn; [done..|].
  destruct (h X e w) as [x w']. cbn. by rewrite IH.
Qed.

End ends.

End lemmas.

#[export] Hint Resolve only_bind only_call only_for_each only_fold_each : kube.

(** [inv_runs] takes apart the hypotheses of the form [runs p t o] along the
    structure of [p]. *)
Ltac inv_runs_step :=
  match goal with
  | H : runs (Ret _) _ _ |- _ => destruct H as [? ?]; subst
  | H : runs (Panic _) _ _ |- _ => destruct H as [? ?]; subst
  | H : runs (Vis _ _) _ _ |- _ =>
      let r := fresh "r" in let t := fresh "t" in
      destruct H as (r & t & -> & H); cbn [bind] in H
  | H : runs (call _) _ _ |- _ =>
      let r := fresh "r" in apply runs_call in H as (r & ? & ?); subst
  | H : runs (bind (call _) _) _ _ |- _ =>
      let r := fresh "r" in let t := fresh "t" in
      destruct H as (r & t & -> & H); cbn [bind] in H
  | H : runs (bind _ _) _ _ |- _ =>
      apply runs_bind in H;
      let a := fresh "a" in let t1 := fresh "t" in let t2 := fresh "t" in
      let m := fresh "m" in let H' := fresh "Hr" in
      destruct H as [(a & t1 & t2 & ? & H' & H)|(m & H & ?)]; subst
  | H : Done _ = Done _ |- _ => injection H as H; subst
  | H : Panicked _ = Panicked _ |- _ => injection H as H; subst
  | H : Done _ = Panicked _ |- _ => discriminate H
  | H : Panicked _ = Done _ |- _ => discriminate H
  end.
Ltac inv_runs := repeat inv_runs_step.
