(* ===== verification/KubeApi.v ===== *)
(** * Kubernetes library types and functions the operator calls

    The data types are the fields of the Kubernetes API objects that the
    operator's code reads or writes. Functions of the Kubernetes libraries are
    not part of the repository: they are fields of the class [KubeLib], and
    what the code relies on is stated in [KubeLaws], from their documentation. *)

From S2P Require Import Prelude GoLib.

(** ** metav1 *)

Record OwnerReference := mkOwnerReference {
  or_APIVersion : string;
  or_Kind : string;
  or_Name : string
}.

Record ObjectMeta := mkObjectMeta {
  om_Name : string;
  om_Namespace : string;
  om_Generation : Z;
  om_DeletionTimestamp : option Time;
  om_Finalizers : list string;
  om_OwnerReferences : list OwnerReference
}.

Definition emptyMeta : ObjectMeta := mkObjectMeta "" "" 0 None [] [].

Definition set_Finalizers (m : ObjectMeta) (f : list string) : ObjectMeta :=
  mkObjectMeta (om_Name m) (om_Namespace m) (om_Generation m) (om_DeletionTimestamp m)
    f (om_OwnerReferences m).

(** [metav1.ConditionStatus] is a string type. *)
Definition ConditionStatus := string.
Definition ConditionTrue : ConditionStatus := "True".
Definition ConditionFalse : ConditionStatus := "False".
Definition ConditionUnknownStatus : ConditionStatus := "Unknown".

Record Condition := mkCondition {
  c_Type : string;
  c_Status : ConditionStatus;
  c_ObservedGeneration : Z;
  c_LastTransitionTime : Time;
  c_Reason : string;
  c_Message : string
}.

#[export] Instance Condition_eq_dec : EqDecision Condition.
Proof. solve_decision. Defined.

(** [metav1.Condition{}]. *)
Definition zeroCondition : Condition := mkCondition "" "" 0 zeroTime "" "".

Record NamespacedName := mkNamespacedName { nn_Namespace : string; nn_Name : string }.

(** ** corev1 *)

Definition NodeInternalIP : string := "InternalIP".

Record NodeAddress := mkNodeAddress { na_Type : string; na_Address : string }.

Record Node := mkNode {
  node_meta : ObjectMeta;
  node_labels : gmap string string;
  node_Addresses : list NodeAddress
}.
Definition emptyNode : Node := mkNode emptyMeta ∅ [].

Definition node_set_Finalizers (n : Node) (f : list string) : Node :=
  mkNode (set_Finalizers (node_meta n) f) (node_labels n) (node_Addresses n).

Record Namespace := mkNamespace { ns_meta : ObjectMeta }.
Definition namespace_named (name : string) : Namespace :=
  mkNamespace (mkObjectMeta name "" 0 None [] []).

Record Secret := mkSecret { secret_meta : ObjectMeta; secret_Data : gmap string string }.
Record ConfigMap := mkConfigMap { cm_meta : ObjectMeta; cm_Data : gmap string string }.
Record Pod := mkPod { pod_meta : ObjectMeta }.

(** ** apiextensionsv1 and unstructured objects *)

Definition NamespaceScoped : string := "Namespaced".

Record CRDSpec := mkCRDSpec {
  crd_Group : string;
  crd_Plural : string;
  crd_Scope : string;
  crd_Versions : list string
}.

Record GroupVersionResource := mkGVR {
  gvr_Group : string; gvr_Version : string; gvr_Resource : string
}.

Record Unstructured := mkUnstructured {
  un_Name : string;
  un_Namespace : string;
  un_DeletionTimestamp : option Time
}.

(** ** Library functions *)

Class KubeLib := {
  (** k8s.io/apimachinery/pkg/api/resource *)
  Quantity : Type;
  Quantity_eq_dec :: EqDecision Quantity;
  Quantity_zero : Quantity;
  Quantity_IsZero : Quantity -> bool;
  MustParse : string -> Quantity;
  Quantity_String : Quantity -> string;
  (** errors of the client libraries, and k8s.io/apimachinery/pkg/api/errors *)
  LibError : Type;
  LibError_Error : LibError -> string;
  lib_IsNotFound : LibError -> bool;
  lib_IsAlreadyExists : LibError -> bool;
  (** controllerutil finalizer helpers, on the list of finalizers *)
  ContainsFinalizer : list string -> string -> bool;
  AddFinalizer : list string -> string -> list string;
  RemoveFinalizer : list string -> string -> list string;
  (** k8s.io/apimachinery/pkg/labels *)
  ConvertSelectorToLabelsMap : string -> res LibError (gmap string string);
  labels_Selector : Type;
  labels_Parse : string -> res LibError labels_Selector;
  (** the typed content of a generated object other than a CRD *)
  Payload : Type
}.

(** What the operator relies on, from the libraries' documentation. *)
Class KubeLaws `{KubeLib} : Prop := {
  IsZero_zero : Quantity_IsZero Quantity_zero = true;
  ContainsFinalizer_spec l f : ContainsFinalizer l f = true <-> f ∈ l;
  AddFinalizer_spec l f g : g ∈ AddFinalizer l f <-> g = f \/ g ∈ l;
  RemoveFinalizer_spec l f g : g ∈ RemoveFinalizer l f <-> g <> f /\ g ∈ l
}.

(** ** Go errors *)

(** An error is a library error, a new error, or a wrapped error ([%w]);
    formatting a cause with [%v] makes a new error. *)
Inductive error `{KubeLib} : Type :=
| ELib (e : LibError)
| ENew (msg : string)
| EWrap (msg : string) (cause : error).

Section errors.
Context `{KL : KubeLib}.

Definition Error (e : error) : string :=
  match e with
  | ELib l => LibError_Error l
  | ENew m => m
  | EWrap m _ => m
  end.

(** [fmt.Errorf("ctx: %v", err)] and [fmt.Errorf("ctx: %w", err)]. *)
Definition Errorf_v (ctx : string) (e : error) : error := ENew (ctx +:+ Error e).
Definition Errorf_w (ctx : string) (e : error) : error := EWrap (ctx +:+ Error e) e.

(** [errors.As] for a library error: follow the chain of wrapped errors. *)
Fixpoint errors_As (e : error) : option LibError :=
  match e with
  | ELib l => Some l
  | ENew _ => None
  | EWrap _ c => errors_As c
  end.

Definition IsNotFound (e : error) : bool :=
  match errors_As e with Some l => lib_IsNotFound l | None => false end.
Definition IsAlreadyExists (e : error) : bool :=
  match errors_As e with Some l => lib_IsAlreadyExists l | None => false end.

(** [%v] hides the cause from [IsNotFound]; [%w] keeps it visible. *)
Lemma IsNotFound_Errorf_v ctx e : IsNotFound (Errorf_v ctx e) = false.
Proof. done. Qed.
Lemma IsNotFound_Errorf_w ctx e : IsNotFound (Errorf_w ctx e) = IsNotFound e.
Proof. done. Qed.

End errors.

(** ** Objects the operator generates *)

(** The Go types [InitialiseNewObject] knows, and any other type. *)
Inductive objectType :=
| TDeployment | TCustomResourceDefinition | TSecret | TServiceAccount | TConfigMap
| TRoleBinding | TClusterRole | TRole | TClusterRoleBinding | TDaemonSet | TService
| TValidatingWebhookConfiguration
| TOther (goType : string).

#[export] Instance objectType_eq_dec : EqDecision objectType.
Proof. solve_decision. Defined.

(** A [client.Object]; a CustomResourceDefinition carries its spec, which the
    deletion path reads. *)
Record Object `{KubeLib} := mkObject {
  obj_type : objectType;
  obj_meta : ObjectMeta;
  obj_body : CRDSpec + Payload
}.
Arguments mkObject {_}.

#[export] Hint Rewrite @IsNotFound_Errorf_v @IsNotFound_Errorf_w : kube.
