(* ===== verification/ConfigTypes.v ===== *)
(** * api/v1: the Configuration custom resource

    The structs of [api/v1/configuration_types.go] as records (a [*bool] is an
    [option bool], a Go slice a list), the constants of the package, and the
    operations on status conditions with their specification. [DeepCopy]
    (generated code) is the identity on these immutable values. *)

From S2P Require Import Prelude GoLib KubeApi.

(** ** Spec *)

Record KubeOVNImageSpec := mkKubeOVNImageSpec {
  koi_Repository : string;
  koi_Tag : string;
  koi_DpdkRepository : string;
  koi_VpcRepository : string
}.

Record NATGatewayImageSpec := mkNATGatewayImageSpec {
  nat_Repository : string;
  nat_Tag : string
}.

Record ImageDetails := mkImageDetails {
  img_KubeOVNImage : KubeOVNImageSpec;
  img_NATGatewayImage : NATGatewayImageSpec
}.

Record RegistrySpec := mkRegistrySpec {
  reg_Address : string;
  reg_ImagePullSecrets : list string
}.

Record GlobalSpec := mkGlobalSpec {
  gl_Registry : RegistrySpec;
  gl_Images : ImageDetails
}.

Record VlanSpec := mkVlanSpec {
  vlan_ProviderName : string;
  vlan_VlanInterface : string;
  vlan_VlanName : string;
  vlan_VlanID : Z
}.

Record NetworkingSpec := mkNetworkingSpec {
  net_NetStack : string;
  net_EnableSSL : option bool;
  net_NetworkType : string;
  net_TunnelType : string;
  net_Interface : string;
  net_DpdkTunnelInterface : string;
  net_ExcludeIPS : string;
  net_PodNicType : string;
  net_Vlan : VlanSpec;
  net_ExchangeLinkName : option bool;
  net_EnableEIPSNAT : option bool;
  net_DefaultSubnet : string;
  net_DefaultVPC : string;
  net_NodeSubnet : string;
  net_EnableECMP : option bool;
  net_EnableMetrics : option bool;
  net_NodeLocalDNSIPS : string;
  net_ProbeInterval : Z;
  net_OvnNorthdProbeInterval : Z;
  net_OvnLeaderProbeInterval : Z;
  net_OvnRemoteProbeInterval : Z;
  net_OvnRemoteOpenflowInterval : Z;
  net_OvnNorthdNThreads : Z;
  net_EnableCompact : option bool;
  net_SkipConnTrackDstCIDRs : string;
  net_ExternalGatewayConfigNS : string
}.

Record U2OFeatures := mkU2OFeatures {
  u2o_OverlayOnlyRouting : bool
}.

Record ComponentSpec := mkComponentSpec {
  comp_EnableLB : option bool;
  comp_EnableNP : option bool;
  comp_EnableExternalVPC : option bool;
  comp_HardwareOffload : option bool;
  comp_EnableLBSVC : option bool;
  comp_EnableKeepVMIP : option bool;
  comp_LsDnatModDlDst : option bool;
  comp_LsCtSkipOstLportIPS : option bool;
  comp_CheckGateway : option bool;
  comp_LogicalGateway : option bool;
  comp_EnableBindLocalIP : option bool;
  comp_SecureServing : option bool;
  comp_U2OFeatures : U2OFeatures;
  comp_U2OInterconnection : option bool;
  comp_EnableTProxy : option bool;
  comp_EnableIC : option bool;
  comp_EnableNATGateway : option bool;
  comp_EnableOVNIPSec : option bool;
  comp_EnableANP : option bool;
  comp_SetVLANTxOff : option bool;
  comp_OVSDBConTimeout : Z;
  comp_OVSDBInactivityTimeout : Z;
  comp_EnableLiveMigrationOptimize : option bool;
  comp_NPEnforcement : string;
  comp_EnableDNSNameResolver : option bool;
  comp_EnableOVNLBPreferLocal : option bool
}.

Record NetworkStackSpec := mkNetworkStackSpec {
  stack_PodCIDR : string;
  stack_PodGateway : string;
  stack_ServiceCIDR : string;
  stack_JoinCIDR : string;
  stack_PingerExternalAddress : string;
  stack_PingerExternalDomain : string
}.

Record PerformanceSpec := mkPerformanceSpec {
  perf_GCInterval : Z;
  perf_InspectInterval : Z;
  perf_OVSVSCtlConcurrency : Z
}.

Record DebugSpec := mkDebugSpec {
  dbg_EnableMirror : option bool;
  dbg_MirrorInterface : string
}.

Record CNIConfSpec := mkCNIConfSpec {
  cni_CNIConfigPriority : string;
  cni_CNIConfigDir : string;
  cni_MountCNIConfDir : string;
  cni_CNIBinDir : string;
  cni_CNIConfFile : string;
  cni_LocalBinDir : string;
  cni_MountLocalBinDir : option bool;
  cni_NonPrimaryCNI : option bool
}.

Record KubeletConfigSpec := mkKubeletConfigSpec {
  kubelet_KubeletDir : string
}.

Record LogConfigSpec := mkLogConfigSpec {
  logc_LogDir : string
}.

Record CPUMemSpec `{KubeLib} := mkCPUMemSpec {
  cm_CPU : Quantity;
  cm_Memory : Quantity;
  cm_EphemeralStorage : Quantity
}.

Record ResourceSpec `{KubeLib} := mkResourceSpec {
  rs_Requests : CPUMemSpec;
  rs_Limits : CPUMemSpec
}.

Record ConfigurationSpec `{KubeLib} := mkConfigurationSpec {
  spec_Global : GlobalSpec;
  spec_ImagePullPolicy : string;
  spec_MasterNodesLabel : string;
  spec_Networking : NetworkingSpec;
  spec_Component : ComponentSpec;
  spec_IPv4 : NetworkStackSpec;
  spec_IPv6 : NetworkStackSpec;
  spec_DualStack : NetworkStackSpec;
  spec_Performance : PerformanceSpec;
  spec_Debug : DebugSpec;
  spec_CNIConf : CNIConfSpec;
  spec_KubeletConfig : KubeletConfigSpec;
  spec_LogConfig : LogConfigSpec;
  spec_OpenVSwitchDir : string;
  spec_OVNIPSecKeysDir : string;
  spec_OVNDir : string;
  spec_DisableModulesManagement : option bool;
  spec_HybridDPDK : option bool;
  spec_HugepageSizeType : string;
  spec_HugePages : Quantity;
  spec_DPDKImageTag : string;
  spec_DPDKCPU : Quantity;
  spec_DPDKMemory : Quantity;
  spec_OVNCentral : ResourceSpec;
  spec_OVSOVN : ResourceSpec;
  spec_KubeOVNController : ResourceSpec;
  spec_KubeOVNCNI : ResourceSpec;
  spec_KubeOVNPinger : ResourceSpec;
  spec_KubeOVNMonitor : ResourceSpec
}.

(** ** Status and the object *)

Record GroupVersionKind := mkGroupVersionKind {
  gvk_Group : string; gvk_Version : string; gvk_Kind : string
}.

Record ObjectReference := mkObjectReference {
  oref_GVK : GroupVersionKind; oref_Name : string
}.

Record ConfigurationStatus := mkConfigurationStatus {
  st_MatchingNodeAddresses : list string;
  st_Conditions : list Condition;
  st_Status : string;
  st_ManagedObjects : list ObjectReference
}.

#[export] Instance GroupVersionKind_eq_dec : EqDecision GroupVersionKind.
Proof. solve_decision. Defined.
#[export] Instance ObjectReference_eq_dec : EqDecision ObjectReference.
Proof. solve_decision. Defined.
#[export] Instance ConfigurationStatus_eq_dec : EqDecision ConfigurationStatus.
Proof. solve_decision. Defined.

Record Configuration `{KubeLib} := mkConfiguration {
  cfg_meta : ObjectMeta;
  cfg_Spec : ConfigurationSpec;
  cfg_Status : ConfigurationStatus
}.

Arguments mkCPUMemSpec {_}.
Arguments mkResourceSpec {_}.
Arguments mkConfigurationSpec {_}.
Arguments mkConfiguration {_}.

(** ** Constants *)

Definition ConfigurationStatusDeploying : string := "Deploying".
Definition ConfigurationStatusDeployed : string := "Deployed".
Definition DefaultConfigurationName : string := "kubeovn".
Definition WaitingForMatchignNodesCondition : string := "waitingForMatchignNodes".
Definition OVNNBLeaderFound : string := "ovnNorthDBLeaderFound".
Definition OVNSBLeaderFound : string := "ovnSouthDBLeaderFound".
Definition OVNNBDBHealth : string := "ovnNBDBHealth".
Definition OVNSBDBHealth : string := "ovnSBDBHealth".
Definition KubeOVNFakeNamespace : string := "kubeovn-owner-namespace".
Definition KubeOVNConfigurationFinalizer : string := "finalizer.kubeovn.io/configuration".
Definition KubeOVNNodeFinalizer : string := "finalizer.kubeovn.io/node".
Definition SBLeaderLabel : string := "ovn-sb-leader=true".
Definition NBLeaderLabel : string := "ovn-nb-leader=true".
Definition OVNCentralContainerName : string := "ovn-central".
Definition NBCheckScript : string :=
  "ovs-appctl -t /var/run/ovn/ovnnb_db.ctl cluster/status OVN_Northbound".
Definition SBCheckScript : string :=
  "ovs-appctl -t /var/run/ovn/ovnsb_db.ctl cluster/status OVN_Southbound".
Definition NodesFoundReason : string := "NodesFound".
Definition NodesNotFoundReason : string := "NodesNotFound".
Definition ReasonConditionUnknown : string := "ConditionUnknown".
Definition LeaderFound : string := "LeaderFound".
Definition LeaderNotFound : string := "LeaderNotFound".
Definition DBHealth : string := "DBHealth".
Definition KubeOVNOperatorWebhookCertSecret : string := "webhook-certs".

Definition GroupVersion_Group : string := "kubeovn.io".
Definition GroupVersion_Version : string := "v1".
Definition APIVersion : string := GroupVersion_Group +:+ "/" +:+ GroupVersion_Version.
Definition Kind : string := "Configuration".

(** ** Field updates *)

Section updates.
Context `{KL : KubeLib}.

Definition with_Status (c : Configuration) (s : ConfigurationStatus) : Configuration :=
  mkConfiguration (cfg_meta c) (cfg_Spec c) s.
Definition with_Finalizers (c : Configuration) (f : list string) : Configuration :=
  mkConfiguration (set_Finalizers (cfg_meta c) f) (cfg_Spec c) (cfg_Status c).
Definition with_MatchingNodeAddresses (c : Configuration) (l : list string) : Configuration :=
  let s := cfg_Status c in
  with_Status c (mkConfigurationStatus l (st_Conditions s) (st_Status s) (st_ManagedObjects s)).
Definition with_Conditions (c : Configuration) (l : list Condition) : Configuration :=
  let s := cfg_Status c in
  with_Status c (mkConfigurationStatus (st_MatchingNodeAddresses s) l (st_Status s)
    (st_ManagedObjects s)).
Definition with_StatusStatus (c : Configuration) (v : string) : Configuration :=
  let s := cfg_Status c in
  with_Status c (mkConfigurationStatus (st_MatchingNodeAddresses s) (st_Conditions s) v
    (st_ManagedObjects s)).

End updates.

(** ** Conditions *)

Section conditions.
Context `{KL : KubeLib}.

Definition has_type (conditionType : string) (v : Condition) : bool :=
  bool_decide (c_Type v = conditionType).

(** [SetCondition]: update the first condition of that type in place, or
    append one; [now] is the value of [metav1.Now()]. *)
Definition SetCondition (now : Time) (c : Configuration) (conditionType : string)
    (conditionStatus : ConditionStatus) (message reason : string) : Configuration :=
  with_Conditions c
    (update_first_or_append (has_type conditionType)
      (fun v => mkCondition (c_Type v) conditionStatus (om_Generation (cfg_meta c)) now
                  reason message)
      (mkCondition conditionType conditionStatus (om_Generation (cfg_meta c)) now
         reason message)
      (st_Conditions (cfg_Status c))).

Definition LookupCondition (c : Configuration) (conditionType : string) : Condition :=
  default zeroCondition (find_first (has_type conditionType) (st_Conditions (cfg_Status c))).

Definition ConditionExists (c : Configuration) (conditionType : string) : bool :=
  match find_first (has_type conditionType) (st_Conditions (cfg_Status c)) with
  | Some _ => true
  | None => false
  end.

Definition IsConditionTrue (c : Configuration) (conditionType : string) : bool :=
  bool_decide (c_Status (LookupCondition c conditionType) = ConditionTrue).
Definition IsConditionFalse (c : Configuration) (conditionType : string) : bool :=
  bool_decide (c_Status (LookupCondition c conditionType) = ConditionFalse).
Definition IsConditionUnknown (c : Configuration) (conditionType : string) : bool :=
  bool_decide (c_Status (LookupCondition c conditionType) = ConditionUnknownStatus).

(** The types of the conditions, in order. *)
Definition condition_types (c : Configuration) : list string :=
  map c_Type (st_Conditions (cfg_Status c)).

(** A condition list is well formed when it holds one condition per type,
    as [+listType=map, +listMapKey=type] requires of condition lists. *)
Definition conditions_wf (c : Configuration) : Prop := NoDup (condition_types c).

Lemma has_type_spec t v : has_type t v = true <-> c_Type v = t.
Proof. apply bool_decide_eq_true. Qed.

Lemma ConditionExists_In c t :
  ConditionExists c t = true <-> t ∈ condition_types c.
Proof.
  unfold ConditionExists, condition_types. destruct (find_first _ _) as [v|] eqn:Hf.
  - apply find_first_Some in Hf as [Hin Ht]. apply has_type_spec in Ht as <-.
    split; [intros _|done]. apply list_elem_of_fmap_2, list_elem_of_In, Hin.
  - split; [done|]. intros (v & -> & Hv)%list_elem_of_fmap.
    rewrite find_first_None in Hf. apply list_elem_of_In, Hf in Hv.
    by rewrite (proj2 (has_type_spec _ _)) in Hv.
Qed.

(** The condition [SetCondition] leaves under the type it sets. *)
Lemma LookupCondition_SetCondition now c t s m r :
  LookupCondition (SetCondition now c t s m r) t =
  mkCondition t s (om_Generation (cfg_meta c)) now r m.
Proof.
  unfold LookupCondition, SetCondition. cbn.
  rewrite find_first_update; cbn.
  - destruct (find_first _ _) as [v|] eqn:Hf; cbn; [|done].
    apply find_first_Some in Hf as [_ Ht]. apply has_type_spec in Ht as ->. done.
  - intros x Hx. apply has_type_spec. by apply has_type_spec in Hx.
  - by apply has_type_spec.
Qed.

Lemma LookupCondition_SetCondition_ne now c t t' s m r :
  t <> t' -> LookupCondition (SetCondition now c t s m r) t' = LookupCondition c t'.
Proof.
  intros Hne. unfold LookupCondition, SetCondition. cbn.
  rewrite find_first_update_ne; [done|..].
  - intros x Hx%has_type_spec. unfold has_type; cbn.
    by rewrite !bool_decide_eq_false_2 by congruence.
  - unfold has_type; cbn. by rewrite bool_decide_eq_false_2 by congruence.
Qed.

Lemma condition_types_SetCondition now c t s m r :
  condition_types (SetCondition now c t s m r) =
  condition_types c ++ (if ConditionExists c t then [] else [t]).
Proof.
  unfold condition_types, SetCondition, ConditionExists. cbn.
  rewrite update_first_map by done. by destruct (find_first _ _).
Qed.

Lemma conditions_wf_SetCondition now c t s m r :
  conditions_wf c -> conditions_wf (SetCondition now c t s m r).
Proof.
  unfold conditions_wf. intros Hwf. rewrite condition_types_SetCondition.
  destruct (ConditionExists c t) eqn:Hex; [by rewrite app_nil_r|].
  apply NoDup_app. split_and!; [done| |apply NoDup_singleton].
  intros t' Ht'. rewrite list_elem_of_singleton. intros ->.
  apply ConditionExists_In in Ht'. congruence.
Qed.

Lemma ConditionExists_SetCondition now c t t' s m r :
  ConditionExists (SetCondition now c t s m r) t' =
  ConditionExists c t' || bool_decide (t' = t).
Proof.
  apply eq_bool_prop_intro. rewrite orb_True, !Is_true_true, bool_decide_eq_true.
  rewrite !ConditionExists_In, condition_types_SetCondition, elem_of_app.
  destruct (ConditionExists c t) eqn:Hex.
  - rewrite ConditionExists_In in Hex. set_solver.
  - set_solver.
Qed.

(** Only the conditions change. *)
Lemma SetCondition_frame now c t s m r :
  let c' := SetCondition now c t s m r in
  cfg_meta c' = cfg_meta c /\ cfg_Spec c' = cfg_Spec c /\
  st_MatchingNodeAddresses (cfg_Status c') = st_MatchingNodeAddresses (cfg_Status c) /\
  st_Status (cfg_Status c') = st_Status (cfg_Status c) /\
  st_ManagedObjects (cfg_Status c') = st_ManagedObjects (cfg_Status c).
Proof. done. Qed.

Lemma length_SetCondition now c t s m r :
  length (st_Conditions (cfg_Status (SetCondition now c t s m r))) =
  if ConditionExists c t then length (st_Conditions (cfg_Status c))
  else S (length (st_Conditions (cfg_Status c))).
Proof.
  unfold ConditionExists. cbn. rewrite update_first_length.
  by destruct (find_first _ _).
Qed.

End conditions.

#[export] Hint Resolve conditions_wf_SetCondition : kube.
#[export] Hint Rewrite @LookupCondition_SetCondition @ConditionExists_SetCondition : kube.
