(* ===== verification/Calls.v ===== *)
(** * The calls of the operator to the outside world

    One constructor per external call the handlers make: the controller-runtime
    client (typed by the object it reads or writes), the dynamic client of the
    deletion path, the remote executor, the event recorder and the clock. The
    answer type is what the Go call returns. [MergeFrom] patches carry the
    original and the modified object; [client.Apply] patches carry the applied
    object and the field owner. *)

From S2P Require Import Prelude GoLib Effects KubeApi ConfigTypes.

(** [ctrl.Result]: only [RequeueAfter] is ever set. *)
Record Result := mkResult { RequeueAfter : Duration }.
Definition emptyResult : Result := mkResult 0%Z.

(** Selectors of [List] on nodes: [client.MatchingLabels(set)], or none. *)
Inductive nodeSelector :=
| MatchingLabels (set : gmap string string)
| Everything.

(** [dynClient.Resource(gvr)], or [dynClient.Resource(gvr).Namespace(ns)]. *)
Record resourceInterface := mkResourceInterface {
  ri_gvr : GroupVersionResource;
  ri_namespace : option string
}.

Inductive callE `{KubeLib} : Type -> Type :=
(** client.Client *)
| GetConfiguration (key : NamespacedName) : callE (res error Configuration)
| CreateConfiguration (c : Configuration) : callE (option error)
| PatchConfiguration (base new : Configuration) : callE (option error)
| PatchConfigurationStatus (base new : Configuration) : callE (option error)
| GetNamespace (name : string) : callE (res error Namespace)
| CreateNamespace (ns : Namespace) : callE (option error)
| DeleteNamespace (ns : Namespace) : callE (option error)
| GetSecret (key : NamespacedName) : callE (res error Secret)
| GetConfigMap (key : NamespacedName) : callE (res error ConfigMap)
| GetNode (key : NamespacedName) : callE (res error Node)
| ListNodes (sel : nodeSelector) : callE (res error (list Node))
| PatchNode (base new : Node) : callE (option error)
| ListPods (sel : labels_Selector) (namespace : string) : callE (res error (list Pod))
| ApplyObject (obj : Object) (fieldOwner : string) : callE (option error)
(** dynamic.Interface *)
| DynNewForConfig : callE (option error)
| DynList (ri : resourceInterface) : callE (res error (list Unstructured))
| DynDelete (ri : resourceInterface) (name : string) : callE (option error)
(** kubectl exec: the error of the run, standard output and standard error *)
| NewClientset : callE (option error)
| ExecPod (namespace pod container : string) (command : list string) :
    callE (option error * string * string)
(** record.EventRecorder and metav1.Now *)
| RecordEvent (c : Configuration) (eventtype reason message : string) : callE unit
| Now : callE Time.

(** Computations of the operator. *)
Abbreviation op := (prog callE).

Section helpers.
Context `{KL : KubeLib}.
Local Open Scope kube_scope.

(** [config.SetCondition(...)] as the handlers call it: it reads the clock. *)
Definition setCondition (c : Configuration) (conditionType : string)
    (conditionStatus : ConditionStatus) (message reason : string) : op Configuration :=
  now <- call Now ;;
  Ret (SetCondition now c conditionType conditionStatus message reason).

(** Calls that change the state of the cluster. *)
Definition is_write {X} (e : callE X) : bool :=
  match e with
  | CreateConfiguration _ | PatchConfiguration _ _ | PatchConfigurationStatus _ _
  | CreateNamespace _ | DeleteNamespace _ | PatchNode _ _ | ApplyObject _ _
  | DynDelete _ _ | ExecPod _ _ _ _ => true
  | _ => false
  end.

Definition is_PatchNode {X} (e : callE X) : bool :=
  match e with PatchNode _ _ => true | _ => false end.

Definition is_ExecPod {X} (e : callE X) : bool :=
  match e with ExecPod _ _ _ _ => true | _ => false end.

Definition is_ApplyObject {X} (e : callE X) : bool :=
  match e with ApplyObject _ _ => true | _ => false end.

Definition is_DeleteNamespace {X} (e : callE X) : bool :=
  match e with DeleteNamespace _ => true | _ => false end.

(** The calls of a trace that satisfy a test. *)
Definition call_of (f : forall X, callE X -> bool) (o : obs callE) : bool :=
  match o with Obs e _ => f _ e end.

Definition none_of (f : forall X, callE X -> bool) (t : trace callE) : Prop :=
  Forall (fun o => call_of f o = false) t.
Definition some_of (f : forall X, callE X -> bool) (t : trace callE) : Prop :=
  Exists (fun o => call_of f o = true) t.

(** A write that the server answered with an error. *)
Definition failed_write (o : obs callE) : bool :=
  match o with
  | Obs e r =>
      match e in callE X return X -> bool with
      | CreateConfiguration _ | PatchConfiguration _ _ | PatchConfigurationStatus _ _
      | CreateNamespace _ | DeleteNamespace _ | PatchNode _ _ | ApplyObject _ _
      | DynDelete _ _ => fun r => match r with Some _ => true | None => false end
      | ExecPod _ _ _ _ => fun r => match r.1.1 with Some _ => true | None => false end
      | _ => fun _ => false
      end r
  end.

(** The objects applied by a trace, and the resources listed by it. *)
Definition applied_obj (o : obs callE) : option Object :=
  match o with
  | Obs (ApplyObject obj _) _ => Some obj
  | _ => None
  end.
Definition applied (t : trace callE) : list Object := omap applied_obj t.

Definition listed_resource (o : obs callE) : option resourceInterface :=
  match o with
  | Obs (DynList ri) _ => Some ri
  | _ => None
  end.
Definition listed (t : trace callE) : list resourceInterface := omap listed_resource t.

Definition patched_node (o : obs callE) : option (Node * Node) :=
  match o with
  | Obs (PatchNode base new) _ => Some (base, new)
  | _ => None
  end.
Definition patched_nodes (t : trace callE) : list (Node * Node) := omap patched_node t.

Lemma none_of_nil f : none_of f [].
Proof. constructor. Qed.

Lemma none_of_cons f {X} (e : callE X) r t :
  none_of f (Obs e r :: t) <-> f X e = false /\ none_of f t.
Proof. unfold none_of. by rewrite Forall_cons_iff. Qed.

Lemma none_of_app f t1 t2 : none_of f (t1 ++ t2) <-> none_of f t1 /\ none_of f t2.
Proof. apply Forall_app. Qed.

Lemma none_of_some_of f t : none_of f t -> some_of f t -> False.
Proof.
  intros Hn Hs. induction Hs; inversion Hn; subst; [congruence|auto].
Qed.

Lemma some_of_existsb f t : existsb (call_of f) t = true -> some_of f t.
Proof.
  intros (o & Hin & Ho)%existsb_exists. apply Exists_exists. exists o.
  by rewrite list_elem_of_In.
Qed.

(** A program that can only issue calls outside a class never shows one. *)
Lemma only_none_of {A} (f : forall X, callE X -> bool) (p : op A) t o :
  only (fun X e => f X e = false) p -> runs p t o -> none_of f t.
Proof. intros Hp Hr. eapply Forall_impl; [by eapply only_runs|]. by intros []. Qed.

(** A run that makes no write, or whose writes all succeeded. *)
Definition writes_ok (t : trace callE) : Prop := Forall (fun o => failed_write o = false) t.

Lemma reads_writes_ok {A} (p : op A) t o :
  only (fun X e => is_write e = false) p -> runs p t o -> writes_ok t.
Proof.
  intros Hp Hr. eapply Forall_impl; [by eapply only_runs|].
  intros [X e x] He. by destruct e.
Qed.

(** The status patches of a trace. *)
Definition is_status_patch {X} (e : callE X) : bool :=
  match e with PatchConfigurationStatus _ _ => true | _ => false end.
Definition status_patch (o : obs callE) : option (Configuration * Configuration) :=
  match o with Obs (PatchConfigurationStatus base new) _ => Some (base, new) | _ => None end.

Lemma status_patch_inj base new e base' new' e' :
  Obs (PatchConfigurationStatus base new) e = Obs (PatchConfigurationStatus base' new') e' ->
  base = base' /\ new = new' /\ e = e'.
Proof.
  intros H. split_and!; [by apply (f_equal status_patch) in H as [= -> _]|
    by apply (f_equal status_patch) in H as [= _ ->]|].
  apply (f_equal (fun ob : obs callE => match ob with
    | Obs c x => match c in callE X return X -> option error with
      | PatchConfigurationStatus _ _ => fun x => x | _ => fun _ => None end x end)) in H.
  exact H.
Qed.

Lemma no_status_patch {A} (p : op A) t o base new e :
  only (fun X e => is_status_patch e = false) p -> runs p t o ->
  ~ In (Obs (PatchConfigurationStatus base new) e) t.
Proof.
  intros Hp Hr Hin. eapply only_runs in Hr; [|exact Hp].
  rewrite Forall_forall in Hr. apply list_elem_of_In, Hr in Hin. done.
Qed.

Lemma only_setCondition (P : forall X, callE X -> Prop) c ty s m rs :
  P _ Now -> only P (setCondition c ty s m rs).
Proof. cbn. auto. Qed.

Lemma runs_setCondition c ty s m rs t o :
  runs (setCondition c ty s m rs) t o <->
  exists now, t = [Obs Now now] /\ o = Done (SetCondition now c ty s m rs).
Proof.
  cbn. split.
  - intros (now & t' & -> & -> & ->). eauto.
  - intros (now & -> & ->). eauto.
Qed.

End helpers.

#[export] Hint Resolve none_of_nil only_setCondition : kube.

(** [solve_only] shows that a program issues only calls of a class: it walks
    down the structure of the program. *)
Ltac solve_only :=
  repeat match goal with
    | |- only _ (Ret _) => exact I
    | |- only _ (Panic _) => exact I
    | |- only _ (call _) => apply only_call; done
    | |- only _ (setCondition _ _ _ _ _) => apply only_setCondition; done
    | |- only _ (bind _ _) => apply only_bind; [|intros ?]
    | |- only _ (for_each _ _) => apply only_for_each; intros ? _
    | |- only _ (fold_each _ _ _) => apply only_fold_each; intros ? ? ?
    | |- only _ (match ?x with _ => _ end) => destruct x
    end.
