(* ===== verification/Webhook.v ===== *)
(** * internal/webhook/v1: defaulting of Configuration objects

    [Default] fills the zero resource quantities of the six components with
    the operator's defaults. The theorems say that a set value is never
    overwritten, that every quantity with a non-zero default is non-zero
    afterwards, that defaulting is idempotent, and that nothing else of the
    object changes. *)

From S2P Require Import Prelude GoLib KubeApi ConfigTypes.

Section defaults.
Context `{KL : KubeLib}.

(** ** The default resource specs *)

Definition zeroQuantity : Quantity := Quantity_zero.

Definition defaultSpec (reqCPU reqMem limCPU limMem limEph : string) : ResourceSpec :=
  mkResourceSpec
    (mkCPUMemSpec (MustParse reqCPU) (MustParse reqMem) zeroQuantity)
    (mkCPUMemSpec (MustParse limCPU) (MustParse limMem) (MustParse limEph)).

Definition ovnCentralDefaultResourceSpec : ResourceSpec :=
  defaultSpec "300m" "200Mi" "3" "4Gi" "1Gi".
Definition ovsOVNDefaultResourceSpec : ResourceSpec :=
  defaultSpec "200m" "200Mi" "2" "1000Mi" "1Gi".
Definition kubeOVNControllerDefaultResourceSpec : ResourceSpec :=
  defaultSpec "200m" "200Mi" "1000m" "1Gi" "1Gi".
Definition kubeOVNCNIDefaultResourceSpec : ResourceSpec :=
  defaultSpec "100m" "100Mi" "1000m" "1Gi" "1Gi".
Definition kubeOVNPingerDefaultResourceSpec : ResourceSpec :=
  defaultSpec "100m" "100Mi" "200m" "400Mi" "1Gi".
Definition kubeOVNMonitorDefaultResourceSpec : ResourceSpec :=
  defaultSpec "200m" "200Mi" "200m" "200Mi" "1Gi".

(** ** applyDefaults *)

(** [if q.IsZero() { q = d }]. *)
Definition orDefault (q d : Quantity) : Quantity :=
  if Quantity_IsZero q then d else q.

Definition applyDefaults (resource defaultValues : ResourceSpec) : ResourceSpec :=
  let req := rs_Requests resource in
  let lim := rs_Limits resource in
  let dreq := rs_Requests defaultValues in
  let dlim := rs_Limits defaultValues in
  mkResourceSpec
    (mkCPUMemSpec (orDefault (cm_CPU req) (cm_CPU dreq))
       (orDefault (cm_Memory req) (cm_Memory dreq))
       (orDefault (cm_EphemeralStorage req) (cm_EphemeralStorage dreq)))
    (mkCPUMemSpec (orDefault (cm_CPU lim) (cm_CPU dlim))
       (orDefault (cm_Memory lim) (cm_Memory dlim))
       (orDefault (cm_EphemeralStorage lim) (cm_EphemeralStorage dlim))).

(** The spec with its six resource specs replaced. *)
Definition with_resources (s : ConfigurationSpec)
    (central ovs ctrl cni pinger monitor : ResourceSpec) : ConfigurationSpec :=
  mkConfigurationSpec
    (spec_Global s) (spec_ImagePullPolicy s) (spec_MasterNodesLabel s) (spec_Networking s)
    (spec_Component s) (spec_IPv4 s) (spec_IPv6 s) (spec_DualStack s) (spec_Performance s)
    (spec_Debug s) (spec_CNIConf s) (spec_KubeletConfig s) (spec_LogConfig s)
    (spec_OpenVSwitchDir s) (spec_OVNIPSecKeysDir s) (spec_OVNDir s)
    (spec_DisableModulesManagement s) (spec_HybridDPDK s) (spec_HugepageSizeType s)
    (spec_HugePages s) (spec_DPDKImageTag s) (spec_DPDKCPU s) (spec_DPDKMemory s)
    central ovs ctrl cni pinger monitor.

Definition ApplyConfigurationDefaults (config : Configuration) : Configuration :=
  let s := cfg_Spec config in
  mkConfiguration (cfg_meta config)
    (with_resources s
       (applyDefaults (spec_OVNCentral s) ovnCentralDefaultResourceSpec)
       (applyDefaults (spec_OVSOVN s) ovsOVNDefaultResourceSpec)
       (applyDefaults (spec_KubeOVNController s) kubeOVNControllerDefaultResourceSpec)
       (applyDefaults (spec_KubeOVNCNI s) kubeOVNCNIDefaultResourceSpec)
       (applyDefaults (spec_KubeOVNPinger s) kubeOVNPingerDefaultResourceSpec)
       (applyDefaults (spec_KubeOVNMonitor s) kubeOVNMonitorDefaultResourceSpec))
    (cfg_Status config).

(** The object an admission request carries: a Configuration, or another type
    named for the error message. *)
Inductive runtimeObject :=
| RConfiguration (c : Configuration)
| ROther (goType : string).

Definition Default (obj : runtimeObject) : res error runtimeObject :=
  match obj with
  | ROther ty => Err (ENew ("expected an Configuration object but got " +:+ ty))
  | RConfiguration configuration => Ok (RConfiguration (ApplyConfigurationDefaults configuration))
  end.

End defaults.

(** ** Lemmas *)

Section lemmas.
Context `{KL : KubeLib}.

(** The six quantities of a resource spec, in the order of the code. *)
Definition quantities (r : ResourceSpec) : list Quantity :=
  [cm_CPU (rs_Requests r); cm_Memory (rs_Requests r);
   cm_CPU (rs_Limits r); cm_Memory (rs_Limits r);
   cm_EphemeralStorage (rs_Requests r); cm_EphemeralStorage (rs_Limits r)].

Lemma quantities_inj r1 r2 : quantities r1 = quantities r2 -> r1 = r2.
Proof.
  destruct r1 as [[] []], r2 as [[] []]; unfold quantities; cbn.
  by intros [= -> -> -> -> -> ->].
Qed.

Lemma quantities_applyDefaults r d :
  quantities (applyDefaults r d) = zip_with orDefault (quantities r) (quantities d).
Proof. done. Qed.

Lemma orDefault_idemp q d : orDefault (orDefault q d) d = orDefault q d.
Proof. unfold orDefault. destruct (Quantity_IsZero q) eqn:?; repeat case_match; congruence. Qed.

Lemma applyDefaults_idemp r d : applyDefaults (applyDefaults r d) d = applyDefaults r d.
Proof. unfold applyDefaults; cbn. by rewrite !orDefault_idemp. Qed.

(** The resource specs of a configuration spec, in the order of the code. *)
Definition resources (s : ConfigurationSpec) : list ResourceSpec :=
  [spec_OVNCentral s; spec_OVSOVN s; spec_KubeOVNController s;
   spec_KubeOVNCNI s; spec_KubeOVNPinger s; spec_KubeOVNMonitor s].

Definition default_resources : list ResourceSpec :=
  [ovnCentralDefaultResourceSpec; ovsOVNDefaultResourceSpec;
   kubeOVNControllerDefaultResourceSpec; kubeOVNCNIDefaultResourceSpec;
   kubeOVNPingerDefaultResourceSpec; kubeOVNMonitorDefaultResourceSpec].

Lemma resources_ApplyConfigurationDefaults c :
  resources (cfg_Spec (ApplyConfigurationDefaults c)) =
  zip_with applyDefaults (resources (cfg_Spec c)) default_resources.
Proof. done. Qed.

End lemmas.

(** ** Properties *)

Section properties.
Context `{KL : KubeLib}.

(** C9: the defaulting webhook's contract. On a Configuration, [Default]
    succeeds; each of the six quantities of each of the six components is kept
    when it is not zero and becomes the operator's default when it is zero;
    metadata, status and every other field of the spec are unchanged; and a
    second pass of the webhook changes nothing (admission may call it again). *)
Theorem Default_spec (c : Configuration) :
  exists c', Default (RConfiguration c) = Ok (RConfiguration c') /\
    (forall i j r d q dq,
        resources (cfg_Spec c) !! i = Some r -> default_resources !! i = Some d ->
        quantities r !! j = Some q -> quantities d !! j = Some dq ->
        exists r', resources (cfg_Spec c') !! i = Some r' /\
          quantities r' !! j = Some (if Quantity_IsZero q then dq else q)) /\
    cfg_meta c' = cfg_meta c /\ cfg_Status c' = cfg_Status c /\
    cfg_Spec c = with_resources (cfg_Spec c') (spec_OVNCentral (cfg_Spec c))
      (spec_OVSOVN (cfg_Spec c)) (spec_KubeOVNController (cfg_Spec c))
      (spec_KubeOVNCNI (cfg_Spec c)) (spec_KubeOVNPinger (cfg_Spec c))
      (spec_KubeOVNMonitor (cfg_Spec c)) /\
    Default (RConfiguration c') = Ok (RConfiguration c').
Proof.
  exists (ApplyConfigurationDefaults c). split_and!; try done.
  - intros i j r d q dq Hr Hd Hq Hdq. exists (applyDefaults r d).
    rewrite resources_ApplyConfigurationDefaults, quantities_applyDefaults.
    rewrite !lookup_zip_with, Hr, Hd, Hq, Hdq. done.
  - by destruct c as [? [] ?].
  - cbn. do 2 f_equal. unfold ApplyConfigurationDefaults; cbn.
    by rewrite !applyDefaults_idemp.
Qed.

End properties.
