(* ===== verification/ConfigurationController.v ===== *)
(** * internal/controller/configuration_controller.go

    The reconcile loop of the Configuration object: finalizer handling, the
    four reconcile steps, the application of the generated objects, and the
    deletion path. The object generator ([internal/render]) is used through
    the interface [Renderer]; [Render] implements it. *)

From S2P Require Import Prelude GoLib Effects KubeApi ConfigTypes Calls.
Local Open Scope kube_scope.

(** ** Interfaces *)

(** Owners passed to [controllerutil.SetControllerReference]. *)
Inductive Owner `{KubeLib} :=
| OwnerConfiguration (c : Configuration)
| OwnerNamespace (ns : Namespace).

(** Library functions only this controller calls. *)
Class ControllerLib `{KubeLib} := {
  IsObjectNamespaced : objectType -> res LibError bool;
  SetControllerReference : Owner -> Object -> res LibError Object;
  ToUnstructured : Object -> res LibError Object
}.

(** [config.Spec.Global.Images.KubeOVNImage.Tag = version]. *)
Definition with_Tag `{KubeLib} (c : Configuration) (version : string) : Configuration :=
  let s := cfg_Spec c in
  let g := spec_Global s in
  let i := gl_Images g in
  let k := img_KubeOVNImage i in
  mkConfiguration (cfg_meta c)
    (mkConfigurationSpec
       (mkGlobalSpec (gl_Registry g)
          (mkImageDetails
             (mkKubeOVNImageSpec (koi_Repository k) version (koi_DpdkRepository k)
                (koi_VpcRepository k))
             (img_NATGatewayImage i)))
       (spec_ImagePullPolicy s) (spec_MasterNodesLabel s) (spec_Networking s)
       (spec_Component s) (spec_IPv4 s) (spec_IPv6 s) (spec_DualStack s) (spec_Performance s)
       (spec_Debug s) (spec_CNIConf s) (spec_KubeletConfig s) (spec_LogConfig s)
       (spec_OpenVSwitchDir s) (spec_OVNIPSecKeysDir s) (spec_OVNDir s)
       (spec_DisableModulesManagement s) (spec_HybridDPDK s) (spec_HugepageSizeType s)
       (spec_HugePages s) (spec_DPDKImageTag s) (spec_DPDKCPU s) (spec_DPDKMemory s)
       (spec_OVNCentral s) (spec_OVSOVN s) (spec_KubeOVNController s) (spec_KubeOVNCNI s)
       (spec_KubeOVNPinger s) (spec_KubeOVNMonitor s))
    (cfg_Status c).

(** What the controller needs of [internal/render] and [internal/templates]:
    the lists of templates, and [GenerateObjects], which may panic and which
    stores the version in the configuration it is given. *)
Class Renderer `{KubeLib} := {
  GenerateObjects : list string -> Configuration -> objectType -> string -> string ->
    outcome (res error (list Object));
  OrderedObjectList : list (objectType * list string);
  CRDList : list string
}.

(** What the controller relies on: the generator overwrites the image tag with
    the operator's version, so a tag already in the configuration is ignored. *)
Class RendererLaws `{Renderer} : Prop := {
  GenerateObjects_with_Tag l c ty version caCert :
    GenerateObjects l (with_Tag c version) ty version caCert =
    GenerateObjects l c ty version caCert
}.

Lemma with_Tag_idemp `{KubeLib} c version :
  with_Tag (with_Tag c version) version = with_Tag c version.
Proof. done. Qed.

Record ConfigurationReconciler := mkConfigurationReconciler {
  cr_Namespace : string;
  cr_Version : string
}.

Section controller.
Context `{KL : KubeLib, CL : !ControllerLib, RD : !Renderer} (r : ConfigurationReconciler).

(** ** Small helpers *)

Definition nodeInternalIP (node : Node) : string :=
  match find_first (fun a => bool_decide (na_Type a = NodeInternalIP)) (node_Addresses node) with
  | Some address => na_Address address
  | None => ""
  end.

(** [addressArrayEqual] sorts both slices in place: the result carries the
    slices as the caller sees them afterwards. *)
Definition addressArrayEqual (existing discovered : list string) :
    bool * list string * list string :=
  let existing := slices_Sort existing in
  let discovered := slices_Sort discovered in
  (slices_Equal existing discovered, existing, discovered).

(** [filterObject]: the requests for the Configuration owners of an object. *)
Definition filterObject (obj : ObjectMeta) : list NamespacedName :=
  flat_map (fun v =>
    if bool_decide (or_Kind v = Kind) && bool_decide (or_APIVersion v = APIVersion)
    then [mkNamespacedName (cr_Namespace r) (or_Name v)] else [])
    (om_OwnerReferences obj).

(** ** Reconcile steps *)

Definition reconcileFunc := Configuration -> op (Configuration * option error).

Definition ensureCondition (config : Configuration) (t : string) : op Configuration :=
  if ConditionExists config t then Ret config
  else setCondition config t ConditionUnknownStatus "Unknown" ReasonConditionUnknown.

Definition initializeConditions : reconcileFunc := fun config =>
  config <- ensureCondition config WaitingForMatchignNodesCondition ;;
  config <- ensureCondition config OVNNBLeaderFound ;;
  config <- ensureCondition config OVNSBLeaderFound ;;
  config <- ensureCondition config OVNNBDBHealth ;;
  config <- ensureCondition config OVNSBDBHealth ;;
  Ret (config, None).

Definition reconcileClusterScopedReference : reconcileFunc := fun config =>
  ns <- call (GetNamespace KubeOVNFakeNamespace) ;;
  match ns with
  | Ok _ => Ret (config, None)
  | Err err =>
      if IsNotFound err then
        err <- call (CreateNamespace (namespace_named KubeOVNFakeNamespace)) ;;
        Ret (config, err)
      else Ret (config, Some err)
  end.

(** [len(address) > 0]. *)
Definition nonEmpty (s : string) : bool := negb (bool_decide (s = "")).

Definition findMasterNodes : reconcileFunc := fun config =>
  match ConvertSelectorToLabelsMap (spec_MasterNodesLabel (cfg_Spec config)) with
  | Err _ =>
      Ret (config, Some (ENew ("error parsing label selector " +:+
        spec_MasterNodesLabel (cfg_Spec config) +:+ ": true")))
  | Ok set =>
      nodeList <- call (ListNodes (MatchingLabels set)) ;;
      match nodeList with
      | Err err => Ret (config, Some (Errorf_v "error listing nodes :" err))
      | Ok items =>
          let nodeAddresses := List.filter nonEmpty (map nodeInternalIP items) in
          if bool_decide (nodeAddresses = []) &&
             negb (IsConditionTrue config WaitingForMatchignNodesCondition) then
            call (RecordEvent config "Warning" "ReconcilePaused"
                    "no nodes matching master node labels found") ;;;
            config <- setCondition config WaitingForMatchignNodesCondition ConditionTrue
                        "Waiting for matching nodes" NodesNotFoundReason ;;
            Ret (config, None)
          else
            let '(eq, nodeAddresses, existing) :=
              addressArrayEqual nodeAddresses (st_MatchingNodeAddresses (cfg_Status config)) in
            let config := with_MatchingNodeAddresses config existing in
            if eq then Ret (config, None)
            else
              config <- setCondition config WaitingForMatchignNodesCondition ConditionFalse
                          ("found nodes " +:+ strings_Join nodeAddresses ",") NodesFoundReason ;;
              Ret (with_MatchingNodeAddresses config nodeAddresses, None)
      end
  end.

(** ** Applying the generated objects *)

Definition reconcileObject (obj : Object) : op (option error) :=
  match ToUnstructured obj with
  | Err err =>
      Ret (Some (Errorf_v ("error convering new object " +:+ om_Name (obj_meta obj) +:+
        " to unstructured object ") (ELib err)))
  | Ok unstructuredObj => call (ApplyObject unstructuredObj "kubeovn-operator")
  end.

(** Namespaced objects are owned by the configuration, cluster scoped objects
    by the owner namespace. *)
Definition ownerFor (namespaced : bool) (config : Configuration) (fakeNSObj : Namespace) : Owner :=
  if namespaced then OwnerConfiguration config else OwnerNamespace fakeNSObj.

Definition object_id (obj : Object) : string :=
  om_Namespace (obj_meta obj) +:+ "/" +:+ om_Name (obj_meta obj).

Definition applyOne (ownerObj : Owner) (obj : Object) : op (option error) :=
  match SetControllerReference ownerObj obj with
  | Err err =>
      Ret (Some (Errorf_v ("error setting controller reference on object " +:+
        object_id obj +:+ ": ") (ELib err)))
  | Ok obj =>
      err <- reconcileObject obj ;;
      match err with
      | Some err => Ret (Some (Errorf_v ("error reconcilling object " +:+ object_id obj +:+ ": ") err))
      | None => Ret None
      end
  end.

(** One iteration of the loop over [templates.OrderedObjectList]. *)
Definition applyType (fakeNSObj : Namespace) (caCert : string)
    (entry : objectType * list string) : reconcileFunc := fun config =>
  let '(objectType, objectList) := entry in
  match IsObjectNamespaced objectType with
  | Err err =>
      Ret (config, Some (Errorf_v "unable to identify if objecttype is namedspaced: " (ELib err)))
  | Ok namespaced =>
      let objs := GenerateObjects objectList config objectType (cr_Version r) caCert in
      let config := with_Tag config (cr_Version r) in
      match objs with
      | Panicked m => Panic m
      | Done (Err err) =>
          Ret (config, Some (Errorf_v "error during object generation for type: " err))
      | Done (Ok objs) =>
          err <- for_each objs (applyOne (ownerFor namespaced config fakeNSObj)) ;;
          Ret (config, err)
      end
  end.

(** [applyObject]: [order] is the order in which this execution's [range] over
    the map [OrderedObjectList] enumerates it. *)
Definition applyObject (order : list (objectType * list string)) : reconcileFunc := fun config =>
  if bool_decide (st_MatchingNodeAddresses (cfg_Status config) = []) then Ret (config, None)
  else if bool_decide (st_Status (cfg_Status config) = ConfigurationStatusDeploying)
  then Ret (config, None)
  else
    fakeNS <- call (GetNamespace KubeOVNFakeNamespace) ;;
    match fakeNS with
    | Err err => Ret (config, Some (Errorf_v "error looking up fake namespaced object: " err))
    | Ok fakeNSObj =>
        webhookSecret <- call (GetSecret
          (mkNamespacedName (cr_Namespace r) KubeOVNOperatorWebhookCertSecret)) ;;
        match webhookSecret with
        | Err err =>
            Ret (config, Some (Errorf_w ("error fetching secret " +:+
              KubeOVNOperatorWebhookCertSecret +:+ ": ") err))
        | Ok webhookSecret =>
            match secret_Data webhookSecret !! "ca.crt" with
            | None =>
                Ret (config, Some (ENew ("no key found for ca.crt in secret " +:+
                  KubeOVNOperatorWebhookCertSecret)))
            | Some caCert =>
                res <- fold_each order (applyType fakeNSObj caCert) config ;;
                match res with
                | (config, Some err) => Ret (config, Some err)
                | (config, None) =>
                    Ret (with_StatusStatus config ConfigurationStatusDeployed, None)
                end
            end
        end
    end.

(** ** Deletion *)

(** Delete the objects of one custom resource that are not being deleted yet. *)
Definition deleteResource (ri : resourceInterface) (v : Unstructured) : op (option error) :=
  match un_DeletionTimestamp v with
  | Some _ => Ret None
  | None =>
      err <- call (DynDelete ri (un_Name v)) ;;
      match err with
      | Some err => Ret (Some (Errorf_v ("error deleting resource " +:+ un_Name v +:+ ": ") err))
      | None => Ret None
      end
  end.

(** The loop body for one version of one CRD: the number of objects found. *)
Definition cleanupVersion (name : string) (crd : CRDSpec) (version : string) :
    op (res error nat) :=
  let gvr := mkGVR (crd_Group crd) version (crd_Plural crd) in
  let resourceInterface :=
    if bool_decide (crd_Scope crd = NamespaceScoped)
    then mkResourceInterface gvr (Some "") else mkResourceInterface gvr None in
  dynObjects <- call (DynList resourceInterface) ;;
  match dynObjects with
  | Err err =>
      if IsNotFound err then Ret (Ok 0)
      else Ret (Err (Errorf_v ("error checking getting list of objects for type " +:+ name +:+ ": ")
             err))
  | Ok items =>
      err <- for_each items (deleteResource resourceInterface) ;;
      match err with
      | Some err => Ret (Err err)
      | None => Ret (Ok (length items))
      end
  end.

(** Sum the object counts of a loop; the first error stops it. *)
Fixpoint count_each {A} (l : list A) (f : A -> op (res error nat)) (objectCount : nat) :
    op (res error nat) :=
  match l with
  | [] => Ret (Ok objectCount)
  | x :: l' =>
      n <- f x ;;
      match n with
      | Err err => Ret (Err err)
      | Ok n => count_each l' f (objectCount + n)
      end
  end.

Definition cleanupCRD (obj : Object) : op (res error nat) :=
  match obj_body obj with
  | inr _ => Ret (Ok 0)
  | inl crd => count_each (crd_Versions crd) (cleanupVersion (om_Name (obj_meta obj)) crd) 0
  end.

Definition ensureCRDObjectCleanup (objs : list Object) : op (option error) :=
  err <- call DynNewForConfig ;;
  match err with
  | Some err => Ret (Some (Errorf_v "error generating dynamic client: " err))
  | None =>
      n <- count_each objs cleanupCRD 0 ;;
      match n with
      | Err err => Ret (Some err)
      | Ok objectCount =>
          if 0 <? objectCount then
            Ret (Some (ENew (pretty objectCount +:+
              " objects still exist in the cluster, waiting for them to be GC'd by the controller")))
          else Ret None
      end
  end.

(** Remove the operator's finalizer from one node. *)
Definition releaseNode (node : Node) : op (option error) :=
  let nodeCopy := node in
  if ContainsFinalizer (om_Finalizers (node_meta node)) KubeOVNNodeFinalizer then
    let node := node_set_Finalizers node
      (RemoveFinalizer (om_Finalizers (node_meta node)) KubeOVNNodeFinalizer) in
    err <- call (PatchNode nodeCopy node) ;;
    match err with
    | Some err => Ret (Some (Errorf_v ("error patching node " +:+ om_Name (node_meta node) +:+ ": ") err))
    | None => Ret None
    end
  else Ret None.

(** The owner namespace is deleted when it exists. *)
Definition deleteFakeNamespace : op (option error) :=
  newNS <- call (GetNamespace KubeOVNFakeNamespace) ;;
  match newNS with
  | Err err => if IsNotFound err then Ret None else Ret (Some err)
  | Ok newNS => call (DeleteNamespace newNS)
  end.

Definition deleteClusterScopedReference (config : Configuration) : op (option error) :=
  match GenerateObjects CRDList config TCustomResourceDefinition (cr_Version r) "" with
  | Panicked m => Panic m
  | Done (Err err) =>
      Ret (Some (Errorf_v "error rendering CRDs during configuration cleanup: " err))
  | Done (Ok crdObjs) =>
      let config := with_Tag config (cr_Version r) in
      err <- ensureCRDObjectCleanup crdObjs ;;
      match err with
      | Some err => Ret (Some (Errorf_v "error cleaning objects: " err))
      | None =>
          let configObj := config in
          err <- deleteFakeNamespace ;;
          match err with
          | Some err => Ret (Some err)
          | None =>
              if ContainsFinalizer (om_Finalizers (cfg_meta config)) KubeOVNConfigurationFinalizer
              then
                let config := with_Finalizers config
                  (RemoveFinalizer (om_Finalizers (cfg_meta config))
                     KubeOVNConfigurationFinalizer) in
                call (PatchConfiguration configObj config)
              else
                nodeList <- call (ListNodes Everything) ;;
                match nodeList with
                | Err err =>
                    Ret (Some (Errorf_v
                      "error fetching node list during configuration deletion: " err))
                | Ok items => for_each items releaseNode
                end
          end
      end
  end.

(** ** Reconcile *)

(** [for _, v := range reconcileSteps { if err := v(ctx, config); ... }] *)
Definition run_steps (steps : list reconcileFunc) : reconcileFunc :=
  fold_each steps (fun v config => v config).

Definition reconcileSteps (order : list (objectType * list string)) : list reconcileFunc :=
  [initializeConditions; reconcileClusterScopedReference; findMasterNodes; applyObject order].

Definition Reconcile (order : list (objectType * list string)) (req : NamespacedName) :
    op (Result * option error) :=
  got <- call (GetConfiguration req) ;;
  match got with
  | Err err =>
      if IsNotFound err then Ret (emptyResult, None) else Ret (emptyResult, Some err)
  | Ok configObj =>
      let config := configObj in
      match om_DeletionTimestamp (cfg_meta config) with
      | Some _ =>
          err <- deleteClusterScopedReference config ;;
          Ret (emptyResult, err)
      | None =>
          if negb (ContainsFinalizer (om_Finalizers (cfg_meta config))
                     KubeOVNConfigurationFinalizer) then
            let config := with_Finalizers config
              (AddFinalizer (om_Finalizers (cfg_meta config)) KubeOVNConfigurationFinalizer) in
            err <- call (PatchConfiguration configObj config) ;;
            Ret (emptyResult, err)
          else
            res <- run_steps (reconcileSteps order) config ;;
            match res with
            | (_, Some err) => Ret (emptyResult, Some err)
            | (config, None) =>
                if bool_decide (cfg_Status configObj = cfg_Status config)
                then Ret (emptyResult, None)
                else
                  err <- call (PatchConfigurationStatus configObj config) ;;
                  Ret (emptyResult, err)
            end
      end
  end.

End controller.
