(* ===== verification/Watches.v ===== *)
(** * The watches of the configuration controller

    SetupWithManager and AddWatches of configuration_controller.go: which types
    are watched, which events pass the predicate, and which requests they cause.
    The handler of controller-runtime is library code behind [WatchLib]. *)

From S2P Require Import Prelude GoLib Effects KubeApi ConfigTypes Calls ConfigurationController.
Local Open Scope string_scope.
Local Open Scope list_scope.

(** A watched object: its metadata, the managed fields of the metadata, and
    everything else. *)
Record clientObject (A : Type) := mkClientObject {
  co_meta : ObjectMeta;
  co_ManagedFields : list string;
  co_rest : A
}.
Arguments mkClientObject {A} _ _ _.
Arguments co_meta {A} _.
Arguments co_ManagedFields {A} _.
Arguments co_rest {A} _.

Definition SetManagedFields {A} (o : clientObject A) (l : list string) : clientObject A :=
  mkClientObject (co_meta o) l (co_rest o).

Inductive event (A : Type) :=
| UpdateEvent (ObjectOld ObjectNew : clientObject A)
| CreateEvent (Object : clientObject A)
| DeleteEvent (Object : clientObject A)
| GenericEvent (Object : clientObject A).
Arguments UpdateEvent {A} _ _.
Arguments CreateEvent {A} _.
Arguments DeleteEvent {A} _.
Arguments GenericEvent {A} _.

#[export] Instance OwnerReference_eq_dec : EqDecision OwnerReference.
Proof. solve_decision. Defined.
#[export] Instance ObjectMeta_eq_dec : EqDecision ObjectMeta.
Proof. solve_decision. Defined.
#[export] Instance clientObject_eq_dec `{EqDecision A} : EqDecision (clientObject A).
Proof. solve_decision. Defined.

(** The objects of an event. *)
Definition event_objects {A} (e : event A) : list (clientObject A) :=
  match e with
  | UpdateEvent o n => [o; n]
  | CreateEvent o | DeleteEvent o | GenericEvent o => [o]
  end.

(** [handler.EnqueueRequestsFromMapFunc]: the map function runs on every object
    of the event, and the requests are enqueued without duplicates. *)
Class WatchLib := {
  EnqueueRequestsFromMapFunc {A} :
    (clientObject A -> list NamespacedName) -> event A -> list NamespacedName
}.
Class WatchLaws `{WatchLib} : Prop := {
  enqueue_requests A (f : clientObject A -> list NamespacedName) e req :
    In req (EnqueueRequestsFromMapFunc f e) <-> exists o, In o (event_objects e) /\ In req (f o)
}.

Section watches.
Context `{KL : KubeLib, RD : !Renderer, WL : !WatchLib} (r : ConfigurationReconciler).
Context {A : Type} `{EqDecision A}.

(** The predicate: its answer, and the event as it leaves it, since the
    managed fields are cleared in the objects of the event themselves. *)
Definition updatePred (e : event A) : bool * event A :=
  match e with
  | UpdateEvent old new =>
      let old := SetManagedFields old [] in
      let new := SetManagedFields new [] in
      (negb (bool_decide (old = new)), UpdateEvent old new)
  | CreateEvent _ | DeleteEvent _ | GenericEvent _ => (true, e)
  end.

(** One of the watches [AddWatches] registers: predicate, then handler. *)
Definition watch (e : event A) : list NamespacedName :=
  let '(pass, e) := updatePred e in
  if pass then EnqueueRequestsFromMapFunc (fun o => filterObject r (co_meta o)) e else [].

(** The types that are watched, one watch for each key of the map. *)
Definition AddWatches : list objectType := map fst OrderedObjectList.

(** The name of the controller, the type it is for and the watched types. *)
Definition SetupWithManager : string * string * list objectType :=
  ("kubeovn-configuration-controller", Kind, AddWatches).

(** An event that the predicate drops: an update that changes nothing but the
    managed fields. *)
Definition only_managed_fields (e : event A) : Prop :=
  match e with
  | UpdateEvent old new => co_meta old = co_meta new /\ co_rest old = co_rest new
  | _ => False
  end.

Lemma updatePred_spec e : (updatePred e).1 = false <-> only_managed_fields e.
Proof.
  destruct e as [[m l x] [m' l' x']|o|o|o]; cbn; try done.
  rewrite negb_false_iff, bool_decide_eq_true. split; [by intros [= -> ->]|by intros [-> ->]].
Qed.

Lemma filterObject_In m req :
  In req (filterObject r m) <->
  exists v, In v (om_OwnerReferences m) /\ or_Kind v = Kind /\ or_APIVersion v = APIVersion /\
    req = mkNamespacedName (cr_Namespace r) (or_Name v).
Proof.
  unfold filterObject. rewrite in_flat_map. split.
  - intros (v & Hv & Hin). exists v. split; [done|].
    destruct (bool_decide (or_Kind v = Kind)) eqn:Hk; [|done].
    destruct (bool_decide (or_APIVersion v = APIVersion)) eqn:Ha; [|done].
    apply bool_decide_eq_true in Hk, Ha. by destruct Hin as [<-|[]].
  - intros (v & Hv & Hk & Ha & ->). exists v. split; [done|].
    rewrite !bool_decide_eq_true_2 by done. by left.
Qed.

Lemma updatePred_meta e o :
  In o (event_objects (updatePred e).2) ->
  exists o', In o' (event_objects e) /\ co_meta o = co_meta o'.
Proof.
  destruct e as [old new|o0|o0|o0]; cbn; [|by intros [<-|[]]; eauto..].
  intros [<-|[<-|[]]]; cbn; eauto.
Qed.

Lemma updatePred_objects e o' :
  In o' (event_objects e) ->
  exists o, In o (event_objects (updatePred e).2) /\ co_meta o = co_meta o'.
Proof.
  destruct e as [old new|o0|o0|o0]; cbn; [|by intros [<-|[]]; eauto..].
  intros [<-|[<-|[]]].
  - eexists. split; [by left|done].
  - eexists. split; [right; by left|done].
Qed.

End watches.

Section triggers.
Context `{KL : KubeLib, RD : !Renderer, WL : !WatchLib, WW : !WatchLaws}.
Context (r : ConfigurationReconciler) {A : Type} `{EqDecision A}.

(** C23: which events wake the controller up. Every type of the object list is
    watched. An event on a watched object causes the request [req] exactly when
    it is not an update that changes nothing but the managed fields, and [req]
    names, in the operator's own namespace, a Configuration that an object of
    the event (the old or the new one) lists among its owners with the API
    version of this operator. So an object owned by namespaces only, as every
    cluster scoped object the operator applies is, never wakes it up. *)
Theorem watch_triggers (e : event A) req :
  (forall ty l, In (ty, l) OrderedObjectList -> In ty AddWatches) /\
  (In req (watch r e) <->
     ~ only_managed_fields e /\
     exists o v, In o (event_objects e) /\ In v (om_OwnerReferences (co_meta o)) /\
       or_Kind v = Kind /\ or_APIVersion v = APIVersion /\
       req = mkNamespacedName (cr_Namespace r) (or_Name v)) /\
  ((forall o v, In o (event_objects e) -> In v (om_OwnerReferences (co_meta o)) ->
      or_Kind v = "Namespace") -> ~ In req (watch r e)).
Proof.
  assert (Hw : In req (watch r e) <->
    ~ only_managed_fields e /\ exists o, In o (event_objects e) /\ In req (filterObject r (co_meta o))).
  { unfold watch. rewrite <- updatePred_spec.
    pose proof (updatePred_meta e) as Hm. pose proof (updatePred_objects e) as Ho.
    destruct (updatePred e) as [[|] e'] eqn:He; cbn in *; [|naive_solver].
    rewrite enqueue_requests. split.
    - intros (o & Hin & Hreq). split; [done|]. destruct (Hm o Hin) as (o' & Hin' & Heq).
      exists o'. by rewrite <- Heq.
    - intros [_ (o' & Hin' & Hreq)]. destruct (Ho o' Hin') as (o & Hin & Heq).
      exists o. by rewrite Heq. }
  split; [|split].
  - intros ty l Hin. exact (in_map fst _ _ Hin).
  - rewrite Hw. setoid_rewrite filterObject_In. naive_solver.
  - intros Hns. rewrite Hw. intros [_ (o & Hin & (v & Hv & Hk & _)%filterObject_In)].
    rewrite (Hns o v Hin Hv) in Hk. done.
Qed.

End triggers.
