(* ===== verification/Executor.v ===== *)
(** * internal/executor/executor.go

    kubectl exec into a pod. The connection and the stream are library code:
    [ExecPod] answers with the error of [options.Run()] and the contents of the
    two output buffers. *)

From S2P Require Import Prelude GoLib Effects KubeApi ConfigTypes Calls.
Local Open Scope kube_scope.

Record RemoteCommandExecutor := mkRemoteCommandExecutor { rce_pod : Pod }.

Section executor.
Context `{KL : KubeLib}.

Definition NewRemoteCommandExecutor (pod : Pod) : op (res error RemoteCommandExecutor) :=
  err <- call NewClientset ;;
  match err with
  | Some err =>
      Ret (Err (Errorf_v "error generating client for config in remote command executor: " err))
  | None => Ret (Ok (mkRemoteCommandExecutor pod))
  end.

(** On an error the bytes are those of the standard error stream. *)
Definition Run (r : RemoteCommandExecutor) (containerName cmd : string) :
    op (string * option error) :=
  let m := pod_meta (rce_pod r) in
  res <- call (ExecPod (om_Namespace m) (om_Name m) containerName ["/bin/sh"; "-c"; cmd]) ;;
  match res with
  | (Some err, _, errBuf) => Ret (errBuf, Some (Errorf_v "error during command execution: " err))
  | (None, outBuf, _) => Ret (outBuf, None)
  end.

End executor.
