(* ===== verification/NodeController.v ===== *)
(** * internal/controller/node_controller.go

    The reconcile loop of the cluster nodes: a finalizer on every node, and the
    cleanup of the OVN databases when a node is deleted. The cleanup scripts
    come from [internal/render] through the interface [CleanupScripts]. *)

From S2P Require Import Prelude GoLib Effects KubeApi ConfigTypes Calls Executor.
From S2P Require Import ConfigurationController.
Local Open Scope kube_scope.

(** The script generators of [internal/render]. *)
Class CleanupScripts `{KubeLib} := {
  GenerateNorthBoundCleanupScript : string -> res error string;
  GenerateSouthBoundCleanupScript : string -> res error string;
  GenerateChassisCleanupScript : string -> res error string
}.

Record NodeReconciler := mkNodeReconciler { nr_Namespace : string }.

Section pods.
Context `{KL : KubeLib}.

(** The pods of a namespace that carry a label. *)
Definition podList (label namespace : string) : op (res error (list Pod)) :=
  match labels_Parse label with
  | Err err =>
      Ret (Err (Errorf_v ("error unable to parse label list " +:+ label +:+ ": ") (ELib err)))
  | Ok selector => call (ListPods selector namespace)
  end.

(** Run a script in the ovn-central container of the only pod that carries the
    label: the bytes the command printed, and its error. *)
Definition executeOVNCentralCommand (script label namespace : string) :
    op (string * option error) :=
  pods <- podList label namespace ;;
  match pods with
  | Err err =>
      Ret ("", Some (Errorf_v ("error generating pod list when checking for label " +:+ label +:+
        ": ") err))
  | Ok items =>
      if (length items =? 0)%nat || (1 <? length items)%nat then
        Ret ("", Some (ENew ("expected to find only one leader pod, but found " +:+
          pretty (length items) +:+ ", requeuing until condition is met")))
      else
        match items with
        | [] => Panic "index out of range"
        | pod :: _ =>
            podExecutor <- NewRemoteCommandExecutor pod ;;
            match podExecutor with
            | Err err =>
                Ret ("", Some (Errorf_v "error generating new remote command executor: " err))
            | Ok podExecutor => Run podExecutor OVNCentralContainerName script
            end
        end
  end.

End pods.

(** [removeElement] splices the element out of the backing array of the slice:
    the result, and what the slice of the caller reads afterwards (its last
    element is then there twice). *)
Fixpoint removeElement (elements : list string) (element : string) :
    list string * list string :=
  match elements with
  | [] => ([], [])
  | x :: rest =>
      if bool_decide (x = element) then (rest, rest ++ [List.last rest x])
      else let '(result, backing) := removeElement rest element in (x :: result, x :: backing)
  end.

(** [fetchKubeovnConfig] fetches the default configuration. *)
Definition fetchKubeovnConfig `{KubeLib} (namespace : string) : op (res error Configuration) :=
  call (GetConfiguration (mkNamespacedName namespace DefaultConfigurationName)).

Section controller.
Context `{KL : KubeLib, CS : !CleanupScripts} (r : NodeReconciler).

Definition executeRemoteScriptOnLeader (script label node : string) : op (option error) :=
  out <- executeOVNCentralCommand script label (nr_Namespace r) ;;
  match out with
  | (result, Some err) =>
      Ret (Some (Errorf_v ("error during southbound cleanup command execution " +:+ result +:+ ": ")
             err))
  | (_, None) => Ret None
  end.

Definition reconcileOVNCentralState (nodeIP : string) : op (option error) :=
  match GenerateNorthBoundCleanupScript nodeIP with
  | Err err =>
      Ret (Some (Errorf_v ("error generating northbound cleanup script using ip " +:+ nodeIP +:+
        ": ") err))
  | Ok script =>
      err <- executeRemoteScriptOnLeader script NBLeaderLabel nodeIP ;;
      match err with
      | Some err =>
          Ret (Some (Errorf_v ("error executing northbound cleanup script on node " +:+ nodeIP +:+
            ": ") err))
      | None =>
          match GenerateSouthBoundCleanupScript nodeIP with
          | Err err =>
              Ret (Some (Errorf_v ("error generating southbound cleanup script using ip " +:+
                nodeIP +:+ ": ") err))
          | Ok script => executeRemoteScriptOnLeader script SBLeaderLabel nodeIP
          end
      end
  end.

Definition reconcileOVSOVNState (hostname : string) : op (option error) :=
  match GenerateChassisCleanupScript hostname with
  | Err err => Ret (Some (Errorf_v "error rendering chassis cleanup script: " err))
  | Ok script => executeRemoteScriptOnLeader script SBLeaderLabel hostname
  end.

(** The cleanup of a node recorded as a master: both databases, then the
    status of the Configuration. *)
Definition cleanupMaster (config : Configuration) (nodeIP : string) : op (option error) :=
  err <- reconcileOVNCentralState nodeIP ;;
  match err with
  | Some err => Ret (Some err)
  | None =>
      let configObj := config in
      let config := with_MatchingNodeAddresses config
        (removeElement (st_MatchingNodeAddresses (cfg_Status config)) nodeIP).1 in
      call (PatchConfigurationStatus configObj config)
  end.

Definition reconcileNodeDeletion (config : Configuration) (node : Node) :
    op (Result * option error) :=
  let nodeObj := node in
  let nodeIP := nodeInternalIP nodeObj in
  if bool_decide (nodeIP = "") then
    Ret (emptyResult, Some (ENew ("node has no internal ip so ignoring " +:+
      om_Name (node_meta node))))
  else
    err <- (if slices_Contains (st_MatchingNodeAddresses (cfg_Status config)) nodeIP
            then cleanupMaster config nodeIP else Ret None) ;;
    match err with
    | Some err => Ret (emptyResult, Some err)
    | None =>
        err <- reconcileOVSOVNState nodeIP ;;
        match err with
        | Some _ => Ret (emptyResult, None)
        | None =>
            if ContainsFinalizer (om_Finalizers (node_meta node)) KubeOVNNodeFinalizer then
              let node := node_set_Finalizers node
                (RemoveFinalizer (om_Finalizers (node_meta node)) KubeOVNNodeFinalizer) in
              err <- call (PatchNode nodeObj node) ;;
              Ret (emptyResult, err)
            else Ret (emptyResult, None)
        end
    end.

(** The handler after the node was read; an error of that read other than
    NotFound is overwritten by the next assignment to [err]. *)
Definition reconcileNode (nodeObj : Node) : op (Result * option error) :=
  let node := nodeObj in
  config <- fetchKubeovnConfig (nr_Namespace r) ;;
  match config with
  | Err err => if IsNotFound err then Ret (emptyResult, None) else Ret (emptyResult, Some err)
  | Ok config =>
      match om_DeletionTimestamp (cfg_meta config), om_DeletionTimestamp (node_meta node) with
      | Some _, _ => Ret (emptyResult, None)
      | None, None =>
          if negb (ContainsFinalizer (om_Finalizers (node_meta node)) KubeOVNNodeFinalizer) then
            let node := node_set_Finalizers node
              (AddFinalizer (om_Finalizers (node_meta node)) KubeOVNNodeFinalizer) in
            err <- call (PatchNode nodeObj node) ;;
            Ret (emptyResult, err)
          else Ret (emptyResult, None)
      | None, Some _ => reconcileNodeDeletion config node
      end
  end.

Definition Reconcile (req : NamespacedName) : op (Result * option error) :=
  got <- call (GetNode req) ;;
  match got with
  | Err err => if IsNotFound err then Ret (emptyResult, None) else reconcileNode emptyNode
  | Ok nodeObj => reconcileNode nodeObj
  end.

End controller.
