(* ===== verification/HealthCheck.v ===== *)
(** * internal/controller/healthcheck_controller.go

    The periodic check of the OVN databases, run on the Configuration once its
    resources are deployed. [HealthCheckInterval] is a Go [int] of 64 bits. *)

From S2P Require Import Prelude GoLib Effects KubeApi ConfigTypes Calls.
From S2P Require Import NodeController.
Local Open Scope kube_scope.

Record HealthCheckReconciler := mkHealthCheckReconciler {
  hr_Namespace : string;
  hr_HealthCheckInterval : Z
}.

Section controller.
Context `{KL : KubeLib} (r : HealthCheckReconciler).

(** [time.Duration(r.HealthCheckInterval) * time.Second]. *)
Definition interval : Duration := Duration_mul (hr_HealthCheckInterval r) time_Second.

(** The comparison of [checkNeeded], for the time the clock answers. *)
Definition interval_passed (config : Configuration) (now : Time) : bool :=
  let condition := LookupCondition config OVNNBLeaderFound in
  Time_Before (Time_Add (c_LastTransitionTime condition) interval) now.

Definition checkNeeded (config : Configuration) : op bool :=
  now <- call Now ;;
  Ret (interval_passed config now).

(** One leader: set the condition, and tell whether its check must run. *)
Definition checkLeader (config : Configuration) (condition missing : string) (pods : list Pod) :
    op (Configuration * bool) :=
  match pods with
  | [] =>
      config <- setCondition config condition ConditionFalse missing LeaderNotFound ;;
      Ret (config, false)
  | pod :: _ =>
      config <- setCondition config condition ConditionTrue
                  ("northbound leader found " +:+ om_Name (pod_meta pod)) LeaderFound ;;
      Ret (config, true)
  end.

(** One database check: its output and error become a condition. *)
Definition checkDB (run : bool) (script label condition : string) (config : Configuration) :
    op Configuration :=
  if run then
    out <- executeOVNCentralCommand script label (hr_Namespace r) ;;
    match out with
    | (result, Some _) => setCondition config condition ConditionFalse result DBHealth
    | (result, None) => setCondition config condition ConditionTrue result DBHealth
    end
  else Ret config.

Definition reconcileOVNDBHealth (config : Configuration) : op (Configuration * option error) :=
  needed <- checkNeeded config ;;
  if negb needed then Ret (config, None)
  else
    nbPods <- podList NBLeaderLabel (hr_Namespace r) ;;
    match nbPods with
    | Err err => Ret (config, Some (Errorf_v "error fetching northbound leader: " err))
    | Ok nbPods =>
        nb <- checkLeader config OVNNBLeaderFound
                "no pods matching northbound leader label requirements found" nbPods ;;
        let '(config, runNBCheck) := nb in
        sbPods <- podList SBLeaderLabel (hr_Namespace r) ;;
        match sbPods with
        | Err err => Ret (config, Some (Errorf_v "error fetching southbound leader: " err))
        | Ok sbPods =>
            sb <- checkLeader config OVNSBLeaderFound
                    "no pods matching southbound leader label requirements found" sbPods ;;
            let '(config, runSBCheck) := sb in
            config <- checkDB runNBCheck NBCheckScript SBLeaderLabel OVNNBDBHealth config ;;
            config <- checkDB runSBCheck SBCheckScript SBLeaderLabel OVNSBDBHealth config ;;
            Ret (config, None)
        end
    end.

Definition Reconcile (req : NamespacedName) : op (Result * option error) :=
  got <- call (GetConfiguration req) ;;
  match got with
  | Err err => if IsNotFound err then Ret (emptyResult, None) else Ret (emptyResult, Some err)
  | Ok configObj =>
      let config := configObj in
      match om_DeletionTimestamp (cfg_meta config) with
      | Some _ => Ret (emptyResult, None)
      | None =>
          if negb (bool_decide (st_Status (cfg_Status config) = ConfigurationStatusDeployed))
          then Ret (emptyResult, None)
          else
            res <- reconcileOVNDBHealth config ;;
            match res with
            | (_, Some err) =>
                Ret (emptyResult,
                     Some (Errorf_v "error during execution of reconcileOVNDBHealth: " err))
            | (config, None) =>
                err <- (if bool_decide (st_Conditions (cfg_Status config) =
                                        st_Conditions (cfg_Status configObj))
                        then Ret None else call (PatchConfigurationStatus configObj config)) ;;
                match err with
                | Some err => Ret (emptyResult, Some err)
                | None => Ret (mkResult interval, None)
                end
            end
      end
  end.

End controller.
