(* ===== verification/Bootstrap.v ===== *)
(** * internal/bootstrap/configuration.go

    The default Configuration, created once from a ConfigMap when the manager
    starts. The YAML parser and the backoff loop are library code, used through
    the interface [BootstrapLib]; [BootstrapLaws] states what the documentation
    of [wait.ExponentialBackoffWithContext] promises. *)

From Stdlib Require Import QArith.
From S2P Require Import Prelude GoLib Effects KubeApi ConfigTypes Calls.
Local Open Scope kube_scope.
Local Open Scope nat_scope.

(** [wait.Backoff]; the two factors are decimal literals in the source. *)
Record Backoff := mkBackoff {
  bo_Steps : nat;
  bo_Duration : Duration;
  bo_Factor : Q;
  bo_Jitter : Q
}.

Class BootstrapLib `{KubeLib} := {
  ExponentialBackoffWithContext : Backoff -> op (bool * option error) -> op (option error);
  yaml_Unmarshal : string -> res LibError ConfigurationSpec
}.

(** The runs of a condition that is tried at most [n] times: it stops when the
    condition is met or fails, and it may give up with an error before any
    try (the context is done, or no try is left). *)
Inductive attempts `{KubeLib} (condition : op (bool * option error)) :
    nat -> trace callE -> outcome (option error) -> Prop :=
| attempts_gave_up n err : attempts condition n [] (Done (Some err))
| attempts_met n t :
    runs condition t (Done (true, None)) -> attempts condition (S n) t (Done None)
| attempts_failed n t met err :
    runs condition t (Done (met, Some err)) -> attempts condition (S n) t (Done (Some err))
| attempts_again n t1 t2 o :
    runs condition t1 (Done (false, None)) -> attempts condition n t2 o ->
    attempts condition (S n) (t1 ++ t2) o
| attempts_panic n t m :
    runs condition t (Panicked m) -> attempts condition (S n) t (Panicked m).

Class BootstrapLaws `{BootstrapLib} : Prop := {
  backoff_attempts b condition t o :
    runs (ExponentialBackoffWithContext b condition) t o ->
    attempts condition (bo_Steps b) t o
}.

Definition BootstrapConfigMapName : string := "kubeovn-configuration-bootstrap".
Definition ConfigMapDataKey : string := "configuration.yaml".

Record ConfigurationBootstrapper := mkConfigurationBootstrapper { cb_Namespace : string }.

Section bootstrap.
Context `{KL : KubeLib, BL : !BootstrapLib} (b : ConfigurationBootstrapper).

(** One attempt to create the Configuration: is the loop done? *)
Definition createCondition (config : Configuration) : op (bool * option error) :=
  err <- call (CreateConfiguration config) ;;
  match err with
  | None => Ret (true, None)
  | Some err => if IsAlreadyExists err then Ret (true, None) else Ret (false, None)
  end.

Definition createConfigurationWithRetry (config : Configuration) : op (option error) :=
  let backoff := mkBackoff 6 (Duration_mul 1%Z time_Second) (2 # 1) (1 # 10) in
  ExponentialBackoffWithContext backoff (createCondition config).

(** The Configuration created from a spec. *)
Definition defaultConfiguration (spec : ConfigurationSpec) : Configuration :=
  mkConfiguration (mkObjectMeta DefaultConfigurationName (cb_Namespace b) 0 None [] [])
    spec (mkConfigurationStatus [] [] "" []).

Definition loadAndApplyDefaultConfiguration : op (option error) :=
  existing <- call (GetConfiguration (mkNamespacedName (cb_Namespace b) DefaultConfigurationName)) ;;
  match existing with
  | Ok _ => Ret None
  | Err err =>
      if negb (IsNotFound err) then
        Ret (Some (Errorf_w "error checking for existing Configuration: " err))
      else
        configMap <- call (GetConfigMap
          (mkNamespacedName (cb_Namespace b) BootstrapConfigMapName)) ;;
        match configMap with
        | Err _ => Ret None
        | Ok configMap =>
            match cm_Data configMap !! ConfigMapDataKey with
            | None => Ret None
            | Some specData =>
                match yaml_Unmarshal specData with
                | Err _ => Ret None
                | Ok spec =>
                    createConfigurationWithRetry (defaultConfiguration spec) ;;; Ret None
                end
            end
        end
  end.

Definition Start : op (option error) :=
  loadAndApplyDefaultConfiguration ;;; Ret None.

Definition NeedLeaderElection : bool := true.

(** ** Theorems *)

Context `{BW : !BootstrapLaws}.

(** The answer of a creation ends the retries. *)
Definition settled (e : option error) : bool :=
  match e with None => true | Some err => IsAlreadyExists err end.

(** The creations of one retry loop: the first settled answer is the last. *)
Inductive creations (config : Configuration) : nat -> trace callE -> Prop :=
| creations_stop n : creations config n []
| creations_last n e :
    settled e = true -> creations config (S n) [Obs (CreateConfiguration config) e]
| creations_next n e t :
    settled e = false -> creations config n t ->
    creations config (S n) (Obs (CreateConfiguration config) e :: t).

Lemma runs_createCondition config t o :
  runs (createCondition config) t o ->
  exists e, t = [Obs (CreateConfiguration config) e] /\ o = Done (settled e, None).
Proof.
  unfold createCondition. cbn. intros (e & t' & -> & Hr). exists e.
  destruct e as [err|]; cbn in *; [|by destruct Hr as [-> ->]].
  destruct (IsAlreadyExists err); by destruct Hr as [-> ->].
Qed.

Lemma attempts_creations config n t o :
  attempts (createCondition config) n t o ->
  creations config n t /\ exists err, o = Done err.
Proof.
  induction 1 as [n err|n t Hr|n t met err Hr|n t1 t2 o Hr _ [IH IHo]|n t m Hr].
  - split; [constructor|by eexists].
  - apply runs_createCondition in Hr as (e & -> & Ho). injection Ho as Ho.
    split; [by constructor|by eexists].
  - by apply runs_createCondition in Hr as (e & _ & [=]).
  - apply runs_createCondition in Hr as (e & -> & Ho). injection Ho as Ho.
    split; [by constructor|done].
  - by apply runs_createCondition in Hr as (e & _ & [=]).
Qed.

Lemma creations_length config n t : creations config n t -> length t <= n.
Proof. induction 1; cbn; lia. Qed.

(** A run that writes nothing, or creates the Configuration of the ConfigMap. *)
Definition bootstrap_trace (t : trace callE) : Prop :=
  none_of (@is_write _) t \/
  exists err cm specData spec tc,
    t = Obs (GetConfiguration (mkNamespacedName (cb_Namespace b) DefaultConfigurationName))
          (Err err) ::
        Obs (GetConfigMap (mkNamespacedName (cb_Namespace b) BootstrapConfigMapName)) (Ok cm) :: tc /\
    IsNotFound err = true /\ cm_Data cm !! ConfigMapDataKey = Some specData /\
    yaml_Unmarshal specData = Ok spec /\
    creations (defaultConfiguration spec) 6 tc /\ length tc <= 6.

Lemma runs_load t o :
  runs loadAndApplyDefaultConfiguration t o -> (exists err, o = Done err) /\ bootstrap_trace t.
Proof.
  unfold loadAndApplyDefaultConfiguration, bootstrap_trace.
  cbn -[createConfigurationWithRetry]. intros (ex & t1 & -> & Hr).
  assert (Hret : forall err t1, runs (E := callE) (Ret err) t1 o ->
    (exists err, o = Done err) /\ t1 = []) by (intros err t' [-> ->]; eauto).
  destruct ex as [err|c]; [|apply Hret in Hr as [? ->]; split; [done|left; repeat constructor]].
  destruct (IsNotFound err) eqn:Hnf; cbn -[createConfigurationWithRetry] in Hr;
    [|apply Hret in Hr as [? ->]; split; [done|left; repeat constructor]].
  destruct Hr as (cmr & t2 & -> & Hr).
  destruct cmr as [e|cm]; [apply Hret in Hr as [? ->]; split; [done|left; repeat constructor]|].
  destruct (cm_Data cm !! ConfigMapDataKey) as [d|] eqn:Hd;
    [|apply Hret in Hr as [? ->]; split; [done|left; repeat constructor]].
  destruct (yaml_Unmarshal d) as [e|spec] eqn:Hy;
    [apply Hret in Hr as [? ->]; split; [done|left; repeat constructor]|].
  rewrite runs_bind in Hr.
  destruct Hr as [(err' & t3 & t4 & -> & Hc & [-> ->])|(m & Hc & ->)];
    apply backoff_attempts, attempts_creations in Hc as [Hc Ho]; [|by destruct Ho as [? [=]]].
  split; [by eexists|]. right. exists err, cm, d, spec, t3. rewrite app_nil_r.
  split_and!; try done. by apply creations_length in Hc.
Qed.

(** C21: the bootstrapper creates at most one Configuration, and only when none
    exists. [Start] never returns an error and never panics, so it cannot stop
    the manager. A run either writes nothing, or it was told that there is no
    Configuration, read the bootstrap ConfigMap, parsed its key
    configuration.yaml, and then tried at most six times to create the
    Configuration of that spec under the default name in the operator's
    namespace, and the first answer that says that it now exists ends the
    run. *)
Theorem Start_creates_once t o :
  runs Start t o ->
  o = Done None /\
  (none_of (@is_write _) t \/
   exists err cm specData spec tc,
     t = Obs (GetConfiguration (mkNamespacedName (cb_Namespace b) DefaultConfigurationName))
           (Err err) ::
         Obs (GetConfigMap (mkNamespacedName (cb_Namespace b) BootstrapConfigMapName)) (Ok cm) :: tc /\
     IsNotFound err = true /\ cm_Data cm !! ConfigMapDataKey = Some specData /\
     yaml_Unmarshal specData = Ok spec /\
     creations (defaultConfiguration spec) 6 tc /\ length tc <= 6).
Proof.
  unfold Start. rewrite runs_bind.
  intros [(err & t1 & t2 & -> & Hc & [-> ->])|(m & Hc & ->)];
    apply runs_load in Hc as [[e Ho] Hc]; [|done].
  split; [done|]. by rewrite app_nil_r.
Qed.

End bootstrap.
