(* ===== verification/Main.v ===== *)
(** * cmd/main.go

    The start of the operator as a program over the calls of controller-runtime:
    from the parsed flags to the two running managers. The calls of the library
    are events whose answer is their error; a log line is not an event. *)

From S2P Require Import Prelude GoLib Effects KubeApi ConfigTypes Calls.
From S2P Require Import ConfigurationController NodeController HealthCheck Bootstrap.
Local Open Scope kube_scope.
Local Open Scope list_scope.
Local Open Scope string_scope.

(** ** Flags *)

Definition DefaultVersion : string := "v1.16.2".

Record flags := mkFlags {
  metricsAddr : string;
  probeAddr : string;
  enableLeaderElection : bool;
  secureMetrics : bool;
  webhookCertPath : string;
  webhookCertName : string;
  webhookCertKey : string;
  metricsCertPath : string;
  metricsCertName : string;
  metricsCertKey : string;
  enableHTTP2 : bool;
  flag_namespace : string;
  flag_version : string;
  flag_debug : bool;
  healthCheckInterval : Z
}.

(** The values without any argument on the command line. *)
Definition defaultFlags : flags :=
  mkFlags "0" ":8081" false true "" "tls.crt" "tls.key" "" "tls.crt" "tls.key" false "" DefaultVersion
    false 300.

(** ** The library *)

Inductive certificate := MetricsCert | WebhookCert.

(** The functions of a list of TLS options. *)
Inductive tlsOpt := DisableHTTP2 | GetCertificate (c : certificate).

Record metricsOptions := mkMetricsOptions {
  mo_BindAddress : string;
  mo_SecureServing : bool;
  mo_FilterProvider : bool;
  mo_TLSOpts : list tlsOpt
}.

Inductive manager := ControllerManager | WebhookManager.

Record managerOptions := mkManagerOptions {
  mgr_Metrics : metricsOptions;
  mgr_HealthProbeBindAddress : string;
  mgr_LeaderElection : bool;
  mgr_LeaderElectionID : string;
  mgr_DefaultNamespaces : list string;
  mgr_WebhookServer : option (list tlsOpt)
}.

(** [filepath.Join] of its elements. *)
Inductive path := path_Join (elements : list string).

(** What is registered with a manager, and what is added to it. *)
Inductive registration :=
| RegConfiguration (r : ConfigurationReconciler)
| RegNode (r : NodeReconciler)
| RegHealthCheck (r : HealthCheckReconciler)
| RegWebhook.
Inductive runnable := RunBootstrapper (b : ConfigurationBootstrapper) | RunCertWatcher (c : certificate).

Inductive mainE `{KubeLib} : Type -> Type :=
| SetLogger (development debug : bool) : mainE unit
| NewCertWatcher (c : certificate) (cert key : path) : mainE (option error)
| GetConfigOrDie : mainE (option error)
| NewManager (m : manager) (o : managerOptions) : mainE (option error)
| SetupSignalHandler : mainE unit
| SetupWithManager (r : registration) (m : manager) : mainE (option error)
| AddRunnable (r : runnable) (m : manager) : mainE (option error)
| AddHealthzCheck (name : string) (m : manager) : mainE (option error)
| AddReadyzCheck (name : string) (m : manager) : mainE (option error)
(** the [go] statement, and the blocking call the goroutine and [main] end in *)
| Go (m : manager) : mainE unit
| StartManager (m : manager) : mainE (option error).

(** How [main] ends: [os.Exit], or a return. *)
Inductive ended := Exit (code : Z) | Return.

(** ** main *)

Section main.
Context `{KL : KubeLib} (f : flags).

Abbreviation setup := (prog mainE).

(** [if err := ...; err != nil { setupLog.Error(...); os.Exit(1) }]. *)
Definition or_exit (e : mainE (option error)) (k : setup ended) : setup ended :=
  err <- call e ;;
  match err with Some _ => Ret (Exit 1) | None => k end.

(** The same without the exit: the error is only logged. *)
Definition or_log (e : mainE (option error)) (k : setup ended) : setup ended :=
  call e ;;; k.

Definition nonEmptyPath (p : string) : bool := (0 <? String.length p)%nat.

(** [zap.Options]: development mode and the debug level. *)
Definition setLogger (k : setup ended) : setup ended :=
  call (SetLogger (flag_debug f) (flag_debug f)) ;;; k.

Definition tlsOpts : list tlsOpt := if negb (enableHTTP2 f) then [DisableHTTP2] else [].

Definition webhookTLSOpts : list tlsOpt :=
  tlsOpts ++ (if nonEmptyPath (webhookCertPath f) then [GetCertificate WebhookCert] else []).

Definition newWebhookCertWatcher (k : setup ended) : setup ended :=
  if nonEmptyPath (webhookCertPath f) then
    or_exit (NewCertWatcher WebhookCert
      (path_Join [webhookCertPath f; webhookCertName f])
      (path_Join [webhookCertPath f; webhookCertKey f])) k
  else k.

Definition metricsServerOptions : metricsOptions :=
  mkMetricsOptions (metricsAddr f) (secureMetrics f) (secureMetrics f)
    (tlsOpts ++ (if nonEmptyPath (metricsCertPath f) then [GetCertificate MetricsCert] else [])).

Definition newMetricsCertWatcher (k : setup ended) : setup ended :=
  if nonEmptyPath (metricsCertPath f) then
    or_exit (NewCertWatcher MetricsCert
      (path_Join [metricsCertPath f; metricsCertName f])
      (path_Join [metricsCertPath f; metricsCertKey f])) k
  else k.

Definition newManager (k : setup ended) : setup ended :=
  or_exit GetConfigOrDie
    (or_exit (NewManager ControllerManager
       (mkManagerOptions metricsServerOptions (probeAddr f) (enableLeaderElection f)
          "1d231218.my.domain" [flag_namespace f] None)) k).

Definition configurationReconciler : ConfigurationReconciler :=
  mkConfigurationReconciler (flag_namespace f) (flag_version f).
Definition nodeReconciler : NodeReconciler := mkNodeReconciler (flag_namespace f).
Definition healthCheckReconciler : HealthCheckReconciler :=
  mkHealthCheckReconciler (flag_namespace f) (healthCheckInterval f).
Definition bootstrapper : ConfigurationBootstrapper :=
  mkConfigurationBootstrapper (flag_namespace f).

Definition setupConfiguration (k : setup ended) : setup ended :=
  or_exit (SetupWithManager (RegConfiguration configurationReconciler) ControllerManager) k.
Definition setupNode (k : setup ended) : setup ended :=
  or_log (SetupWithManager (RegNode nodeReconciler) ControllerManager) k.
Definition setupHealthCheck (k : setup ended) : setup ended :=
  or_log (SetupWithManager (RegHealthCheck healthCheckReconciler) ControllerManager) k.

Definition newWebhookManager (k : setup ended) : setup ended :=
  or_exit GetConfigOrDie
    (or_exit (NewManager WebhookManager
       (mkManagerOptions (mkMetricsOptions "" false false []) "" false "" [] (Some webhookTLSOpts))) k).

Definition setupWebhook (k : setup ended) : setup ended :=
  or_exit (SetupWithManager RegWebhook WebhookManager) k.

Definition addBootstrapper (k : setup ended) : setup ended :=
  or_exit (AddRunnable (RunBootstrapper bootstrapper) ControllerManager) k.

Definition addMetricsCertWatcher (k : setup ended) : setup ended :=
  if nonEmptyPath (metricsCertPath f) then
    or_exit (AddRunnable (RunCertWatcher MetricsCert) ControllerManager) k
  else k.
Definition addWebhookCertWatcher (k : setup ended) : setup ended :=
  if nonEmptyPath (webhookCertPath f) then
    or_exit (AddRunnable (RunCertWatcher WebhookCert) WebhookManager) k
  else k.

Definition addChecks (k : setup ended) : setup ended :=
  or_exit (AddHealthzCheck "healthz" ControllerManager)
    (or_exit (AddReadyzCheck "readyz" ControllerManager) k).

(** The goroutine of the webhook manager. *)
Definition runWebhookManager : setup (option ended) :=
  err <- call (StartManager WebhookManager) ;;
  match err with Some _ => Ret (Some (Exit 1)) | None => Ret None end.

Definition startManagers : setup ended :=
  call (Go WebhookManager) ;;; or_exit (StartManager ControllerManager) (Ret Return).

Definition main : setup ended :=
  setLogger (newWebhookCertWatcher (newMetricsCertWatcher (newManager (
  call SetupSignalHandler ;;;
  setupConfiguration (setupNode (setupHealthCheck (
  newWebhookManager (setupWebhook (
  addBootstrapper (addMetricsCertWatcher (addWebhookCertWatcher (addChecks
  startManagers)))))))))))).

End main.

(** ** The process *)

Section process.
Context `{KL : KubeLib}.

(** The [go] statement, the only one of the program. *)
Definition is_Go {X} (e : mainE X) : bool := match e with Go _ => true | _ => false end.

(** One call of a goroutine and its answer. *)
Definition goroutine_step {A} (p : prog mainE A) (ob : obs mainE) (p' : prog mainE A) : Prop :=
  match p with Vis e k => exists x, ob = Obs e x /\ p' = k x | _ => False end.

(** The second goroutine after an event of the first: [go] starts it. *)
Definition spawned (ob : obs mainE) (g : option (prog mainE (option ended))) :
    option (prog mainE (option ended)) :=
  match ob with Obs e _ => if is_Go e then Some runWebhookManager else g end.

(** The runs of the process from a state in which [main] has [p] left to run
    and the goroutine of the webhook manager, if it was started, [g]. The two
    interleave; an event is the return of a call. The process ends when [main]
    does, or when the goroutine calls [os.Exit]: [o] is how. *)
Inductive process : prog mainE ended -> option (prog mainE (option ended)) ->
    trace mainE -> ended -> Prop :=
| process_ends p g o :
    p = Ret o \/ g = Some (Ret (Some o)) -> process p g [] o
| process_main p p' g ob t o :
    goroutine_step p ob p' -> process p' (spawned ob g) t o -> process p g (ob :: t) o
| process_goroutine p g g' ob t o :
    goroutine_step g ob g' -> process p (Some g') t o -> process p (Some g) (ob :: t) o.

End process.
