(* ===== verification/TextTemplate.v ===== *)
(** * The part of Go's text/template (and fmt) the operator's templates use

    The operator renders its objects from templates with the standard library
    package [text/template]. This file follows the documented behaviour of that
    package: the values a template ranges over, the lexer with its trim
    markers, the parser, the execution of actions, and the printing of values.
    The functions a template may call come in a table ([funcmap]); the built-in
    ones are defined here, those of the sprig library are parameters of
    [Render].

    All functions are total: the lexer runs down the characters, the parser
    down the tokens with an explicit stack, and the execution down the tree. *)

From Stdlib Require Import Ascii.
From S2P Require Import Prelude GoLib.

Local Open Scope kube_scope.
Local Open Scope string_scope.

(** ** Values *)

(** The Go values that occur: those of decoded JSON ([float64] for every
    number), [int], the fractional literal of the version, a certificate of
    the sprig library, and structs. [VNil] is a nil interface. *)
Inductive value :=
| VNil
| VBool (b : bool)
| VInt (z : Z)
| VFloat (z : Z)
| VFrac (text : string)
| VString (s : string)
| VList (l : list value)
| VMap (m : list (string * value))
| VCert (cert key : string)
| VStruct (fields : list (string * value)).

(** A [reflect.Value]: [None] is the invalid (zero) value. *)
Abbreviation rvalue := (option value).

Fixpoint assoc {A} (k : string) (l : list (string * A)) : option A :=
  match l with
  | [] => None
  | (k', v) :: l' => if String.eqb k' k then Some v else assoc k l'
  end.

(** Insert or replace a key. *)
Fixpoint assoc_set {A} (k : string) (v : A) (l : list (string * A)) : list (string * A) :=
  match l with
  | [] => [(k, v)]
  | (k', v') :: l' => if String.eqb k' k then (k, v) :: l' else (k', v') :: assoc_set k v l'
  end.

(** Truth of a value ([template.IsTrue]). *)
Definition truth (v : rvalue) : bool :=
  match v with
  | None | Some VNil => false
  | Some (VBool b) => b
  | Some (VInt z) | Some (VFloat z) => negb (Z.eqb z 0)
  | Some (VFrac _) => true
  | Some (VString s) => negb (String.eqb s "")
  | Some (VList l) => match l with [] => false | _ => true end
  | Some (VMap m) => match m with [] => false | _ => true end
  | Some (VCert _ _) | Some (VStruct _) => true
  end.

(** ** Printing *)

Section printing.
Local Open Scope Z_scope.

(** The [float64] nearest to an integer (ties to even); 53 bits of mantissa. *)
Definition float64_of_int (z : Z) : Z :=
  let a := Z.abs z in
  let e := Z.max 0 (Z.log2 a - 52) in
  let q := Z.shiftr a e in
  let r := a - Z.shiftl q e in
  let half := Z.shiftl 1 (e - 1) in
  let up := (0 <? e) && ((half <? r) || ((half =? r) && Z.odd q)) in
  Z.sgn z * Z.shiftl (if up then q + 1 else q) e.

(** Number of decimal digits of a positive integer. *)
Fixpoint digits_fuel (fuel : nat) (z : Z) : nat :=
  match fuel with
  | O => O
  | S n => if z =? 0 then O else S (digits_fuel n (z / 10))
  end.
Definition digits (z : Z) : nat := digits_fuel (S (Z.to_nat (Z.log2 z))) z.

(** [a] rounded to its [n] leading decimal digits, and that number of digits'
    unit. *)
Definition round_digits (a : Z) (n : nat) : Z :=
  let u := 10 ^ (Z.of_nat (digits a) - Z.of_nat n) in
  if (Z.of_nat (digits a) <=? Z.of_nat n) then a else ((a + u / 2) / u) * u.

(** The shortest decimal that reads back as the same [float64]. *)
Fixpoint shortest_from (a : Z) (n fuel : nat) : Z :=
  match fuel with
  | O => a
  | S f =>
      let c := round_digits a n in
      if float64_of_int c =? a then c else shortest_from a (S n) f
  end.
Definition shortest (a : Z) : Z := shortest_from a 1 17.

Fixpoint strip_zeros_fuel (fuel : nat) (z : Z) : Z :=
  match fuel with
  | O => z
  | S n => if (z mod 10 =? 0) && negb (z =? 0) then strip_zeros_fuel n (z / 10) else z
  end.

End printing.

(** A mantissa with its decimal point after the first digit. *)
Definition mantissa (s : string) : string :=
  match s with
  | String c "" => s
  | String c rest => String c ("." +:+ rest)
  | "" => ""
  end.

(** An exponent has at least two digits. *)
Definition exponent (n : nat) : string :=
  if (n <? 10)%nat then "0" +:+ pretty n else pretty n.

(** [%v] of an integral [float64]: the shortest digits, in the %e form when the
    exponent is 6 or more ([strconv] uses 6 for the shortest format). *)
Definition print_float (z : Z) : string :=
  let a := shortest (Z.abs z) in
  let sign := if (z <? 0)%Z then "-" else "" in
  let exp := (digits a - 1)%nat in
  if (6 <=? exp)%nat then
    sign +:+ mantissa (pretty (strip_zeros_fuel (digits a) a)) +:+ "e+" +:+ exponent exp
  else sign +:+ pretty a.

Fixpoint join_with (sep : string) (l : list string) : string :=
  match l with
  | [] => ""
  | [x] => x
  | x :: l' => x +:+ sep +:+ join_with sep l'
  end.

(** [fmt.Fprint] of a value; maps print in the order of their keys. *)
Fixpoint print_value (v : value) : string :=
  match v with
  | VNil => "<nil>"
  | VBool b => if b then "true" else "false"
  | VInt z => pretty z
  | VFloat z => print_float z
  | VFrac text => text
  | VString s => s
  | VList l => "[" +:+ join_with " " (map print_value l) +:+ "]"
  | VMap m =>
      "map[" +:+ join_with " "
        (slices_Sort (map (fun kv => let '(k, v) := kv in k +:+ ":" +:+ print_value v) m)) +:+ "]"
  | VCert cert key => "{" +:+ cert +:+ " " +:+ key +:+ "}"
  | VStruct fields =>
      "{" +:+ join_with " " (map (fun kv => let '(_, v) := kv in print_value v) fields) +:+ "}"
  end.

(** What an action prints: an invalid value prints as [<no value>]. *)
Definition print_rvalue (v : rvalue) : string :=
  match v with
  | None => "<no value>"
  | Some v => print_value v
  end.

(** ** Lexer *)

Inductive token :=
| TIdent (s : string)
| TField (s : string)
| TDot
| TVar (s : string)
| TStr (s : string)
| TNum (z : Z)
| TPipe | TDeclare | TAssign | TComma | TLParen | TRParen | TSpace.

(** A template is a sequence of texts and actions. *)
Inductive item :=
| IText (s : string)
| IAction (l : list token).

Section lexer.
Local Open Scope char_scope.

Definition newline : ascii := "010".
Definition tab : ascii := "009".
Definition return_char : ascii := "013".
Definition quote_char : ascii := "034".

Definition is_space (c : ascii) : bool :=
  Ascii.eqb c " " || Ascii.eqb c newline || Ascii.eqb c tab || Ascii.eqb c return_char.

Definition in_range (lo hi c : ascii) : bool :=
  (nat_of_ascii lo <=? nat_of_ascii c)%nat && (nat_of_ascii c <=? nat_of_ascii hi)%nat.
Definition is_digit (c : ascii) : bool := in_range "0" "9" c.
Definition is_alnum (c : ascii) : bool :=
  in_range "a" "z" c || in_range "A" "Z" c || is_digit c || Ascii.eqb c "_".

(** Accumulators are strings in reverse. *)
Fixpoint rev_onto (s acc : string) : string :=
  match s with
  | EmptyString => acc
  | String c s' => rev_onto s' (String c acc)
  end.
Definition rev_string (s : string) : string := rev_onto s EmptyString.

(** Drop the leading white space (the trailing one of a reversed text). *)
Fixpoint trim_left (s : string) : string :=
  match s with
  | EmptyString => EmptyString
  | String c s' => if is_space c then trim_left s' else s
  end.

(** Words of an action: identifiers, fields and variables, and numbers. *)
Inductive word := WIdent | WField | WVar | WNum.

Fixpoint number (s : string) (acc : Z) : option Z :=
  match s with
  | EmptyString => Some acc
  | String c s' =>
      if is_digit c
      then number s' (acc * 10 + Z.of_nat (nat_of_ascii c - nat_of_ascii "0"))%Z
      else None
  end.

Definition starts_with_digit (s : string) : bool :=
  match s with String c _ => is_digit c | EmptyString => false end.

Definition word_token (w : word) (acc : string) : res string token :=
  let s := rev_string acc in
  match w with
  | WIdent => Ok (TIdent s)
  | WField =>
      if starts_with_digit s then Err "unsupported number"%string
      else Ok (match s with EmptyString => TDot | _ => TField s end)
  | WVar => Ok (TVar s)
  | WNum => match number s 0 with Some z => Ok (TNum z) | None => Err "bad number"%string end
  end.

(** What may follow a word. *)
Definition is_terminator (c : ascii) : bool :=
  is_space c || Ascii.eqb c "." || Ascii.eqb c "," || Ascii.eqb c "|" || Ascii.eqb c ":" ||
  Ascii.eqb c ")" || Ascii.eqb c "(" || Ascii.eqb c "}".

(** The state of the lexer: in a text (with its reversed characters, and
    whether white space is still being trimmed), in an action (with its
    reversed tokens), in a word or in a string of an action. *)
Inductive lstate :=
| LText (acc : string) (trimming : bool)
| LAction (toks : list token)
| LWord (toks : list token) (w : word) (acc : string)
| LString (toks : list token) (acc : string).

Definition emit_text (acc : string) (items : list item) : list item :=
  match acc with
  | EmptyString => items
  | _ => IText (rev_string acc) :: items
  end.

(** A character that starts a token of an action. *)
Definition start_word (toks : list token) (c : ascii) : res string lstate :=
  if is_space c then Ok (LAction (TSpace :: toks))
  else if Ascii.eqb c "|" then Ok (LAction (TPipe :: toks))
  else if Ascii.eqb c "(" then Ok (LAction (TLParen :: toks))
  else if Ascii.eqb c ")" then Ok (LAction (TRParen :: toks))
  else if Ascii.eqb c "," then Ok (LAction (TComma :: toks))
  else if Ascii.eqb c "=" then Ok (LAction (TAssign :: toks))
  else if Ascii.eqb c "." then Ok (LWord toks WField EmptyString)
  else if Ascii.eqb c "$" then Ok (LWord toks WVar EmptyString)
  else if Ascii.eqb c quote_char then Ok (LString toks EmptyString)
  else if is_digit c then Ok (LWord toks WNum (String c EmptyString))
  else if is_alnum c then Ok (LWord toks WIdent (String c EmptyString))
  else Err "unexpected character in action"%string.

Fixpoint lex_go (st : lstate) (items : list item) (s : string) : res string (list item) :=
  match s with
  | EmptyString =>
      match st with
      | LText acc _ => Ok (rev (emit_text acc items))
      | _ => Err "unclosed action"%string
      end
  | String c s1 =>
      let action := fun toks =>
        match s1 with
        | String c2 s2 =>
            if Ascii.eqb c "}" && Ascii.eqb c2 "}" then
              lex_go (LText EmptyString false) (IAction (rev toks) :: items) s2
            else if Ascii.eqb c ":" && Ascii.eqb c2 "=" then
              lex_go (LAction (TDeclare :: toks)) items s2
            else
              match s2 with
              | String c3 (String c4 s4) =>
                  if is_space c && Ascii.eqb c2 "-" && Ascii.eqb c3 "}" && Ascii.eqb c4 "}" then
                    lex_go (LText EmptyString true) (IAction (rev toks) :: items) s4
                  else
                    match start_word toks c with
                    | Ok st' => lex_go st' items s1
                    | Err e => Err e
                    end
              | _ =>
                  match start_word toks c with
                  | Ok st' => lex_go st' items s1
                  | Err e => Err e
                  end
              end
        | EmptyString => Err "unclosed action"%string
        end in
      match st with
      | LText acc trimming =>
          match s1 with
          | String c2 s2 =>
              if Ascii.eqb c "{" && Ascii.eqb c2 "{" then
                match s2 with
                | String c3 (String c4 s4) =>
                    if Ascii.eqb c3 "-" && is_space c4
                    then lex_go (LAction []) (emit_text (trim_left acc) items) s4
                    else lex_go (LAction []) (emit_text acc items) s2
                | _ => Err "unclosed action"%string
                end
              else if trimming && is_space c then lex_go st items s1
              else lex_go (LText (String c acc) false) items s1
          | EmptyString =>
              if trimming && is_space c then lex_go st items s1
              else lex_go (LText (String c acc) false) items s1
          end
      | LAction toks => action toks
      | LWord toks w acc =>
          if is_alnum c then lex_go (LWord toks w (String c acc)) items s1
          else if is_terminator c then
            match word_token w acc with
            | Ok t => action (t :: toks)
            | Err e => Err e
            end
          else Err "bad character after word"%string
      | LString toks acc =>
          if Ascii.eqb c quote_char then lex_go (LAction (TStr (rev_string acc) :: toks)) items s1
          else if Ascii.eqb c "\" then Err "unsupported escape"%string
          else if Ascii.eqb c newline then Err "unterminated quoted string"%string
          else lex_go (LString toks (String c acc)) items s1
      end
  end.

Definition lex (s : string) : res string (list item) :=
  lex_go (LText EmptyString false) [] s.

End lexer.

(** ** Parse trees *)

Inductive expr :=
| EDot
| ENil
| EBool (b : bool)
| EStr (s : string)
| ENum (z : Z)
| EField (path : list string)
| EVar (name : string) (path : list string)
| EIdent (f : string)
| EParen (cmds : list (list expr)).

(** A pipeline, with the variables it declares or assigns. *)
Inductive declaration :=
| NoDecl
| NewVar (names : list string)
| Assign (name : string).

Record pipe := mkPipe { p_decl : declaration; p_cmds : list (list expr) }.

Inductive node :=
| NText (s : string)
| NAction (p : pipe)
| NIf (p : pipe) (thn els : list node)
| NRange (p : pipe) (body els : list node)
| NWith (p : pipe) (thn els : list node).

(** ** Parser *)

Section parser.
(** The functions the template may call. *)
Variable funcs : list string.

Definition flush (pend : option expr) (cmd : list expr) : list expr :=
  match pend with Some e => e :: cmd | None => cmd end.

Definition ident_expr (f : string) : res string expr :=
  if String.eqb f "true" then Ok (EBool true)
  else if String.eqb f "false" then Ok (EBool false)
  else if String.eqb f "nil" then Ok ENil
  else if existsb (String.eqb f) funcs then Ok (EIdent f)
  else Err ("function " +:+ f +:+ " not defined").

(** Only the first command of a pipeline may start with a constant. *)
Definition executable (cmd : list expr) : bool :=
  match cmd with
  | (EDot | ENil | EBool _ | EStr _ | ENum _) :: _ => false
  | _ => true
  end.

Definition close_command (cmds : list (list expr)) (cmd : list expr) :
    res string (list (list expr)) :=
  match rev cmd with
  | [] => Err "missing value for command"
  | cmd' =>
      match cmds with
      | [] => Ok [cmd']
      | _ => if executable cmd' then Ok (cmd' :: cmds)
             else Err "non executable command in pipeline"
      end
  end.

(** Operands of one action: [stack] holds the open parentheses, [cmds] and
    [cmd] the commands so far (reversed), [pend] the operand being read. *)
Fixpoint parse_operands (stack : list (list (list expr) * list expr))
    (cmds : list (list expr)) (cmd : list expr) (pend : option expr) (toks : list token) :
    res string (list (list expr)) :=
  match toks with
  | [] =>
      match stack with
      | [] => cmds' <-? close_command cmds (flush pend cmd) ; Ok (rev cmds')
      | _ => Err "unclosed left paren"
      end
  | t :: toks' =>
      let operand := fun e =>
        match pend with
        | None => parse_operands stack cmds cmd (Some e) toks'
        | Some _ => Err "unexpected operand"
        end in
      match t with
      | TSpace => parse_operands stack cmds (flush pend cmd) None toks'
      | TDot => operand EDot
      | TVar x => operand (EVar x [])
      | TStr s => operand (EStr s)
      | TNum z => operand (ENum z)
      | TIdent f => e <-? ident_expr f ; operand e
      | TField f =>
          match pend with
          | None => parse_operands stack cmds cmd (Some (EField [f])) toks'
          | Some (EField p) => parse_operands stack cmds cmd (Some (EField (p ++ [f]))) toks'
          | Some (EVar x p) => parse_operands stack cmds cmd (Some (EVar x (p ++ [f]))) toks'
          | Some _ => Err "unsupported field chain"
          end
      | TPipe =>
          cmds' <-? close_command cmds (flush pend cmd) ;
          parse_operands stack cmds' [] None toks'
      | TLParen =>
          match pend with
          | None => parse_operands ((cmds, cmd) :: stack) [] [] None toks'
          | Some _ => Err "unexpected ("
          end
      | TRParen =>
          match stack with
          | [] => Err "unexpected right paren"
          | (cmds0, cmd0) :: stack' =>
              cmds' <-? close_command cmds (flush pend cmd) ;
              parse_operands stack' cmds0 cmd0 (Some (EParen (rev cmds'))) toks'
          end
      | TDeclare | TAssign | TComma => Err "unexpected token in operand"
      end
  end.

Fixpoint skip_spaces (toks : list token) : list token :=
  match toks with
  | TSpace :: toks' => skip_spaces toks'
  | _ => toks
  end.

(** The declaration at the head of a pipeline; only [range] takes two
    variables. *)
Definition parse_pipe (two : bool) (toks : list token) : res string pipe :=
  let pipe_of := fun d toks =>
    cmds <-? parse_operands [] [] [] None toks ; Ok (mkPipe d cmds) in
  let toks := skip_spaces toks in
  match toks with
  | TVar x :: rest =>
      match skip_spaces rest with
      | TDeclare :: rest' => pipe_of (NewVar [x]) rest'
      | TAssign :: rest' => pipe_of (Assign x) rest'
      | TComma :: rest' =>
          match skip_spaces rest' with
          | TVar y :: rest'' =>
              match skip_spaces rest'' with
              | TDeclare :: rest3 =>
                  if two then pipe_of (NewVar [x; y]) rest3 else Err "too many declarations"
              | _ => Err "unexpected token after variables"
              end
          | _ => Err "range can only initialize variables"
          end
      | _ => pipe_of NoDecl toks
      end
  | _ => pipe_of NoDecl toks
  end.

Inductive block := BIf | BRange | BWith.

(** An open block: its nodes so far (reversed), the nodes of the main branch
    once [else] was read, and whether it is an [else if], which ends with its
    parent. *)
Record frame := mkFrame {
  fr_block : block;
  fr_pipe : pipe;
  fr_main : option (list node);
  fr_chained : bool;
  fr_outer : list node
}.

Definition block_node (b : block) (p : pipe) (thn els : list node) : node :=
  match b with
  | BIf => NIf p thn els
  | BRange => NRange p thn els
  | BWith => NWith p thn els
  end.

(** [{{ end }}]: close the innermost block, and its parents while they are
    closed by the same end. [nodes] are the reversed nodes of the branch. *)
Fixpoint close_blocks (stack : list frame) (nodes : list node) :
    res string (list frame * list node) :=
  match stack with
  | [] => Err "unexpected end"
  | f :: stack' =>
      let n := match fr_main f with
               | None => block_node (fr_block f) (fr_pipe f) (rev nodes) []
               | Some thn => block_node (fr_block f) (fr_pipe f) thn (rev nodes)
               end in
      let nodes' := n :: fr_outer f in
      if fr_chained f then close_blocks stack' nodes' else Ok (stack', nodes')
  end.

Definition open_block (b : block) (chained : bool) (stack : list frame) (nodes : list node)
    (toks : list token) : res string (list frame * list node) :=
  p <-? parse_pipe (match b with BRange => true | _ => false end) toks ;
  Ok (mkFrame b p None chained nodes :: stack, []).

Definition parse_action (toks : list token) (stack : list frame) (nodes : list node) :
    res string (list frame * list node) :=
  match skip_spaces toks with
  | TIdent k :: rest =>
      if String.eqb k "if" then open_block BIf false stack nodes rest
      else if String.eqb k "range" then open_block BRange false stack nodes rest
      else if String.eqb k "with" then open_block BWith false stack nodes rest
      else if String.eqb k "end" then
        match skip_spaces rest with
        | [] => close_blocks stack nodes
        | _ => Err "unexpected token in end"
        end
      else if String.eqb k "else" then
        match stack with
        | mkFrame b p None chained outer :: stack' =>
            let stack := mkFrame b p (Some (rev nodes)) chained outer :: stack' in
            match skip_spaces rest with
            | [] => Ok (stack, [])
            | TIdent k' :: rest' =>
                match b with
                | BIf => if String.eqb k' "if" then open_block BIf true stack [] rest'
                         else Err "unexpected token in else"
                | _ => Err "unexpected token in else"
                end
            | _ => Err "unexpected token in else"
            end
        | _ => Err "unexpected else"
        end
      else
        p <-? parse_pipe false toks ;
        Ok (stack, NAction p :: nodes)
  | _ =>
      p <-? parse_pipe false toks ;
      Ok (stack, NAction p :: nodes)
  end.

Fixpoint parse_items (items : list item) (stack : list frame) (nodes : list node) :
    res string (list node) :=
  match items with
  | [] => match stack with [] => Ok (rev nodes) | _ => Err "unexpected EOF" end
  | IText s :: items' => parse_items items' stack (NText s :: nodes)
  | IAction toks :: items' =>
      st <-? parse_action toks stack nodes ;
      parse_items items' st.1 st.2
  end.

End parser.

(** *** Variables are defined before use

    [$] is always defined. A declaration is visible to the end of its block. *)

Fixpoint expr_vars (e : expr) : list string :=
  match e with
  | EVar x _ => [x]
  | EParen cmds => flat_map (fun cmd => flat_map expr_vars cmd) cmds
  | _ => []
  end.

Definition pipe_vars (p : pipe) : list string :=
  app (flat_map (fun cmd => flat_map expr_vars cmd) (p_cmds p))
    (match p_decl p with Assign x => [x] | _ => [] end).

Definition declared (p : pipe) : list string :=
  match p_decl p with NewVar names => names | _ => [] end.

Definition scope_pipe (scope : list string) (p : pipe) : option (list string) :=
  if forallb (fun x => existsb (String.eqb x) scope) (pipe_vars p)
  then Some (app (declared p) scope) else None.

Fixpoint scope_node (n : node) (scope : list string) : option (list string) :=
  let scope_list := fix scope_list (l : list node) (scope : list string) :=
    match l with
    | [] => Some scope
    | n :: l' =>
        match scope_node n scope with
        | Some scope' => scope_list l' scope'
        | None => None
        end
    end in
  match n with
  | NText _ => Some scope
  | NAction p => scope_pipe scope p
  | NIf p l1 l2 | NRange p l1 l2 | NWith p l1 l2 =>
      match scope_pipe scope p with
      | None => None
      | Some inner =>
          match scope_list l1 inner, scope_list l2 inner with
          | Some _, Some _ => Some scope
          | _, _ => None
          end
      end
  end.

Fixpoint scope_list (l : list node) (scope : list string) : option (list string) :=
  match l with
  | [] => Some scope
  | n :: l' =>
      match scope_node n scope with
      | Some scope' => scope_list l' scope'
      | None => None
      end
  end.

(** [template.New(name).Funcs(f).Parse(text)]. *)
Definition Parse (funcs : list string) (text : string) : res string (list node) :=
  items <-? lex text ;
  nodes <-? parse_items funcs items [] [] ;
  match scope_list nodes [""] with
  | Some _ => Ok nodes
  | None => Err "undefined variable"
  end.

(** ** Execution *)

(** An argument of a call: an integer constant and [nil] take their type from
    the parameter, everything else is a value. *)
Inductive argument :=
| ANum (z : Z)
| ANilConst
| AVal (v : rvalue).

(** A function of the table: it checks the number and the types of its
    arguments, as the call by reflection does. *)
Definition func := list argument -> res string rvalue.
Definition funcmap := list (string * func).

Section exec.
Variable fm : funcmap.

Abbreviation vars := (list (string * rvalue)).

(** "dig down one level": a nil interface becomes the invalid value. *)
Definition dig (v : rvalue) : rvalue :=
  match v with Some VNil => None | _ => v end.

Definition evalField (hasArgs : bool) (receiver : rvalue) (name : string) : res string rvalue :=
  match receiver with
  | None => Ok None
  | Some VNil => Err ("nil pointer evaluating interface {}." +:+ name)
  | Some (VMap m) =>
      if hasArgs then Err (name +:+ " is not a method but has arguments") else Ok (assoc name m)
  | Some (VStruct fields) =>
      match assoc name fields with
      | Some v => if hasArgs then Err (name +:+ " has arguments but cannot be invoked as function")
                  else Ok (Some v)
      | None => Err ("can't evaluate field " +:+ name)
      end
  | Some (VCert cert key) =>
      if String.eqb name "Cert" then Ok (Some (VString cert))
      else if String.eqb name "Key" then Ok (Some (VString key))
      else Err ("can't evaluate field " +:+ name)
  | Some _ => Err ("can't evaluate field " +:+ name)
  end.

(** Only the last field of a chain gets the arguments. *)
Fixpoint evalFieldChain (hasArgs : bool) (receiver : rvalue) (path : list string) :
    res string rvalue :=
  match path with
  | [] => Ok receiver
  | [name] => evalField hasArgs receiver name
  | name :: path' =>
      v <-? evalField false receiver name ;
      evalFieldChain hasArgs v path'
  end.

Definition varValue (vs : vars) (x : string) : res string rvalue :=
  match assoc x vs with
  | Some v => Ok v
  | None => Err ("undefined variable: " +:+ x)
  end.

Definition notAFunction (hasArgs : bool) (v : res string rvalue) : res string rvalue :=
  if hasArgs then Err "can't give argument to non-function" else v.

Definition findFunction (name : string) : res string func :=
  match assoc name fm with
  | Some f => Ok f
  | None => Err (name +:+ " is not a defined function")
  end.

(** [or] evaluates its arguments up to the first true one. *)
Fixpoint eval_or (args : list (res string argument)) (last : rvalue) : res string rvalue :=
  match args with
  | [] => Ok last
  | a :: args' =>
      a <-? a ;
      let v := match a with ANum z => Some (VInt z) | ANilConst => None | AVal v => v end in
      if truth v then Ok v else eval_or args' v
  end.

Fixpoint collect {E A} (l : list (res E A)) : res E (list A) :=
  match l with
  | [] => Ok []
  | r :: l' => a <-? r ; rest <-? collect l' ; Ok (a :: rest)
  end.

(** A call, on the arguments and the final value of the pipeline. *)
Definition evalCall (name : string) (args : list (res string argument)) (final : option rvalue) :
    res string rvalue :=
  let all := app args (match final with Some v => [Ok (AVal v)] | None => [] end) in
  if String.eqb name "or" then
    match all with [] => Err "wrong number of args for or" | _ => eval_or all None end
  else
    f <-? findFunction name ;
    argv <-? collect all ;
    f argv.

(** One command, given the evaluation of its words as arguments. A first word
    in parentheses is a pipeline: its value is its value as an argument. *)
Definition evalCommand (dot : rvalue) (vs : vars) (arg : expr -> res string argument)
    (cmd : list expr) (final : option rvalue) : res string rvalue :=
  match cmd with
  | [] => Err "empty command"
  | first :: rest =>
      let hasArgs := match rest, final with [], None => false | _, _ => true end in
      match first with
      | EIdent f => evalCall f (map arg rest) final
      | EField path => evalFieldChain hasArgs dot path
      | EVar x [] => notAFunction hasArgs (varValue vs x)
      | EVar x path => v <-? varValue vs x ; evalFieldChain hasArgs v path
      | EParen _ =>
          notAFunction hasArgs
            (a <-? arg first ; match a with AVal v => Ok v | _ => Err "unexpected argument" end)
      | EDot => notAFunction hasArgs (Ok dot)
      | EBool b => notAFunction hasArgs (Ok (Some (VBool b)))
      | EStr s => notAFunction hasArgs (Ok (Some (VString s)))
      | ENum z => notAFunction hasArgs (Ok (Some (VInt z)))
      | ENil => Err "nil is not a command"
      end
  end.

Section pipeline.
Variable command : list expr -> option rvalue -> res string rvalue.

(** The commands of a pipeline, each with the value of the one before. *)
Fixpoint pipeline (cmds : list (list expr)) (final : option rvalue) : res string rvalue :=
  match cmds with
  | [] => match final with Some v => Ok v | None => Err "empty pipeline" end
  | cmd :: cmds' =>
      v <-? command cmd final ;
      pipeline cmds' (Some (dig v))
  end.

End pipeline.

Fixpoint evalArg (dot : rvalue) (vs : vars) (e : expr) : res string argument :=
  match e with
  | ENum z => Ok (ANum z)
  | ENil => Ok ANilConst
  | EBool b => Ok (AVal (Some (VBool b)))
  | EStr s => Ok (AVal (Some (VString s)))
  | EDot => Ok (AVal dot)
  | EField path => v <-? evalFieldChain false dot path ; Ok (AVal v)
  | EVar x path =>
      v <-? varValue vs x ;
      v <-? evalFieldChain false v path ;
      Ok (AVal v)
  | EIdent f => v <-? evalCall f [] None ; Ok (AVal v)
  | EParen cmds => v <-? pipeline (evalCommand dot vs (evalArg dot vs)) cmds None ; Ok (AVal v)
  end.

(** The value of a pipeline. *)
Definition evalPipe (dot : rvalue) (vs : vars) (p : pipe) : res string rvalue :=
  pipeline (evalCommand dot vs (evalArg dot vs)) (p_cmds p) None.

(** Assign to the innermost variable of that name. *)
Fixpoint setVar (vs : vars) (x : string) (v : rvalue) : vars :=
  match vs with
  | [] => []
  | (y, w) :: vs' => if String.eqb y x then (x, v) :: vs' else (y, w) :: setVar vs' x v
  end.

(** The variables after a pipeline of value [v]. *)
Definition bindVars (vs : vars) (d : declaration) (v : rvalue) : vars :=
  match d with
  | NoDecl => vs
  | NewVar names => app (rev (map (fun x => (x, v)) names)) vs
  | Assign x => setVar vs x v
  end.

(** The variables of an iteration: the element is the last declared variable,
    the index the one before. *)
Definition iterVars (vs : vars) (d : declaration) (index elem : rvalue) : res string vars :=
  match d with
  | NoDecl => Ok vs
  | NewVar [x] => Ok ((x, elem) :: vs)
  | NewVar [i; x] => Ok ((x, elem) :: (i, index) :: vs)
  | _ => Err "unsupported range declaration"
  end.

(** Leaving a block pops its variables; assignments to outer ones stay. *)
Definition popTo (n : nat) (vs : vars) : vars := skipn (length vs - n) vs.

(** The elements of a range: their indices and values. *)
Definition elements (v : rvalue) : res string (list (rvalue * rvalue)) :=
  match v with
  | None => Ok []
  | Some (VList l) =>
      Ok (imap (fun i e => (Some (VInt (Z.of_nat i)), Some e)) l)
  | Some (VMap m) =>
      Ok (map (fun k => (Some (VString k), assoc k m)) (slices_Sort (map fst m)))
  | Some _ => Err "range can't iterate over value"
  end.

Section walk_list.
Variable walk : node -> rvalue -> vars -> res string (vars * string).

Fixpoint walk_all (l : list node) (dot : rvalue) (vs : vars) : res string (vars * string) :=
  match l with
  | [] => Ok (vs, "")
  | n :: l' =>
      r <-? walk n dot vs ;
      r' <-? walk_all l' dot r.1 ;
      Ok (r'.1, r.2 +:+ r'.2)
  end.

(** The iterations of a range. *)
Fixpoint iterate (body : rvalue -> vars -> res string (vars * string)) (d : declaration)
    (l : list (rvalue * rvalue)) (vs : vars) : res string (vars * string) :=
  match l with
  | [] => Ok (vs, "")
  | (i, e) :: l' =>
      vs' <-? iterVars vs d i e ;
      r <-? body e vs' ;
      r' <-? iterate body d l' (popTo (length vs) r.1) ;
      Ok (r'.1, r.2 +:+ r'.2)
  end.

End walk_list.

(** Execute a node: the variables after it, and what it wrote. *)
Fixpoint walk (n : node) (dot : rvalue) (vs : vars) : res string (vars * string) :=
  match n with
  | NText s => Ok (vs, s)
  | NAction p =>
      v <-? evalPipe dot vs p ;
      Ok (bindVars vs (p_decl p) v,
          match p_decl p with NoDecl => print_rvalue v | _ => "" end)
  | NIf p thn els =>
      v <-? evalPipe dot vs p ;
      r <-? walk_all walk (if truth v then thn else els) dot (bindVars vs (p_decl p) v) ;
      Ok (popTo (length vs) r.1, r.2)
  | NWith p thn els =>
      v <-? evalPipe dot vs p ;
      let vs' := bindVars vs (p_decl p) v in
      r <-? (if truth v then walk_all walk thn v vs' else walk_all walk els dot vs') ;
      Ok (popTo (length vs) r.1, r.2)
  | NRange p body els =>
      v <-? evalPipe dot vs p ;
      l <-? elements v ;
      r <-? match l with
            | [] => walk_all walk els dot (bindVars vs (p_decl p) v)
            | _ => iterate (walk_all walk body) (p_decl p) l vs
            end ;
      Ok (popTo (length vs) r.1, r.2)
  end.

(** [tmpl.Execute(&output, data)]. *)
Definition Execute (tmpl : list node) (data : rvalue) : res string string :=
  r <-? walk_all walk tmpl data [("", data)] ; Ok r.2.

End exec.

(** ** Built-in functions *)

Definition arg_value (a : argument) : rvalue :=
  match a with ANum z => Some (VInt z) | ANilConst => None | AVal v => dig v end.

Inductive kind := KInvalid | KBool | KInt | KFloat | KString | KOther.
#[export] Instance kind_eq_dec : EqDecision kind.
Proof. solve_decision. Defined.

Definition basicKind (v : rvalue) : kind :=
  match v with
  | None | Some VNil => KInvalid
  | Some (VBool _) => KBool
  | Some (VInt _) => KInt
  | Some (VFloat _) | Some (VFrac _) => KFloat
  | Some (VString _) => KString
  | Some _ => KOther
  end.

(** Equality of two values; the comparison of maps, lists and structs is not
    modelled. *)
Definition eq_values (a b : rvalue) : res string bool :=
  if bool_decide (basicKind a = KOther) || bool_decide (basicKind b = KOther)
  then Err "unsupported comparison"
  else if bool_decide (basicKind a = basicKind b) then
    match a, b with
    | Some (VBool x), Some (VBool y) => Ok (Bool.eqb x y)
    | Some (VInt x), Some (VInt y) => Ok (Z.eqb x y)
    | Some (VFloat x), Some (VFloat y) => Ok (Z.eqb x y)
    | Some (VFrac x), Some (VFrac y) => Ok (String.eqb x y)
    | Some (VString x), Some (VString y) => Ok (String.eqb x y)
    | None, None => Ok true
    | _, _ => Ok false
    end
  else match a, b with
       | None, _ | _, None => Ok false
       | _, _ => Err "incompatible types for comparison"
       end.

(** [eq arg1 arg2...]: is [arg1] equal to one of the others? *)
Fixpoint eq_any (a : rvalue) (l : list rvalue) : res string bool :=
  match l with
  | [] => Ok false
  | b :: l' => t <-? eq_values a b ; if (t : bool) then Ok true else eq_any a l'
  end.

Definition f_eq : func := fun args =>
  match map arg_value args with
  | [] => Err "wrong number of args for eq"
  | [_] => Err "missing argument for comparison"
  | a :: l => t <-? eq_any a l ; Ok (Some (VBool t))
  end.

Definition f_ne : func := fun args =>
  match map arg_value args with
  | [a; b] => t <-? eq_values a b ; Ok (Some (VBool (negb t)))
  | _ => Err "wrong number of args for ne"
  end.

Definition f_gt : func := fun args =>
  match map arg_value args with
  | [Some (VInt x); Some (VInt y)] => Ok (Some (VBool (Z.ltb y x)))
  | [Some (VFloat x); Some (VFloat y)] => Ok (Some (VBool (Z.ltb y x)))
  | [_; _] => Err "unsupported comparison"
  | _ => Err "wrong number of args for gt"
  end.

Definition f_not : func := fun args =>
  match args with
  | [a] => Ok (Some (VBool (negb (truth (arg_value a)))))
  | _ => Err "wrong number of args for not"
  end.

Definition f_len : func := fun args =>
  match args with
  | [a] =>
      match arg_value a with
      | Some (VString s) => Ok (Some (VInt (Z.of_nat (String.length s))))
      | Some (VList l) => Ok (Some (VInt (Z.of_nat (length l))))
      | Some (VMap m) => Ok (Some (VInt (Z.of_nat (length m))))
      | _ => Err "len of value"
      end
  | _ => Err "wrong number of args for len"
  end.

(** [index item i j...] is [item[i][j]...]; a missing key gives a nil interface. *)
Fixpoint index_values (item : rvalue) (indexes : list rvalue) : res string rvalue :=
  match indexes with
  | [] => Ok item
  | i :: rest =>
      match item, i with
      | Some (VMap m), Some (VString k) =>
          index_values (Some (default VNil (assoc k m))) rest
      | Some (VList l), Some (VInt z) =>
          if (0 <=? z)%Z then
            match l !! Z.to_nat z with
            | Some v => index_values (Some v) rest
            | None => Err "index out of range"
            end
          else Err "index out of range"
      | None, _ | Some VNil, _ => Err "index of nil"
      | _, _ => Err "can't index item"
      end
  end.

Definition f_index : func := fun args =>
  match map arg_value args with
  | [] => Err "wrong number of args for index"
  | None :: _ => Err "index of untyped nil"
  | item :: indexes => index_values item indexes
  end.

Definition builtins : funcmap :=
  [("eq", f_eq); ("ne", f_ne); ("gt", f_gt); ("not", f_not); ("len", f_len);
   ("index", f_index)].

(** The names a template may use: [or] is executed by the engine itself. *)
Definition function_names (fm : funcmap) : list string :=
  "or" :: app (map fst fm) (map fst builtins).
