(* ===== verification/TemplateText.v ===== *)
(** * Writing Go raw strings as Rocq strings

    The templates are full of double quotes. They are written here with a caret
    in the place of each double quote (no template holds a caret), and [tpl]
    puts the quotes back. The definitions of the custom resources hold carets,
    in patterns, and no tilde: [verbatim] puts the quotes back there. *)

From Stdlib Require Import Ascii.
From S2P Require Import Prelude.

Definition unquote_char (c : ascii) : ascii :=
  if Ascii.eqb c "^"%char then "034"%char else c.

Fixpoint tpl (s : string) : string :=
  match s with
  | EmptyString => EmptyString
  | String c s' => String (unquote_char c) (tpl s')
  end.

Fixpoint verbatim (s : string) : string :=
  match s with
  | EmptyString => EmptyString
  | String c s' => String (if Ascii.eqb c "~"%char then "034"%char else c) (verbatim s')
  end.
