(* ===== verification/TemplatesRBAC.v ===== *)
(** * Templates: roles, bindings and service accounts

    Namespaced and cluster roles, their bindings, the service accounts. The texts are verbatim: [tpl] stands for the double quote
    with a caret, which occurs in none of them. *)

From S2P Require Import Prelude TemplateText.
Local Open Scope string_scope.

(** ** internal/templates/clusterroles.go *)

Definition system_ovn_clusterrole_part1 : string := tpl "apiVersion: rbac.authorization.k8s.io/v1
kind: ClusterRole
metadata:
  annotations:
    rbac.authorization.k8s.io/system-only: ^true^
  name: system:ovn
rules:
  - apiGroups:
      - ^kubeovn.io^
    resources:
      - vpcs
      - vpcs/status
      - vpc-nat-gateways
      - vpc-nat-gateways/status
      - vpc-egress-gateways
      - vpc-egress-gateways/status
      - subnets
      - subnets/status
      - ippools
      - ippools/status
      - ips
      - vips
      - vips/status
      - vlans
      - vlans/status
      - provider-networks
      - provider-networks/status
      - security-groups
      - security-groups/status
      - iptables-eips
      - iptables-fip-rules
      - iptables-dnat-rules
      - iptables-snat-rules
      - iptables-eips/status
      - iptables-fip-rules/status
      - iptables-dnat-rules/status
      - iptables-snat-rules/status
      - ovn-eips
      - ovn-fips
      - ovn-snat-rules
      - ovn-eips/status
      - ovn-fips/status
      - ovn-snat-rules/status
      - ovn-dnat-rules
      - ovn-dnat-rules/status
      - switch-lb-rules
      - switch-lb-rules/status
      - vpc-dnses
      - vpc-dnses/status
      - dnsnameresolvers
      - dnsnameresolvers/status
      - qos-policies
      - qos-policies/status
      - bgp-confs
      - evpn-confs
    verbs:
      - create
      - get
      - list
      - update
      - patch
      - watch
      - delete
  - apiGroups:
      - ^^
    resources:
      - pods
      - namespaces
    verbs:
      - get
      - list
      - patch
      - watch
  - apiGroups:
      - ^^
    resources:
      - nodes
    verbs:
      - get
      - list
      - patch
      - update
      - watch
  - apiGroups:
      - ^^
    resources:
      - pods/exec
    verbs:
      - create
  - apiGroups:
      - ^k8s.cni.cncf.io^
    resources:
      - network-attachment-definitions
    verbs:
      - get
      - list
      - watch
  - apiGroups:
      - ^^
      - networking.k8s.io
    resources:
      - networkpolicies
      - configmaps
    verbs:
      - get
      - list
      - watch
  - apiGroups:
      - apps
    resources:
      - daemonsets
    verbs:
      - get
  - apiGroups:
      - apps
    resources:
      - deployments
      - deployments/scale
    verbs:
      - get
      - list
      - watch
      - create
      - update
      - delete
  - apiGroups:
      - ^^
    resources:
      - services
      - services/status
".

Definition system_ovn_clusterrole_part2 : string := tpl "    verbs:
      - get
      - list
      - update
      - patch
      - create
      - delete
      - watch
  - apiGroups:
      - ^^
    resources:
      - endpoints
    verbs:
      - create
      - update
      - get
      - list
      - watch
  - apiGroups:
      - discovery.k8s.io
    resources:
      - endpointslices
    verbs:
      - get
      - list
      - watch
  - apiGroups:
      - apps
    resources:
      - statefulsets
    verbs:
      - get
      - list
      - create
      - delete
      - update
  - apiGroups:
      - ^^
    resources:
      - events
    verbs:
      - create
      - patch
      - update
  - apiGroups:
      - coordination.k8s.io
    resources:
      - leases
    verbs:
      - create
      - update
      - patch
      - get
      - watch
  - apiGroups:
      - ^kubevirt.io^
    resources:
      - virtualmachines
      - virtualmachineinstances
    verbs:
      - get
      - list
      - watch
  - apiGroups:
      - ^policy.networking.k8s.io^
    resources:
      - adminnetworkpolicies
      - baselineadminnetworkpolicies
      - clusternetworkpolicies
    verbs:
      - get
      - list
      - watch
  - apiGroups:
      - authentication.k8s.io
    resources:
      - tokenreviews
    verbs:
      - create
  - apiGroups:
      - authorization.k8s.io
    resources:
      - subjectaccessreviews
    verbs:
      - create
  - apiGroups:
      - ^certificates.k8s.io^
    resources:
      - ^certificatesigningrequests^
    verbs:
      - ^get^
      - ^list^
      - ^watch^
  - apiGroups:
    - certificates.k8s.io
    resources:
    - certificatesigningrequests/status
    - certificatesigningrequests/approval
    verbs:
    - update
  - apiGroups:
    - ^^
    resources:
    - secrets
    verbs:
    - get
    - create
  - apiGroups:
    - certificates.k8s.io
    resourceNames:
    - kubeovn.io/signer
    resources:
    - signers
    verbs:
    - approve
    - sign
  - apiGroups:
      - kubevirt.io
    resources:
      - virtualmachineinstancemigrations
    verbs:
      - ^list^
      - ^watch^
      - ^get^
  - apiGroups:
      - apiextensions.k8s.io
    resources:
      - customresourcedefinitions
    verbs:
      - get".

Definition system_ovn_clusterrole : string := system_ovn_clusterrole_part1 +:+ system_ovn_clusterrole_part2.

Definition system_ovn_ovs_clusterrole : string := tpl "apiVersion: rbac.authorization.k8s.io/v1
kind: ClusterRole
metadata:
  annotations:
    rbac.authorization.k8s.io/system-only: ^true^
  name: system:ovn-ovs
rules:
  - apiGroups:
      - ^^
    resources:
      - pods
    verbs:
      - get
      - patch
  - apiGroups:
      - ^^
    resources:
      - services
    verbs:
      - get
  - apiGroups:
      - discovery.k8s.io
    resources:
      - endpointslices
    verbs:
      - list
  - apiGroups:
      - apps
    resources:
      - controllerrevisions
    verbs:
      - get
      - list".

Definition system_kube_ovn_cni_clusterrole : string := tpl "apiVersion: rbac.authorization.k8s.io/v1
kind: ClusterRole
metadata:
  annotations:
    rbac.authorization.k8s.io/system-only: ^true^
  name: system:kube-ovn-cni
rules:
  - apiGroups:
      - ^kubeovn.io^
    resources:
      - subnets
      - vlans
      - provider-networks
    verbs:
      - get
      - list
      - watch
  - apiGroups:
      - ^^
      - ^kubeovn.io^
    resources:
      - ovn-eips
      - ovn-eips/status
      - nodes
      - nodes/status
      - pods
      - services
    verbs:
      - get
      - list
      - patch
      - watch
  - apiGroups:
      - ^kubeovn.io^
    resources:
      - ips
    verbs:
      - get
      - update
  - apiGroups:
      - ^^
    resources:
      - events
    verbs:
      - create
      - patch
      - update
  - apiGroups:
      - ^^
    resources:
      - configmaps
    verbs:
      - get
      - list
      - watch
  - apiGroups:
      - authentication.k8s.io
    resources:
      - tokenreviews
    verbs:
      - create
  - apiGroups:
      - authorization.k8s.io
    resources:
      - subjectaccessreviews
    verbs:
      - create
  - apiGroups:
      - ^certificates.k8s.io^
    resources:
      - ^certificatesigningrequests^
    verbs:
      - ^create^
      - ^get^
      - ^list^
      - ^watch^
      - ^delete^".

Definition system_kube_ovn_app_clusterrole : string := tpl "apiVersion: rbac.authorization.k8s.io/v1
kind: ClusterRole
metadata:
  annotations:
    rbac.authorization.k8s.io/system-only: ^true^
  name: system:kube-ovn-app
rules:
  - apiGroups:
      - ^^
    resources:
      - pods
      - nodes
    verbs:
      - get
      - list
  - apiGroups:
      - apps
    resources:
      - daemonsets
    verbs:
      - get
  - apiGroups:
      - authentication.k8s.io
    resources:
      - tokenreviews
    verbs:
      - create
  - apiGroups:
      - authorization.k8s.io
    resources:
      - subjectaccessreviews
    verbs:
      - create".

Definition ClusterRoleList : list string :=
  [system_ovn_clusterrole;
   system_ovn_ovs_clusterrole;
   system_kube_ovn_cni_clusterrole;
   system_kube_ovn_app_clusterrole].

(** ** internal/templates/roles.go *)

Definition system_ovn_ipsec_role : string := tpl "apiVersion: rbac.authorization.k8s.io/v1
kind: Role
metadata:
  name: secret-reader-ovn-ipsec
  namespace: {{ .Values.namespace }}
rules:
- apiGroups:
    - ^^
  resources:
    - ^secrets^
  resourceNames:
    - ^ovn-ipsec-ca^
  verbs:
    - ^get^
    - ^list^
    - ^watch^".

Definition RoleList : list string :=
  [system_ovn_ipsec_role].

(** ** internal/templates/clusterrolebindings.go *)

Definition system_ovn_clusterrolebinding : string := tpl "apiVersion: rbac.authorization.k8s.io/v1
kind: ClusterRoleBinding
metadata:
  name: ovn
roleRef:
  name: system:ovn
  kind: ClusterRole
  apiGroup: rbac.authorization.k8s.io
subjects:
  - kind: ServiceAccount
    name: ovn
    namespace: {{ .Values.namespace }}".

Definition ovn_ovs_clusterrolebinding : string := tpl "apiVersion: rbac.authorization.k8s.io/v1
kind: ClusterRoleBinding
metadata:
  name: ovn-ovs
roleRef:
  name: system:ovn-ovs
  kind: ClusterRole
  apiGroup: rbac.authorization.k8s.io
subjects:
  - kind: ServiceAccount
    name: ovn-ovs
    namespace: {{ .Values.namespace }}".

Definition system_kube_ovn_cni_clusterrolebinding : string := tpl "apiVersion: rbac.authorization.k8s.io/v1
kind: ClusterRoleBinding
metadata:
  name: kube-ovn-cni
roleRef:
  name: system:kube-ovn-cni
  kind: ClusterRole
  apiGroup: rbac.authorization.k8s.io
subjects:
  - kind: ServiceAccount
    name: kube-ovn-cni
    namespace: {{ .Values.namespace }}".

Definition system_kube_ovn_app_clusterrolebinding : string := tpl "apiVersion: rbac.authorization.k8s.io/v1
kind: ClusterRoleBinding
metadata:
  name: kube-ovn-app
roleRef:
  name: system:kube-ovn-app
  kind: ClusterRole
  apiGroup: rbac.authorization.k8s.io
subjects:
  - kind: ServiceAccount
    name: kube-ovn-app
    namespace: {{ .Values.namespace }}".

Definition ClusterRoleBindingList : list string :=
  [system_ovn_clusterrolebinding;
   ovn_ovs_clusterrolebinding;
   system_kube_ovn_cni_clusterrolebinding;
   system_kube_ovn_app_clusterrolebinding].

(** ** internal/templates/rolebindings.go *)

Definition kube_ovn_app_rolebinding : string := tpl "apiVersion: rbac.authorization.k8s.io/v1
kind: RoleBinding
metadata:
  name: kube-ovn-app
  namespace: {{ .Values.namespace }}
roleRef:
  apiGroup: rbac.authorization.k8s.io
  kind: Role
  name: extension-apiserver-authentication-reader
subjects:
  - kind: ServiceAccount
    name: kube-ovn-app
    namespace: {{ .Values.namespace }}".

Definition kube_ovn_cni_rolebinding : string := tpl "apiVersion: rbac.authorization.k8s.io/v1
kind: RoleBinding
metadata:
  name: kube-ovn-cni
  namespace: {{ .Values.namespace }}
roleRef:
  apiGroup: rbac.authorization.k8s.io
  kind: Role
  name: extension-apiserver-authentication-reader
subjects:
  - kind: ServiceAccount
    name: kube-ovn-cni
    namespace: {{ .Values.namespace }}".

Definition kube_ovn_cni_secret_reader_rolebinding : string := tpl "apiVersion: rbac.authorization.k8s.io/v1
kind: RoleBinding
metadata:
  name: kube-ovn-cni-secret-reader
  namespace: {{ .Values.namespace }}
subjects:
  - kind: ServiceAccount
    name: kube-ovn-cni
    namespace: {{ .Values.namespace }}
roleRef:
  kind: Role
  name: secret-reader-ovn-ipsec
  apiGroup: rbac.authorization.k8s.io".

Definition ovn_rolebinding : string := tpl "apiVersion: rbac.authorization.k8s.io/v1
kind: RoleBinding
metadata:
  name: ovn
  namespace: {{ .Values.namespace }}
roleRef:
  apiGroup: rbac.authorization.k8s.io
  kind: Role
  name: extension-apiserver-authentication-reader
subjects:
  - kind: ServiceAccount
    name: ovn
    namespace: {{ .Values.namespace }}".

Definition ovn_ipsec_rolebinding : string := tpl "apiVersion: rbac.authorization.k8s.io/v1
kind: RoleBinding
metadata:
  name: kube-ovn-cni-secret-reader
  namespace: {{ .Values.namespace }}
subjects:
- kind: ServiceAccount
  name: kube-ovn-cni
  namespace: {{ .Values.namespace }}
roleRef:
  kind: Role
  name: secret-reader-ovn-ipsec
  apiGroup: rbac.authorization.k8s.io".

Definition RoleBindingList : list string :=
  [kube_ovn_cni_rolebinding;
   kube_ovn_app_rolebinding;
   kube_ovn_cni_secret_reader_rolebinding;
   ovn_rolebinding;
   ovn_ipsec_rolebinding].

(** ** internal/templates/serviceaccounts.go *)

Definition ovn_sa_template : string := tpl "apiVersion: v1
kind: ServiceAccount
metadata:
  name: ovn
  namespace: {{ .Values.namespace }}
automountServiceAccountToken: false
{{-  if .Values.global.registry.imagePullSecrets }}
imagePullSecrets:
{{- range $index, $secret := .Values.global.registry.imagePullSecrets }}
{{- if $secret }}
- name: {{ $secret | quote}}
{{- end }}
{{- end }}
{{- end }}
".

Definition ovn_ovs_template : string := tpl "apiVersion: v1
kind: ServiceAccount
metadata:
  name: ovn-ovs
  namespace: {{ .Values.namespace }}
automountServiceAccountToken: false
{{-  if .Values.global.registry.imagePullSecrets }}
imagePullSecrets:
{{- range $index, $secret := .Values.global.registry.imagePullSecrets }}
{{- if $secret }}
- name: {{ $secret | quote}}
{{- end }}
{{- end }}
{{- end }}".

Definition kube_ovn_cni : string := tpl "apiVersion: v1
kind: ServiceAccount
metadata:
  name: kube-ovn-cni
  namespace: {{ .Values.namespace }}
automountServiceAccountToken: false
{{-  if .Values.global.registry.imagePullSecrets }}
imagePullSecrets:
{{- range $index, $secret := .Values.global.registry.imagePullSecrets }}
{{- if $secret }}
- name: {{ $secret | quote}}
{{- end }}
{{- end }}
{{- end }}".

Definition kube_ovn_app_template : string := tpl "apiVersion: v1
kind: ServiceAccount
metadata:
  name: kube-ovn-app
  namespace: {{ .Values.namespace }}
automountServiceAccountToken: false
{{-  if .Values.global.registry.imagePullSecrets }}
imagePullSecrets:
{{- range $index, $secret := .Values.global.registry.imagePullSecrets }}
{{- if $secret }}
- name: {{ $secret | quote}}
{{- end }}
{{- end }}
{{- end }}".

Definition ServiceAccountList : list string :=
  [ovn_sa_template;
   ovn_ovs_template;
   kube_ovn_cni;
   kube_ovn_app_template].
