(* ===== verification/TemplatesServices.v ===== *)
(** * Templates: services, configuration, secret, webhook and cleanup scripts

    The remaining objects and the cleanup scripts. The texts are verbatim: [tpl] stands for the double quote
    with a caret, which occurs in none of them. *)

From S2P Require Import Prelude TemplateText.
Local Open Scope string_scope.

(** ** internal/templates/services.go *)

Definition kube_ovn_controller_service : string := tpl "kind: Service
apiVersion: v1
metadata:
  name: kube-ovn-controller
  namespace: {{ .Values.namespace }}
  labels:
    app: kube-ovn-controller
spec:
  selector:
    app: kube-ovn-controller
  ports:
    - port: 10660
      name: metrics
  {{- if eq .Values.networking.netStack ^dual_stack^ }}
  ipFamilyPolicy: PreferDualStack
  {{- end }}".

Definition kube_ovn_monitor_service : string := tpl "kind: Service
apiVersion: v1
metadata:
  name: kube-ovn-monitor
  namespace: {{ .Values.namespace }}
  labels:
    app: kube-ovn-monitor
spec:
  ports:
    - name: metrics
      port: 10661
  type: ClusterIP
  selector:
    app: kube-ovn-monitor
  sessionAffinity: None
  {{- if eq .Values.networking.netStack ^dual_stack^ }}
  ipFamilyPolicy: PreferDualStack
  {{- end }}".

Definition ovn_nb_service : string := tpl "kind: Service
apiVersion: v1
metadata:
  name: ovn-nb
  namespace: {{ .Values.namespace }}
spec:
  ports:
    - name: ovn-nb
      protocol: TCP
      port: 6641
      targetPort: 6641
  type: ClusterIP
  {{- if eq .Values.networking.NET_STACK ^dual_stack^ }}
  ipFamilyPolicy: PreferDualStack
  {{- end }}
  selector:
    app: ovn-central
    ovn-nb-leader: ^true^
  sessionAffinity: None".

Definition ovn_northd_service : string := tpl "kind: Service
apiVersion: v1
metadata:
  name: ovn-northd
  namespace: {{ .Values.namespace }}
spec:
  ports:
    - name: ovn-northd
      protocol: TCP
      port: 6643
      targetPort: 6643
  type: ClusterIP
  {{- if eq .Values.networking.NET_STACK ^dual_stack^ }}
  ipFamilyPolicy: PreferDualStack
  {{- end }}
  selector:
    app: ovn-central
    ovn-northd-leader: ^true^
  sessionAffinity: None".

Definition kube_ovn_cni_service : string := tpl "kind: Service
apiVersion: v1
metadata:
  name: kube-ovn-cni
  namespace: {{ .Values.namespace }}
  labels:
    app: kube-ovn-cni
spec:
  selector:
    app: kube-ovn-cni
  ports:
    - port: 10665
      name: metrics
  {{- if eq .Values.networking.NET_STACK ^dual_stack^ }}
  ipFamilyPolicy: PreferDualStack
  {{- end }}".

Definition kube_ovn_pinger_service : string := tpl "kind: Service
apiVersion: v1
metadata:
  name: kube-ovn-pinger
  namespace: {{ .Values.namespace }}
  labels:
    app: kube-ovn-pinger
spec:
  selector:
    app: kube-ovn-pinger
  ports:
    - port: 8080
      name: metrics
  {{- if eq .Values.networking.NET_STACK ^dual_stack^ }}
  ipFamilyPolicy: PreferDualStack
  {{- end }}".

Definition ovn_sb_service : string := tpl "kind: Service
apiVersion: v1
metadata:
  name: ovn-sb
  namespace: {{ .Values.namespace }}
spec:
  ports:
    - name: ovn-sb
      protocol: TCP
      port: 6642
      targetPort: 6642
  type: ClusterIP
  {{- if eq .Values.networking.NET_STACK ^dual_stack^ }}
  ipFamilyPolicy: PreferDualStack
  {{- end }}
  selector:
    app: ovn-central
    ovn-sb-leader: ^true^
  sessionAffinity: None".

Definition kubeovn_webhook_service : string := tpl "kind: Service
apiVersion: v1
metadata:
  name: kube-ovn-webhook
  namespace: {{ .Values.namespace }}
spec:
  ports:
    - name: kube-ovn-webhook
      protocol: TCP
      port: 443
      targetPort: 8443
  type: ClusterIP
  selector:
    app: kube-ovn-webhook
  sessionAffinity: None
  ".

Definition ServicesList : list string :=
  [kube_ovn_controller_service;
   kube_ovn_monitor_service;
   ovn_nb_service;
   ovn_northd_service;
   kube_ovn_cni_service;
   kube_ovn_pinger_service;
   ovn_sb_service;
   kubeovn_webhook_service].

(** ** internal/templates/configmaps.go *)

Definition ovn_vpc_nat_config : string := tpl "kind: ConfigMap
apiVersion: v1
metadata:
  name: ovn-vpc-nat-config
  namespace: {{ .Values.namespace }}
  annotations:
    kubernetes.io/description: |
      kube-ovn vpc-nat common config
data:
  image: {{ .Values.global.registry.address }}/{{ .Values.global.images.natgateway.repository }}:{{ or .Values.global.images.natgateway.tag .Values.global.images.kubeovn.tag }}".

Definition ovn_vpc_nat_gw_config : string := tpl "kind: ConfigMap
apiVersion: v1
metadata:
  name: ovn-vpc-nat-gw-config
  namespace: {{ .Values.namespace }}
data:
  enable-vpc-nat-gw: ^{{ .Values.components.enableNATGateway }}^".

Definition ConfigMapList : list string :=
  [ovn_vpc_nat_config;
   ovn_vpc_nat_gw_config].

(** ** internal/templates/secrets.go *)

Definition kube_ovn_tls_secret : string := tpl "{{- if .Values.networking.enableSSL }}
{{- $cn := ^ovn^ -}}
{{- $ca := genCA ^ovn-ca^ 3650 -}}
---
apiVersion: v1
kind: Secret
metadata:
  name: kube-ovn-tls
  namespace: {{ .Values.namespace }}
data:
{{- $existingSecret := lookup ^v1^ ^Secret^ .Values.namespace ^kube-ovn-tls^ }}
  {{- if $existingSecret }}
  cacert: {{ index $existingSecret.data ^cacert^ }}
  cert: {{ index $existingSecret.data ^cert^ }}
  key: {{ index $existingSecret.data ^key^ }}
  {{- else }}
  {{- with genSignedCert $cn nil nil 3650 $ca }}
  cacert: {{ b64enc $ca.Cert }}
  cert: {{ b64enc .Cert }}
  key: {{ b64enc .Key }}
  {{- end }}
  {{- end }}
{{- end }}".

Definition SecretList : list string :=
  [kube_ovn_tls_secret].

(** ** internal/templates/validatingwebhookconfigurations.go *)

Definition kubeovn_validatingwebhook_configuration : string := tpl "apiVersion: admissionregistration.k8s.io/v1
kind: ValidatingWebhookConfiguration
metadata:
  name: kube-ovn-webhook
webhooks:
- name: pod-ip-validating.kube-ovn.io
  rules:
    - operations:
        - CREATE
      apiGroups:
        - ^apps^
      apiVersions:
        - v1
      resources:
        - deployments
        - statefulsets
        - daemonsets
    - operations:
        - CREATE
      apiGroups:
        - ^batch^
      apiVersions:
        - v1
      resources:
        - jobs
        - cronjobs
    - operations:
        - CREATE
      apiGroups:
        - ^^
      apiVersions:
        - v1
      resources:
        - pods
    - operations:
        - CREATE
        - UPDATE
        - DELETE
      apiGroups:
        - ^kubeovn.io^
      apiVersions:
        - v1
      resources:
        - subnets
        - vpcs
        - vips
        - vpc-nat-gateways
        - iptables-eips
        - iptables-dnat-rules
        - iptables-snat-rules
        - iptables-fip-rules
  objectSelector:
    matchExpressions:
      - key: app.kubernetes.io/name
        operator: NotIn
        values:
          - kube-ovn-webhook     
  failurePolicy: Ignore
  admissionReviewVersions: [^v1^, ^v1beta1^]
  sideEffects: None
  timeoutSeconds: 5
  clientConfig:
    caBundle: {{ .Values.caCert | b64enc}}
    service:
      namespace: kube-system
      name: kube-ovn-webhook
      path: /validating
      port: 443".

Definition ValidatingWebhookConfigurationList : list string :=
  [kubeovn_validatingwebhook_configuration].

(** ** internal/templates/cleanup.go *)

Definition CleanupNBDB : string := tpl "export nbstatus=$(ovs-appctl -t /var/run/ovn/ovnnb_db.ctl cluster/status OVN_Northbound)
echo ^current northbound status^
echo ^$nbstatus^
echo ^searching for node {{ .NodeAddress }}^
nodeID=$(ovs-appctl -t /var/run/ovn/ovnnb_db.ctl cluster/status OVN_Northbound | grep '{{ .NodeAddress }}' | awk '{print $1}')
if [ -n ^$nodeID^ ]
then
  echo ^removing node with id $nodeID^
  ovs-appctl -t /var/run/ovn/ovnnb_db.ctl cluster/kick OVN_Northbound $nodeID
  echo ^removed node id $nodeID with address {{ .NodeAddress }}^
  echo ^current northbound status^
  ovs-appctl -t /var/run/ovn/ovnnb_db.ctl cluster/status OVN_Northbound
fi".

Definition CleanupSBDB : string := tpl "export sbstatus=$(ovs-appctl -t /var/run/ovn/ovnsb_db.ctl cluster/status OVN_Southbound)
echo ^current southbound status^
echo ^$sbstatus^
nodeID=$(ovs-appctl -t /var/run/ovn/ovnsb_db.ctl cluster/status OVN_Southbound| grep '{{ .NodeAddress }}' | awk '{print $1}')
if [ -n ^$nodeID^ ]
then
  ovs-appctl -t /var/run/ovn/ovnsb_db.ctl cluster/kick OVN_Southbound $nodeID
  echo ^removed node id $nodeID with address {{ .NodeAddress }}^
  echo ^current southbound status^
  ovs-appctl -t /var/run/ovn/ovnsb_db.ctl cluster/status OVN_Southbound
fi".

Definition CleanupChassis : string := tpl "chassis=$(ovn-sbctl --columns=name find  chassis hostname={{ .Hostname }} | awk -F ^:^ '{print $2}' | tr -d '^')
if [ -n ^$chassis^ ]
then
  ovn-sbctl chassis-del $chassis
fi
ovn-sbctl show".
