(* ===== verification/CrdsResolvers.v ===== *)
(** * internal/templates/customresourcedefinitions.go: routing, name resolution and load balancing

    The definitions of the BGP and EVPN configurations, the DNS resolvers, the VPC DNS and the load balancer rules. The texts are verbatim: [verbatim]
    stands for the double quote with a tilde, which occurs in none of them. *)

From S2P Require Import Prelude TemplateText.
Local Open Scope string_scope.

Definition bgp_confs_crd : string := verbatim "apiVersion: apiextensions.k8s.io/v1
kind: CustomResourceDefinition
metadata:
  annotations:
    controller-gen.kubebuilder.io/version: v0.20.1
  name: bgp-confs.kubeovn.io
spec:
  group: kubeovn.io
  names:
    kind: BgpConf
    listKind: BgpConfList
    plural: bgp-confs
    singular: bgp-conf
  scope: Cluster
  versions:
  - name: v1
    schema:
      openAPIV3Schema:
        properties:
          apiVersion:
            description: |-
              APIVersion defines the versioned schema of this representation of an object.
              Servers should convert recognized schemas to the latest internal value, and
              may reject unrecognized values.
              More info: https://git.k8s.io/community/contributors/devel/sig-architecture/api-conventions.md#resources
            type: string
          kind:
            description: |-
              Kind is a string value representing the REST resource this object represents.
              Servers may infer this from the endpoint the client submits requests to.
              Cannot be updated.
              In CamelCase.
              More info: https://git.k8s.io/community/contributors/devel/sig-architecture/api-conventions.md#types-kinds
            type: string
          metadata:
            type: object
          spec:
            properties:
              connectTime:
                type: string
              ebgpMultiHop:
                type: boolean
              gracefulRestart:
                type: boolean
              holdTime:
                type: string
              keepaliveTime:
                type: string
              localASN:
                format: int32
                type: integer
              neighbours:
                items:
                  type: string
                type: array
              password:
                type: string
              peerASN:
                format: int32
                type: integer
              routerId:
                type: string
            type: object
        type: object
    served: true
    storage: true".

Definition dns_name_resolvers_crd_part1 : string := verbatim "apiVersion: apiextensions.k8s.io/v1
kind: CustomResourceDefinition
metadata:
  annotations:
    controller-gen.kubebuilder.io/version: v0.20.1
  name: dnsnameresolvers.kubeovn.io
spec:
  group: kubeovn.io
  names:
    kind: DNSNameResolver
    listKind: DNSNameResolverList
    plural: dnsnameresolvers
    shortNames:
    - dnr
    singular: dnsnameresolver
  scope: Cluster
  versions:
  - name: v1
    schema:
      openAPIV3Schema:
        properties:
          apiVersion:
            description: |-
              APIVersion defines the versioned schema of this representation of an object.
              Servers should convert recognized schemas to the latest internal value, and
              may reject unrecognized values.
              More info: https://git.k8s.io/community/contributors/devel/sig-architecture/api-conventions.md#resources
            type: string
          kind:
            description: |-
              Kind is a string value representing the REST resource this object represents.
              Servers may infer this from the endpoint the client submits requests to.
              Cannot be updated.
              In CamelCase.
              More info: https://git.k8s.io/community/contributors/devel/sig-architecture/api-conventions.md#types-kinds
            type: string
          metadata:
            type: object
          spec:
            properties:
              name:
                description: |-
                  name is the DNS name for which the DNS name resolution information will be stored.
                  For a regular DNS name, only the DNS name resolution information of the regular DNS
                  name will be stored. For a wildcard DNS name, the DNS name resolution information
                  of all the DNS names that match the wildcard DNS name will be stored.
                  For a wildcard DNS name, the '*' will match only one label. Additionally, only a single
                  '*' can be used at the beginning of the wildcard DNS name. For example, '*.example.com.'
                  will match 'sub1.example.com.' but won't match 'sub2.sub1.example.com.'
                maxLength: 254
                pattern: ^(\*\.)?([a-z0-9]([-a-z0-9]{0,61}[a-z0-9])?\.){2,}$
                type: string
                x-kubernetes-validations:
                - message: spec.name is immutable
                  rule: self == oldSelf
            required:
            - name
            type: object
          status:
            description: DNSNameResolverStatus defines the observed status of DNSNameResolver.
            properties:
              resolvedNames:
                description: |-
                  resolvedNames contains a list of matching DNS names and their corresponding IP addresses
                  along with their TTL and last DNS lookup times.
                items:
                  description: DNSNameResolverResolvedName describes the details of
                    a resolved DNS name.
                  properties:
                    conditions:
                      description: |-
                        conditions provide information about the state of the DNS name.
                        Known .status.conditions.type is: ~Degraded~.
                        ~Degraded~ is true when the last resolution failed for the DNS name,
                        and false otherwise.
                      items:
                        description: Condition contains details for one aspect of
                          the current state of this API Resource.
                        properties:
                          lastTransitionTime:
                            description: |-
                              lastTransitionTime is the last time the condition transitioned from one status to another.
                              This should be when the underlying condition changed.  If that is not known, then using the time when the API field changed is acceptable.
                            format: date-time
                            type: string
                          message:
                            description: |-
                              message is a human readable message indicating details about the transition.
                              This may be an empty string.
                            maxLength: 32768
                            type: string
                          observedGeneration:
                            description: |-
                              observedGeneration represents the .metadata.generation that the condition was set based upon.
                              For instance, if .metadata.generation is currently 12, but the .status.conditions[x].observedGeneration is 9, the condition is out of date
                              with respect to the current state of the instance.
                            format: int64
                            minimum: 0
                            type: integer
                          reason:
                            description: |-
                              reason contains a programmatic identifier indicating the reason for the condition's last transition.
                              Producers of specific condition types may define expected values and meanings for this field,
                              and whether the values are considered a guaranteed API.
                              The value should be a CamelCase string.
                              This field may not be empty.
".

Definition dns_name_resolvers_crd_part2 : string := verbatim "                            maxLength: 1024
                            minLength: 1
                            pattern: ^[A-Za-z]([A-Za-z0-9_,:]*[A-Za-z0-9_])?$
                            type: string
                          status:
                            description: status of the condition, one of True, False,
                              Unknown.
                            enum:
                            - ~True~
                            - ~False~
                            - Unknown
                            type: string
                          type:
                            description: type of condition in CamelCase or in foo.example.com/CamelCase.
                            maxLength: 316
                            pattern: ^([a-z0-9]([-a-z0-9]*[a-z0-9])?(\.[a-z0-9]([-a-z0-9]*[a-z0-9])?)*/)?(([A-Za-z0-9][-A-Za-z0-9_.]*)?[A-Za-z0-9])$
                            type: string
                        required:
                        - lastTransitionTime
                        - message
                        - reason
                        - status
                        - type
                        type: object
                      type: array
                      x-kubernetes-list-map-keys:
                      - type
                      x-kubernetes-list-type: map
                    dnsName:
                      description: |-
                        dnsName is the resolved DNS name matching the name field of DNSNameResolverSpec. This field can
                        store both regular and wildcard DNS names which match the spec.name field. When the spec.name
                        field contains a regular DNS name, this field will store the same regular DNS name after it is
                        successfully resolved. When the spec.name field contains a wildcard DNS name, each resolvedName.dnsName
                        will store the regular DNS names which match the wildcard DNS name and have been successfully resolved.
                        If the wildcard DNS name can also be successfully resolved, then this field will store the wildcard
                        DNS name as well.
                      maxLength: 254
                      pattern: ^(\*\.)?([a-z0-9]([-a-z0-9]{0,61}[a-z0-9])?\.){2,}$
                      type: string
                    resolutionFailures:
                      description: |-
                        resolutionFailures keeps the count of how many consecutive times the DNS resolution failed
                        for the dnsName. If the DNS resolution succeeds then the field will be set to zero. Upon
                        every failure, the value of the field will be incremented by one. The details about the DNS
                        name will be removed, if the value of resolutionFailures reaches 5 and the TTL of all the
                        associated IP addresses have expired.
                      format: int32
                      type: integer
                    resolvedAddresses:
                      description: |-
                        resolvedAddresses gives the list of associated IP addresses and their corresponding TTLs and last
                        lookup times for the dnsName.
                      items:
                        description: DNSNameResolverResolvedAddress describes the
                          details of an IP address for a resolved DNS name.
                        properties:
                          ip:
                            description: |-
                              ip is an IP address associated with the dnsName. The validity of the IP address expires after
                              lastLookupTime + ttlSeconds. To refresh the information, a DNS lookup will be performed upon
                              the expiration of the IP address's validity. If the information is not refreshed then it will
                              be removed with a grace period after the expiration of the IP address's validity.
                            type: string
                          lastLookupTime:
                            description: |-
                              lastLookupTime is the timestamp when the last DNS lookup was completed successfully. The validity of
                              the IP address expires after lastLookupTime + ttlSeconds. The value of this field will be updated to
                              the current time on a successful DNS lookup. If the information is not refreshed then it will be
                              removed with a grace period after the expiration of the IP address's validity.
                            format: date-time
                            type: string
                          ttlSeconds:
                            description: |-
                              ttlSeconds is the time-to-live value of the IP address. The validity of the IP address expires after
                              lastLookupTime + ttlSeconds. On a successful DNS lookup the value of this field will be updated with
                              the current time-to-live value. If the information is not refreshed then it will be removed with a
                              grace period after the expiration of the IP address's validity.
                            format: int32
                            type: integer
                        required:
                        - ip
                        - lastLookupTime
                        - ttlSeconds
                        type: object
                      type: array
                      x-kubernetes-list-map-keys:
                      - ip
                      x-kubernetes-list-type: map
                  required:
                  - dnsName
                  - resolvedAddresses
                  type: object
                type: array
                x-kubernetes-list-map-keys:
                - dnsName
                x-kubernetes-list-type: map
            type: object
        required:
        - spec
        type: object
    served: true
    storage: true
    subresources:
      status: {}".

Definition dns_name_resolvers_crd : string :=
  dns_name_resolvers_crd_part1 +:+
  dns_name_resolvers_crd_part2.

Definition evpn_confs_crd : string := verbatim "apiVersion: apiextensions.k8s.io/v1
kind: CustomResourceDefinition
metadata:
  annotations:
    controller-gen.kubebuilder.io/version: v0.20.1
  name: evpn-confs.kubeovn.io
spec:
  group: kubeovn.io
  names:
    kind: EvpnConf
    listKind: EvpnConfList
    plural: evpn-confs
    singular: evpn-conf
  scope: Cluster
  versions:
  - name: v1
    schema:
      openAPIV3Schema:
        properties:
          apiVersion:
            description: |-
              APIVersion defines the versioned schema of this representation of an object.
              Servers should convert recognized schemas to the latest internal value, and
              may reject unrecognized values.
              More info: https://git.k8s.io/community/contributors/devel/sig-architecture/api-conventions.md#resources
            type: string
          kind:
            description: |-
              Kind is a string value representing the REST resource this object represents.
              Servers may infer this from the endpoint the client submits requests to.
              Cannot be updated.
              In CamelCase.
              More info: https://git.k8s.io/community/contributors/devel/sig-architecture/api-conventions.md#types-kinds
            type: string
          metadata:
            type: object
          spec:
            properties:
              routeTargets:
                items:
                  type: string
                type: array
              vni:
                format: int32
                type: integer
            type: object
        type: object
    served: true
    storage: true".

Definition vpc_dnses_crd : string := verbatim "apiVersion: apiextensions.k8s.io/v1
kind: CustomResourceDefinition
metadata:
  annotations:
    controller-gen.kubebuilder.io/version: v0.20.1
  name: vpc-dnses.kubeovn.io
spec:
  group: kubeovn.io
  names:
    kind: VpcDns
    listKind: VpcDnsList
    plural: vpc-dnses
    shortNames:
    - vpc-dns
    singular: vpc-dns
  scope: Cluster
  versions:
  - additionalPrinterColumns:
    - jsonPath: .status.active
      name: Active
      type: boolean
    - jsonPath: .spec.vpc
      name: Vpc
      type: string
    - jsonPath: .spec.subnet
      name: Subnet
      type: string
    - jsonPath: .spec.corefile
      name: Corefile
      type: string
    name: v1
    schema:
      openAPIV3Schema:
        properties:
          apiVersion:
            description: |-
              APIVersion defines the versioned schema of this representation of an object.
              Servers should convert recognized schemas to the latest internal value, and
              may reject unrecognized values.
              More info: https://git.k8s.io/community/contributors/devel/sig-architecture/api-conventions.md#resources
            type: string
          kind:
            description: |-
              Kind is a string value representing the REST resource this object represents.
              Servers may infer this from the endpoint the client submits requests to.
              Cannot be updated.
              In CamelCase.
              More info: https://git.k8s.io/community/contributors/devel/sig-architecture/api-conventions.md#types-kinds
            type: string
          metadata:
            type: object
          spec:
            properties:
              corefile:
                default: vpc-dns-corefile
                description: CoreDNS corefile configuration
                type: string
              replicas:
                description: Number of DNS server replicas (1-3)
                format: int32
                type: integer
              subnet:
                description: Subnet name for the DNS service. This field is immutable
                  after creation.
                type: string
              vpc:
                description: VPC name for the DNS service. This field is immutable
                  after creation.
                type: string
            type: object
          status:
            properties:
              active:
                description: Whether the VPC DNS service is active
                type: boolean
              conditions:
                description: Conditions represent the latest state of the VPC DNS
                items:
                  description: Condition describes the state of an object at a certain
                    point.
                  properties:
                    lastTransitionTime:
                      description: Last time the condition transitioned from one status
                        to another.
                      format: date-time
                      type: string
                    lastUpdateTime:
                      description: Last time the condition was probed
                      format: date-time
                      type: string
                    message:
                      description: A human readable message indicating details about
                        the transition.
                      type: string
                    observedGeneration:
                      description: |-
                        ObservedGeneration represents the .metadata.generation that the condition was set based upon.
                        For instance, if .metadata.generation is currently 12, but the .status.conditions[x].observedGeneration is 9,
                        the condition is out of date with respect to the current state of the instance.
                      format: int64
                      type: integer
                    reason:
                      description: The reason for the condition's last transition.
                      type: string
                    status:
                      description: Status of the condition, one of True, False, Unknown.
                      type: string
                    type:
                      description: Type of condition.
                      type: string
                  type: object
                type: array
            type: object
        type: object
    served: true
    storage: true
    subresources:
      status: {}".

Definition switch_lb_rules_crd : string := verbatim "apiVersion: apiextensions.k8s.io/v1
kind: CustomResourceDefinition
metadata:
  annotations:
    controller-gen.kubebuilder.io/version: v0.20.1
  name: switch-lb-rules.kubeovn.io
spec:
  group: kubeovn.io
  names:
    kind: SwitchLBRule
    listKind: SwitchLBRuleList
    plural: switch-lb-rules
    shortNames:
    - slr
    singular: switch-lb-rule
  scope: Cluster
  versions:
  - additionalPrinterColumns:
    - jsonPath: .spec.vip
      name: vip
      type: string
    - jsonPath: .status.ports
      name: port(s)
      type: string
    - jsonPath: .status.service
      name: service
      type: string
    - jsonPath: .metadata.creationTimestamp
      name: age
      type: date
    name: v1
    schema:
      openAPIV3Schema:
        properties:
          apiVersion:
            description: |-
              APIVersion defines the versioned schema of this representation of an object.
              Servers should convert recognized schemas to the latest internal value, and
              may reject unrecognized values.
              More info: https://git.k8s.io/community/contributors/devel/sig-architecture/api-conventions.md#resources
            type: string
          kind:
            description: |-
              Kind is a string value representing the REST resource this object represents.
              Servers may infer this from the endpoint the client submits requests to.
              Cannot be updated.
              In CamelCase.
              More info: https://git.k8s.io/community/contributors/devel/sig-architecture/api-conventions.md#types-kinds
            type: string
          metadata:
            type: object
          spec:
            properties:
              endpoints:
                items:
                  type: string
                type: array
              namespace:
                type: string
              ports:
                items:
                  properties:
                    name:
                      description: Port name
                      type: string
                    port:
                      description: Service port number (1-65535)
                      format: int32
                      type: integer
                    protocol:
                      description: Protocol (TCP or UDP)
                      type: string
                    targetPort:
                      description: Target port number (1-65535)
                      format: int32
                      type: integer
                  type: object
                type: array
              selector:
                items:
                  type: string
                type: array
              sessionAffinity:
                type: string
              vip:
                type: string
            type: object
          status:
            properties:
              conditions:
                description: Conditions represents the latest state of the object
                items:
                  description: Condition describes the state of an object at a certain
                    point.
                  properties:
                    lastTransitionTime:
                      description: Last time the condition transitioned from one status
                        to another.
                      format: date-time
                      type: string
                    lastUpdateTime:
                      description: Last time the condition was probed
                      format: date-time
                      type: string
                    message:
                      description: A human readable message indicating details about
                        the transition.
                      type: string
                    observedGeneration:
                      description: |-
                        ObservedGeneration represents the .metadata.generation that the condition was set based upon.
                        For instance, if .metadata.generation is currently 12, but the .status.conditions[x].observedGeneration is 9,
                        the condition is out of date with respect to the current state of the instance.
                      format: int64
                      type: integer
                    reason:
                      description: The reason for the condition's last transition.
                      type: string
                    status:
                      description: Status of the condition, one of True, False, Unknown.
                      type: string
                    type:
                      description: Type of condition.
                      type: string
                  type: object
                type: array
              ports:
                description: Configured ports
                type: string
              service:
                description: Associated service name
                type: string
            type: object
        type: object
    served: true
    storage: true
    subresources:
      status: {}".
