(* ===== verification/CrdsRules.v ===== *)
(** * internal/templates/customresourcedefinitions.go: egress gateways, addresses and NAT rules

    The definitions of the egress gateway, the elastic addresses and the NAT rules. The texts are verbatim: [verbatim]
    stands for the double quote with a tilde, which occurs in none of them. *)

From S2P Require Import Prelude TemplateText.
Local Open Scope string_scope.

Definition vpc_egress_gateways_crd_part1 : string := verbatim "apiVersion: apiextensions.k8s.io/v1
kind: CustomResourceDefinition
metadata:
  annotations:
    controller-gen.kubebuilder.io/version: v0.20.1
  name: vpc-egress-gateways.kubeovn.io
spec:
  group: kubeovn.io
  names:
    kind: VpcEgressGateway
    listKind: VpcEgressGatewayList
    plural: vpc-egress-gateways
    shortNames:
    - vpc-egress-gw
    - veg
    singular: vpc-egress-gateway
  scope: Namespaced
  versions:
  - additionalPrinterColumns:
    - jsonPath: .spec.vpc
      name: VPC
      type: string
    - jsonPath: .spec.replicas
      name: REPLICAS
      type: integer
    - jsonPath: .spec.bfd.enabled
      name: BFD ENABLED
      type: boolean
    - jsonPath: .spec.externalSubnet
      name: EXTERNAL SUBNET
      type: string
    - jsonPath: .status.phase
      name: PHASE
      type: string
    - jsonPath: .status.ready
      name: READY
      type: boolean
    - jsonPath: .status.internalIPs
      name: INTERNAL IPS
      priority: 1
      type: string
    - jsonPath: .status.externalIPs
      name: EXTERNAL IPS
      priority: 1
      type: string
    - jsonPath: .status.workload.nodes
      name: WORKING NODES
      priority: 1
      type: string
    - jsonPath: .metadata.creationTimestamp
      name: AGE
      type: date
    name: v1
    schema:
      openAPIV3Schema:
        description: vpc egress gateway is used to forward the egress traffic from
          the VPC to the external network
        properties:
          apiVersion:
            description: |-
              APIVersion defines the versioned schema of this representation of an object.
              Servers should convert recognized schemas to the latest internal value, and
              may reject unrecognized values.
              More info: https://git.k8s.io/community/contributors/devel/sig-architecture/api-conventions.md#resources
            type: string
          kind:
            description: |-
              Kind is a string value representing the REST resource this object represents.
              Servers may infer this from the endpoint the client submits requests to.
              Cannot be updated.
              In CamelCase.
              More info: https://git.k8s.io/community/contributors/devel/sig-architecture/api-conventions.md#types-kinds
            type: string
          metadata:
            type: object
          spec:
            properties:
              bandwidth:
                description: |-
                  Optional bandwidth limit for each egress gateway instance in both ingress and egress directions.
                  If not specified, there will be no bandwidth limit.
                properties:
                  egress:
                    description: egress bandwidth limit in Mbps
                    format: int64
                    type: integer
                  ingress:
                    description: ingress bandwidth limit in Mbps
                    format: int64
                    type: integer
                type: object
              bfd:
                description: BFD configuration
                properties:
                  enabled:
                    default: false
                    description: |-
                      whether to enable BFD
                      if set to true, the egress gateway will establish BFD session(s) with the VPC BFD LRP
                      the VPC's .spec.bfd.enabled must be set to true to enable BFD
                    type: boolean
                  minRX:
                    default: 1000
                    description: optional BFD minRX/minTX/multiplier
                    format: int32
                    maximum: 3600000
                    minimum: 1
                    type: integer
                  minTX:
                    default: 1000
                    format: int32
                    maximum: 3600000
                    minimum: 1
                    type: integer
                  multiplier:
                    default: 3
                    format: int32
                    maximum: 3600000
                    minimum: 1
                    type: integer
                type: object
              bgpConf:
                description: |-
                  optional BGP configuration name
                  it references a cluster-scoped BgpConf resource
                type: string
              evpnConf:
                description: |-
                  optional EVPN configuration name
                  it references a cluster-scoped EvpnConf resource
                type: string
              externalIPs:
                description: External IP addresses for the egress gateway
                items:
                  type: string
                type: array
              externalSubnet:
                description: external subnet used to create the workload
                type: string
              image:
                description: |-
                  optional image used by the workload
                  if not specified, the default image passed in by kube-ovn-controller will be used
                type: string
".

Definition vpc_egress_gateways_crd_part2 : string := verbatim "              internalIPs:
                description: |-
                  optional internal/external IPs used to create the workload
                  these IPs must be in the internal/external subnet
                  the IPs count must NOT be less than the replicas count
                items:
                  type: string
                type: array
              internalSubnet:
                description: |-
                  optional internal subnet used to create the workload
                  if not specified, the workload will be created in the default subnet of the VPC
                type: string
              nodeSelector:
                description: optional node selector used to select the nodes where
                  the workload will be running
                items:
                  properties:
                    matchExpressions:
                      items:
                        description: |-
                          A node selector requirement is a selector that contains values, a key, and an operator
                          that relates the key and values.
                        properties:
                          key:
                            description: The label key that the selector applies to.
                            type: string
                          operator:
                            description: |-
                              Represents a key's relationship to a set of values.
                              Valid operators are In, NotIn, Exists, DoesNotExist. Gt, and Lt.
                            type: string
                          values:
                            description: |-
                              An array of string values. If the operator is In or NotIn,
                              the values array must be non-empty. If the operator is Exists or DoesNotExist,
                              the values array must be empty. If the operator is Gt or Lt, the values
                              array must have a single element, which will be interpreted as an integer.
                              This array is replaced during a strategic merge patch.
                            items:
                              type: string
                            type: array
                            x-kubernetes-list-type: atomic
                        required:
                        - key
                        - operator
                        type: object
                      type: array
                    matchFields:
                      items:
                        description: |-
                          A node selector requirement is a selector that contains values, a key, and an operator
                          that relates the key and values.
                        properties:
                          key:
                            description: The label key that the selector applies to.
                            type: string
                          operator:
                            description: |-
                              Represents a key's relationship to a set of values.
                              Valid operators are In, NotIn, Exists, DoesNotExist. Gt, and Lt.
                            type: string
                          values:
                            description: |-
                              An array of string values. If the operator is In or NotIn,
                              the values array must be non-empty. If the operator is Exists or DoesNotExist,
                              the values array must be empty. If the operator is Gt or Lt, the values
                              array must have a single element, which will be interpreted as an integer.
                              This array is replaced during a strategic merge patch.
                            items:
                              type: string
                            type: array
                            x-kubernetes-list-type: atomic
                        required:
                        - key
                        - operator
                        type: object
                      type: array
                    matchLabels:
                      additionalProperties:
                        type: string
                      type: object
                  type: object
                type: array
              policies:
                description: |-
                  egress policies
                  at least one policy must be specified
                items:
                  properties:
                    ipBlocks:
                      description: CIDRs/subnets targeted by the egress traffic policy
                      items:
                        type: string
                      type: array
                    snat:
                      default: false
                      description: whether to enable SNAT/MASQUERADE for the egress
                        traffic
                      type: boolean
                    subnets:
                      items:
                        type: string
                      type: array
                  type: object
                type: array
              prefix:
                description: |-
                  optional name prefix used to generate the workload
                  the workload name will be generated as <prefix><vpc-egress-gateway-name>
                type: string
              replicas:
                default: 1
                description: workload replicas
                format: int32
                type: integer
              resources:
                description: |-
                  Compute Resources required for the container. If not specified, the controller will set a default value.
                  If specified, the controller will not set any default value and use the specified value directly.
                properties:
                  claims:
                    description: |-
                      Claims lists the names of resources, defined in spec.resourceClaims,
                      that are used by this container.

                      This field depends on the
                      DynamicResourceAllocation feature gate.

                      This field is immutable. It can only be set for containers.
                    items:
                      description: ResourceClaim references one entry in PodSpec.ResourceClaims.
                      properties:
                        name:
                          description: |-
                            Name must match the name of one entry in pod.spec.resourceClaims of
                            the Pod where this field is used. It makes that resource available
                            inside a container.
                          type: string
                        request:
                          description: |-
                            Request is the name chosen for a request in the referenced claim.
                            If empty, everything from the claim is made available, otherwise
                            only the result of this request.
".

Definition vpc_egress_gateways_crd_part3 : string := verbatim "                          type: string
                      required:
                      - name
                      type: object
                    type: array
                    x-kubernetes-list-map-keys:
                    - name
                    x-kubernetes-list-type: map
                  limits:
                    additionalProperties:
                      anyOf:
                      - type: integer
                      - type: string
                      pattern: ^(\+|-)?(([0-9]+(\.[0-9]*)?)|(\.[0-9]+))(([KMGTPE]i)|[numkMGTPE]|([eE](\+|-)?(([0-9]+(\.[0-9]*)?)|(\.[0-9]+))))?$
                      x-kubernetes-int-or-string: true
                    description: |-
                      Limits describes the maximum amount of compute resources allowed.
                      More info: https://kubernetes.io/docs/concepts/configuration/manage-resources-containers/
                    type: object
                  requests:
                    additionalProperties:
                      anyOf:
                      - type: integer
                      - type: string
                      pattern: ^(\+|-)?(([0-9]+(\.[0-9]*)?)|(\.[0-9]+))(([KMGTPE]i)|[numkMGTPE]|([eE](\+|-)?(([0-9]+(\.[0-9]*)?)|(\.[0-9]+))))?$
                      x-kubernetes-int-or-string: true
                    description: |-
                      Requests describes the minimum amount of compute resources required.
                      If Requests is omitted for a container, it defaults to Limits if that is explicitly specified,
                      otherwise to an implementation-defined value. Requests cannot exceed Limits.
                      More info: https://kubernetes.io/docs/concepts/configuration/manage-resources-containers/
                    type: object
                type: object
              selectors:
                description: namespace/pod selectors
                items:
                  properties:
                    namespaceSelector:
                      description: |-
                        A label selector is a label query over a set of resources. The result of matchLabels and
                        matchExpressions are ANDed. An empty label selector matches all objects. A null
                        label selector matches no objects.
                      properties:
                        matchExpressions:
                          description: matchExpressions is a list of label selector
                            requirements. The requirements are ANDed.
                          items:
                            description: |-
                              A label selector requirement is a selector that contains values, a key, and an operator that
                              relates the key and values.
                            properties:
                              key:
                                description: key is the label key that the selector
                                  applies to.
                                type: string
                              operator:
                                description: |-
                                  operator represents a key's relationship to a set of values.
                                  Valid operators are In, NotIn, Exists and DoesNotExist.
                                type: string
                              values:
                                description: |-
                                  values is an array of string values. If the operator is In or NotIn,
                                  the values array must be non-empty. If the operator is Exists or DoesNotExist,
                                  the values array must be empty. This array is replaced during a strategic
                                  merge patch.
                                items:
                                  type: string
                                type: array
                                x-kubernetes-list-type: atomic
                            required:
                            - key
                            - operator
                            type: object
                          type: array
                          x-kubernetes-list-type: atomic
                        matchLabels:
                          additionalProperties:
                            type: string
                          description: |-
                            matchLabels is a map of {key,value} pairs. A single {key,value} in the matchLabels
                            map is equivalent to an element of matchExpressions, whose key field is ~key~, the
                            operator is ~In~, and the values array contains only ~value~. The requirements are ANDed.
                          type: object
                      type: object
                      x-kubernetes-map-type: atomic
                    podSelector:
                      description: |-
                        A label selector is a label query over a set of resources. The result of matchLabels and
                        matchExpressions are ANDed. An empty label selector matches all objects. A null
                        label selector matches no objects.
                      properties:
                        matchExpressions:
                          description: matchExpressions is a list of label selector
                            requirements. The requirements are ANDed.
                          items:
                            description: |-
                              A label selector requirement is a selector that contains values, a key, and an operator that
                              relates the key and values.
                            properties:
                              key:
                                description: key is the label key that the selector
                                  applies to.
                                type: string
                              operator:
                                description: |-
                                  operator represents a key's relationship to a set of values.
                                  Valid operators are In, NotIn, Exists and DoesNotExist.
                                type: string
                              values:
                                description: |-
                                  values is an array of string values. If the operator is In or NotIn,
                                  the values array must be non-empty. If the operator is Exists or DoesNotExist,
                                  the values array must be empty. This array is replaced during a strategic
                                  merge patch.
                                items:
                                  type: string
                                type: array
                                x-kubernetes-list-type: atomic
                            required:
                            - key
                            - operator
                            type: object
                          type: array
                          x-kubernetes-list-type: atomic
                        matchLabels:
                          additionalProperties:
                            type: string
                          description: |-
                            matchLabels is a map of {key,value} pairs. A single {key,value} in the matchLabels
                            map is equivalent to an element of matchExpressions, whose key field is ~key~, the
                            operator is ~In~, and the values array contains only ~value~. The requirements are ANDed.
                          type: object
                      type: object
                      x-kubernetes-map-type: atomic
                  type: object
                type: array
              tolerations:
                description: optional tolerations applied to the workload pods
                items:
                  description: |-
                    The pod this Toleration is attached to tolerates any taint that matches
                    the triple <key,value,effect> using the matching operator <operator>.
                  properties:
".

Definition vpc_egress_gateways_crd_part4 : string := verbatim "                    effect:
                      description: |-
                        Effect indicates the taint effect to match. Empty means match all taint effects.
                        When specified, allowed values are NoSchedule, PreferNoSchedule and NoExecute.
                      type: string
                    key:
                      description: |-
                        Key is the taint key that the toleration applies to. Empty means match all taint keys.
                        If the key is empty, operator must be Exists; this combination means to match all values and all keys.
                      type: string
                    operator:
                      description: |-
                        Operator represents a key's relationship to the value.
                        Valid operators are Exists, Equal, Lt, and Gt. Defaults to Equal.
                        Exists is equivalent to wildcard for value, so that a pod can
                        tolerate all taints of a particular category.
                        Lt and Gt perform numeric comparisons (requires feature gate TaintTolerationComparisonOperators).
                      type: string
                    tolerationSeconds:
                      description: |-
                        TolerationSeconds represents the period of time the toleration (which must be
                        of effect NoExecute, otherwise this field is ignored) tolerates the taint. By default,
                        it is not set, which means tolerate the taint forever (do not evict). Zero and
                        negative values will be treated as 0 (evict immediately) by the system.
                      format: int64
                      type: integer
                    value:
                      description: |-
                        Value is the taint value the toleration matches to.
                        If the operator is Exists, the value should be empty, otherwise just a regular string.
                      type: string
                  type: object
                type: array
              trafficPolicy:
                default: Cluster
                description: |-
                  optional traffic policy used to control the traffic routing
                  if not specified, the default traffic policy ~Cluster~ will be used
                  if set to ~Local~, traffic will be routed to the gateway pod/instance on the same node when available
                  currently it works only for the default vpc
                type: string
              vpc:
                description: |-
                  optional VPC name
                  if not specified, the default VPC will be used
                type: string
            required:
            - externalSubnet
            type: object
          status:
            properties:
              conditions:
                description: Conditions represent the latest available observations
                  of the egress gateway's current state
                items:
                  description: Condition describes the state of an object at a certain
                    point.
                  properties:
                    lastTransitionTime:
                      description: Last time the condition transitioned from one status
                        to another.
                      format: date-time
                      type: string
                    lastUpdateTime:
                      description: Last time the condition was probed
                      format: date-time
                      type: string
                    message:
                      description: A human readable message indicating details about
                        the transition.
                      type: string
                    observedGeneration:
                      description: |-
                        ObservedGeneration represents the .metadata.generation that the condition was set based upon.
                        For instance, if .metadata.generation is currently 12, but the .status.conditions[x].observedGeneration is 9,
                        the condition is out of date with respect to the current state of the instance.
                      format: int64
                      type: integer
                    reason:
                      description: The reason for the condition's last transition.
                      type: string
                    status:
                      description: Status of the condition, one of True, False, Unknown.
                      type: string
                    type:
                      description: Type of condition.
                      type: string
                  type: object
                type: array
              externalIPs:
                description: External IP addresses assigned to the egress gateway
                items:
                  type: string
                type: array
              internalIPs:
                description: internal/external IPs used by the workload
                items:
                  type: string
                type: array
              labelSelector:
                description: Label selector for the egress gateway
                type: string
              phase:
                default: Pending
                description: Current phase of the egress gateway (Pending, Processing,
                  or Completed)
                type: string
              ready:
                default: false
                description: whether the egress gateway is ready
                type: boolean
              replicas:
                description: used by the scale subresource
                format: int32
                type: integer
              workload:
                description: workload information
                properties:
                  apiVersion:
                    type: string
                  kind:
                    type: string
                  name:
                    type: string
                  nodes:
                    description: nodes where the workload is running
                    items:
                      type: string
                    type: array
                type: object
            required:
            - conditions
            - phase
            type: object
        type: object
    served: true
    storage: true
    subresources:
      scale:
        labelSelectorPath: .status.labelSelector
        specReplicasPath: .spec.replicas
        statusReplicasPath: .status.replicas
      status: {}".

Definition vpc_egress_gateways_crd : string :=
  vpc_egress_gateways_crd_part1 +:+
  vpc_egress_gateways_crd_part2 +:+
  vpc_egress_gateways_crd_part3 +:+
  vpc_egress_gateways_crd_part4.

Definition iptables_eips_crd : string := verbatim "apiVersion: apiextensions.k8s.io/v1
kind: CustomResourceDefinition
metadata:
  annotations:
    controller-gen.kubebuilder.io/version: v0.20.1
  name: iptables-eips.kubeovn.io
spec:
  group: kubeovn.io
  names:
    kind: IptablesEIP
    listKind: IptablesEIPList
    plural: iptables-eips
    shortNames:
    - eip
    singular: iptables-eip
  scope: Cluster
  versions:
  - additionalPrinterColumns:
    - jsonPath: .status.ip
      name: IP
      type: string
    - jsonPath: .spec.macAddress
      name: Mac
      type: string
    - jsonPath: .status.nat
      name: Nat
      type: string
    - jsonPath: .spec.natGwDp
      name: NatGwDp
      type: string
    - jsonPath: .status.ready
      name: Ready
      type: boolean
    name: v1
    schema:
      openAPIV3Schema:
        properties:
          apiVersion:
            description: |-
              APIVersion defines the versioned schema of this representation of an object.
              Servers should convert recognized schemas to the latest internal value, and
              may reject unrecognized values.
              More info: https://git.k8s.io/community/contributors/devel/sig-architecture/api-conventions.md#resources
            type: string
          kind:
            description: |-
              Kind is a string value representing the REST resource this object represents.
              Servers may infer this from the endpoint the client submits requests to.
              Cannot be updated.
              In CamelCase.
              More info: https://git.k8s.io/community/contributors/devel/sig-architecture/api-conventions.md#types-kinds
            type: string
          metadata:
            type: object
          spec:
            properties:
              externalSubnet:
                description: External subnet name. This field is immutable after creation.
                type: string
              macAddress:
                description: MAC address for the EIP
                type: string
              natGwDp:
                description: NAT gateway datapath where the EIP is assigned
                type: string
              qosPolicy:
                description: QoS policy name to apply to the EIP
                type: string
              v4ip:
                description: IPv4 address for the EIP
                type: string
              v6ip:
                description: IPv6 address for the EIP
                type: string
            type: object
          status:
            properties:
              conditions:
                description: Conditions represents the latest state of the object
                items:
                  description: Condition describes the state of an object at a certain
                    point.
                  properties:
                    lastTransitionTime:
                      description: Last time the condition transitioned from one status
                        to another.
                      format: date-time
                      type: string
                    lastUpdateTime:
                      description: Last time the condition was probed
                      format: date-time
                      type: string
                    message:
                      description: A human readable message indicating details about
                        the transition.
                      type: string
                    observedGeneration:
                      description: |-
                        ObservedGeneration represents the .metadata.generation that the condition was set based upon.
                        For instance, if .metadata.generation is currently 12, but the .status.conditions[x].observedGeneration is 9,
                        the condition is out of date with respect to the current state of the instance.
                      format: int64
                      type: integer
                    reason:
                      description: The reason for the condition's last transition.
                      type: string
                    status:
                      description: Status of the condition, one of True, False, Unknown.
                      type: string
                    type:
                      description: Type of condition.
                      type: string
                  type: object
                type: array
              ip:
                description: IPv4 address of the EIP
                type: string
              nat:
                description: NAT type (snat or dnat)
                type: string
              qosPolicy:
                description: QoS policy name
                type: string
              ready:
                description: Indicates whether the EIP is ready
                type: boolean
              redo:
                description: Redo operation status
                type: string
            type: object
        type: object
    served: true
    storage: true
    subresources:
      status: {}".

Definition iptables_fip_rules_crd : string := verbatim "apiVersion: apiextensions.k8s.io/v1
kind: CustomResourceDefinition
metadata:
  annotations:
    controller-gen.kubebuilder.io/version: v0.20.1
  name: iptables-fip-rules.kubeovn.io
spec:
  group: kubeovn.io
  names:
    kind: IptablesFIPRule
    listKind: IptablesFIPRuleList
    plural: iptables-fip-rules
    shortNames:
    - fip
    singular: iptables-fip-rule
  scope: Cluster
  versions:
  - additionalPrinterColumns:
    - jsonPath: .spec.eip
      name: Eip
      type: string
    - jsonPath: .status.v4ip
      name: V4ip
      type: string
    - jsonPath: .spec.internalIp
      name: InternalIp
      type: string
    - jsonPath: .status.v6ip
      name: V6ip
      type: string
    - jsonPath: .status.ready
      name: Ready
      type: boolean
    - jsonPath: .status.natGwDp
      name: NatGwDp
      type: string
    name: v1
    schema:
      openAPIV3Schema:
        properties:
          apiVersion:
            description: |-
              APIVersion defines the versioned schema of this representation of an object.
              Servers should convert recognized schemas to the latest internal value, and
              may reject unrecognized values.
              More info: https://git.k8s.io/community/contributors/devel/sig-architecture/api-conventions.md#resources
            type: string
          kind:
            description: |-
              Kind is a string value representing the REST resource this object represents.
              Servers may infer this from the endpoint the client submits requests to.
              Cannot be updated.
              In CamelCase.
              More info: https://git.k8s.io/community/contributors/devel/sig-architecture/api-conventions.md#types-kinds
            type: string
          metadata:
            type: object
          spec:
            properties:
              eip:
                description: EIP name to use for floating IP
                type: string
              internalIp:
                description: Internal IP address to map to the floating IP
                type: string
            type: object
          status:
            properties:
              conditions:
                description: Conditions represents the latest state of the object
                items:
                  description: Condition describes the state of an object at a certain
                    point.
                  properties:
                    lastTransitionTime:
                      description: Last time the condition transitioned from one status
                        to another.
                      format: date-time
                      type: string
                    lastUpdateTime:
                      description: Last time the condition was probed
                      format: date-time
                      type: string
                    message:
                      description: A human readable message indicating details about
                        the transition.
                      type: string
                    observedGeneration:
                      description: |-
                        ObservedGeneration represents the .metadata.generation that the condition was set based upon.
                        For instance, if .metadata.generation is currently 12, but the .status.conditions[x].observedGeneration is 9,
                        the condition is out of date with respect to the current state of the instance.
                      format: int64
                      type: integer
                    reason:
                      description: The reason for the condition's last transition.
                      type: string
                    status:
                      description: Status of the condition, one of True, False, Unknown.
                      type: string
                    type:
                      description: Type of condition.
                      type: string
                  type: object
                type: array
              internalIp:
                description: Internal IP address mapped to the FIP
                type: string
              natGwDp:
                description: NAT gateway datapath where the FIP is configured
                type: string
              ready:
                description: Indicates whether the FIP rule is ready
                type: boolean
              redo:
                description: Redo operation status
                type: string
              v4ip:
                description: IPv4 address of the EIP
                type: string
              v6ip:
                description: IPv6 address of the EIP
                type: string
            type: object
        type: object
    served: true
    storage: true
    subresources:
      status: {}".

Definition iptables_dnat_rules_crd_part1 : string := verbatim "apiVersion: apiextensions.k8s.io/v1
kind: CustomResourceDefinition
metadata:
  annotations:
    controller-gen.kubebuilder.io/version: v0.20.1
  name: iptables-dnat-rules.kubeovn.io
spec:
  group: kubeovn.io
  names:
    kind: IptablesDnatRule
    listKind: IptablesDnatRuleList
    plural: iptables-dnat-rules
    shortNames:
    - dnat
    singular: iptables-dnat-rule
  scope: Cluster
  versions:
  - additionalPrinterColumns:
    - jsonPath: .spec.eip
      name: Eip
      type: string
    - jsonPath: .spec.protocol
      name: Protocol
      type: string
    - jsonPath: .status.v4ip
      name: V4ip
      type: string
    - jsonPath: .status.v6ip
      name: V6ip
      type: string
    - jsonPath: .spec.internalIp
      name: InternalIp
      type: string
    - jsonPath: .spec.externalPort
      name: ExternalPort
      type: string
    - jsonPath: .spec.internalPort
      name: InternalPort
      type: string
    - jsonPath: .status.natGwDp
      name: NatGwDp
      type: string
    - jsonPath: .status.ready
      name: Ready
      type: boolean
    name: v1
    schema:
      openAPIV3Schema:
        properties:
          apiVersion:
            description: |-
              APIVersion defines the versioned schema of this representation of an object.
              Servers should convert recognized schemas to the latest internal value, and
              may reject unrecognized values.
              More info: https://git.k8s.io/community/contributors/devel/sig-architecture/api-conventions.md#resources
            type: string
          kind:
            description: |-
              Kind is a string value representing the REST resource this object represents.
              Servers may infer this from the endpoint the client submits requests to.
              Cannot be updated.
              In CamelCase.
              More info: https://git.k8s.io/community/contributors/devel/sig-architecture/api-conventions.md#types-kinds
            type: string
          metadata:
            type: object
          spec:
            properties:
              eip:
                description: EIP name for DNAT rule
                type: string
              externalPort:
                description: External port number
                type: string
              internalIp:
                description: Internal IP address to forward traffic to
                type: string
              internalPort:
".

Definition iptables_dnat_rules_crd_part2 : string := verbatim "                description: Internal port number to forward traffic to
                type: string
              protocol:
                description: Protocol type (TCP or UDP)
                type: string
            type: object
          status:
            properties:
              conditions:
                description: Conditions represents the latest state of the object
                items:
                  description: Condition describes the state of an object at a certain
                    point.
                  properties:
                    lastTransitionTime:
                      description: Last time the condition transitioned from one status
                        to another.
                      format: date-time
                      type: string
                    lastUpdateTime:
                      description: Last time the condition was probed
                      format: date-time
                      type: string
                    message:
                      description: A human readable message indicating details about
                        the transition.
                      type: string
                    observedGeneration:
                      description: |-
                        ObservedGeneration represents the .metadata.generation that the condition was set based upon.
                        For instance, if .metadata.generation is currently 12, but the .status.conditions[x].observedGeneration is 9,
                        the condition is out of date with respect to the current state of the instance.
                      format: int64
                      type: integer
                    reason:
                      description: The reason for the condition's last transition.
                      type: string
                    status:
                      description: Status of the condition, one of True, False, Unknown.
                      type: string
                    type:
                      description: Type of condition.
                      type: string
                  type: object
                type: array
              externalPort:
                description: External port configured in the DNAT rule
                type: string
              internalIp:
                description: Internal IP address configured in the DNAT rule
                type: string
              internalPort:
                description: Internal port configured in the DNAT rule
                type: string
              natGwDp:
                description: NatGwDp is the NAT gateway data path
                type: string
              protocol:
                description: Protocol type of the DNAT rule
                type: string
              ready:
                description: Indicates whether the DNAT rule is ready
                type: boolean
              redo:
                description: Redo operation status
                type: string
              v4ip:
                description: V4ip is the IPv4 address of the DNAT rule
                type: string
              v6ip:
                description: V6ip is the IPv6 address of the DNAT rule
                type: string
            type: object
        type: object
    served: true
    storage: true
    subresources:
      status: {}".

Definition iptables_dnat_rules_crd : string :=
  iptables_dnat_rules_crd_part1 +:+
  iptables_dnat_rules_crd_part2.

Definition iptables_snat_rules_crd : string := verbatim "apiVersion: apiextensions.k8s.io/v1
kind: CustomResourceDefinition
metadata:
  annotations:
    controller-gen.kubebuilder.io/version: v0.20.1
  name: iptables-snat-rules.kubeovn.io
spec:
  group: kubeovn.io
  names:
    kind: IptablesSnatRule
    listKind: IptablesSnatRuleList
    plural: iptables-snat-rules
    shortNames:
    - snat
    singular: iptables-snat-rule
  scope: Cluster
  versions:
  - additionalPrinterColumns:
    - jsonPath: .spec.eip
      name: EIP
      type: string
    - jsonPath: .status.v4ip
      name: V4ip
      type: string
    - jsonPath: .status.v6ip
      name: V6ip
      type: string
    - jsonPath: .spec.internalCIDR
      name: InternalCIDR
      type: string
    - jsonPath: .status.natGwDp
      name: NatGwDp
      type: string
    - jsonPath: .status.ready
      name: Ready
      type: boolean
    name: v1
    schema:
      openAPIV3Schema:
        properties:
          apiVersion:
            description: |-
              APIVersion defines the versioned schema of this representation of an object.
              Servers should convert recognized schemas to the latest internal value, and
              may reject unrecognized values.
              More info: https://git.k8s.io/community/contributors/devel/sig-architecture/api-conventions.md#resources
            type: string
          kind:
            description: |-
              Kind is a string value representing the REST resource this object represents.
              Servers may infer this from the endpoint the client submits requests to.
              Cannot be updated.
              In CamelCase.
              More info: https://git.k8s.io/community/contributors/devel/sig-architecture/api-conventions.md#types-kinds
            type: string
          metadata:
            type: object
          spec:
            properties:
              eip:
                description: EIP name for SNAT rule
                type: string
              internalCIDR:
                description: Internal CIDR to be translated via SNAT
                type: string
            type: object
          status:
            properties:
              conditions:
                description: Conditions represents the latest state of the object
                items:
                  description: Condition describes the state of an object at a certain
                    point.
                  properties:
                    lastTransitionTime:
                      description: Last time the condition transitioned from one status
                        to another.
                      format: date-time
                      type: string
                    lastUpdateTime:
                      description: Last time the condition was probed
                      format: date-time
                      type: string
                    message:
                      description: A human readable message indicating details about
                        the transition.
                      type: string
                    observedGeneration:
                      description: |-
                        ObservedGeneration represents the .metadata.generation that the condition was set based upon.
                        For instance, if .metadata.generation is currently 12, but the .status.conditions[x].observedGeneration is 9,
                        the condition is out of date with respect to the current state of the instance.
                      format: int64
                      type: integer
                    reason:
                      description: The reason for the condition's last transition.
                      type: string
                    status:
                      description: Status of the condition, one of True, False, Unknown.
                      type: string
                    type:
                      description: Type of condition.
                      type: string
                  type: object
                type: array
              internalCIDR:
                description: InternalCIDR is the internal CIDR of the SNAT rule
                type: string
              natGwDp:
                description: NatGwDp is the NAT gateway data path
                type: string
              ready:
                description: Indicates whether the SNAT rule is ready
                type: boolean
              redo:
                description: Redo operation status
                type: string
              v4ip:
                description: V4ip is the IPv4 address of the SNAT rule
                type: string
              v6ip:
                description: V6ip is the IPv6 address of the SNAT rule
                type: string
            type: object
        type: object
    served: true
    storage: true
    subresources:
      status: {}".

Definition ovn_eips_crd : string := verbatim "apiVersion: apiextensions.k8s.io/v1
kind: CustomResourceDefinition
metadata:
  annotations:
    controller-gen.kubebuilder.io/version: v0.20.1
  name: ovn-eips.kubeovn.io
spec:
  group: kubeovn.io
  names:
    kind: OvnEip
    listKind: OvnEipList
    plural: ovn-eips
    shortNames:
    - oeip
    singular: ovn-eip
  scope: Cluster
  versions:
  - additionalPrinterColumns:
    - jsonPath: .status.v4Ip
      name: V4IP
      type: string
    - jsonPath: .status.v6Ip
      name: V6IP
      type: string
    - jsonPath: .status.macAddress
      name: Mac
      type: string
    - jsonPath: .status.type
      name: Type
      type: string
    - jsonPath: .status.nat
      name: Nat
      type: string
    - jsonPath: .status.ready
      name: Ready
      type: boolean
    - jsonPath: .spec.externalSubnet
      name: ExternalSubnet
      type: string
    name: v1
    schema:
      openAPIV3Schema:
        properties:
          apiVersion:
            description: |-
              APIVersion defines the versioned schema of this representation of an object.
              Servers should convert recognized schemas to the latest internal value, and
              may reject unrecognized values.
              More info: https://git.k8s.io/community/contributors/devel/sig-architecture/api-conventions.md#resources
            type: string
          kind:
            description: |-
              Kind is a string value representing the REST resource this object represents.
              Servers may infer this from the endpoint the client submits requests to.
              Cannot be updated.
              In CamelCase.
              More info: https://git.k8s.io/community/contributors/devel/sig-architecture/api-conventions.md#types-kinds
            type: string
          metadata:
            type: object
          spec:
            properties:
              externalSubnet:
                description: External subnet name. This field is immutable after creation.
                type: string
              macAddress:
                description: MAC address for the EIP
                type: string
              type:
                description: Type of the OVN EIP (e.g., normal, distributed)
                type: string
              v4Ip:
                description: IPv4 address for the EIP
                type: string
              v6Ip:
                description: IPv6 address for the EIP
                type: string
            type: object
          status:
            properties:
              conditions:
                description: Conditions represents the latest state of the object
                items:
                  description: Condition describes the state of an object at a certain
                    point.
                  properties:
                    lastTransitionTime:
                      description: Last time the condition transitioned from one status
                        to another.
                      format: date-time
                      type: string
                    lastUpdateTime:
                      description: Last time the condition was probed
                      format: date-time
                      type: string
                    message:
                      description: A human readable message indicating details about
                        the transition.
                      type: string
                    observedGeneration:
                      description: |-
                        ObservedGeneration represents the .metadata.generation that the condition was set based upon.
                        For instance, if .metadata.generation is currently 12, but the .status.conditions[x].observedGeneration is 9,
                        the condition is out of date with respect to the current state of the instance.
                      format: int64
                      type: integer
                    reason:
                      description: The reason for the condition's last transition.
                      type: string
                    status:
                      description: Status of the condition, one of True, False, Unknown.
                      type: string
                    type:
                      description: Type of condition.
                      type: string
                  type: object
                type: array
              macAddress:
                description: MAC address assigned to the EIP
                type: string
              nat:
                description: NAT configuration status
                type: string
              ready:
                description: Indicates whether the EIP is ready
                type: boolean
              type:
                description: Type of the OVN EIP
                type: string
              v4Ip:
                description: IPv4 address assigned to the EIP
                type: string
              v6Ip:
                description: IPv6 address assigned to the EIP
                type: string
            type: object
        type: object
    served: true
    storage: true
    subresources:
      status: {}".

Definition ovn_fips_crd_part1 : string := verbatim "apiVersion: apiextensions.k8s.io/v1
kind: CustomResourceDefinition
metadata:
  annotations:
    controller-gen.kubebuilder.io/version: v0.20.1
  name: ovn-fips.kubeovn.io
spec:
  group: kubeovn.io
  names:
    kind: OvnFip
    listKind: OvnFipList
    plural: ovn-fips
    shortNames:
    - ofip
    singular: ovn-fip
  scope: Cluster
  versions:
  - additionalPrinterColumns:
    - jsonPath: .status.vpc
      name: Vpc
      type: string
    - jsonPath: .spec.type
      name: Type
      type: string
    - jsonPath: .status.v4Eip
      name: V4Eip
      type: string
    - jsonPath: .status.v6Eip
      name: V6Eip
      type: string
    - jsonPath: .status.v4Ip
      name: V4Ip
      type: string
    - jsonPath: .status.v6Ip
      name: V6Ip
      type: string
    - jsonPath: .status.ready
      name: Ready
      type: boolean
    - jsonPath: .spec.ipType
      name: IpType
      type: string
    - jsonPath: .spec.ipName
      name: IpName
      type: string
    name: v1
    schema:
      openAPIV3Schema:
        properties:
          apiVersion:
            description: |-
              APIVersion defines the versioned schema of this representation of an object.
              Servers should convert recognized schemas to the latest internal value, and
              may reject unrecognized values.
              More info: https://git.k8s.io/community/contributors/devel/sig-architecture/api-conventions.md#resources
            type: string
          kind:
            description: |-
              Kind is a string value representing the REST resource this object represents.
              Servers may infer this from the endpoint the client submits requests to.
              Cannot be updated.
              In CamelCase.
              More info: https://git.k8s.io/community/contributors/devel/sig-architecture/api-conventions.md#types-kinds
            type: string
          metadata:
            type: object
          spec:
            properties:
              ipName:
                description: IP resource name
                type: string
              ipType:
                description: IP type (e.g., ipv4, ipv6, dual)
                type: string
              ovnEip:
                description: OVN EIP name to use for floating IP
                type: string
              type:
".

Definition ovn_fips_crd_part2 : string := verbatim "                description: FIP type
                type: string
              v4Ip:
                description: IPv4 address for the floating IP
                type: string
              v6Ip:
                description: IPv6 address for the floating IP
                type: string
              vpc:
                description: VPC name. This field is immutable after creation.
                type: string
            type: object
          status:
            properties:
              conditions:
                description: Conditions represents the latest state of the object
                items:
                  description: Condition describes the state of an object at a certain
                    point.
                  properties:
                    lastTransitionTime:
                      description: Last time the condition transitioned from one status
                        to another.
                      format: date-time
                      type: string
                    lastUpdateTime:
                      description: Last time the condition was probed
                      format: date-time
                      type: string
                    message:
                      description: A human readable message indicating details about
                        the transition.
                      type: string
                    observedGeneration:
                      description: |-
                        ObservedGeneration represents the .metadata.generation that the condition was set based upon.
                        For instance, if .metadata.generation is currently 12, but the .status.conditions[x].observedGeneration is 9,
                        the condition is out of date with respect to the current state of the instance.
                      format: int64
                      type: integer
                    reason:
                      description: The reason for the condition's last transition.
                      type: string
                    status:
                      description: Status of the condition, one of True, False, Unknown.
                      type: string
                    type:
                      description: Type of condition.
                      type: string
                  type: object
                type: array
              macAddress:
                description: MacAddress of the FIP
                type: string
              ready:
                description: Indicates whether the FIP rule is ready
                type: boolean
              v4Eip:
                description: V4Eip is the IPv4 EIP address
                type: string
              v4Ip:
                description: V4Ip is the IPv4 address of the FIP
                type: string
              v6Eip:
                description: V6Eip is the IPv6 EIP address
                type: string
              v6Ip:
                description: V6Ip is the IPv6 address of the FIP
                type: string
              vpc:
                description: VPC name where the FIP is configured
                type: string
            type: object
        type: object
    served: true
    storage: true
    subresources:
      status: {}".

Definition ovn_fips_crd : string :=
  ovn_fips_crd_part1 +:+
  ovn_fips_crd_part2.

Definition ovn_snat_rules_crd : string := verbatim "apiVersion: apiextensions.k8s.io/v1
kind: CustomResourceDefinition
metadata:
  annotations:
    controller-gen.kubebuilder.io/version: v0.20.1
  name: ovn-snat-rules.kubeovn.io
spec:
  group: kubeovn.io
  names:
    kind: OvnSnatRule
    listKind: OvnSnatRuleList
    plural: ovn-snat-rules
    shortNames:
    - osnat
    singular: ovn-snat-rule
  scope: Cluster
  versions:
  - additionalPrinterColumns:
    - jsonPath: .status.vpc
      name: Vpc
      type: string
    - jsonPath: .status.v4Eip
      name: V4Eip
      type: string
    - jsonPath: .status.v6Eip
      name: V6Eip
      type: string
    - jsonPath: .status.v4IpCidr
      name: V4IpCidr
      type: string
    - jsonPath: .status.v6IpCidr
      name: V6IpCidr
      type: string
    - jsonPath: .status.ready
      name: Ready
      type: boolean
    name: v1
    schema:
      openAPIV3Schema:
        properties:
          apiVersion:
            description: |-
              APIVersion defines the versioned schema of this representation of an object.
              Servers should convert recognized schemas to the latest internal value, and
              may reject unrecognized values.
              More info: https://git.k8s.io/community/contributors/devel/sig-architecture/api-conventions.md#resources
            type: string
          kind:
            description: |-
              Kind is a string value representing the REST resource this object represents.
              Servers may infer this from the endpoint the client submits requests to.
              Cannot be updated.
              In CamelCase.
              More info: https://git.k8s.io/community/contributors/devel/sig-architecture/api-conventions.md#types-kinds
            type: string
          metadata:
            type: object
          spec:
            properties:
              ipName:
                description: IP resource name
                type: string
              ovnEip:
                description: OVN EIP name for SNAT rule
                type: string
              v4IpCidr:
                description: IPv4 CIDR for SNAT
                type: string
              v6IpCidr:
                description: IPv6 CIDR for SNAT
                type: string
              vpc:
                description: VPC name. This field is immutable after creation.
                type: string
              vpcSubnet:
                description: VPC subnet name for SNAT
                type: string
            type: object
          status:
            properties:
              conditions:
                description: Conditions represents the latest state of the object
                items:
                  description: Condition describes the state of an object at a certain
                    point.
                  properties:
                    lastTransitionTime:
                      description: Last time the condition transitioned from one status
                        to another.
                      format: date-time
                      type: string
                    lastUpdateTime:
                      description: Last time the condition was probed
                      format: date-time
                      type: string
                    message:
                      description: A human readable message indicating details about
                        the transition.
                      type: string
                    observedGeneration:
                      description: |-
                        ObservedGeneration represents the .metadata.generation that the condition was set based upon.
                        For instance, if .metadata.generation is currently 12, but the .status.conditions[x].observedGeneration is 9,
                        the condition is out of date with respect to the current state of the instance.
                      format: int64
                      type: integer
                    reason:
                      description: The reason for the condition's last transition.
                      type: string
                    status:
                      description: Status of the condition, one of True, False, Unknown.
                      type: string
                    type:
                      description: Type of condition.
                      type: string
                  type: object
                type: array
              ready:
                description: Indicates whether the SNAT rule is ready
                type: boolean
              v4Eip:
                description: V4Eip is the IPv4 EIP address
                type: string
              v4IpCidr:
                description: V4IpCidr is the IPv4 CIDR of the SNAT rule
                type: string
              v6Eip:
                description: V6Eip is the IPv6 EIP address
                type: string
              v6IpCidr:
                description: V6IpCidr is the IPv6 CIDR of the SNAT rule
                type: string
              vpc:
                description: VPC name where the SNAT rule is configured
                type: string
            type: object
        type: object
    served: true
    storage: true
    subresources:
      status: {}".

Definition ovn_dnat_rules_crd_part1 : string := verbatim "apiVersion: apiextensions.k8s.io/v1
kind: CustomResourceDefinition
metadata:
  annotations:
    controller-gen.kubebuilder.io/version: v0.20.1
  name: ovn-dnat-rules.kubeovn.io
spec:
  group: kubeovn.io
  names:
    kind: OvnDnatRule
    listKind: OvnDnatRuleList
    plural: ovn-dnat-rules
    shortNames:
    - odnat
    singular: ovn-dnat-rule
  scope: Cluster
  versions:
  - additionalPrinterColumns:
    - jsonPath: .status.vpc
      name: Vpc
      type: string
    - jsonPath: .spec.ovnEip
      name: Eip
      type: string
    - jsonPath: .status.protocol
      name: Protocol
      type: string
    - jsonPath: .status.v4Eip
      name: V4Eip
      type: string
    - jsonPath: .status.v6Eip
      name: V6Eip
      type: string
    - jsonPath: .status.v4Ip
      name: V4Ip
      type: string
    - jsonPath: .status.v6Ip
      name: V6Ip
      type: string
    - jsonPath: .status.internalPort
      name: InternalPort
      type: string
    - jsonPath: .status.externalPort
      name: ExternalPort
      type: string
    - jsonPath: .spec.ipName
      name: IpName
      type: string
    - jsonPath: .status.ready
      name: Ready
      type: boolean
    name: v1
    schema:
      openAPIV3Schema:
        properties:
          apiVersion:
            description: |-
              APIVersion defines the versioned schema of this representation of an object.
              Servers should convert recognized schemas to the latest internal value, and
              may reject unrecognized values.
              More info: https://git.k8s.io/community/contributors/devel/sig-architecture/api-conventions.md#resources
            type: string
          kind:
            description: |-
              Kind is a string value representing the REST resource this object represents.
              Servers may infer this from the endpoint the client submits requests to.
              Cannot be updated.
              In CamelCase.
              More info: https://git.k8s.io/community/contributors/devel/sig-architecture/api-conventions.md#types-kinds
            type: string
          metadata:
            type: object
          spec:
            properties:
              externalPort:
                description: External port number
                type: string
              internalPort:
                description: Internal port number to forward traffic to
                type: string
              ipName:
                description: IP resource name
                type: string
              ipType:
                description: IP type (e.g., ipv4, ipv6, dual)
                type: string
              ovnEip:
                description: OVN EIP name for DNAT rule
                type: string
".

Definition ovn_dnat_rules_crd_part2 : string := verbatim "              protocol:
                description: Protocol type (TCP or UDP)
                type: string
              v4Ip:
                description: IPv4 address for DNAT
                type: string
              v6Ip:
                description: IPv6 address for DNAT
                type: string
              vpc:
                description: VPC name. This field is immutable after creation.
                type: string
            type: object
          status:
            properties:
              conditions:
                description: Conditions represents the latest state of the object
                items:
                  description: Condition describes the state of an object at a certain
                    point.
                  properties:
                    lastTransitionTime:
                      description: Last time the condition transitioned from one status
                        to another.
                      format: date-time
                      type: string
                    lastUpdateTime:
                      description: Last time the condition was probed
                      format: date-time
                      type: string
                    message:
                      description: A human readable message indicating details about
                        the transition.
                      type: string
                    observedGeneration:
                      description: |-
                        ObservedGeneration represents the .metadata.generation that the condition was set based upon.
                        For instance, if .metadata.generation is currently 12, but the .status.conditions[x].observedGeneration is 9,
                        the condition is out of date with respect to the current state of the instance.
                      format: int64
                      type: integer
                    reason:
                      description: The reason for the condition's last transition.
                      type: string
                    status:
                      description: Status of the condition, one of True, False, Unknown.
                      type: string
                    type:
                      description: Type of condition.
                      type: string
                  type: object
                type: array
              externalPort:
                description: ExternalPort is the external port of the DNAT rule
                type: string
              internalPort:
                description: InternalPort is the internal port of the DNAT rule
                type: string
              ipName:
                description: IP resource name
                type: string
              protocol:
                description: Protocol of the DNAT rule
                type: string
              ready:
                description: Indicates whether the DNAT rule is ready
                type: boolean
              v4Eip:
                description: V4Eip is the IPv4 EIP address
                type: string
              v4Ip:
                description: V4Ip is the IPv4 address of the DNAT rule
                type: string
              v6Eip:
                description: V6Eip is the IPv6 EIP address
                type: string
              v6Ip:
                description: V6Ip is the IPv6 address of the DNAT rule
                type: string
              vpc:
                description: VPC name where the DNAT rule is configured
                type: string
            type: object
        type: object
    served: true
    storage: true
    subresources:
      status: {}".

Definition ovn_dnat_rules_crd : string :=
  ovn_dnat_rules_crd_part1 +:+
  ovn_dnat_rules_crd_part2.
