(* ===== verification/CrdsNetworks.v ===== *)
(** * internal/templates/customresourcedefinitions.go: VPCs, addresses, subnets and policies

    The definitions of VPCs, addresses, subnets, pools, VLANs, provider networks, security groups and QoS policies. The texts are verbatim: [verbatim]
    stands for the double quote with a tilde, which occurs in none of them. *)

From S2P Require Import Prelude TemplateText.
Local Open Scope string_scope.

Definition vpcs_crd_part1 : string := verbatim "apiVersion: apiextensions.k8s.io/v1
kind: CustomResourceDefinition
metadata:
  annotations:
    controller-gen.kubebuilder.io/version: v0.20.1
  name: vpcs.kubeovn.io
spec:
  group: kubeovn.io
  names:
    kind: Vpc
    listKind: VpcList
    plural: vpcs
    shortNames:
    - vpc
    singular: vpc
  scope: Cluster
  versions:
  - additionalPrinterColumns:
    - jsonPath: .status.enableExternal
      name: EnableExternal
      type: boolean
    - jsonPath: .status.enableBfd
      name: EnableBfd
      type: boolean
    - jsonPath: .status.standby
      name: Standby
      type: boolean
    - jsonPath: .status.subnets
      name: Subnets
      type: string
    - jsonPath: .status.extraExternalSubnets
      name: ExtraExternalSubnets
      type: string
    - jsonPath: .spec.namespaces
      name: Namespaces
      type: string
    - jsonPath: .status.defaultLogicalSwitch
      name: DefaultSubnet
      type: string
    name: v1
    schema:
      openAPIV3Schema:
        properties:
          apiVersion:
            description: |-
              APIVersion defines the versioned schema of this representation of an object.
              Servers should convert recognized schemas to the latest internal value, and
              may reject unrecognized values.
              More info: https://git.k8s.io/community/contributors/devel/sig-architecture/api-conventions.md#resources
            type: string
          kind:
            description: |-
              Kind is a string value representing the REST resource this object represents.
              Servers may infer this from the endpoint the client submits requests to.
              Cannot be updated.
              In CamelCase.
              More info: https://git.k8s.io/community/contributors/devel/sig-architecture/api-conventions.md#types-kinds
            type: string
          metadata:
            type: object
          spec:
            properties:
              bfdPort:
                description: |-
                  optional BFD LRP configuration
                  currently the LRP is used for vpc external gateway only
                properties:
                  enabled:
                    default: false
                    description: Enable BFD port
                    type: boolean
                  ip:
                    description: ip address(es) of the BFD port
                    type: string
                  nodeSelector:
                    description: |-
                      Optional node selector used to select the nodes where the BFD LRP will be hosted.
                      If not specified, at most 3 nodes will be selected.
                    properties:
                      matchExpressions:
                        description: matchExpressions is a list of label selector
                          requirements. The requirements are ANDed.
                        items:
                          description: |-
                            A label selector requirement is a selector that contains values, a key, and an operator that
                            relates the key and values.
                          properties:
                            key:
                              description: key is the label key that the selector
                                applies to.
                              type: string
                            operator:
                              description: |-
                                operator represents a key's relationship to a set of values.
                                Valid operators are In, NotIn, Exists and DoesNotExist.
                              type: string
                            values:
".

Definition vpcs_crd_part2 : string := verbatim "                              description: |-
                                values is an array of string values. If the operator is In or NotIn,
                                the values array must be non-empty. If the operator is Exists or DoesNotExist,
                                the values array must be empty. This array is replaced during a strategic
                                merge patch.
                              items:
                                type: string
                              type: array
                              x-kubernetes-list-type: atomic
                          required:
                          - key
                          - operator
                          type: object
                        type: array
                        x-kubernetes-list-type: atomic
                      matchLabels:
                        additionalProperties:
                          type: string
                        description: |-
                          matchLabels is a map of {key,value} pairs. A single {key,value} in the matchLabels
                          map is equivalent to an element of matchExpressions, whose key field is ~key~, the
                          operator is ~In~, and the values array contains only ~value~. The requirements are ANDed.
                        type: object
                    type: object
                    x-kubernetes-map-type: atomic
                type: object
              defaultSubnet:
                description: The default subnet name for the VPC
                type: string
              enableBfd:
                description: Enable BFD (Bidirectional Forwarding Detection) for the
                  VPC
                type: boolean
              enableExternal:
                description: Enable external network access for the VPC
                type: boolean
              extraExternalSubnets:
                description: Extra external subnets for provider-network VLAN. Immutable
                  after creation.
                items:
                  type: string
                type: array
              namespaces:
                description: List of namespaces that can use this VPC
                items:
                  type: string
                type: array
              policyRoutes:
                description: Policy routes for the VPC.
                items:
                  properties:
                    action:
                      description: Action of the policy route
                      type: string
                    match:
                      description: Match of the policy route
                      type: string
                    nextHopIP:
                      description: NextHopIP is an optional parameter. It needs to
                        be provided only when 'action' is 'reroute'.
                      type: string
                    priority:
                      description: Priority of the policy route (0-32767)
                      type: integer
                  type: object
                type: array
              staticRoutes:
                description: Static routes for the VPC.
                items:
                  properties:
                    bfdId:
                      type: string
                    cidr:
                      type: string
                    ecmpMode:
                      type: string
                    nextHopIP:
                      type: string
                    policy:
                      type: string
                    routeTable:
                      type: string
                  type: object
                type: array
              vpcPeerings:
                description: VPC peering configurations.
                items:
                  properties:
                    localConnectIP:
                      type: string
                    remoteVpc:
                      type: string
                  type: object
                type: array
            type: object
          status:
            properties:
".

Definition vpcs_crd_part3 : string := verbatim "              bfdPort:
                properties:
                  ip:
                    description: BFD port IP address
                    type: string
                  name:
                    description: BFD port name
                    type: string
                  nodes:
                    description: Nodes where BFD port is deployed
                    items:
                      type: string
                    type: array
                type: object
              conditions:
                description: Conditions represents the latest state of the object
                items:
                  description: Condition describes the state of an object at a certain
                    point.
                  properties:
                    lastTransitionTime:
                      description: Last time the condition transitioned from one status
                        to another.
                      format: date-time
                      type: string
                    lastUpdateTime:
                      description: Last time the condition was probed
                      format: date-time
                      type: string
                    message:
                      description: A human readable message indicating details about
                        the transition.
                      type: string
                    observedGeneration:
                      description: |-
                        ObservedGeneration represents the .metadata.generation that the condition was set based upon.
                        For instance, if .metadata.generation is currently 12, but the .status.conditions[x].observedGeneration is 9,
                        the condition is out of date with respect to the current state of the instance.
                      format: int64
                      type: integer
                    reason:
                      description: The reason for the condition's last transition.
                      type: string
                    status:
                      description: Status of the condition, one of True, False, Unknown.
                      type: string
                    type:
                      description: Type of condition.
                      type: string
                  type: object
                type: array
              default:
                description: Whether this is the default VPC.
                type: boolean
              defaultLogicalSwitch:
                type: string
              enableBfd:
                type: boolean
              enableExternal:
                type: boolean
              extraExternalSubnets:
                description: Extra external subnets for provider-network VLAN. Immutable
                  after creation.
                items:
                  type: string
                type: array
              router:
                type: string
              sctpLoadBalancer:
                type: string
              sctpSessionLoadBalancer:
                type: string
              standby:
                type: boolean
              subnets:
                items:
                  type: string
                type: array
              tcpLoadBalancer:
                type: string
              tcpSessionLoadBalancer:
                type: string
              udpLoadBalancer:
                type: string
              udpSessionLoadBalancer:
                type: string
              vpcPeerings:
                description: VPC peering configurations.
                items:
                  type: string
                type: array
            type: object
        type: object
    served: true
    storage: true
    subresources:
      status: {}".

Definition vpcs_crd : string :=
  vpcs_crd_part1 +:+
  vpcs_crd_part2 +:+
  vpcs_crd_part3.

Definition ips_crd : string := verbatim "apiVersion: apiextensions.k8s.io/v1
kind: CustomResourceDefinition
metadata:
  annotations:
    controller-gen.kubebuilder.io/version: v0.20.1
  name: ips.kubeovn.io
spec:
  group: kubeovn.io
  names:
    kind: IP
    listKind: IPList
    plural: ips
    shortNames:
    - ip
    singular: ip
  scope: Cluster
  versions:
  - additionalPrinterColumns:
    - jsonPath: .spec.v4IpAddress
      name: V4IP
      type: string
    - jsonPath: .spec.v6IpAddress
      name: V6IP
      type: string
    - jsonPath: .spec.macAddress
      name: Mac
      type: string
    - jsonPath: .spec.nodeName
      name: Node
      type: string
    - jsonPath: .spec.subnet
      name: Subnet
      type: string
    name: v1
    schema:
      openAPIV3Schema:
        properties:
          apiVersion:
            description: |-
              APIVersion defines the versioned schema of this representation of an object.
              Servers should convert recognized schemas to the latest internal value, and
              may reject unrecognized values.
              More info: https://git.k8s.io/community/contributors/devel/sig-architecture/api-conventions.md#resources
            type: string
          kind:
            description: |-
              Kind is a string value representing the REST resource this object represents.
              Servers may infer this from the endpoint the client submits requests to.
              Cannot be updated.
              In CamelCase.
              More info: https://git.k8s.io/community/contributors/devel/sig-architecture/api-conventions.md#types-kinds
            type: string
          metadata:
            type: object
          spec:
            properties:
              attachIps:
                description: Additional IP addresses from attached subnets
                items:
                  type: string
                type: array
              attachMacs:
                description: MAC addresses for attached IPs
                items:
                  type: string
                type: array
              attachSubnets:
                description: Additional attached subnets
                items:
                  type: string
                type: array
              containerID:
                description: Container ID
                type: string
              ipAddress:
                description: IP address (deprecated, use v4IpAddress or v6IpAddress)
                type: string
              macAddress:
                description: MAC address for the primary IP
                type: string
              namespace:
                description: Namespace of the pod
                type: string
              nodeName:
                description: Node name where the pod resides
                type: string
              podName:
                description: Pod name that this IP belongs to
                type: string
              podType:
                description: Pod type (e.g., pod, vm)
                type: string
              subnet:
                description: Primary subnet name for the IP. This field is immutable
                  after creation.
                type: string
              v4IpAddress:
                description: IPv4 address
                type: string
              v6IpAddress:
                description: IPv6 address
                type: string
            type: object
        type: object
    served: true
    storage: true
    subresources: {}".

Definition vips_crd_part1 : string := verbatim "apiVersion: apiextensions.k8s.io/v1
kind: CustomResourceDefinition
metadata:
  annotations:
    controller-gen.kubebuilder.io/version: v0.20.1
  name: vips.kubeovn.io
spec:
  group: kubeovn.io
  names:
    kind: Vip
    listKind: VipList
    plural: vips
    shortNames:
    - vip
    singular: vip
  scope: Cluster
  versions:
  - additionalPrinterColumns:
    - jsonPath: .spec.namespace
      name: Namespace
      type: string
    - jsonPath: .status.v4ip
      name: V4IP
      type: string
    - jsonPath: .status.v6ip
      name: V6IP
      type: string
    - jsonPath: .status.mac
      name: Mac
      type: string
    - jsonPath: .spec.subnet
      name: Subnet
      type: string
    - jsonPath: .status.type
      name: Type
      type: string
    name: v1
    schema:
      openAPIV3Schema:
        properties:
          apiVersion:
            description: |-
              APIVersion defines the versioned schema of this representation of an object.
              Servers should convert recognized schemas to the latest internal value, and
              may reject unrecognized values.
              More info: https://git.k8s.io/community/contributors/devel/sig-architecture/api-conventions.md#resources
            type: string
          kind:
            description: |-
              Kind is a string value representing the REST resource this object represents.
              Servers may infer this from the endpoint the client submits requests to.
              Cannot be updated.
              In CamelCase.
              More info: https://git.k8s.io/community/contributors/devel/sig-architecture/api-conventions.md#types-kinds
            type: string
          metadata:
            type: object
          spec:
            properties:
              attachSubnets:
                description: Additional subnets to attach
                items:
                  type: string
                type: array
              macAddress:
                description: MAC address for the VIP
                type: string
              namespace:
                description: Namespace where the VIP is created. This field is immutable
                  after creation.
                type: string
              selector:
                description: Pod names to be selected by this VIP
                items:
                  type: string
                type: array
              subnet:
".

Definition vips_crd_part2 : string := verbatim "                description: Subnet name for the VIP. This field is immutable after
                  creation.
                type: string
              type:
                description: Type of VIP. This field is immutable after creation.
                type: string
              v4ip:
                description: 'usage type: switch lb vip, allowed address pair vip
                  by default'
                type: string
              v6ip:
                description: Specific IPv6 address to use (optional, will be allocated
                  if not specified)
                type: string
            type: object
          status:
            properties:
              conditions:
                description: Conditions represents the latest state of the object
                items:
                  description: Condition describes the state of an object at a certain
                    point.
                  properties:
                    lastTransitionTime:
                      description: Last time the condition transitioned from one status
                        to another.
                      format: date-time
                      type: string
                    lastUpdateTime:
                      description: Last time the condition was probed
                      format: date-time
                      type: string
                    message:
                      description: A human readable message indicating details about
                        the transition.
                      type: string
                    observedGeneration:
                      description: |-
                        ObservedGeneration represents the .metadata.generation that the condition was set based upon.
                        For instance, if .metadata.generation is currently 12, but the .status.conditions[x].observedGeneration is 9,
                        the condition is out of date with respect to the current state of the instance.
                      format: int64
                      type: integer
                    reason:
                      description: The reason for the condition's last transition.
                      type: string
                    status:
                      description: Status of the condition, one of True, False, Unknown.
                      type: string
                    type:
                      description: Type of condition.
                      type: string
                  type: object
                type: array
              mac:
                description: MAC address associated with the VIP
                type: string
              selector:
                description: Pod names selected by this VIP
                items:
                  type: string
                type: array
              type:
                description: Type of VIP (e.g., Layer2, HealthCheck)
                type: string
              v4ip:
                description: Allocated IPv4 address
                type: string
              v6ip:
                description: Allocated IPv6 address
                type: string
            type: object
        type: object
    served: true
    storage: true
    subresources: {}".

Definition vips_crd : string :=
  vips_crd_part1 +:+
  vips_crd_part2.

Definition subnets_crd_part1 : string := verbatim "apiVersion: apiextensions.k8s.io/v1
kind: CustomResourceDefinition
metadata:
  annotations:
    controller-gen.kubebuilder.io/version: v0.20.1
  name: subnets.kubeovn.io
spec:
  group: kubeovn.io
  names:
    kind: Subnet
    listKind: SubnetList
    plural: subnets
    shortNames:
    - subnet
    singular: subnet
  scope: Cluster
  versions:
  - additionalPrinterColumns:
    - jsonPath: .spec.provider
      name: Provider
      type: string
    - jsonPath: .spec.vpc
      name: Vpc
      type: string
    - jsonPath: .spec.vlan
      name: Vlan
      type: string
    - jsonPath: .spec.protocol
      name: Protocol
      type: string
    - jsonPath: .spec.cidrBlock
      name: CIDR
      type: string
    - jsonPath: .spec.private
      name: Private
      type: boolean
    - jsonPath: .spec.natOutgoing
      name: NAT
      type: boolean
    - jsonPath: .spec.default
      name: Default
      type: boolean
    - jsonPath: .spec.gatewayType
      name: GatewayType
      type: string
    - jsonPath: .status.v4usingIPs
      name: V4Used
      type: number
    - jsonPath: .status.v4availableIPs
      name: V4Available
      type: number
    - jsonPath: .status.v6usingIPs
      name: V6Used
      type: number
    - jsonPath: .status.v6availableIPs
      name: V6Available
      type: number
    - jsonPath: .spec.excludeIps
      name: ExcludeIPs
      type: string
    - jsonPath: .status.u2oInterconnectionIP
      name: U2OInterconnectionIP
      type: string
    name: v1
    schema:
      openAPIV3Schema:
        properties:
          apiVersion:
            description: |-
              APIVersion defines the versioned schema of this representation of an object.
              Servers should convert recognized schemas to the latest internal value, and
              may reject unrecognized values.
              More info: https://git.k8s.io/community/contributors/devel/sig-architecture/api-conventions.md#resources
            type: string
          kind:
            description: |-
              Kind is a string value representing the REST resource this object represents.
              Servers may infer this from the endpoint the client submits requests to.
              Cannot be updated.
              In CamelCase.
              More info: https://git.k8s.io/community/contributors/devel/sig-architecture/api-conventions.md#types-kinds
            type: string
          metadata:
            type: object
          spec:
            properties:
              acls:
                description: ACL rules for the subnet.
                items:
                  properties:
                    action:
                      type: string
                    direction:
                      type: string
                    match:
                      type: string
                    priority:
                      type: integer
                  type: object
                type: array
              allowEWTraffic:
                description: Allow east-west traffic across subnets.
                type: boolean
              allowSubnets:
                description: Allowed subnets for east-west traffic.
                items:
                  type: string
                type: array
              cidrBlock:
                description: CIDR block for the subnet. Immutable after creation.
".

Definition subnets_crd_part2 : string := verbatim "                type: string
              default:
                description: Whether this is the default subnet.
                type: boolean
              dhcpV4Options:
                description: DHCPv4 options UUID.
                type: string
              dhcpV6Options:
                description: DHCPv6 options UUID.
                type: string
              disableGatewayCheck:
                description: Disable gateway readiness check.
                type: boolean
              disableInterConnection:
                description: Disable interconnection for the subnet.
                type: boolean
              enableDHCP:
                description: Enable DHCP for the subnet.
                type: boolean
              enableEcmp:
                description: Enable ECMP for centralized gateway.
                type: boolean
              enableExternalLBAddress:
                description: Enable external LB address support.
                type: boolean
              enableIPv6RA:
                description: Enable IPv6 Router Advertisement.
                type: boolean
              enableLb:
                description: Enable LoadBalancer on this subnet.
                type: boolean
              enableMulticastSnoop:
                description: Enable multicast snoop.
                type: boolean
              excludeIps:
                description: IP addresses to exclude from allocation.
                items:
                  type: string
                type: array
              externalEgressGateway:
                description: External egress gateway IPs.
                type: string
              gateway:
                description: Gateway IP address for the subnet.
                type: string
              gatewayNode:
                description: Gateway node(s) for centralized gateway type.
                type: string
              gatewayNodeSelectors:
                description: Selectors to choose gateway nodes.
                items:
                  description: |-
                    A label selector is a label query over a set of resources. The result of matchLabels and
                    matchExpressions are ANDed. An empty label selector matches all objects. A null
                    label selector matches no objects.
                  properties:
                    matchExpressions:
                      description: matchExpressions is a list of label selector requirements.
                        The requirements are ANDed.
                      items:
                        description: |-
                          A label selector requirement is a selector that contains values, a key, and an operator that
                          relates the key and values.
                        properties:
                          key:
                            description: key is the label key that the selector applies
                              to.
                            type: string
                          operator:
                            description: |-
                              operator represents a key's relationship to a set of values.
                              Valid operators are In, NotIn, Exists and DoesNotExist.
                            type: string
                          values:
                            description: |-
                              values is an array of string values. If the operator is In or NotIn,
                              the values array must be non-empty. If the operator is Exists or DoesNotExist,
                              the values array must be empty. This array is replaced during a strategic
                              merge patch.
                            items:
                              type: string
                            type: array
                            x-kubernetes-list-type: atomic
                        required:
                        - key
                        - operator
                        type: object
                      type: array
                      x-kubernetes-list-type: atomic
                    matchLabels:
                      additionalProperties:
                        type: string
                      description: |-
                        matchLabels is a map of {key,value} pairs. A single {key,value} in the matchLabels
                        map is equivalent to an element of matchExpressions, whose key field is ~key~, the
                        operator is ~In~, and the values array contains only ~value~. The requirements are ANDed.
                      type: object
                  type: object
                  x-kubernetes-map-type: atomic
                type: array
              gatewayType:
                description: Gateway type (distributed or centralized).
                type: string
              ipv6RAConfigs:
                description: IPv6 RA configuration options.
                type: string
              logicalGateway:
                description: Enable logical gateway.
                type: boolean
              mtu:
".

Definition subnets_crd_part3 : string := verbatim "                description: MTU for pods in this subnet.
                format: int32
                type: integer
              namespaceSelectors:
                description: Namespace label selectors to associate with this subnet.
                items:
                  description: |-
                    A label selector is a label query over a set of resources. The result of matchLabels and
                    matchExpressions are ANDed. An empty label selector matches all objects. A null
                    label selector matches no objects.
                  properties:
                    matchExpressions:
                      description: matchExpressions is a list of label selector requirements.
                        The requirements are ANDed.
                      items:
                        description: |-
                          A label selector requirement is a selector that contains values, a key, and an operator that
                          relates the key and values.
                        properties:
                          key:
                            description: key is the label key that the selector applies
                              to.
                            type: string
                          operator:
                            description: |-
                              operator represents a key's relationship to a set of values.
                              Valid operators are In, NotIn, Exists and DoesNotExist.
                            type: string
                          values:
                            description: |-
                              values is an array of string values. If the operator is In or NotIn,
                              the values array must be non-empty. If the operator is Exists or DoesNotExist,
                              the values array must be empty. This array is replaced during a strategic
                              merge patch.
                            items:
                              type: string
                            type: array
                            x-kubernetes-list-type: atomic
                        required:
                        - key
                        - operator
                        type: object
                      type: array
                      x-kubernetes-list-type: atomic
                    matchLabels:
                      additionalProperties:
                        type: string
                      description: |-
                        matchLabels is a map of {key,value} pairs. A single {key,value} in the matchLabels
                        map is equivalent to an element of matchExpressions, whose key field is ~key~, the
                        operator is ~In~, and the values array contains only ~value~. The requirements are ANDed.
                      type: object
                  type: object
                  x-kubernetes-map-type: atomic
                type: array
              namespaces:
                description: List of namespaces associated with this subnet.
                items:
                  type: string
                type: array
              natOutgoing:
                description: Enable NAT outgoing for the subnet.
                type: boolean
              natOutgoingPolicyRules:
                description: NAT outgoing policy rules.
                items:
                  properties:
                    action:
                      type: string
                    match:
                      properties:
                        dstIPs:
                          type: string
                        srcIPs:
                          type: string
                      type: object
                  type: object
                type: array
              nodeNetwork:
                description: Node network name for underlay.
                type: string
              policyRoutingPriority:
                description: Policy routing priority.
                format: int32
                type: integer
              policyRoutingTableID:
                description: Policy routing table ID.
                format: int32
                type: integer
              private:
                description: Whether the subnet is private.
                type: boolean
              protocol:
                description: Network protocol (IPv4, IPv6, or Dual). Immutable after
                  creation.
                type: string
              provider:
                description: Provider network name.
                type: string
              routeTable:
                description: Route table associated with the subnet.
                type: string
              u2oFeatures:
                properties:
                  overlayOnlyRouting:
                    type: boolean
                type: object
              u2oInterconnection:
                description: Enable underlay to overlay interconnection.
                type: boolean
".

Definition subnets_crd_part4 : string := verbatim "              u2oInterconnectionIP:
                description: Underlay to overlay interconnection IP.
                type: string
              vips:
                description: Virtual IP addresses for the subnet.
                items:
                  type: string
                type: array
              vlan:
                description: VLAN ID or provider network name.
                type: string
              vpc:
                description: VPC name for the subnet. Immutable after creation.
                type: string
            type: object
          status:
            properties:
              activateGateway:
                type: string
              conditions:
                description: Conditions represents the latest state of the object
                items:
                  description: Condition describes the state of an object at a certain
                    point.
                  properties:
                    lastTransitionTime:
                      description: Last time the condition transitioned from one status
                        to another.
                      format: date-time
                      type: string
                    lastUpdateTime:
                      description: Last time the condition was probed
                      format: date-time
                      type: string
                    message:
                      description: A human readable message indicating details about
                        the transition.
                      type: string
                    observedGeneration:
                      description: |-
                        ObservedGeneration represents the .metadata.generation that the condition was set based upon.
                        For instance, if .metadata.generation is currently 12, but the .status.conditions[x].observedGeneration is 9,
                        the condition is out of date with respect to the current state of the instance.
                      format: int64
                      type: integer
                    reason:
                      description: The reason for the condition's last transition.
                      type: string
                    status:
                      description: Status of the condition, one of True, False, Unknown.
                      type: string
                    type:
                      description: Type of condition.
                      type: string
                  type: object
                type: array
              dhcpV4OptionsUUID:
                type: string
              dhcpV6OptionsUUID:
                type: string
              mcastQuerierIP:
                type: string
              mcastQuerierMAC:
                type: string
              natOutgoingPolicyRules:
                description: NAT outgoing policy rules.
                items:
                  properties:
                    action:
                      type: string
                    match:
                      properties:
                        dstIPs:
                          type: string
                        srcIPs:
                          type: string
                      type: object
                    ruleID:
                      type: string
                  type: object
                type: array
              u2oInterconnectionIP:
                description: Underlay to overlay interconnection IP.
                type: string
              u2oInterconnectionMAC:
                type: string
              u2oInterconnectionVPC:
                type: string
              v4availableIPrange:
                type: string
              v4availableIPs:
                type: number
              v4usingIPrange:
                type: string
              v4usingIPs:
                type: number
              v6availableIPrange:
                type: string
              v6availableIPs:
                type: number
              v6usingIPrange:
                type: string
              v6usingIPs:
                type: number
            type: object
        type: object
    served: true
    storage: true
    subresources:
      status: {}".

Definition subnets_crd : string :=
  subnets_crd_part1 +:+
  subnets_crd_part2 +:+
  subnets_crd_part3 +:+
  subnets_crd_part4.

Definition ippools_crd_part1 : string := verbatim "apiVersion: apiextensions.k8s.io/v1
kind: CustomResourceDefinition
metadata:
  annotations:
    controller-gen.kubebuilder.io/version: v0.20.1
  name: ippools.kubeovn.io
spec:
  group: kubeovn.io
  names:
    kind: IPPool
    listKind: IPPoolList
    plural: ippools
    shortNames:
    - ippool
    singular: ippool
  scope: Cluster
  versions:
  - additionalPrinterColumns:
    - jsonPath: .spec.subnet
      name: Subnet
      type: string
    - jsonPath: .spec.enableAddressSet
      name: enableAddressSet
      type: boolean
    - jsonPath: .spec.ips
      name: IPs
      type: string
    - jsonPath: .status.v4UsingIPs
      name: V4Used
      type: number
    - jsonPath: .status.v4AvailableIPs
      name: V4Available
      type: number
    - jsonPath: .status.v6UsingIPs
      name: V6Used
      type: number
    - jsonPath: .status.v6AvailableIPs
      name: V6Available
      type: number
    name: v1
    schema:
      openAPIV3Schema:
        properties:
          apiVersion:
            description: |-
              APIVersion defines the versioned schema of this representation of an object.
              Servers should convert recognized schemas to the latest internal value, and
              may reject unrecognized values.
              More info: https://git.k8s.io/community/contributors/devel/sig-architecture/api-conventions.md#resources
            type: string
          kind:
            description: |-
              Kind is a string value representing the REST resource this object represents.
              Servers may infer this from the endpoint the client submits requests to.
              Cannot be updated.
              In CamelCase.
              More info: https://git.k8s.io/community/contributors/devel/sig-architecture/api-conventions.md#types-kinds
            type: string
          metadata:
            type: object
          spec:
            properties:
              enableAddressSet:
                default: false
                description: EnableAddressSet to work with policy-based routing and
                  ACL
                type: boolean
              ips:
                description: IP addresses or ranges in the pool (IPv4/IPv6 addresses
                  or CIDR ranges)
                items:
                  type: string
                type: array
              namespaces:
                description: Namespaces that can use this IP pool
                items:
                  type: string
".

Definition ippools_crd_part2 : string := verbatim "                type: array
              subnet:
                description: Subnet name for the IP pool. This field is immutable.
                type: string
            required:
            - ips
            - subnet
            type: object
          status:
            properties:
              conditions:
                description: Conditions represents the latest state of the object
                items:
                  description: Condition describes the state of an object at a certain
                    point.
                  properties:
                    lastTransitionTime:
                      description: Last time the condition transitioned from one status
                        to another.
                      format: date-time
                      type: string
                    lastUpdateTime:
                      description: Last time the condition was probed
                      format: date-time
                      type: string
                    message:
                      description: A human readable message indicating details about
                        the transition.
                      type: string
                    observedGeneration:
                      description: |-
                        ObservedGeneration represents the .metadata.generation that the condition was set based upon.
                        For instance, if .metadata.generation is currently 12, but the .status.conditions[x].observedGeneration is 9,
                        the condition is out of date with respect to the current state of the instance.
                      format: int64
                      type: integer
                    reason:
                      description: The reason for the condition's last transition.
                      type: string
                    status:
                      description: Status of the condition, one of True, False, Unknown.
                      type: string
                    type:
                      description: Type of condition.
                      type: string
                  type: object
                type: array
              v4AvailableIPRange:
                description: Available IPv4 address range
                type: string
              v4AvailableIPs:
                description: Number of available IPv4 addresses
                type: number
              v4UsingIPRange:
                description: IPv4 address range in use
                type: string
              v4UsingIPs:
                description: Number of using IPv4 addresses
                type: number
              v6AvailableIPRange:
                description: Available IPv6 address range
                type: string
              v6AvailableIPs:
                description: Number of available IPv6 addresses
                type: number
              v6UsingIPRange:
                description: IPv6 address range in use
                type: string
              v6UsingIPs:
                description: Number of using IPv6 addresses
                type: number
            type: object
        type: object
    served: true
    storage: true
    subresources:
      status: {}".

Definition ippools_crd : string :=
  ippools_crd_part1 +:+
  ippools_crd_part2.

Definition vlans_crd : string := verbatim "apiVersion: apiextensions.k8s.io/v1
kind: CustomResourceDefinition
metadata:
  annotations:
    controller-gen.kubebuilder.io/version: v0.20.1
  name: vlans.kubeovn.io
spec:
  group: kubeovn.io
  names:
    kind: Vlan
    listKind: VlanList
    plural: vlans
    shortNames:
    - vlan
    singular: vlan
  scope: Cluster
  versions:
  - additionalPrinterColumns:
    - jsonPath: .spec.id
      name: ID
      type: string
    - jsonPath: .spec.provider
      name: Provider
      type: string
    - jsonPath: .status.conflict
      name: conflict
      type: boolean
    name: v1
    schema:
      openAPIV3Schema:
        properties:
          apiVersion:
            description: |-
              APIVersion defines the versioned schema of this representation of an object.
              Servers should convert recognized schemas to the latest internal value, and
              may reject unrecognized values.
              More info: https://git.k8s.io/community/contributors/devel/sig-architecture/api-conventions.md#resources
            type: string
          kind:
            description: |-
              Kind is a string value representing the REST resource this object represents.
              Servers may infer this from the endpoint the client submits requests to.
              Cannot be updated.
              In CamelCase.
              More info: https://git.k8s.io/community/contributors/devel/sig-architecture/api-conventions.md#types-kinds
            type: string
          metadata:
            type: object
          spec:
            properties:
              id:
                description: VLAN ID (0-4095). This field is immutable after creation.
                type: integer
              provider:
                description: Provider network name. This field is immutable after
                  creation.
                type: string
              providerInterfaceName:
                description: 'Deprecated: in favor of provider'
                type: string
              vlanId:
                description: deprecated fields, use ID & Provider instead
                type: integer
            required:
            - provider
            type: object
          status:
            properties:
              conditions:
                description: Conditions represents the latest state of the object
                items:
                  description: Condition describes the state of an object at a certain
                    point.
                  properties:
                    lastTransitionTime:
                      description: Last time the condition transitioned from one status
                        to another.
                      format: date-time
                      type: string
                    lastUpdateTime:
                      description: Last time the condition was probed
                      format: date-time
                      type: string
                    message:
                      description: A human readable message indicating details about
                        the transition.
                      type: string
                    observedGeneration:
                      description: |-
                        ObservedGeneration represents the .metadata.generation that the condition was set based upon.
                        For instance, if .metadata.generation is currently 12, but the .status.conditions[x].observedGeneration is 9,
                        the condition is out of date with respect to the current state of the instance.
                      format: int64
                      type: integer
                    reason:
                      description: The reason for the condition's last transition.
                      type: string
                    status:
                      description: Status of the condition, one of True, False, Unknown.
                      type: string
                    type:
                      description: Type of condition.
                      type: string
                  type: object
                type: array
              conflict:
                description: Whether there is a conflict with this VLAN
                type: boolean
              subnets:
                description: List of subnet names using this VLAN
                items:
                  type: string
                type: array
            type: object
        type: object
    served: true
    storage: true
    subresources:
      status: {}".

Definition provider_networks_crd_part1 : string := verbatim "apiVersion: apiextensions.k8s.io/v1
kind: CustomResourceDefinition
metadata:
  annotations:
    controller-gen.kubebuilder.io/version: v0.20.1
  name: provider-networks.kubeovn.io
spec:
  group: kubeovn.io
  names:
    kind: ProviderNetwork
    listKind: ProviderNetworkList
    plural: provider-networks
    shortNames:
    - pn
    singular: provider-network
  scope: Cluster
  versions:
  - additionalPrinterColumns:
    - jsonPath: .spec.defaultInterface
      name: DefaultInterface
      type: string
    - jsonPath: .status.ready
      name: Ready
      type: boolean
    name: v1
    schema:
      openAPIV3Schema:
        properties:
          apiVersion:
            description: |-
              APIVersion defines the versioned schema of this representation of an object.
              Servers should convert recognized schemas to the latest internal value, and
              may reject unrecognized values.
              More info: https://git.k8s.io/community/contributors/devel/sig-architecture/api-conventions.md#resources
            type: string
          kind:
            description: |-
              Kind is a string value representing the REST resource this object represents.
              Servers may infer this from the endpoint the client submits requests to.
              Cannot be updated.
              In CamelCase.
              More info: https://git.k8s.io/community/contributors/devel/sig-architecture/api-conventions.md#types-kinds
            type: string
          metadata:
            type: object
          spec:
            properties:
              autoCreateVlanSubinterfaces:
                description: Automatically create VLAN subinterfaces
                type: boolean
              customInterfaces:
                description: Custom interface configurations for specific nodes
                items:
                  properties:
                    interface:
                      description: Interface name
                      maxLength: 15
                      pattern: ^[^/\s]+$
                      type: string
                    nodes:
                      description: Nodes that use this custom interface
                      items:
                        type: string
                      type: array
                  type: object
                type: array
              defaultInterface:
                description: Default interface name for the provider network. This
                  field is immutable after creation.
                maxLength: 15
                pattern: ^[^/\s]+$
                type: string
              exchangeLinkName:
                description: Exchange link name between host and container
                type: boolean
              excludeNodes:
                description: Nodes to exclude from this provider network
                items:
                  type: string
                type: array
              nodeSelector:
                description: Node selector for targeting specific nodes
                properties:
                  matchExpressions:
                    description: matchExpressions is a list of label selector requirements.
                      The requirements are ANDed.
                    items:
                      description: |-
                        A label selector requirement is a selector that contains values, a key, and an operator that
                        relates the key and values.
                      properties:
                        key:
                          description: key is the label key that the selector applies
                            to.
                          type: string
                        operator:
                          description: |-
                            operator represents a key's relationship to a set of values.
                            Valid operators are In, NotIn, Exists and DoesNotExist.
                          type: string
                        values:
                          description: |-
".

Definition provider_networks_crd_part2 : string := verbatim "                            values is an array of string values. If the operator is In or NotIn,
                            the values array must be non-empty. If the operator is Exists or DoesNotExist,
                            the values array must be empty. This array is replaced during a strategic
                            merge patch.
                          items:
                            type: string
                          type: array
                          x-kubernetes-list-type: atomic
                      required:
                      - key
                      - operator
                      type: object
                    type: array
                    x-kubernetes-list-type: atomic
                  matchLabels:
                    additionalProperties:
                      type: string
                    description: |-
                      matchLabels is a map of {key,value} pairs. A single {key,value} in the matchLabels
                      map is equivalent to an element of matchExpressions, whose key field is ~key~, the
                      operator is ~In~, and the values array contains only ~value~. The requirements are ANDed.
                    type: object
                type: object
                x-kubernetes-map-type: atomic
              preserveVlanInterfaces:
                description: Enable automatic detection and preservation of VLAN interfaces
                type: boolean
              vlanInterfaces:
                description: Optional explicit list of VLAN interface names to preserve
                  (e.g., eth0.10, bond0.20)
                items:
                  type: string
                type: array
            required:
            - defaultInterface
            type: object
          status:
            properties:
              conditions:
                description: |-
                  Conditions represents the latest state of the object
                  Conditions of nodes in the provider network
                items:
                  properties:
                    lastTransitionTime:
                      description: Last time the condition transitioned from one status
                        to another.
                      format: date-time
                      type: string
                    lastUpdateTime:
                      description: Last time the condition was probed
                      format: date-time
                      type: string
                    message:
                      description: A human readable message indicating details about
                        the transition.
                      type: string
                    node:
                      description: Node name
                      type: string
                    observedGeneration:
                      description: |-
                        ObservedGeneration represents the .metadata.generation that the condition was set based upon.
                        For instance, if .metadata.generation is currently 12, but the .status.conditions[x].observedGeneration is 9,
                        the condition is out of date with respect to the current state of the instance.
                      format: int64
                      type: integer
                    reason:
                      description: The reason for the condition's last transition.
                      type: string
                    status:
                      description: Status of the condition, one of True, False, Unknown.
                      type: string
                    type:
                      description: Type of condition.
                      type: string
                  type: object
                type: array
              notReadyNodes:
                description: Nodes that are not ready
                items:
                  type: string
                type: array
              ready:
                description: Whether the provider network is ready
                type: boolean
              readyNodes:
                description: Nodes that are ready
                items:
                  type: string
                type: array
              vlans:
                description: VLANs in use by this provider network
                items:
                  type: string
                type: array
            type: object
        type: object
    served: true
    storage: true
    subresources:
      status: {}".

Definition provider_networks_crd : string :=
  provider_networks_crd_part1 +:+
  provider_networks_crd_part2.

Definition security_groups_crd_part1 : string := verbatim "apiVersion: apiextensions.k8s.io/v1
kind: CustomResourceDefinition
metadata:
  annotations:
    controller-gen.kubebuilder.io/version: v0.20.1
  name: security-groups.kubeovn.io
spec:
  group: kubeovn.io
  names:
    kind: SecurityGroup
    listKind: SecurityGroupList
    plural: security-groups
    shortNames:
    - sg
    singular: security-group
  scope: Cluster
  versions:
  - name: v1
    schema:
      openAPIV3Schema:
        properties:
          apiVersion:
            description: |-
              APIVersion defines the versioned schema of this representation of an object.
              Servers should convert recognized schemas to the latest internal value, and
              may reject unrecognized values.
              More info: https://git.k8s.io/community/contributors/devel/sig-architecture/api-conventions.md#resources
            type: string
          kind:
            description: |-
              Kind is a string value representing the REST resource this object represents.
              Servers may infer this from the endpoint the client submits requests to.
              Cannot be updated.
              In CamelCase.
              More info: https://git.k8s.io/community/contributors/devel/sig-architecture/api-conventions.md#types-kinds
            type: string
          metadata:
            type: object
          spec:
            properties:
              allowSameGroupTraffic:
                description: Allow traffic between pods in the same security group
                type: boolean
              egressRules:
                description: Egress traffic rules for the security group
                items:
                  properties:
                    ipVersion:
                      description: IP version (IPv4 or IPv6)
                      type: string
                    localAddress:
                      description: Local address or CIDR
                      type: string
                    policy:
                      description: Policy action (allow, pass or deny)
                      type: string
                    portRangeMax:
                      description: End of port range (1-65535)
                      type: integer
                    portRangeMin:
                      description: Start of port range (1-65535)
                      type: integer
                    priority:
                      description: Rule priority (1-16384)
                      type: integer
                    protocol:
                      description: Protocol (tcp, udp, icmp, or all)
                      type: string
                    remoteAddress:
                      description: Remote address or CIDR
                      type: string
                    remoteSecurityGroup:
                      description: Remote security group name
                      type: string
                    remoteType:
                      description: Type of remote (address, cidr, or securityGroup)
                      type: string
                    sourcePortRangeMax:
                      description: End of source port range (1-65535)
".

Definition security_groups_crd_part2 : string := verbatim "                      type: integer
                    sourcePortRangeMin:
                      description: Start of source port range (1-65535)
                      type: integer
                  type: object
                type: array
              ingressRules:
                description: Ingress traffic rules for the security group
                items:
                  properties:
                    ipVersion:
                      description: IP version (IPv4 or IPv6)
                      type: string
                    localAddress:
                      description: Local address or CIDR
                      type: string
                    policy:
                      description: Policy action (allow, pass or deny)
                      type: string
                    portRangeMax:
                      description: End of port range (1-65535)
                      type: integer
                    portRangeMin:
                      description: Start of port range (1-65535)
                      type: integer
                    priority:
                      description: Rule priority (1-16384)
                      type: integer
                    protocol:
                      description: Protocol (tcp, udp, icmp, or all)
                      type: string
                    remoteAddress:
                      description: Remote address or CIDR
                      type: string
                    remoteSecurityGroup:
                      description: Remote security group name
                      type: string
                    remoteType:
                      description: Type of remote (address, cidr, or securityGroup)
                      type: string
                    sourcePortRangeMax:
                      description: End of source port range (1-65535)
                      type: integer
                    sourcePortRangeMin:
                      description: Start of source port range (1-65535)
                      type: integer
                  type: object
                type: array
              tier:
                description: ACL tier to which the rules are added
                type: integer
            type: object
          status:
            properties:
              allowSameGroupTraffic:
                description: Current allow same group traffic setting
                type: boolean
              egressLastSyncSuccess:
                description: Last egress sync success status
                type: boolean
              egressMd5:
                description: MD5 hash of egress rules
                type: string
              ingressLastSyncSuccess:
                description: Last ingress sync success status
                type: boolean
              ingressMd5:
                description: MD5 hash of ingress rules
                type: string
              portGroup:
                description: OVN port group name
                type: string
            type: object
        type: object
    served: true
    storage: true
    subresources:
      status: {}".

Definition security_groups_crd : string :=
  security_groups_crd_part1 +:+
  security_groups_crd_part2.

Definition qos_policies_crd_part1 : string := verbatim "apiVersion: apiextensions.k8s.io/v1
kind: CustomResourceDefinition
metadata:
  annotations:
    controller-gen.kubebuilder.io/version: v0.20.1
  name: qos-policies.kubeovn.io
spec:
  group: kubeovn.io
  names:
    kind: QoSPolicy
    listKind: QoSPolicyList
    plural: qos-policies
    shortNames:
    - qos
    singular: qos-policy
  scope: Cluster
  versions:
  - additionalPrinterColumns:
    - jsonPath: .spec.shared
      name: Shared
      type: string
    - jsonPath: .spec.bindingType
      name: BindingType
      type: string
    name: v1
    schema:
      openAPIV3Schema:
        properties:
          apiVersion:
            description: |-
              APIVersion defines the versioned schema of this representation of an object.
              Servers should convert recognized schemas to the latest internal value, and
              may reject unrecognized values.
              More info: https://git.k8s.io/community/contributors/devel/sig-architecture/api-conventions.md#resources
            type: string
          kind:
            description: |-
              Kind is a string value representing the REST resource this object represents.
              Servers may infer this from the endpoint the client submits requests to.
              Cannot be updated.
              In CamelCase.
              More info: https://git.k8s.io/community/contributors/devel/sig-architecture/api-conventions.md#types-kinds
            type: string
          metadata:
            type: object
          spec:
            properties:
              bandwidthLimitRules:
                description: Bandwidth limit rules to apply
                items:
                  description: BandwidthLimitRule describes the rule of a bandwidth
                    limit.
                  properties:
                    burstMax:
                      description: Maximum burst in MB (e.g., 10 or 0.5 for 500KB)
                      type: string
                    direction:
                      description: Traffic direction (ingress/egress)
                      type: string
                    interface:
                      description: Interface name
                      type: string
                    matchType:
                      description: Match type
                      type: string
                    matchValue:
                      description: Match value
                      type: string
                    name:
                      description: Rule name
                      type: string
                    priority:
                      description: Rule priority
                      type: integer
                    rateMax:
                      description: Maximum rate in Mbps (e.g., 100 or 0.5 for 500Kbps)
                      type: string
                  required:
                  - name
                  type: object
                type: array
              bindingType:
                description: Binding type (e.g., pod, namespace)
                type: string
              shared:
                description: Whether the QoS policy is shared across multiple pods
                type: boolean
".

Definition qos_policies_crd_part2 : string := verbatim "            type: object
          status:
            properties:
              bandwidthLimitRules:
                description: Active bandwidth limit rules
                items:
                  description: BandwidthLimitRule describes the rule of a bandwidth
                    limit.
                  properties:
                    burstMax:
                      description: Maximum burst in MB (e.g., 10 or 0.5 for 500KB)
                      type: string
                    direction:
                      description: Traffic direction (ingress/egress)
                      type: string
                    interface:
                      description: Interface name
                      type: string
                    matchType:
                      description: Match type
                      type: string
                    matchValue:
                      description: Match value
                      type: string
                    name:
                      description: Rule name
                      type: string
                    priority:
                      description: Rule priority
                      type: integer
                    rateMax:
                      description: Maximum rate in Mbps (e.g., 100 or 0.5 for 500Kbps)
                      type: string
                  required:
                  - name
                  type: object
                type: array
              bindingType:
                description: Binding type of the QoS policy
                type: string
              conditions:
                description: Conditions represents the latest state of the object
                items:
                  description: Condition describes the state of an object at a certain
                    point.
                  properties:
                    lastTransitionTime:
                      description: Last time the condition transitioned from one status
                        to another.
                      format: date-time
                      type: string
                    lastUpdateTime:
                      description: Last time the condition was probed
                      format: date-time
                      type: string
                    message:
                      description: A human readable message indicating details about
                        the transition.
                      type: string
                    observedGeneration:
                      description: |-
                        ObservedGeneration represents the .metadata.generation that the condition was set based upon.
                        For instance, if .metadata.generation is currently 12, but the .status.conditions[x].observedGeneration is 9,
                        the condition is out of date with respect to the current state of the instance.
                      format: int64
                      type: integer
                    reason:
                      description: The reason for the condition's last transition.
                      type: string
                    status:
                      description: Status of the condition, one of True, False, Unknown.
                      type: string
                    type:
                      description: Type of condition.
                      type: string
                  type: object
                type: array
              shared:
                description: Whether the QoS policy is shared
                type: boolean
            type: object
        type: object
    served: true
    storage: true
    subresources:
      status: {}".

Definition qos_policies_crd : string :=
  qos_policies_crd_part1 +:+
  qos_policies_crd_part2.
