(* ===== verification/Crds.v ===== *)
(** * internal/templates/customresourcedefinitions.go: the list *)

From S2P Require Import Prelude CrdsResolvers CrdsNatGateway CrdsRules CrdsNetworks.

Definition CRDList : list string :=
  [vpc_dnses_crd;
   switch_lb_rules_crd;
   vpc_nat_gateways_crd;
   vpc_egress_gateways_crd;
   iptables_eips_crd;
   iptables_fip_rules_crd;
   iptables_dnat_rules_crd;
   iptables_snat_rules_crd;
   ovn_eips_crd;
   ovn_fips_crd;
   ovn_snat_rules_crd;
   ovn_dnat_rules_crd;
   vpcs_crd;
   ips_crd;
   vips_crd;
   subnets_crd;
   ippools_crd;
   vlans_crd;
   provider_networks_crd;
   security_groups_crd;
   qos_policies_crd;
   bgp_confs_crd;
   dns_name_resolvers_crd;
   evpn_confs_crd].
