(* ===== verification/PlainText.v ===== *)
(** * Templates without actions

    A template that never opens an action is one text node, and its execution
    prints it as it is, whatever the data and the functions. *)

From Stdlib Require Import Ascii.
From S2P Require Import Prelude TextTemplate.
Local Open Scope string_scope.

(** No action is opened: no two opening braces in a row. *)
Fixpoint no_action (s : string) : bool :=
  match s with
  | EmptyString => true
  | String c s' =>
      negb (Ascii.eqb c "{" && match s' with String c' _ => Ascii.eqb c' "{" | EmptyString => false end)
      && no_action s'
  end.

Lemma rev_onto_twice s : forall acc acc', rev_onto (rev_onto s acc) acc' = rev_onto acc (s +:+ acc').
Proof. induction s as [|c s IH]; intros acc acc'; [done|]. cbn [rev_onto]. by rewrite IH. Qed.

Lemma rev_string_onto s : rev_string (rev_onto s "") = s.
Proof.
  unfold rev_string. rewrite rev_onto_twice. cbn [rev_onto].
  induction s as [|c s IH]; [done|]. change (String c (s +:+ "") = String c s). by rewrite IH.
Qed.

Lemma lex_go_text s : forall acc items,
  no_action s = true ->
  lex_go (LText acc false) items s = Ok (rev (emit_text (rev_onto s acc) items)).
Proof.
  induction s as [|c s IH]; intros acc items Hs; [done|].
  cbn [no_action] in Hs. apply andb_true_iff in Hs as [Hc Hs]. apply negb_true_iff in Hc.
  cbn [lex_go rev_onto]. destruct s as [|c' s']; [by apply IH|].
  rewrite Hc. cbn [andb]. by apply IH.
Qed.

(** Parsing a text without actions gives the text back. *)
Lemma Parse_text funcs c s :
  no_action (String c s) = true -> Parse funcs (String c s) = Ok [NText (String c s)].
Proof.
  intros Hs. unfold Parse, lex. rewrite (lex_go_text _ _ _ Hs).
  assert (Hne : exists c' s', rev_onto (String c s) "" = String c' s').
  { destruct (rev_onto (String c s) "") as [|c' s'] eqn:Hr; [|by eauto].
    pose proof (rev_string_onto (String c s)) as Hb. by rewrite Hr in Hb. }
  destruct Hne as (c' & s' & Hr). unfold emit_text. rewrite Hr, <- Hr, rev_string_onto. done.
Qed.

(** It renders to itself. *)
Lemma Execute_text fm c s data :
  Execute fm [NText (String c s)] data = Ok (String c s).
Proof.
  unfold Execute. cbn [walk_all walk res_bind fst snd]. f_equal.
  change (String c s +:+ "") with (String c (s +:+ "")). f_equal.
  induction s as [|c' s IH]; [done|]. change (String c' (s +:+ "") = String c' s). by rewrite IH.
Qed.
