(* ===== verification/Render.v ===== *)
(** * internal/render/render.go

    Rendering the objects of the operator: the JSON values of a Configuration,
    the values the helpers of the chart would compute, the execution of each
    template, and the scripts of the node controller. The functions of the
    sprig and helm libraries, the nested map helpers of apimachinery and the
    YAML decoder are library code, used through [RenderLib]. *)

From Stdlib Require Import Ascii.
From S2P Require Import Prelude GoLib Effects KubeApi ConfigTypes Calls.
From S2P Require Import ConfigurationController NodeController TextTemplate TemplateText.
From S2P Require Import TemplatesRBAC TemplatesDeployments TemplatesDaemonSets TemplatesServices.
From S2P Require Import Crds.
Local Open Scope kube_scope.
Local Open Scope string_scope.

(** ** Library functions *)

Class RenderLib `{KubeLib} := {
  (** github.com/Masterminds/sprig, with the types their signatures give *)
  sprig_default : value -> value -> value;
  sprig_quote : list value -> string;
  sprig_nindent : Z -> string -> string;
  sprig_trim : string -> string;
  sprig_b64enc : string -> string;
  sprig_ternary : value -> value -> bool -> value;
  sprig_splitList : string -> string -> list string;
  sprig_join : string -> value -> string;
  sprig_rest : value -> res string (list value);
  sprig_genCA : string -> Z -> res string (string * string);
  sprig_genSignedCert : string -> list value -> list value -> Z -> string * string ->
    res string (string * string);
  (** helm.sh/helm/v4/pkg/engine: the object as a map, empty when not found *)
  helm_lookup : string -> string -> string -> string -> res string (list (string * value));
  (** k8s.io/apimachinery/pkg/apis/meta/v1/unstructured *)
  NestedFieldCopy : list (string * value) -> list string -> option value;
  SetNestedField : list (string * value) -> value -> list string ->
    res LibError (list (string * value));
  (** sigs.k8s.io/yaml, into a new object of a type *)
  yaml_Unmarshal_object : objectType -> string -> res LibError Object
}.

(** The nested lookup and update the helpers document. *)
Fixpoint nested_lookup (m : list (string * value)) (path : list string) : option value :=
  match path with
  | [] => Some (VMap m)
  | [k] => assoc k m
  | k :: path' =>
      match assoc k m with
      | Some (VMap m') => nested_lookup m' path'
      | _ => None
      end
  end.

Class RenderLaws `{RenderLib} : Prop := {
  NestedFieldCopy_lookup m path : NestedFieldCopy m path = nested_lookup m path;
  SetNestedField_two m v a b m' :
    assoc a m = Some (VMap m') ->
    SetNestedField m v [a; b] = Ok (assoc_set a (VMap (assoc_set b v m')) m);
  splitList_Split c s : sprig_splitList (String c EmptyString) s = strings_Split s c;
  rest_cons x l : sprig_rest (VList (x :: l)) = Ok l;
  join_strings sep l : sprig_join sep (VList (map VString l)) = strings_Join l sep
}.

(** ** JSON values of a Configuration

    [generateMap] marshals the spec and unmarshals it into a generic map. The
    fields of each struct carry their JSON names; every tag has [omitempty]:
    an empty string, a zero number, a false bool, a nil pointer or an empty
    slice is left out, a struct never is. Numbers come back as [float64]. *)

Inductive field :=
| FString (s : string)
| FInt (z : Z)
| FBoolPtr (o : option bool)
| FBool (b : bool)
| FQuantity (s : string)
| FStrings (l : list string)
| FStruct (fields : list (string * field)).

Fixpoint encode (f : field) : option value :=
  match f with
  | FString s => if String.eqb s "" then None else Some (VString s)
  | FInt z => if Z.eqb z 0 then None else Some (VFloat (float64_of_int z))
  | FBoolPtr o => option_map VBool o
  | FBool b => if b then Some (VBool true) else None
  | FQuantity s => Some (VString s)
  | FStrings l => match l with [] => None | _ => Some (VList (map VString l)) end
  | FStruct fields =>
      Some (VMap ((fix encode_fields (l : list (string * field)) : list (string * value) :=
        match l with
        | [] => []
        | (k, f) :: l' =>
            match encode f with
            | Some v => (k, v) :: encode_fields l'
            | None => encode_fields l'
            end
        end) fields))
  end.

Fixpoint encode_fields (l : list (string * field)) : list (string * value) :=
  match l with
  | [] => []
  | (k, f) :: l' =>
      match encode f with
      | Some v => (k, v) :: encode_fields l'
      | None => encode_fields l'
      end
  end.

Section json.
Context `{KL : KubeLib}.

Definition KubeOVNImageSpec_fields (v : KubeOVNImageSpec) : list (string * field) :=
  [("repository", FString (koi_Repository v));
   ("tag", FString (koi_Tag v));
   ("dpdkRepository", FString (koi_DpdkRepository v));
   ("vpcRepository", FString (koi_VpcRepository v))].

Definition NATGatewayImageSpec_fields (v : NATGatewayImageSpec) : list (string * field) :=
  [("repository", FString (nat_Repository v));
   ("tag", FString (nat_Tag v))].

Definition ImageDetails_fields (v : ImageDetails) : list (string * field) :=
  [("kubeovn", FStruct (KubeOVNImageSpec_fields (img_KubeOVNImage v)));
   ("natgateway", FStruct (NATGatewayImageSpec_fields (img_NATGatewayImage v)))].

Definition RegistrySpec_fields (v : RegistrySpec) : list (string * field) :=
  [("address", FString (reg_Address v));
   ("imagePullSecrets", FStrings (reg_ImagePullSecrets v))].

Definition GlobalSpec_fields (v : GlobalSpec) : list (string * field) :=
  [("registry", FStruct (RegistrySpec_fields (gl_Registry v)));
   ("images", FStruct (ImageDetails_fields (gl_Images v)))].

Definition VlanSpec_fields (v : VlanSpec) : list (string * field) :=
  [("providerName", FString (vlan_ProviderName v));
   ("vlanInterface", FString (vlan_VlanInterface v));
   ("vlanName", FString (vlan_VlanName v));
   ("vlanId", FInt (vlan_VlanID v))].

Definition NetworkingSpec_fields (v : NetworkingSpec) : list (string * field) :=
  [("netStack", FString (net_NetStack v));
   ("enableSSL", FBoolPtr (net_EnableSSL v));
   ("networkType", FString (net_NetworkType v));
   ("tunnelType", FString (net_TunnelType v));
   ("interface", FString (net_Interface v));
   ("dpdkTunnelInterface", FString (net_DpdkTunnelInterface v));
   ("excludeIPS", FString (net_ExcludeIPS v));
   ("podNicType", FString (net_PodNicType v));
   ("vlan", FStruct (VlanSpec_fields (net_Vlan v)));
   ("exchangeLinkName", FBoolPtr (net_ExchangeLinkName v));
   ("enableEIPSNAT", FBoolPtr (net_EnableEIPSNAT v));
   ("defaultSubnet", FString (net_DefaultSubnet v));
   ("defaultVPC", FString (net_DefaultVPC v));
   ("nodeSubnet", FString (net_NodeSubnet v));
   ("enableECMP", FBoolPtr (net_EnableECMP v));
   ("enableMetrics", FBoolPtr (net_EnableMetrics v));
   ("nodeLocalDNSIPS", FString (net_NodeLocalDNSIPS v));
   ("probeInterval", FInt (net_ProbeInterval v));
   ("ovnNorthdProbeInterval", FInt (net_OvnNorthdProbeInterval v));
   ("ovnLeaderProbeInterval", FInt (net_OvnLeaderProbeInterval v));
   ("ovnRemoteProbeInterval", FInt (net_OvnRemoteProbeInterval v));
   ("ovnRemoteOpenflowInterval", FInt (net_OvnRemoteOpenflowInterval v));
   ("ovnNorthdNThreads", FInt (net_OvnNorthdNThreads v));
   ("enableCompact", FBoolPtr (net_EnableCompact v));
   ("skipConnTrackDstCIDRs", FString (net_SkipConnTrackDstCIDRs v));
   ("externalGatewayConfigNS", FString (net_ExternalGatewayConfigNS v))].

Definition U2OFeatures_fields (v : U2OFeatures) : list (string * field) :=
  [("overlayOnlyRouting", FBool (u2o_OverlayOnlyRouting v))].

Definition ComponentSpec_fields (v : ComponentSpec) : list (string * field) :=
  [("enableLB", FBoolPtr (comp_EnableLB v));
   ("enableNP", FBoolPtr (comp_EnableNP v));
   ("enableExternalVPC", FBoolPtr (comp_EnableExternalVPC v));
   ("hardwareOffload", FBoolPtr (comp_HardwareOffload v));
   ("enableLBSVC", FBoolPtr (comp_EnableLBSVC v));
   ("enableKeepVMIP", FBoolPtr (comp_EnableKeepVMIP v));
   ("lsDnatModDlDst", FBoolPtr (comp_LsDnatModDlDst v));
   ("lsCtSkipOstLportIPS", FBoolPtr (comp_LsCtSkipOstLportIPS v));
   ("checkGateway", FBoolPtr (comp_CheckGateway v));
   ("logicalGateway", FBoolPtr (comp_LogicalGateway v));
   ("enableBindLocalIP", FBoolPtr (comp_EnableBindLocalIP v));
   ("secureServing", FBoolPtr (comp_SecureServing v));
   ("u2oFeatures", FStruct (U2OFeatures_fields (comp_U2OFeatures v)));
   ("u2oInterconnection", FBoolPtr (comp_U2OInterconnection v));
   ("enableTProxy", FBoolPtr (comp_EnableTProxy v));
   ("enableIC", FBoolPtr (comp_EnableIC v));
   ("enableNATGateway", FBoolPtr (comp_EnableNATGateway v));
   ("enableOVNIPSec", FBoolPtr (comp_EnableOVNIPSec v));
   ("enableANP", FBoolPtr (comp_EnableANP v));
   ("setVLANTxOff", FBoolPtr (comp_SetVLANTxOff v));
   ("OVSDBConTimeout", FInt (comp_OVSDBConTimeout v));
   ("OVSDBInactivityTimeout", FInt (comp_OVSDBInactivityTimeout v));
   ("enableLiveMigrationOptimize", FBoolPtr (comp_EnableLiveMigrationOptimize v));
   ("npEnforcement", FString (comp_NPEnforcement v));
   ("enableDNSNameResolver", FBoolPtr (comp_EnableDNSNameResolver v));
   ("enableOVNLBPreferLocal", FBoolPtr (comp_EnableOVNLBPreferLocal v))].

Definition NetworkStackSpec_fields (v : NetworkStackSpec) : list (string * field) :=
  [("podCIDR", FString (stack_PodCIDR v));
   ("podGateway", FString (stack_PodGateway v));
   ("serviceCIDR", FString (stack_ServiceCIDR v));
   ("joinCIDR", FString (stack_JoinCIDR v));
   ("pingerExternalAddress", FString (stack_PingerExternalAddress v));
   ("pingerExternalDomain", FString (stack_PingerExternalDomain v))].

Definition PerformanceSpec_fields (v : PerformanceSpec) : list (string * field) :=
  [("gcInterval", FInt (perf_GCInterval v));
   ("inspectInterval", FInt (perf_InspectInterval v));
   ("ovsVSCtlConcurrency", FInt (perf_OVSVSCtlConcurrency v))].

Definition DebugSpec_fields (v : DebugSpec) : list (string * field) :=
  [("enableMirror", FBoolPtr (dbg_EnableMirror v));
   ("mirrorInterface", FString (dbg_MirrorInterface v))].

Definition CNIConfSpec_fields (v : CNIConfSpec) : list (string * field) :=
  [("cniConfigPriority", FString (cni_CNIConfigPriority v));
   ("cniConfigDir", FString (cni_CNIConfigDir v));
   ("mountCNIConfDir", FString (cni_MountCNIConfDir v));
   ("cniBinDir", FString (cni_CNIBinDir v));
   ("cniConfFile", FString (cni_CNIConfFile v));
   ("localBinDir", FString (cni_LocalBinDir v));
   ("mountLocalBinDir", FBoolPtr (cni_MountLocalBinDir v));
   ("nonPrimaryCNI", FBoolPtr (cni_NonPrimaryCNI v))].

Definition KubeletConfigSpec_fields (v : KubeletConfigSpec) : list (string * field) :=
  [("kubeletDir", FString (kubelet_KubeletDir v))].

Definition LogConfigSpec_fields (v : LogConfigSpec) : list (string * field) :=
  [("logDir", FString (logc_LogDir v))].

Definition CPUMemSpec_fields (v : CPUMemSpec) : list (string * field) :=
  [("cpu", FQuantity (Quantity_String (cm_CPU v)));
   ("memory", FQuantity (Quantity_String (cm_Memory v)));
   ("ephemeralStorage", FQuantity (Quantity_String (cm_EphemeralStorage v)))].

Definition ResourceSpec_fields (v : ResourceSpec) : list (string * field) :=
  [("requests", FStruct (CPUMemSpec_fields (rs_Requests v)));
   ("limits", FStruct (CPUMemSpec_fields (rs_Limits v)))].

Definition ConfigurationSpec_fields (v : ConfigurationSpec) : list (string * field) :=
  [("global", FStruct (GlobalSpec_fields (spec_Global v)));
   ("imagePullPolicy", FString (spec_ImagePullPolicy v));
   ("masterNodesLabel", FString (spec_MasterNodesLabel v));
   ("networking", FStruct (NetworkingSpec_fields (spec_Networking v)));
   ("components", FStruct (ComponentSpec_fields (spec_Component v)));
   ("ipv4", FStruct (NetworkStackSpec_fields (spec_IPv4 v)));
   ("ipv6", FStruct (NetworkStackSpec_fields (spec_IPv6 v)));
   ("dualStack", FStruct (NetworkStackSpec_fields (spec_DualStack v)));
   ("performance", FStruct (PerformanceSpec_fields (spec_Performance v)));
   ("debug", FStruct (DebugSpec_fields (spec_Debug v)));
   ("cniConf", FStruct (CNIConfSpec_fields (spec_CNIConf v)));
   ("kubeletConfig", FStruct (KubeletConfigSpec_fields (spec_KubeletConfig v)));
   ("logConfig", FStruct (LogConfigSpec_fields (spec_LogConfig v)));
   ("openVSwitchDir", FString (spec_OpenVSwitchDir v));
   ("ovnIPSecKeysDir", FString (spec_OVNIPSecKeysDir v));
   ("ovnDir", FString (spec_OVNDir v));
   ("disableModulesManagement", FBoolPtr (spec_DisableModulesManagement v));
   ("hybridDPDK", FBoolPtr (spec_HybridDPDK v));
   ("hugepageSizeType", FString (spec_HugepageSizeType v));
   ("hugePages", FQuantity (Quantity_String (spec_HugePages v)));
   ("dpdkImageTag", FString (spec_DPDKImageTag v));
   ("dpdkCPU", FQuantity (Quantity_String (spec_DPDKCPU v)));
   ("dpdkMEMORY", FQuantity (Quantity_String (spec_DPDKMemory v)));
   ("ovnCentral", FStruct (ResourceSpec_fields (spec_OVNCentral v)));
   ("ovsOVN", FStruct (ResourceSpec_fields (spec_OVSOVN v)));
   ("kubeOvnController", FStruct (ResourceSpec_fields (spec_KubeOVNController v)));
   ("kubeOvnCNI", FStruct (ResourceSpec_fields (spec_KubeOVNCNI v)));
   ("kubeOvnPinger", FStruct (ResourceSpec_fields (spec_KubeOVNPinger v)));
   ("kubeOvnMonitor", FStruct (ResourceSpec_fields (spec_KubeOVNMonitor v)))].


(** [generateMap]: the map under the key [Values]. *)
Definition generateMap (config : Configuration) : list (string * value) :=
  [("Values", VMap (encode_fields (ConfigurationSpec_fields (cfg_Spec config))))].

End json.

Section render.
Context `{KL : KubeLib, RL : !RenderLib}.

(** ** The function table *)

(** Arguments by the type of the parameter: a constant takes the type it is
    given, a value must have it. *)
Definition as_string (a : argument) : res string string :=
  match a with
  | AVal (Some (VString s)) => Ok s
  | AVal None => Err "invalid value; expected string"
  | AVal (Some _) => Err "wrong type for value; expected string"
  | ANum _ => Err "expected string"
  | ANilConst => Err "cannot assign nil to string"
  end.
Definition as_int (a : argument) : res string Z :=
  match a with
  | ANum z => Ok z
  | AVal None => Err "invalid value; expected int"
  | _ => Err "expected integer"
  end.
Definition as_bool (a : argument) : res string bool :=
  match a with
  | AVal (Some (VBool b)) => Ok b
  | AVal None => Err "invalid value; expected bool"
  | _ => Err "wrong type for value; expected bool"
  end.
Definition as_any (a : argument) : value :=
  match a with
  | ANum z => VInt z
  | ANilConst => VNil
  | AVal v => default VNil v
  end.
Definition as_list (a : argument) : res string (list value) :=
  match a with
  | ANilConst | AVal None => Ok []
  | AVal (Some (VList l)) => Ok l
  | _ => Err "wrong type for value; expected []interface {}"
  end.
Definition as_map (a : argument) : res string (list (string * value)) :=
  match a with
  | ANilConst | AVal None => Ok []
  | AVal (Some (VMap m)) => Ok m
  | _ => Err "wrong type for value; expected map[string]interface {}"
  end.
Definition as_cert (a : argument) : res string (string * string) :=
  match a with
  | AVal (Some (VCert cert key)) => Ok (cert, key)
  | _ => Err "wrong type for value; expected sprig.certificate"
  end.

Definition ret_string (s : string) : res string rvalue := Ok (Some (VString s)).
Definition wrong_args (name : string) : res string rvalue :=
  Err ("wrong number of args for " +:+ name).

(** The sprig functions the templates use. *)
Definition sprig_functions : funcmap :=
  [("default", fun args => match args with
      | [d] => Ok (Some (as_any d))
      | [d; v] => Ok (Some (sprig_default (as_any d) (as_any v)))
      | _ => wrong_args "default" end);
   ("quote", fun args => ret_string (sprig_quote (map as_any args)));
   ("nindent", fun args => match args with
      | [n; s] => n <-? as_int n ; s <-? as_string s ; ret_string (sprig_nindent n s)
      | _ => wrong_args "nindent" end);
   ("trim", fun args => match args with
      | [s] => s <-? as_string s ; ret_string (sprig_trim s)
      | _ => wrong_args "trim" end);
   ("b64enc", fun args => match args with
      | [s] => s <-? as_string s ; ret_string (sprig_b64enc s)
      | _ => wrong_args "b64enc" end);
   ("ternary", fun args => match args with
      | [vt; vf; v] => b <-? as_bool v ; Ok (Some (sprig_ternary (as_any vt) (as_any vf) b))
      | _ => wrong_args "ternary" end);
   ("splitList", fun args => match args with
      | [sep; s] =>
          sep <-? as_string sep ; s <-? as_string s ;
          Ok (Some (VList (map VString (sprig_splitList sep s))))
      | _ => wrong_args "splitList" end);
   ("join", fun args => match args with
      | [sep; v] => sep <-? as_string sep ; ret_string (sprig_join sep (as_any v))
      | _ => wrong_args "join" end);
   ("rest", fun args => match args with
      | [v] => l <-? sprig_rest (as_any v) ; Ok (Some (VList l))
      | _ => wrong_args "rest" end);
   ("genCA", fun args => match args with
      | [cn; days] =>
          cn <-? as_string cn ; days <-? as_int days ;
          c <-? sprig_genCA cn days ; Ok (Some (VCert c.1 c.2))
      | _ => wrong_args "genCA" end);
   ("genSignedCert", fun args => match args with
      | [cn; ips; dns; days; ca] =>
          cn <-? as_string cn ; ips <-? as_list ips ; dns <-? as_list dns ;
          days <-? as_int days ; ca <-? as_cert ca ;
          c <-? sprig_genSignedCert cn ips dns days ca ; Ok (Some (VCert c.1 c.2))
      | _ => wrong_args "genSignedCert" end)].

(** [include]: the value of a dotted path of the data; nil when missing. *)
Definition include (key : string) (data : list (string * value)) : value :=
  default VNil (NestedFieldCopy data (strings_Split key "."%char)).

Definition render_functions : funcmap :=
  app sprig_functions
  [("lookup", fun args => match args with
      | [v; k; ns; n] =>
          v <-? as_string v ; k <-? as_string k ; ns <-? as_string ns ; n <-? as_string n ;
          m <-? helm_lookup v k ns n ; Ok (Some (VMap m))
      | _ => wrong_args "lookup" end);
   ("include", fun args => match args with
      | [key; data] =>
          key <-? as_string key ; data <-? as_map data ; Ok (Some (include key data))
      | _ => wrong_args "include" end)].

(** The table an execution uses: the given functions, then the built-in ones. *)
Definition with_builtins (fm : funcmap) : funcmap := app fm builtins.

(** ** Values *)

(** [generateIncludeValues] dereferences [EnableOVNIPSec]. *)
Definition generateIncludeValues (config : Configuration) : outcome (list (string * value)) :=
  match comp_EnableOVNIPSec (spec_Component (cfg_Spec config)) with
  | None => Panicked "invalid memory address or nil pointer dereference"
  | Some ipsec =>
      let addresses := st_MatchingNodeAddresses (cfg_Status config) in
      Done [("nodeCount", VInt (Z.of_nat (length addresses)));
            ("nodeIPs", VString (strings_Join addresses ","));
            ("ovs-ovn", VMap [("updateStrategy", VString "RollingUpdate")]);
            ("ovn", VMap [("versionCompatibility", VFrac "24.03")]);
            ("runAsUser", VInt (if ipsec then 0 else 65534))]
  end.

Definition podAffinityTemplate : string := tpl "{{- $parts := splitList ^=^ .Spec.MasterNodesLabel -}}
{{- $key := index $parts 0 -}}
{{- $val := ^^ -}}
{{- if gt (len $parts) 1 -}}
  {{- $val = join ^=^ (rest $parts) -}}
{{- end -}}
nodeAffinity:
  requiredDuringSchedulingIgnoredDuringExecution:
    nodeSelectorTerms:
      - matchExpressions:
          - key: {{ $key }}
          {{- if ne $val ^^ }}
            operator: In
            values:
              - {{ $val | quote }}
          {{- else }}
            operator: Exists
          {{- end }}".

(** The part of the Configuration struct the affinity template reads. *)
Definition config_struct (config : Configuration) : value :=
  VStruct [("Spec", VStruct [("MasterNodesLabel",
    VString (spec_MasterNodesLabel (cfg_Spec config)))])].

Definition generateMasterNodeAffinity (config : Configuration) : res error string :=
  if String.eqb (spec_MasterNodesLabel (cfg_Spec config)) "" then Ok ""
  else
    match Parse (function_names sprig_functions) podAffinityTemplate with
    | Err e => Err (ENew ("error parsing master node affinity template: " +:+ e))
    | Ok tmpl =>
        match Execute (with_builtins sprig_functions) tmpl (Some (config_struct config)) with
        | Err e => Err (ENew ("error during master node affinity template execution: " +:+ e))
        | Ok out => Ok out
        end
    end.

Definition SetNestedField_ctx (ctx : string) (m : list (string * value)) (v : value)
    (path : list string) : res error (list (string * value)) :=
  match SetNestedField m v path with
  | Err e => Err (Errorf_v ctx (ELib e))
  | Ok m => Ok m
  end.

(** The values every template of one type is executed with. *)
Definition renderValues (config : Configuration) (caCert : string) :
    outcome (res error (list (string * value))) :=
  let valsObj := generateMap config in
  match SetNestedField_ctx "failed to set namespace field in values map: " valsObj
          (VString (om_Namespace (cfg_meta config))) ["Values"; "namespace"] with
  | Err e => Done (Err e)
  | Ok valsObj =>
      match SetNestedField_ctx "failed to set caCert field in values map: " valsObj
              (VString caCert) ["Values"; "caCert"] with
      | Err e => Done (Err e)
      | Ok valsObj =>
          match generateIncludeValues config with
          | Panicked m => Panicked m
          | Done kubeovn =>
              let valsObj := assoc_set "kubeovn" (VMap kubeovn) valsObj in
              let masterNodes := strings_Join (st_MatchingNodeAddresses (cfg_Status config)) "," in
              Done (
                valsObj <-? SetNestedField_ctx "failed to set field MASTER_NODES in values map: "
                  valsObj (VString masterNodes) ["Values"; "MASTER_NODES"] ;
                match generateMasterNodeAffinity config with
                | Err e => Err (Errorf_v "failed to generate master node affinity: " e)
                | Ok masterNodeAffinity =>
                    if String.eqb masterNodeAffinity "" then Ok valsObj
                    else SetNestedField_ctx "failed to set field masterNodeAffinity in values map: "
                           valsObj (VString masterNodeAffinity) ["kubeovn"; "masterNodeAffinity"]
                end)
          end
      end
  end.

(** ** Objects *)

(** Is there a new object of this type? *)
Definition InitialiseNewObject (object : objectType) : option objectType :=
  match object with
  | TDeployment => Some TDeployment
  | TCustomResourceDefinition => Some TCustomResourceDefinition
  | TSecret => Some TSecret
  | TServiceAccount => Some TServiceAccount
  | TConfigMap => Some TConfigMap
  | TRoleBinding => Some TRoleBinding
  | TClusterRole => Some TClusterRole
  | TRole => Some TRole
  | TClusterRoleBinding => Some TClusterRoleBinding
  | TDaemonSet => Some TDaemonSet
  | TService => Some TService
  | TValidatingWebhookConfiguration => Some TValidatingWebhookConfiguration
  | TOther _ => None
  end.

Definition goTypeName (object : objectType) : string :=
  match object with TOther t => t | _ => "" end.

(** The text an object is read from; [template.Must] panics on a template that
    does not parse. *)
Definition renderTemplate (input : string) (valuesObj : list (string * value)) :
    outcome (res error string) :=
  match Parse (function_names render_functions) input with
  | Err e => Panicked e
  | Ok tmpl =>
      Done (match Execute (with_builtins render_functions) tmpl (Some (VMap valuesObj)) with
            | Err e => Err (ENew ("error rending template: " +:+ e))
            | Ok output => Ok output
            end)
  end.

Definition generateObject (input : string) (valuesObj : list (string * value))
    (object : objectType) : outcome (res error (option Object)) :=
  match InitialiseNewObject object with
  | None =>
      Done (Err (ENew ("could not initialise new object for type: " +:+ goTypeName object)))
  | Some newObj =>
      match renderTemplate input valuesObj with
      | Panicked m => Panicked m
      | Done (Err e) => Done (Err e)
      | Done (Ok output) =>
          if (String.length output =? 0)%nat then Done (Ok None)
          else
            match yaml_Unmarshal_object newObj output with
            | Err e => Done (Err (ELib e))
            | Ok obj => Done (Ok (Some obj))
            end
      end
  end.

(** The loop over the templates of one type. *)
Fixpoint generateAll (templates : list string) (valuesObj : list (string * value))
    (object : objectType) : outcome (res error (list Object)) :=
  match templates with
  | [] => Done (Ok [])
  | t :: rest =>
      match generateObject t valuesObj object with
      | Panicked m => Panicked m
      | Done (Err e) => Done (Err (Errorf_v "error returned from generateTemplate: " e))
      | Done (Ok o) =>
          match generateAll rest valuesObj object with
          | Done (Ok objs) => Done (Ok (match o with Some o => o :: objs | None => objs end))
          | r => r
          end
      end
  end.

Definition Render_GenerateObjects (templates : list string) (config : Configuration)
    (object : objectType) (version caCert : string) : outcome (res error (list Object)) :=
  let config := with_Tag config version in
  match renderValues config caCert with
  | Panicked m => Panicked m
  | Done (Err e) => Done (Err e)
  | Done (Ok valsObj) => generateAll templates valsObj object
  end.

(** ** Cleanup scripts *)

Definition executeScript (what script : string) (values : list (string * value)) :
    res error string :=
  match Parse (function_names []) script with
  | Err e => Err (ENew ("error parsing " +:+ what +:+ script +:+ ": " +:+ e))
  | Ok tmpl =>
      match Execute (with_builtins []) tmpl (Some (VMap values)) with
      | Err e => Err (ENew ("error during template execution " +:+ script +:+ ": " +:+ e))
      | Ok out => Ok out
      end
  end.

Definition generateScript (nodeAddress script : string) : res error string :=
  executeScript "template " script [("NodeAddress", VString nodeAddress)].

#[export] Instance renderScripts : CleanupScripts := {|
  GenerateNorthBoundCleanupScript nodeAddress := generateScript nodeAddress CleanupNBDB;
  GenerateSouthBoundCleanupScript nodeAddress := generateScript nodeAddress CleanupSBDB;
  GenerateChassisCleanupScript hostname :=
    executeScript "chassis cleanup template " CleanupChassis [("Hostname", VString hostname)]
|}.

(** ** The generator the configuration controller uses *)

Definition objectList : list (objectType * list string) :=
  [(TCustomResourceDefinition, Crds.CRDList);
   (TSecret, SecretList);
   (TServiceAccount, ServiceAccountList);
   (TRoleBinding, RoleBindingList);
   (TClusterRole, ClusterRoleList);
   (TRole, RoleList);
   (TClusterRoleBinding, ClusterRoleBindingList);
   (TConfigMap, ConfigMapList);
   (TDeployment, DeploymentList);
   (TDaemonSet, DaemonsetList);
   (TService, ServicesList);
   (TValidatingWebhookConfiguration, ValidatingWebhookConfigurationList)].

#[export] Instance operatorRenderer : Renderer := {|
  GenerateObjects := Render_GenerateObjects;
  OrderedObjectList := objectList;
  ConfigurationController.CRDList := Crds.CRDList
|}.

#[export] Instance operatorRendererLaws : RendererLaws.
Proof. split. done. Qed.

End render.
