(* ===== verification/TemplateCheck.v ===== *)
(** * A static check of templates, and its soundness

    [check] assigns types to the values a template reads, and accepts a
    template whose execution cannot fail on values of these types: no field of
    a non-map, no call with a wrong argument, no range over a non-list, no
    undefined variable. [check_sound] states that an accepted template always
    executes to an output. *)

From Stdlib Require Import Ascii.
From S2P Require Import Prelude GoLib TextTemplate.
Local Open Scope kube_scope.
Local Open Scope string_scope.

(** ** Types *)

(** [TyOpt t]: the value may be missing; [TyAbsent]: it is missing; [TyMap fs]:
    a map whose value under each listed key has the listed type (the first
    entry of a key counts); [TyAny]: no information. *)
Inductive ty :=
| TyAny
| TyAbsent
| TyStr
| TyBool
| TyInt
| TyFloat
| TyCert
| TyOpt (t : ty)
| TyList (t : ty)
| TyMap (fields : list (string * ty)).

Fixpoint has_ty (t : ty) (v : rvalue) : Prop :=
  match t with
  | TyAny => True
  | TyAbsent => v = None
  | TyStr => exists s, v = Some (VString s)
  | TyBool => exists b, v = Some (VBool b)
  | TyInt => exists z, v = Some (VInt z)
  | TyFloat => exists z, v = Some (VFloat z)
  | TyCert => exists c k, v = Some (VCert c k)
  | TyOpt t => v = None \/ has_ty t v
  | TyList t => exists l, v = Some (VList l) /\ Forall (fun x => has_ty t (Some x)) l
  | TyMap fields =>
      exists m, v = Some (VMap m) /\
        (fix fields_ok (l : list (string * ty)) : Prop :=
           match l with
           | [] => True
           | (k, t) :: l' => has_ty t (assoc k m) /\ fields_ok l'
           end) fields
  end.

Fixpoint fields_ok (m : list (string * value)) (l : list (string * ty)) : Prop :=
  match l with
  | [] => True
  | (k, t) :: l' => has_ty t (assoc k m) /\ fields_ok m l'
  end.

Lemma has_ty_map fields v :
  has_ty (TyMap fields) v <-> exists m, v = Some (VMap m) /\ fields_ok m fields.
Proof.
  cbn. split; intros (m & -> & H); exists m; (split; [done|]);
    induction fields as [|[k t] fields IH]; cbn in *; intuition.
Qed.

Lemma fields_ok_assoc m l k t :
  fields_ok m l -> assoc k l = Some t -> has_ty t (assoc k m).
Proof.
  induction l as [|[k' t'] l IH]; cbn; [done|]. intros [Ht Hl].
  destruct (String.eqb_spec k' k) as [->|Hne]; [by intros [= ->]|auto].
Qed.

(** A value of a type other than [TyAny] is not a nil interface. *)
Definition opt (t : ty) : ty :=
  match t with TyAny => TyAny | TyAbsent => TyAbsent | TyOpt t => TyOpt t | t => TyOpt t end.

Lemma has_ty_opt_none t : has_ty (opt t) None.
Proof. destruct t; cbn; auto. Qed.
Lemma has_ty_opt t v : has_ty t v -> has_ty (opt t) v.
Proof. destruct t; cbn; auto. Qed.

Lemma has_ty_dig t v : has_ty t v -> has_ty t (dig v).
Proof.
  destruct v as [[]|]; try done. cbn [dig]. induction t; cbn; try done.
  - by intros [? [=]].
  - by intros [? [=]].
  - by intros [? [=]].
  - by intros [? [=]].
  - by intros (? & ? & [=]).
  - auto.
  - by intros (? & [=] & _).
  - by intros (? & [=] & _).
Qed.

(** Types of a true value. *)
Definition truthy (t : ty) : ty := match t with TyOpt t => t | t => t end.

Lemma has_ty_truthy t v : has_ty t v -> truth v = true -> has_ty (truthy t) v.
Proof. destruct t; try done. cbn. by intros [->|?]. Qed.

(** ** Fields *)

Definition field_ty (t : ty) (name : string) : option ty :=
  match t with
  | TyAbsent => Some TyAbsent
  | TyMap fs => Some (default TyAny (assoc name fs))
  | TyOpt (TyMap fs) => Some (opt (default TyAny (assoc name fs)))
  | TyCert => if String.eqb name "Cert" || String.eqb name "Key" then Some TyStr else None
  | _ => None
  end.

Lemma field_ty_sound t name t' v :
  field_ty t name = Some t' -> has_ty t v ->
  exists v', evalField false v name = Ok v' /\ has_ty t' v'.
Proof.
  assert (Hmap : forall fs m, fields_ok m fs ->
    has_ty (default TyAny (assoc name fs)) (assoc name m)).
  { intros fs m Hf. destruct (assoc name fs) eqn:Ha; [|done]. by eapply fields_ok_assoc. }
  destruct t as [| | | | | | |[| | | | | | | | |fs]| |fs]; cbn [field_ty]; try done.
  - intros [= <-] ->. by exists None.
  - destruct (String.eqb name "Cert" || String.eqb name "Key") eqn:Hn; [|done].
    intros [= <-] (c & k & ->). cbn. apply orb_true_iff in Hn.
    destruct (String.eqb name "Cert"); [eexists; split; [done|]; by eexists|].
    destruct (String.eqb name "Key"); [eexists; split; [done|]; by eexists|].
    by destruct Hn.
  - intros [= <-] [->|Hm].
    + exists None. split; [done|apply has_ty_opt_none].
    + change (has_ty (TyMap fs) v) in Hm. apply has_ty_map in Hm as (m & -> & Hf).
      eexists. split; [done|]. by apply has_ty_opt, Hmap.
  - intros [= <-] Hm. apply has_ty_map in Hm as (m & -> & Hf).
    eexists. split; [done|]. by apply Hmap.
Qed.

Fixpoint chain_ty (t : ty) (path : list string) : option ty :=
  match path with
  | [] => Some t
  | name :: path' =>
      match field_ty t name with
      | Some t' => chain_ty t' path'
      | None => None
      end
  end.

Lemma evalFieldChain_cons v name path :
  evalFieldChain false v (name :: path) =
  res_bind (evalField false v name) (fun v' => evalFieldChain false v' path).
Proof.
  destruct path; [|done]. cbn [evalFieldChain]. by destruct (evalField _ _ _).
Qed.

Lemma chain_ty_sound path : forall t t' v,
  chain_ty t path = Some t' -> has_ty t v ->
  exists v', evalFieldChain false v path = Ok v' /\ has_ty t' v'.
Proof.
  induction path as [|name path IH]; intros t t' v.
  - cbn. intros [= <-] Hv. by exists v.
  - rewrite evalFieldChain_cons. cbn [chain_ty].
    destruct (field_ty t name) as [t1|] eqn:Hf; [|done]. intros Hc Hv.
    destruct (field_ty_sound _ _ _ _ Hf Hv) as (v1 & -> & Hv1). cbn. by eapply IH.
Qed.

(** ** Expressions *)

(** The type of an argument: constants are kept apart from values. *)
Inductive aty :=
| ATNum (z : Z)
| ATNil
| ATStr (s : string)
| ATy (t : ty).

Definition arg_ok (a : aty) (x : argument) : Prop :=
  match a with
  | ATNum z => x = ANum z
  | ATNil => x = ANilConst
  | ATStr s => x = AVal (Some (VString s))
  | ATy t => exists v, x = AVal v /\ has_ty t v
  end.

(** The signatures of a function table: the type of the result for arguments
    on which the function cannot fail. *)
Definition signatures := string -> list aty -> option ty.

Definition signatures_ok (fm : funcmap) (sg : signatures) : Prop :=
  forall name atys args t,
    sg name atys = Some t -> Forall2 arg_ok atys args ->
    exists f v, assoc name fm = Some f /\ f args = Ok v /\ has_ty t (dig v).

Fixpoint collect_opt {A} (l : list (option A)) : option (list A) :=
  match l with
  | [] => Some []
  | Some a :: l' => match collect_opt l' with Some r => Some (a :: r) | None => None end
  | None :: _ => None
  end.

Section checker.
Variables (fm : funcmap) (sg : signatures).

Definition call_ty (name : string) (args : list (option aty)) (final : option ty) : option ty :=
  match collect_opt (app args (match final with Some t => [Some (ATy t)] | None => [] end)) with
  | Some atys =>
      if String.eqb name "or" then match atys with [] => None | _ => Some TyAny end
      else sg name atys
  | None => None
  end.

Definition command_ty (dot : ty) (env : list (string * ty)) (arg_ty : expr -> option aty)
    (cmd : list expr) (final : option ty) : option ty :=
  match cmd with
  | [] => None
  | first :: rest =>
      let plain := match rest, final with [], None => true | _, _ => false end in
      match first with
      | EIdent f => call_ty f (map arg_ty rest) final
      | ENil => None
      | _ =>
          if negb plain then None else
          match first with
          | EField path => chain_ty dot path
          | EVar x path => match assoc x env with Some t => chain_ty t path | None => None end
          | EParen _ => match arg_ty first with Some (ATy t) => Some t | _ => None end
          | EDot => Some dot
          | EBool _ => Some TyBool
          | EStr _ => Some TyStr
          | ENum _ => Some TyInt
          | _ => None
          end
      end
  end.

Section pipeline.
Variable command : list expr -> option ty -> option ty.
Fixpoint pipeline_ty (cmds : list (list expr)) (final : option ty) : option ty :=
  match cmds with
  | [] => final
  | cmd :: cmds' =>
      match command cmd final with
      | Some t => pipeline_ty cmds' (Some t)
      | None => None
      end
  end.
End pipeline.

Fixpoint arg_ty (dot : ty) (env : list (string * ty)) (e : expr) : option aty :=
  match e with
  | ENum z => Some (ATNum z)
  | ENil => Some ATNil
  | EBool _ => Some (ATy TyBool)
  | EStr s => Some (ATStr s)
  | EDot => Some (ATy dot)
  | EField path => option_map ATy (chain_ty dot path)
  | EVar x path =>
      match assoc x env with Some t => option_map ATy (chain_ty t path) | None => None end
  | EIdent _ => None
  | EParen cmds =>
      match pipeline_ty (command_ty dot env (arg_ty dot env)) cmds None with
      | Some t => Some (ATy t)
      | None => None
      end
  end.

Definition pipe_ty (dot : ty) (env : list (string * ty)) (p : pipe) : option ty :=
  pipeline_ty (command_ty dot env (arg_ty dot env)) (p_cmds p) None.

(** Variables and their types, in the same order. *)
Definition env_ok (env : list (string * ty)) (vs : list (string * rvalue)) : Prop :=
  Forall2 (fun x y => x.1 = y.1 /\ has_ty x.2 y.2) env vs.

Lemma env_ok_assoc env vs x t :
  env_ok env vs -> assoc x env = Some t -> exists v, assoc x vs = Some v /\ has_ty t v.
Proof.
  induction 1 as [|[y u] [z v] env vs [Hn Ht] _ IH]; cbn in *; [done|]. subst z.
  destruct (String.eqb y x); [|done]. intros [= <-]. by exists v.
Qed.

(** Induction on expressions through the commands of parentheses. *)
Lemma expr_ind' (P : expr -> Prop) :
  (forall e, (forall cmds, e <> EParen cmds) -> P e) ->
  (forall cmds, Forall (Forall P) cmds -> P (EParen cmds)) ->
  forall e, P e.
Proof.
  intros Hb Hp. fix IH 1. intros [| | | | | | | |cmds]; [by apply Hb..|].
  apply Hp. induction cmds as [|cmd cmds IHc]; constructor; [|done].
  induction cmd as [|e cmd IHe]; constructor; [apply IH|done].
Qed.

Section expressions.
Context (Hsig : signatures_ok fm sg).
Variables (dot : ty) (env : list (string * ty)) (dotv : rvalue) (vs : list (string * rvalue)).
Context (Hdot : has_ty dot dotv) (Henv : env_ok env vs).

Definition arg_sound (e : expr) : Prop :=
  forall a, arg_ty dot env e = Some a ->
  exists x, evalArg fm dotv vs e = Ok x /\ arg_ok a x.

Definition final_ok (ft : option ty) (fv : option rvalue) : Prop :=
  match ft, fv with
  | None, None => True
  | Some t, Some v => has_ty t v
  | _, _ => False
  end.

Lemma collect_sound args : forall atys,
  Forall arg_sound args ->
  collect_opt (map (arg_ty dot env) args) = Some atys ->
  exists xs, collect (map (evalArg fm dotv vs) args) = Ok xs /\ Forall2 arg_ok atys xs.
Proof.
  induction args as [|e args IH]; cbn; intros atys Hs Hc.
  { injection Hc as <-. by exists []. }
  apply Forall_cons_iff in Hs as [He Hs].
  destruct (arg_ty dot env e) as [a|] eqn:Ha; [|done].
  destruct (collect_opt _) as [r|] eqn:Hr; [|done]. injection Hc as <-.
  destruct (He _ Ha) as (x & -> & Hx). destruct (IH _ Hs eq_refl) as (xs & -> & Hxs).
  exists (x :: xs). split; [done|by constructor].
Qed.

Lemma collect_opt_app {A} (l1 l2 : list (option A)) r :
  collect_opt (l1 ++ l2)%list = Some r <->
  exists r1 r2, collect_opt l1 = Some r1 /\ collect_opt l2 = Some r2 /\ r = (r1 ++ r2)%list.
Proof.
  revert r. induction l1 as [|[a|] l1 IH]; intros r; cbn.
  - split; [intros H; by exists [], r|intros (r1 & r2 & [= <-] & -> & ->); done].
  - destruct (collect_opt (l1 ++ l2)%list) as [r0|].
    + destruct (proj1 (IH r0) eq_refl) as (r1 & r2 & -> & -> & ->). split.
      * intros [= <-]. by exists (a :: r1), r2.
      * by intros (? & ? & [= <-] & [= <-] & ->).
    + split; [done|]. intros (r1 & r2 & H1 & H2 & ->).
      destruct (collect_opt l1) as [r1'|]; [|done].
      assert (None = Some (r1' ++ r2)%list) by (apply IH; by exists r1', r2). done.
  - split; [done|]. by intros (? & ? & [=] & _).
Qed.

Lemma collect_app {E A} (l1 l2 : list (res E A)) r1 r2 :
  collect l1 = Ok r1 -> collect l2 = Ok r2 -> collect (l1 ++ l2)%list = Ok (r1 ++ r2)%list.
Proof.
  revert r1. induction l1 as [|[e|a] l1 IH]; intros r1; cbn; [by intros [= <-]|done|].
  destruct (collect l1) as [e|r] eqn:H1; cbn; [done|]. intros [= <-] H2.
  by rewrite (IH r eq_refl H2).
Qed.

(** [or] of arguments that evaluate. *)
Lemma eval_or_collect args xs : forall last,
  collect args = Ok xs -> exists v, eval_or args last = Ok v.
Proof.
  revert xs. induction args as [|[e|a] args IH]; intros xs last; cbn.
  - intros _. by eexists.
  - done.
  - destruct (collect args) as [e|r]; cbn; [done|]. intros _.
    destruct (truth _); [by eexists|]. by eapply IH.
Qed.

Lemma call_sound name args final finalv t :
  Forall arg_sound args -> final_ok final finalv ->
  call_ty name (map (arg_ty dot env) args) final = Some t ->
  exists v, evalCall fm name (map (evalArg fm dotv vs) args) finalv = Ok v /\ has_ty t (dig v).
Proof.
  intros Hs Hf. unfold call_ty, evalCall.
  destruct (collect_opt _) as [atys|] eqn:Hc; [|done].
  apply collect_opt_app in Hc as (r1 & r2 & H1 & H2 & ->).
  destruct (collect_sound _ _ Hs H1) as (xs & Hxs & Hok).
  assert (Hfin : exists ys, collect (match finalv with Some v => [Ok (AVal v)] | None => [] end) =
    @Ok string _ ys /\ Forall2 arg_ok r2 ys).
  { destruct final as [ft|], finalv as [fv|]; try done; cbn in H2; injection H2 as <-.
    - exists [AVal fv]. split; [done|]. constructor; [by exists fv|done].
    - by exists []. }
  destruct Hfin as (ys & Hys & Hok2).
  pose proof (collect_app _ _ _ _ Hxs Hys) as Hall.
  destruct (String.eqb name "or").
  - intros Ht. assert (t = TyAny) as -> by (destruct (r1 ++ r2)%list; [done|by injection Ht]).
    destruct (app _ _) as [|x l] eqn:Hl.
    { injection Hall as Hall. symmetry in Hall. apply app_nil in Hall as [-> ->].
      inversion Hok; inversion Hok2; subst. done. }
    destruct (eval_or_collect _ _ None Hall) as [v Hv]. by exists v.
  - intros Ht. destruct (Hsig _ _ _ _ Ht (Forall2_app Hok Hok2)) as (f & v & Hf' & Hv & Htv).
    exists v. unfold findFunction. rewrite Hf'. cbn. rewrite Hall. done.
Qed.

Lemma var_chain_sound x path t :
  match assoc x env with Some u => chain_ty u path | None => None end = Some t ->
  exists v, res_bind (varValue vs x) (fun v => evalFieldChain false v path) = Ok v /\ has_ty t v.
Proof.
  destruct (assoc x env) as [u|] eqn:Hx; [|done]. intros Hc.
  destruct (env_ok_assoc _ _ _ _ Henv Hx) as (v & Hv & Ht).
  unfold varValue. rewrite Hv. cbn. by eapply chain_ty_sound.
Qed.

Lemma command_sound cmd final finalv t :
  Forall arg_sound cmd -> final_ok final finalv ->
  command_ty dot env (arg_ty dot env) cmd final = Some t ->
  exists v, evalCommand fm dotv vs (evalArg fm dotv vs) cmd finalv = Ok v /\ has_ty t (dig v).
Proof.
  intros Hs Hf Hc. destruct cmd as [|first rest]; [done|].
  apply Forall_cons_iff in Hs as [Hfirst Hrest]. unfold command_ty in Hc. unfold evalCommand.
  assert (Hplain : (match rest, final with [], None => true | _, _ => false end) = true ->
    (match rest, finalv with [], None => false | _, _ => true end) = false).
  { destruct rest, final, finalv; try done. }
  assert (Hdig : forall r u, (exists v, r = Ok v /\ has_ty u v) ->
    exists v, r = @Ok string _ v /\ has_ty u (dig v)).
  { intros r u (v & -> & Hv). exists v. split; [done|by apply has_ty_dig]. }
  destruct first as [| |b|s|z|path|x path|f|cmds]; try done.
  1-6,8: destruct (match rest with [] => _ | _ => _ end); cbn [negb] in Hc; [|done];
    rewrite (Hplain eq_refl); unfold notAFunction; apply Hdig.
  - injection Hc as <-. by exists dotv.
  - injection Hc as <-. eexists. split; [done|by eexists].
  - injection Hc as <-. eexists. split; [done|by eexists].
  - injection Hc as <-. eexists. split; [done|by eexists].
  - by eapply chain_ty_sound.
  - pose proof (var_chain_sound x path t Hc) as (v & Hv & Ht). exists v. split; [|done].
    destruct path; [|done]. by destruct (varValue vs x).
  - destruct (arg_ty dot env (EParen cmds)) as [[| | |u]|] eqn:Ha; try done.
    injection Hc as <-. destruct (Hfirst _ Ha) as (x & -> & v & -> & Hv). by exists v.
  - by eapply call_sound.
Qed.

Lemma pipeline_sound cmds : forall final finalv t,
  Forall (Forall arg_sound) cmds -> final_ok final finalv ->
  pipeline_ty (command_ty dot env (arg_ty dot env)) cmds final = Some t ->
  exists v, pipeline (evalCommand fm dotv vs (evalArg fm dotv vs)) cmds finalv = Ok v /\
    has_ty t v.
Proof.
  induction cmds as [|cmd cmds IH]; cbn [pipeline_ty pipeline]; intros final finalv t Hs Hf Hp.
  - subst final. destruct finalv as [v|]; [|done]. by exists v.
  - apply Forall_cons_iff in Hs as [Hc Hs].
    destruct (command_ty _ _ _ _ _) as [u|] eqn:Hu; [|done].
    destruct (command_sound _ _ _ _ Hc Hf Hu) as (v & -> & Hv). cbn.
    by apply (IH (Some u) (Some (dig v))).
Qed.

Lemma arg_sound_all e : arg_sound e.
Proof.
  induction e as [e Hb|cmds IH] using expr_ind'; intros a Ha.
  - destruct e as [| |b|s|z|path|x path|f|cmds]; cbn in Ha |- *; try done.
    + injection Ha as <-. eexists. split; [done|]. by exists dotv.
    + injection Ha as <-. by eexists.
    + injection Ha as <-. eexists. split; [done|]. eexists. split; [done|]. by exists b.
    + injection Ha as <-. by eexists.
    + injection Ha as <-. by eexists.
    + destruct (chain_ty dot path) as [t|] eqn:Hc; [|done]. injection Ha as <-.
      destruct (chain_ty_sound _ _ _ _ Hc Hdot) as (v & -> & Hv).
      eexists. split; [done|]. by exists v.
    + pose proof (var_chain_sound x path) as Hx. destruct (assoc x env) as [u|]; [|done].
      destruct (chain_ty u path) as [t|]; [|done]. injection Ha as <-.
      destruct (Hx t eq_refl) as (v & Hv & Ht).
      exists (AVal v). split; [|by exists v].
      destruct (varValue vs x) as [|w]; cbn in *; [done|]. by rewrite Hv.
    + by destruct (Hb cmds).
  - cbn in Ha |- *. destruct (pipeline_ty _ _ _) as [t|] eqn:Hp; [|done]. injection Ha as <-.
    destruct (pipeline_sound _ None None _ IH I Hp) as (v & -> & Hv).
    eexists. split; [done|]. by exists v.
Qed.

Lemma pipe_sound p t :
  pipe_ty dot env p = Some t -> exists v, evalPipe fm dotv vs p = Ok v /\ has_ty t v.
Proof.
  intros Hp. apply (pipeline_sound _ None None); [|done|done].
  apply Forall_forall. intros cmd _. apply Forall_forall. intros e _. apply arg_sound_all.
Qed.

End expressions.

(** ** Nodes *)

(** The environment after a pipeline; assignments are not accepted. *)
Definition bind_ty (env : list (string * ty)) (d : declaration) (t : ty) :
    option (list (string * ty)) :=
  match d with
  | NoDecl => Some env
  | NewVar names => Some (app (rev (map (fun x => (x, t)) names)) env)
  | Assign _ => None
  end.

(** The environment of an iteration over elements of a type. *)
Definition iter_ty (env : list (string * ty)) (d : declaration) (t : ty) :
    option (list (string * ty)) :=
  match d with
  | NoDecl => Some env
  | NewVar [x] => Some ((x, t) :: env)
  | NewVar [i; x] => Some ((x, t) :: (i, TyInt) :: env)
  | _ => None
  end.

(** The element type of a range. *)
Definition element_ty (t : ty) : option (option ty) :=
  match t with
  | TyAbsent => Some None
  | TyList e | TyOpt (TyList e) => Some (Some e)
  | _ => None
  end.

Section check_list.
Variable check : node -> ty -> list (string * ty) -> option (list (string * ty)).
Fixpoint check_all (l : list node) (dot : ty) (env : list (string * ty)) :
    option (list (string * ty)) :=
  match l with
  | [] => Some env
  | n :: l' =>
      match check n dot env with
      | Some env' => check_all l' dot env'
      | None => None
      end
  end.
End check_list.

Definition both {A} (x y : option A) (z : list (string * ty)) : option (list (string * ty)) :=
  match x, y with Some _, Some _ => Some z | _, _ => None end.

Fixpoint check (n : node) (dot : ty) (env : list (string * ty)) : option (list (string * ty)) :=
  match n with
  | NText _ => Some env
  | NAction p =>
      match pipe_ty dot env p with Some t => bind_ty env (p_decl p) t | None => None end
  | NIf p l1 l2 =>
      match pipe_ty dot env p with
      | Some t =>
          match bind_ty env (p_decl p) t with
          | Some env' => both (check_all check l1 dot env') (check_all check l2 dot env') env
          | None => None
          end
      | None => None
      end
  | NWith p l1 l2 =>
      match pipe_ty dot env p with
      | Some t =>
          match bind_ty env (p_decl p) t with
          | Some env' =>
              both (check_all check l1 (truthy t) env') (check_all check l2 dot env') env
          | None => None
          end
      | None => None
      end
  | NRange p l1 l2 =>
      match pipe_ty dot env p with
      | Some t =>
          match element_ty t, bind_ty env (p_decl p) t with
          | Some None, Some env' => both (Some env) (check_all check l2 dot env') env
          | Some (Some e), Some env' =>
              match iter_ty env (p_decl p) e with
              | Some env1 => both (check_all check l1 e env1) (check_all check l2 dot env') env
              | None => None
              end
          | _, _ => None
          end
      | None => None
      end
  end.

Definition check_template (tmpl : list node) (data : ty) : bool :=
  match check_all check tmpl data [("", data)] with Some _ => true | None => false end.

Lemma node_ind' (P : node -> Prop) :
  (forall s, P (NText s)) -> (forall p, P (NAction p)) ->
  (forall p l1 l2, Forall P l1 -> Forall P l2 -> P (NIf p l1 l2)) ->
  (forall p l1 l2, Forall P l1 -> Forall P l2 -> P (NRange p l1 l2)) ->
  (forall p l1 l2, Forall P l1 -> Forall P l2 -> P (NWith p l1 l2)) ->
  forall n, P n.
Proof.
  intros Ht Ha Hi Hr Hw. fix IH 1.
  assert (Hl : forall l, Forall P l -> Forall P l) by done.
  intros [s|p|p l1 l2|p l1 l2|p l1 l2]; [apply Ht|apply Ha|apply Hi|apply Hr|apply Hw];
    match goal with |- Forall P ?l => induction l as [|n l IHl]; constructor; [apply IH|done] end.
Qed.

(** The check only adds variables. *)
Definition extends (env env' : list (string * ty)) : Prop := exists pre, env' = (pre ++ env)%list.

Lemma extends_refl env : extends env env.
Proof. by exists []. Qed.
Lemma extends_trans e1 e2 e3 : extends e1 e2 -> extends e2 e3 -> extends e1 e3.
Proof. intros [p1 ->] [p2 ->]. exists (p2 ++ p1)%list. by rewrite app_assoc. Qed.

Lemma bind_ty_extends env d t env' : bind_ty env d t = Some env' -> extends env env'.
Proof. destruct d; cbn; intros [= <-]; [apply extends_refl|by eexists]. Qed.
Lemma iter_ty_extends env d t env' : iter_ty env d t = Some env' -> extends env env'.
Proof.
  destruct d as [|[|x [|y [|z l]]]|]; cbn; try done; intros [= <-].
  - apply extends_refl.
  - by exists [(x, t)].
  - by exists [(y, t); (x, TyInt)].
Qed.

Lemma both_Some {A} (x y : option A) z r : both x y z = Some r -> is_Some x /\ is_Some y /\ r = z.
Proof. destruct x, y; cbn; try done. intros [= <-]. eauto. Qed.

Lemma check_extends n dot env env' : check n dot env = Some env' -> extends env env'.
Proof.
  destruct n; cbn [check]; try by (intros [= <-]; apply extends_refl).
  - destruct (pipe_ty _ _ _); [apply bind_ty_extends|done].
  - destruct (pipe_ty _ _ _); [|done]. destruct (bind_ty _ _ _); [|done].
    intros (_ & _ & ->)%both_Some. apply extends_refl.
  - destruct (pipe_ty _ _ _) as [t|]; [|done].
    destruct (element_ty t) as [[e|]|]; destruct (bind_ty env (p_decl p) t); try done.
    + destruct (iter_ty _ _ _); [|done]. intros (_ & _ & ->)%both_Some. apply extends_refl.
    + intros (_ & _ & ->)%both_Some. apply extends_refl.
  - destruct (pipe_ty _ _ _); [|done]. destruct (bind_ty _ _ _); [|done].
    intros (_ & _ & ->)%both_Some. apply extends_refl.
Qed.

Lemma check_all_extends l : forall dot env env',
  check_all check l dot env = Some env' -> extends env env'.
Proof.
  induction l as [|n l IH]; cbn; intros dot env env'.
  - intros [= <-]. apply extends_refl.
  - destruct (check n dot env) as [e1|] eqn:Hn; [|done]. intros Hl.
    eapply extends_trans; [by eapply check_extends|by eapply IH].
Qed.

Lemma env_ok_length env vs : env_ok env vs -> length vs = length env.
Proof. intros H. symmetry. by eapply Forall2_length. Qed.

Lemma popTo_ok env env' (vs vs' : list (string * rvalue)) :
  extends env env' -> env_ok env' vs' -> length vs = length env -> env_ok env (popTo (length vs) vs').
Proof.
  intros [pre ->] Hok Hlen. unfold popTo.
  rewrite (env_ok_length _ _ Hok), Hlen, length_app.
  replace (length pre + length env - length env) with (length pre) by lia.
  apply Forall2_app_inv_l in Hok as (l1 & l2 & H1 & H2 & ->).
  rewrite (Forall2_length _ _ _ H1). by rewrite drop_app_length.
Qed.

Lemma bindVars_ok env vs d t v env' :
  env_ok env vs -> has_ty t v -> bind_ty env d t = Some env' -> env_ok env' (bindVars vs d v).
Proof.
  intros Henv Hv. destruct d as [|names|]; cbn; intros [= <-]; [done|].
  apply Forall2_app; [|done]. rewrite <- !map_rev.
  induction (rev names) as [|x l IH]; constructor; auto.
Qed.

Lemma iterVars_ok env vs d t i e env' :
  env_ok env vs -> has_ty t e -> has_ty TyInt i -> iter_ty env d t = Some env' ->
  exists vs', iterVars vs d i e = Ok vs' /\ env_ok env' vs'.
Proof.
  intros Henv He Hi. destruct d as [|[|x [|y [|z l]]]|]; cbn; try done; intros [= <-];
    eexists; (split; [done|]); repeat constructor; done.
Qed.

Section soundness.
Context (Hsig : signatures_ok fm sg).

Definition node_sound (n : node) : Prop :=
  forall dot env env' dotv vs,
    check n dot env = Some env' -> has_ty dot dotv -> env_ok env vs ->
    exists vs' out, walk fm n dotv vs = Ok (vs', out) /\ env_ok env' vs'.

Definition nodes_sound (l : list node) : Prop :=
  forall dot env env' dotv vs,
    check_all check l dot env = Some env' -> has_ty dot dotv -> env_ok env vs ->
    exists vs' out, walk_all (walk fm) l dotv vs = Ok (vs', out) /\ env_ok env' vs'.

Lemma nodes_sound_of l : Forall node_sound l -> nodes_sound l.
Proof.
  induction 1 as [|n l Hn _ IH]; intros dot env env' dotv vs; cbn.
  - intros [= <-] _ Henv. by do 2 eexists.
  - destruct (check n dot env) as [e1|] eqn:Hc; [|done]. intros Hl Hd Henv.
    destruct (Hn _ _ _ _ _ Hc Hd Henv) as (vs1 & o1 & -> & H1). cbn.
    destruct (IH _ _ _ _ _ Hl Hd H1) as (vs2 & o2 & -> & H2). cbn. by do 2 eexists.
Qed.

(** A block ends with the variables it started with. *)
Lemma block_sound l dot env env1 env2 dotv vs vs1 :
  nodes_sound l -> check_all check l dot env1 = Some env2 -> extends env env1 ->
  has_ty dot dotv -> env_ok env vs -> env_ok env1 vs1 ->
  exists vs2 out, walk_all (walk fm) l dotv vs1 = Ok (vs2, out) /\
    env_ok env (popTo (length vs) vs2).
Proof.
  intros Hl Hc Hext Hd Henv Henv1.
  destruct (Hl _ _ _ _ _ Hc Hd Henv1) as (vs2 & out & Hw & Hok).
  exists vs2, out. split; [done|].
  eapply popTo_ok; [|done|by apply env_ok_length].
  eapply extends_trans; [done|by eapply check_all_extends].
Qed.

Lemma iterate_sound body d e env env1 env2 :
  nodes_sound body -> iter_ty env d e = Some env1 -> check_all check body e env1 = Some env2 ->
  forall l vs, env_ok env vs ->
  Forall (fun x => has_ty TyInt x.1 /\ has_ty e x.2) l ->
  exists vs' out, iterate (walk_all (walk fm) body) d l vs = Ok (vs', out) /\ env_ok env vs'.
Proof.
  intros Hb Hi Hc l. induction l as [|[i x] l IH]; intros vs Henv Hl; cbn.
  - by do 2 eexists.
  - apply Forall_cons_iff in Hl as [[Hix He] Hl]. cbn in Hix, He.
    destruct (iterVars_ok _ _ _ _ _ _ _ Henv He Hix Hi) as (vs1 & -> & H1). cbn.
    destruct (block_sound body e env env1 env2 x vs vs1) as (vs2 & o & -> & H2);
      [done|done|by eapply iter_ty_extends|done|done|done|]. cbn [res_bind fst snd].
    destruct (IH _ H2 Hl) as (vs3 & o3 & -> & H3). cbn. by do 2 eexists.
Qed.

Lemma elements_list t l :
  Forall (fun x => has_ty t (Some x)) l ->
  Forall (fun x => has_ty TyInt x.1 /\ has_ty t x.2)
    (imap (fun i e => (Some (VInt (Z.of_nat i)), Some e)) l).
Proof.
  intros Hl. apply Forall_forall. intros x Hx. apply elem_of_lookup_imap in Hx as (i & y & -> & Hy).
  rewrite Forall_forall in Hl. cbn. split; [by eexists|].
  apply Hl. by eapply list_elem_of_lookup_2.
Qed.

Lemma element_ty_sound t v r :
  element_ty t = Some r -> has_ty t v ->
  match r with
  | None => v = None
  | Some e => v = None \/ exists l, v = Some (VList l) /\ Forall (fun x => has_ty e (Some x)) l
  end.
Proof.
  destruct t as [| | | | | | |[| | | | | | | |e|]|e|]; cbn; try done.
  - by intros [= <-].
  - by intros [= <-].
  - intros [= <-]. auto.
Qed.

Lemma check_node_sound n : node_sound n.
Proof.
  induction n as [s|p|p l1 l2 IH1 IH2|p l1 l2 IH1 IH2|p l1 l2 IH1 IH2] using node_ind';
    intros dot env env' dotv vs Hc Hd Henv; cbn [check walk] in *.
  - injection Hc as <-. by do 2 eexists.
  - destruct (pipe_ty dot env p) as [t|] eqn:Hp; [|done].
    destruct (pipe_sound Hsig _ _ _ _ Hd Henv _ _ Hp) as (v & -> & Hv). cbn.
    do 2 eexists. split; [done|]. by eapply bindVars_ok.
  - apply nodes_sound_of in IH1, IH2.
    destruct (pipe_ty dot env p) as [t|] eqn:Hp; [|done].
    destruct (pipe_sound Hsig _ _ _ _ Hd Henv _ _ Hp) as (v & -> & Hv). cbn.
    destruct (bind_ty env (p_decl p) t) as [e1|] eqn:Hb; [|done].
    pose proof (bindVars_ok _ _ _ _ _ _ Henv Hv Hb) as H1.
    pose proof (bind_ty_extends _ _ _ _ Hb) as Hext.
    apply both_Some in Hc as ([e2 Hc1] & [e3 Hc2] & ->).
    destruct (truth v).
    + destruct (block_sound l1 dot env e1 e2 dotv vs _ IH1 Hc1 Hext Hd Henv H1)
        as (vs2 & o & -> & H2). by do 2 eexists.
    + destruct (block_sound l2 dot env e1 e3 dotv vs _ IH2 Hc2 Hext Hd Henv H1)
        as (vs2 & o & -> & H2). by do 2 eexists.
  - apply nodes_sound_of in IH1, IH2.
    destruct (pipe_ty dot env p) as [t|] eqn:Hp; [|done].
    destruct (pipe_sound Hsig _ _ _ _ Hd Henv _ _ Hp) as (v & -> & Hv). cbn.
    destruct (element_ty t) as [r|] eqn:He; [|done].
    pose proof (element_ty_sound _ _ _ He Hv) as Hr.
    assert (Hels : forall e3 env1, bind_ty env (p_decl p) t = Some env1 ->
      check_all check l2 dot env1 = Some e3 ->
      exists vs' out, walk_all (walk fm) l2 dotv (bindVars vs (p_decl p) v) = Ok (vs', out) /\
        env_ok env (popTo (length vs) vs')).
    { intros e3 env1 Hb Hc2.
      by eapply (block_sound l2 dot env env1 e3 dotv vs); eauto using bind_ty_extends, bindVars_ok. }
    destruct r as [e|].
    + destruct (bind_ty env (p_decl p) t) as [env1|] eqn:Hb; [|done].
      destruct (iter_ty env (p_decl p) e) as [envi|] eqn:Hi; [|done].
      apply both_Some in Hc as ([e2 Hc1] & [e3 Hc2] & ->).
      destruct (Hels _ _ eq_refl Hc2) as (vse & oe & Hwe & Hoke).
      destruct Hr as [->|(l & -> & Hl)]; cbn.
      { rewrite Hwe. cbn. by do 2 eexists. }
      apply elements_list in Hl. destruct (imap _ l) as [|x xs] eqn:Hx.
      { rewrite Hwe. cbn. by do 2 eexists. }
      rewrite <- Hx in *.
      destruct (iterate_sound l1 (p_decl p) e env envi e2 IH1 Hi Hc1 _ vs Henv Hl)
        as (vs2 & o & -> & H2). cbn. do 2 eexists. split; [done|].
      apply (popTo_ok env env); [apply extends_refl|done|by apply env_ok_length].
    + subst v. cbn. destruct (bind_ty env (p_decl p) t) as [env1|] eqn:Hb; [|done].
      apply both_Some in Hc as (_ & [e3 Hc2] & ->).
      destruct (Hels _ _ eq_refl Hc2) as (vse & oe & -> & Hoke). cbn. by do 2 eexists.
  - apply nodes_sound_of in IH1, IH2.
    destruct (pipe_ty dot env p) as [t|] eqn:Hp; [|done].
    destruct (pipe_sound Hsig _ _ _ _ Hd Henv _ _ Hp) as (v & -> & Hv). cbn.
    destruct (bind_ty env (p_decl p) t) as [e1|] eqn:Hb; [|done].
    pose proof (bindVars_ok _ _ _ _ _ _ Henv Hv Hb) as H1.
    pose proof (bind_ty_extends _ _ _ _ Hb) as Hext.
    apply both_Some in Hc as ([e2 Hc1] & [e3 Hc2] & ->).
    destruct (truth v) eqn:Htr.
    + destruct (block_sound l1 (truthy t) env e1 e2 v vs _ IH1 Hc1 Hext
        (has_ty_truthy _ _ Hv Htr) Henv H1) as (vs2 & o & -> & H2). by do 2 eexists.
    + destruct (block_sound l2 dot env e1 e3 dotv vs _ IH2 Hc2 Hext Hd Henv H1)
        as (vs2 & o & -> & H2). by do 2 eexists.
Qed.

(** An accepted template executes on every value of the type. *)
Lemma check_template_sound tmpl data v :
  check_template tmpl data = true -> has_ty data v -> exists out, Execute fm tmpl v = Ok out.
Proof.
  unfold check_template, Execute. intros Hc Hv.
  destruct (check_all check tmpl data [("", data)]) as [env|] eqn:Ha; [|done].
  assert (Henv : env_ok [("", data)] [("", v)]) by (repeat constructor; done).
  assert (Hs : nodes_sound tmpl).
  { apply nodes_sound_of, Forall_forall. intros n _. apply check_node_sound. }
  destruct (Hs _ _ _ _ _ Ha Hv Henv) as (vs & out & -> & _). by exists out.
Qed.

End soundness.
End checker.
