(* ===== verification/RenderValues.v ===== *)
(** * The values of the templates and their types

    Association lists, the shapes of the encoded fields of a Configuration, the
    signatures of the template functions, the text of the node affinity, and the
    type of the values every template is executed with. *)

From Stdlib Require Import Ascii.
From S2P Require Import Prelude GoLib Effects KubeApi ConfigTypes Calls.
From S2P Require Import ConfigurationController NodeController TextTemplate TemplateText.
From S2P Require Import TemplatesRBAC TemplatesDeployments TemplatesDaemonSets TemplatesServices.
From S2P Require Import Render TemplateCheck.
Local Open Scope kube_scope.
Local Open Scope string_scope.

(** ** Association lists *)

Lemma assoc_set_eq {A} k (v : A) m : assoc k (assoc_set k v m) = Some v.
Proof.
  induction m as [|[k' v'] m IH]; cbn; [by rewrite String.eqb_refl|].
  destruct (String.eqb_spec k' k) as [->|Hne]; cbn; [by rewrite String.eqb_refl|].
  by rewrite (proj2 (String.eqb_neq _ _) Hne).
Qed.

Lemma assoc_set_ne {A} k k' (v : A) m : k' <> k -> assoc k (assoc_set k' v m) = assoc k m.
Proof.
  intros Hne. induction m as [|[k1 v1] m IH]; cbn.
  - by rewrite (proj2 (String.eqb_neq _ _) Hne).
  - destruct (String.eqb_spec k1 k') as [->|Hne']; cbn.
    + by rewrite (proj2 (String.eqb_neq _ _) Hne).
    + by rewrite IH.
Qed.

Lemma fields_ok_set m k v fs :
  fields_ok m fs -> k ∉ map fst fs -> fields_ok (assoc_set k v m) fs.
Proof.
  induction fs as [|[k' t] fs IH]; cbn; [done|]. intros [Ht Hf] Hk.
  apply not_elem_of_cons in Hk as [Hne Hk].
  split; [by rewrite assoc_set_ne|by apply IH].
Qed.

(** ** Shapes of the encoded fields *)

Fixpoint shape (f : field) : ty :=
  match f with
  | FString _ => TyOpt TyStr
  | FInt _ => TyOpt TyFloat
  | FBoolPtr _ | FBool _ => TyOpt TyBool
  | FQuantity _ => TyStr
  | FStrings _ => TyOpt (TyList TyStr)
  | FStruct l => TyMap (map (fun kf => let '(k, f) := kf in (k, shape f)) l)
  end.

Definition shapes (l : list (string * field)) : list (string * ty) :=
  map (fun kf => let '(k, f) := kf in (k, shape f)) l.

(** The JSON names of a struct are distinct. *)
Fixpoint names_distinct (f : field) : bool :=
  match f with
  | FStruct l =>
      bool_decide (NoDup (map fst l)) &&
      forallb (fun kf => let '(_, f) := kf in names_distinct f) l
  | _ => true
  end.

Lemma field_ind' (P : field -> Prop) :
  (forall f, (forall l, f <> FStruct l) -> P f) ->
  (forall l, Forall (fun kf => P kf.2) l -> P (FStruct l)) ->
  forall f, P f.
Proof.
  intros Hb Hs. fix IH 1. intros [| | | | | |l]; [by apply Hb..|].
  apply Hs. induction l as [|[k f] l IHl]; constructor; [apply IH|done].
Qed.

Lemma encode_struct l : encode (FStruct l) = Some (VMap (encode_fields l)).
Proof. cbn. do 2 f_equal. Qed.

Lemma assoc_encode_fields_None k l : k ∉ map fst l -> assoc k (encode_fields l) = None.
Proof.
  induction l as [|[k' f] l IH]; cbn; [done|]. intros Hk.
  apply not_elem_of_cons in Hk as [Hne Hk].
  destruct (encode f); cbn; [|by apply IH].
  rewrite (proj2 (String.eqb_neq k' k)) by congruence. by apply IH.
Qed.

Lemma assoc_encode_fields k l f :
  NoDup (map fst l) -> (k, f) ∈ l -> assoc k (encode_fields l) = encode f.
Proof.
  induction l as [|[k' f'] l IH]; cbn; intros Hnd Hin; [by apply not_elem_of_nil in Hin|].
  apply NoDup_cons in Hnd as [Hk Hnd]. apply elem_of_cons in Hin as [[= <- <-]|Hin].
  - destruct (encode f); cbn; [by rewrite String.eqb_refl|]. by apply assoc_encode_fields_None.
  - assert (k' <> k) as Hne.
    { intros ->. apply Hk. apply list_elem_of_fmap. by exists (k, f). }
    destruct (encode f'); cbn; [|by apply IH].
    rewrite (proj2 (String.eqb_neq k' k)) by done. by apply IH.
Qed.

Lemma encode_shape f : names_distinct f = true -> has_ty (shape f) (encode f).
Proof.
  induction f as [f Hb|l IH] using field_ind'; intros Hw.
  - destruct f as [s|z|o|b|s|l|l]; cbn.
    + destruct (String.eqb s ""); [by left|right; by eexists].
    + destruct (z =? 0)%Z; [by left|right; by eexists].
    + destruct o; [right; by eexists|by left].
    + destruct b; [right; by eexists|by left].
    + by eexists.
    + destruct l as [|x l]; [by left|right]. eexists. split; [done|].
      apply Forall_map. apply Forall_forall. intros y _. by eexists.
    + by destruct (Hb l).
  - cbn in Hw. apply andb_true_iff in Hw as [Hnd Hw]. apply bool_decide_eq_true in Hnd.
    rewrite encode_struct. apply has_ty_map. eexists. split; [done|].
    change (map _ l) with (shapes l).
    assert (Hall : forall k f, (k, f) ∈ l -> has_ty (shape f) (assoc k (encode_fields l))).
    { intros k f Hin. rewrite (assoc_encode_fields k l f) by done.
      rewrite Forall_forall in IH. apply (IH (k, f) Hin).
      rewrite forallb_forall in Hw. apply list_elem_of_In in Hin. by apply (Hw (k, f) Hin). }
    clear Hnd Hw IH. revert Hall. generalize (encode_fields l) as m. intros m.
    induction l as [|[k f] l IHl]; cbn; [done|]. intros Hall.
    split; [apply Hall; constructor|]. apply IHl. intros k' f' Hin. apply Hall. by constructor.
Qed.

(** ** Signatures of the functions *)

Definition is_str (a : aty) : bool :=
  match a with ATStr _ | ATy TyStr => true | _ => false end.
Definition str_like (a : aty) : bool :=
  match a with ATStr _ | ATy (TyStr | TyOpt TyStr | TyAbsent) => true | _ => false end.

Definition present (t : ty) : bool :=
  match t with TyAny | TyAbsent | TyOpt _ => false | _ => true end.

Fixpoint index_ty (t : ty) (keys : list aty) : option ty :=
  match keys with
  | [] => Some t
  | ATStr k :: keys' =>
      match t with
      | TyMap fs =>
          match assoc k fs with
          | Some t' => if present t' then index_ty t' keys' else None
          | None => None
          end
      | _ => None
      end
  | _ => None
  end.

Fixpoint nested_ty (t : ty) (path : list string) : option ty :=
  match t, path with
  | TyMap fs, [k] => Some (default TyAny (assoc k fs))
  | TyMap fs, k :: path' =>
      match assoc k fs with Some t' => nested_ty t' path' | None => None end
  | _, _ => None
  end.

Definition render_sig : signatures := fun name args =>
  if String.eqb name "eq" then
    match args with _ :: _ :: _ => if forallb str_like args then Some TyBool else None | _ => None end
  else if String.eqb name "not" then match args with [_] => Some TyBool | _ => None end
  else if String.eqb name "index" then
    match args with ATy t :: key :: keys => index_ty t (key :: keys) | _ => None end
  else if String.eqb name "include" then
    match args with
    | [ATStr key; ATy t] => nested_ty t (strings_Split key "."%char)
    | _ => None
    end
  else if String.eqb name "default" then match args with [_; _] => Some TyAny | _ => None end
  else if String.eqb name "quote" then Some TyStr
  else if String.eqb name "nindent" then
    match args with [ATNum _; s] => if is_str s then Some TyStr else None | _ => None end
  else if String.eqb name "trim" then
    match args with [s] => if is_str s then Some TyStr else None | _ => None end
  else if String.eqb name "b64enc" then
    match args with [s] => if is_str s then Some TyStr else None | _ => None end
  else if String.eqb name "ternary" then
    match args with [_; _; ATy TyBool] => Some TyAny | _ => None end
  else None.

Section signatures.
Context `{KL : KubeLib, RL : !RenderLib, RW : !RenderLaws}.

Lemma is_str_sound a x : is_str a = true -> arg_ok a x -> exists s, as_string x = Ok s.
Proof.
  destruct a as [| |s|[]]; try done; cbn; intros _.
  - intros ->. by exists s.
  - intros (v & -> & s & ->). by exists s.
Qed.

Lemma str_like_sound a x :
  str_like a = true -> arg_ok a x ->
  arg_value x = None \/ exists s, arg_value x = Some (VString s).
Proof.
  destruct a as [| |s|[| | | | | | |[]| |]]; try done; cbn; intros _.
  - intros ->. right. by exists s.
  - intros (v & -> & ->). by left.
  - intros (v & -> & s & ->). right. by exists s.
  - intros (v & -> & [->|[s ->]]); [by left|right; by exists s].
Qed.

Lemma eq_any_sound a l :
  (a = None \/ exists s, a = Some (VString s)) ->
  Forall (fun b => b = None \/ exists s, b = Some (VString s)) l ->
  exists r, eq_any a l = Ok r.
Proof.
  intros Ha. induction 1 as [|b l Hb _ IH]; cbn; [by eexists|].
  assert (Heq : exists t, eq_values a b = Ok t).
  { destruct Ha as [->|[s ->]], Hb as [->|[s' ->]]; by eexists. }
  destruct Heq as [[] ->]; cbn; [by eexists|done].
Qed.

Lemma present_sound t v : present t = true -> has_ty t v -> exists w, v = Some w /\ w <> VNil.
Proof.
  destruct t; try done; cbn; intros _.
  - intros [? ->]; by eexists.
  - intros [? ->]; by eexists.
  - intros [? ->]; by eexists.
  - intros [? ->]; by eexists.
  - intros (? & ? & ->); by eexists.
  - intros (? & -> & _); by eexists.
  - intros (? & -> & _); by eexists.
Qed.

Lemma index_ty_sound keys : forall t xs t' v,
  index_ty t keys = Some t' -> Forall2 arg_ok keys xs -> has_ty t v ->
  exists w, index_values v (map arg_value xs) = Ok w /\ has_ty t' w.
Proof.
  induction keys as [|[z| |k|u] keys IH]; cbn; intros t xs t' v; try done.
  - intros [= <-] Hx Hv. inversion Hx; subst. by exists v.
  - destruct t as [| | | | | | | | |fs]; try done.
    destruct (assoc k fs) as [t1|] eqn:Hk; [|done].
    destruct (present t1) eqn:Hp; [|done].
    intros Hi Hx Hv. apply Forall2_cons_inv_l in Hx as (x & xs' & Hx & Hxs & ->).
    cbn in Hx. subst x. apply has_ty_map in Hv as (m & -> & Hf). cbn.
    pose proof (fields_ok_assoc _ _ _ _ Hf Hk) as Ht.
    destruct (present_sound _ _ Hp Ht) as (w & Hw & _). rewrite Hw in Ht |- *. cbn.
    by eapply IH.
Qed.

Lemma has_ty_default t v : has_ty t v -> has_ty t (dig (Some (default VNil v))).
Proof. destruct v as [v|]; cbn [default]; [apply has_ty_dig|done]. Qed.

Lemma nested_ty_sound path : forall t t' m,
  nested_ty t path = Some t' -> has_ty t (Some (VMap m)) -> has_ty t' (nested_lookup m path).
Proof.
  induction path as [|k path IH]; intros t t' m Hn Ht; [by destruct t|].
  destruct t as [| | | | | | | | |fs]; try done.
  apply has_ty_map in Ht as (m' & Hm & Hf). injection Hm as <-. cbn [nested_ty] in Hn.
  destruct path as [|k' path].
  - injection Hn as <-. cbn. destruct (assoc k fs) eqn:Hk; [|done]. by eapply fields_ok_assoc.
  - destruct (assoc k fs) as [t1|] eqn:Hk; [|done].
    pose proof (fields_ok_assoc _ _ _ _ Hf Hk) as H1.
    change (nested_lookup m (k :: k' :: path)) with
      (match assoc k m with Some (VMap m1) => nested_lookup m1 (k' :: path) | _ => None end).
    destruct t1 as [| | | | | | | | |fs1]; try done.
    apply has_ty_map in H1 as (m1 & Hm1 & Hf1). rewrite Hm1.
    apply (IH _ _ m1 Hn). apply has_ty_map. by exists m1.
Qed.

(** A string argument of a call. *)
Lemma str_args a atys xs :
  is_str a = true -> Forall2 arg_ok (a :: atys) xs ->
  exists x s xs', xs = x :: xs' /\ as_string x = Ok s /\ Forall2 arg_ok atys xs'.
Proof.
  intros Ha (x & xs' & Hx & Hxs & ->)%Forall2_cons_inv_l.
  destruct (is_str_sound _ _ Ha Hx) as [s Hs]. by exists x, s, xs'.
Qed.

Lemma args_cons a atys xs :
  Forall2 arg_ok (a :: atys) xs -> exists x xs', xs = x :: xs' /\ arg_ok a x /\ Forall2 arg_ok atys xs'.
Proof. intros (x & xs' & Hx & Hxs & ->)%Forall2_cons_inv_l. by exists x, xs'. Qed.

Lemma args_nil xs : Forall2 arg_ok [] xs -> xs = [].
Proof. by inversion 1. Qed.

Definition accepts (name : string) (xs : list argument) (t : ty) : Prop :=
  exists f v, assoc name (with_builtins render_functions) = Some f /\ f xs = Ok v /\
    has_ty t (dig v).

Lemma accepts_intro name f xs t v :
  assoc name (with_builtins render_functions) = Some f -> f xs = Ok v -> has_ty t (dig v) ->
  accepts name xs t.
Proof. intros Hf Hv Ht. by exists f, v. Qed.

Lemma eq_accepts atys xs t :
  match atys with _ :: _ :: _ => if forallb str_like atys then Some TyBool else None | _ => None end
    = Some t -> Forall2 arg_ok atys xs -> accepts "eq" xs t.
Proof.
  destruct atys as [|a [|b atys]]; try done. destruct (forallb str_like _) eqn:Hs; [|done].
  intros [= <-] (x & ? & -> & Hx & (y & ys & -> & Hy & Hys)%args_cons)%args_cons.
  cbn [forallb] in Hs. apply andb_true_iff in Hs as [Ha Hs]. apply andb_true_iff in Hs as [Hb Hs].
  destruct (eq_any_sound (arg_value x) (map arg_value (y :: ys))) as [r Hr].
  - exact (str_like_sound _ _ Ha Hx).
  - cbn. constructor; [exact (str_like_sound _ _ Hb Hy)|].
    clear -Hs Hys. induction Hys as [|c z l l' Hz _ IH]; [constructor|].
    cbn in Hs |- *. apply andb_true_iff in Hs as [Hc Hs].
    constructor; [exact (str_like_sound _ _ Hc Hz)|auto].
  - eapply (accepts_intro _ f_eq _ _ (Some (VBool r))); [done| |by eexists].
    unfold f_eq. cbn [map] in Hr |- *. by rewrite Hr.
Qed.

Lemma index_accepts u key keys xs t :
  index_ty u (key :: keys) = Some t -> Forall2 arg_ok (ATy u :: key :: keys) xs ->
  accepts "index" xs t.
Proof.
  intros Ht (x & ys & -> & (v & -> & Hv) & Hys)%args_cons.
  destruct (index_ty_sound _ _ _ _ _ Ht Hys (has_ty_dig _ _ Hv)) as (w & Hw & Hwt).
  eapply (accepts_intro _ f_index); [done| |by apply has_ty_dig].
  unfold f_index. cbn [map arg_value].
  destruct key as [| |k|]; cbn in Ht; try done. destruct u; try done.
  apply has_ty_map in Hv as (m & -> & _). exact Hw.
Qed.

Lemma include_accepts key u xs t :
  nested_ty u (strings_Split key "."%char) = Some t ->
  Forall2 arg_ok [ATStr key; ATy u] xs -> accepts "include" xs t.
Proof.
  intros Ht (x & ys & -> & -> & (y & zs & -> & (v & -> & Hv) & ->%args_nil)%args_cons)%args_cons.
  assert (exists m, v = Some (VMap m)) as [m ->].
  { destruct u; try by destruct (strings_Split key "."%char).
    apply has_ty_map in Hv as (m & -> & _). by exists m. }
  eapply accepts_intro; [reflexivity|reflexivity|].
  unfold include. rewrite NestedFieldCopy_lookup.
  apply has_ty_default. by eapply nested_ty_sound.
Qed.

Lemma render_sig_ok : signatures_ok (with_builtins render_functions) render_sig.
Proof.
  intros name atys args t. change (_ -> _ -> ?P) with
    (render_sig name atys = Some t -> Forall2 arg_ok atys args -> accepts name args t).
  unfold render_sig.
  destruct (String.eqb_spec name "eq") as [->|_]; [apply eq_accepts|].
  destruct (String.eqb_spec name "not") as [->|_].
  { destruct atys as [|a [|b atys]]; try done.
    intros [= <-] (x & ? & -> & Hx & ->%args_nil)%args_cons.
    eapply accepts_intro; [reflexivity|reflexivity|by eexists]. }
  destruct (String.eqb_spec name "index") as [->|_].
  { destruct atys as [|[| | |u] [|key keys]]; try done. apply index_accepts. }
  destruct (String.eqb_spec name "include") as [->|_].
  { destruct atys as [|[| |key|] [|[| | |u] [|]]]; try done. apply include_accepts. }
  destruct (String.eqb_spec name "default") as [->|_].
  { destruct atys as [|a [|b [|]]]; try done.
    intros [= <-] (x & ? & -> & _ & (y & ? & -> & _ & ->%args_nil)%args_cons)%args_cons.
    by eapply accepts_intro. }
  destruct (String.eqb_spec name "quote") as [->|_].
  { intros [= <-] _. eapply accepts_intro; [reflexivity|reflexivity|by eexists]. }
  destruct (String.eqb_spec name "nindent") as [->|_].
  { destruct atys as [|[n| | |] [|a [|]]]; try done. destruct (is_str a) eqn:Ha; [|done].
    intros [= <-] (x & ? & -> & -> & (y & s & ? & -> & Hs & ->%args_nil)%(str_args _ _ _ Ha))%args_cons.
    eapply accepts_intro; [reflexivity|cbn; by rewrite Hs|by eexists]. }
  destruct (String.eqb_spec name "trim") as [->|_].
  { destruct atys as [|a [|]]; try done. destruct (is_str a) eqn:Ha; [|done].
    intros [= <-] (y & s & ? & -> & Hs & ->%args_nil)%(str_args _ _ _ Ha).
    eapply accepts_intro; [reflexivity|cbn; by rewrite Hs|by eexists]. }
  destruct (String.eqb_spec name "b64enc") as [->|_].
  { destruct atys as [|a [|]]; try done. destruct (is_str a) eqn:Ha; [|done].
    intros [= <-] (y & s & ? & -> & Hs & ->%args_nil)%(str_args _ _ _ Ha).
    eapply accepts_intro; [reflexivity|cbn; by rewrite Hs|by eexists]. }
  destruct (String.eqb_spec name "ternary") as [->|_]; [|done].
  destruct atys as [|a [|b [|[| | |[]] [|]]]]; try done.
  intros [= <-] (x & ? & -> & _ & (y & ? & -> & _ & (z & ? & -> & (v & -> & bb & ->) & ->%args_nil)%args_cons)%args_cons)%args_cons.
  eapply accepts_intro; [reflexivity|reflexivity|done].
Qed.

End signatures.

(** ** The type of the values *)

Section values.
Context `{KL : KubeLib, RL : !RenderLib, RW : !RenderLaws}.

(** The type of [.Values] for a spec: the shapes of its fields, the fields the
    renderer adds, and the names some templates read although no field has
    them. It does not depend on the contents of the spec. *)
Definition values_fields (s : ConfigurationSpec) : list (string * ty) :=
  app [("namespace", TyStr); ("caCert", TyStr); ("MASTER_NODES", TyStr);
   ("dual_stack", TyAbsent); ("cniConfig", TyAbsent);
   ("components",
      TyMap (("secureServing", TyBool) :: shapes (ComponentSpec_fields (spec_Component s))));
   ("networking",
      TyMap (("NET_STACK", TyAbsent) :: ("ovnRemoteOpenFlowInterval", TyAbsent) ::
             shapes (NetworkingSpec_fields (spec_Networking s))))]
  (shapes (ConfigurationSpec_fields s)).

Definition kubeovn_fields : list (string * ty) :=
  [("nodeCount", TyInt); ("nodeIPs", TyStr); ("ovs-ovn", TyMap [("updateStrategy", TyStr)]);
   ("ovn", TyMap [("versionCompatibility", TyAny)]); ("runAsUser", TyInt);
   ("masterNodeAffinity", TyStr)].

Definition values_ty (s : ConfigurationSpec) : ty :=
  TyMap [("Values", TyMap (values_fields s)); ("kubeovn", TyMap kubeovn_fields);
         ("Chart", TyAbsent)].

(** All templates but the one of the TLS secret, which generates certificates
    and reads the cluster, and the custom resource definitions, which have no
    action and render to themselves ([PlainText]). *)
Definition checked_templates : list string :=
  (ServiceAccountList ++ RoleBindingList ++ ClusterRoleList ++ RoleList ++
   ClusterRoleBindingList ++ ConfigMapList ++ DeploymentList ++ DaemonsetList ++ ServicesList ++
   ValidatingWebhookConfigurationList)%list.

Definition checks (s : ConfigurationSpec) (t : string) : bool :=
  match Parse (function_names render_functions) t with
  | Ok tmpl => check_template render_sig tmpl (values_ty s)
  | Err _ => false
  end.

Lemma all_checked s : forallb (checks s) checked_templates = true.
Proof. by vm_compute. Qed.

(** *** The affinity text *)

(** The text for a key, without and with values. *)
Definition affinity_head (key : string) : string :=
  tpl "nodeAffinity:
  requiredDuringSchedulingIgnoredDuringExecution:
    nodeSelectorTerms:
      - matchExpressions:
          - key: " +:+ key.
Definition affinity_exists : string := tpl "
            operator: Exists".
Definition affinity_in (quoted : string) : string := tpl "
            operator: In
            values:
              - " +:+ quoted.

Definition affinity (label : string) : string :=
  match strings_Split label "="%char with
  | key :: rest =>
      let val := strings_Join rest "=" in
      affinity_head key +:+
        (if String.eqb val "" then affinity_exists else affinity_in (sprig_quote [VString val]))
  | [] => ""
  end.

Definition affinity_nodes : list node :=
  Eval vm_compute in
  match Parse ("or" :: ["default"; "quote"; "nindent"; "trim"; "b64enc"; "ternary"; "splitList";
                        "join"; "rest"; "genCA"; "genSignedCert"; "eq"; "ne"; "gt"; "not"; "len";
                        "index"]) podAffinityTemplate with
  | Ok l => l
  | Err _ => []
  end.

Lemma affinity_parse :
  Parse (function_names sprig_functions) podAffinityTemplate = Ok affinity_nodes.
Proof. by vm_compute. Qed.

Lemma append_nil_r s : s +:+ "" = s.
Proof. induction s as [|c s IH]; [done|]. change (String c (s +:+ "") = String c s). by rewrite IH. Qed.
Lemma append_assoc s1 s2 s3 : (s1 +:+ s2) +:+ s3 = s1 +:+ (s2 +:+ s3).
Proof.
  induction s1 as [|c s IH]; [done|].
  change (String c ((s +:+ s2) +:+ s3) = String c (s +:+ (s2 +:+ s3))). by rewrite IH.
Qed.

Lemma eq_values_strings x y :
  eq_values (Some (VString x)) (Some (VString y)) = Ok (String.eqb x y).
Proof. done. Qed.

Lemma affinity_execute config :
  Execute (with_builtins sprig_functions) affinity_nodes (Some (config_struct config)) =
  Ok (affinity (spec_MasterNodesLabel (cfg_Spec config))).
Proof.
  unfold affinity, config_struct.
  set (label := spec_MasterNodesLabel (cfg_Spec config)).
  pose proof (strings_Split_not_nil label "="%char) as Hne.
  assert (Hs : sprig_splitList "=" label = strings_Split label "="%char)
    by apply splitList_Split.
  destruct (strings_Split label "="%char) as [|key rest]; [done|].
  unfold Execute, affinity_nodes.
  cbn -[String.append affinity_head Z.ltb Z.of_nat length strings_Join]. rewrite Hs.
  cbn -[String.append affinity_head Z.ltb Z.of_nat length strings_Join].
  change ((VString key :: map VString rest) !! Z.to_nat 0) with (Some (VString key)).
  cbn -[String.append affinity_head Z.ltb Z.of_nat length strings_Join].
  assert (Hl : (1 <? Z.of_nat (length (VString key :: map VString rest)))%Z =
    match rest with [] => false | _ => true end).
  { destruct rest; [done|]. apply Z.ltb_lt. cbn. lia. }
  rewrite Hl. destruct rest as [|v rest].
  - cbn -[String.append affinity_head]. rewrite eq_values_strings.
    cbn -[String.append affinity_head]. rewrite !append_nil_r. unfold affinity_head.
    by rewrite !append_assoc.
  - cbn -[String.append affinity_head Z.ltb Z.of_nat length strings_Join].
    rewrite rest_cons. change (VString v :: map VString rest) with (map VString (v :: rest)).
    cbn -[String.append affinity_head Z.ltb Z.of_nat length strings_Join map].
    rewrite join_strings.
    cbn -[String.append affinity_head Z.ltb Z.of_nat length strings_Join map].
    generalize (strings_Join (v :: rest) "=") as val. intros val.
    cbn -[String.append affinity_head]. rewrite eq_values_strings.
    cbn -[String.append affinity_head]. unfold affinity_head.
    destruct (String.eqb val ""); cbn -[String.append]; rewrite ?append_nil_r.
    + by rewrite !append_assoc.
    + unfold affinity_in. by rewrite !append_assoc, ?append_nil_r.
Qed.

Lemma generateMasterNodeAffinity_eq config :
  generateMasterNodeAffinity config =
  Ok (if String.eqb (spec_MasterNodesLabel (cfg_Spec config)) "" then ""
      else affinity (spec_MasterNodesLabel (cfg_Spec config))).
Proof.
  unfold generateMasterNodeAffinity. destruct (String.eqb _ ""); [done|].
  by rewrite affinity_parse, affinity_execute.
Qed.

Lemma affinity_nonempty label : String.eqb (affinity label) "" = false.
Proof.
  unfold affinity. pose proof (strings_Split_not_nil label "="%char).
  by destruct (strings_Split label "="%char).
Qed.

(** The values, in the order they are set. *)
Definition value_fields (config : Configuration) (caCert : string) : list (string * value) :=
  assoc_set "MASTER_NODES" (VString (strings_Join (st_MatchingNodeAddresses (cfg_Status config)) ","))
    (assoc_set "caCert" (VString caCert)
       (assoc_set "namespace" (VString (om_Namespace (cfg_meta config)))
          (encode_fields (ConfigurationSpec_fields (cfg_Spec config))))).

Definition include_fields (config : Configuration) (ipsec : bool) : list (string * value) :=
  let addresses := st_MatchingNodeAddresses (cfg_Status config) in
  let label := spec_MasterNodesLabel (cfg_Spec config) in
  app [("nodeCount", VInt (Z.of_nat (length addresses)));
       ("nodeIPs", VString (strings_Join addresses ","));
       ("ovs-ovn", VMap [("updateStrategy", VString "RollingUpdate")]);
       ("ovn", VMap [("versionCompatibility", VFrac "24.03")]);
       ("runAsUser", VInt (if ipsec then 0 else 65534))]
    (if String.eqb label "" then [] else [("masterNodeAffinity", VString (affinity label))]).

Lemma SetNestedField_head a b m' v rest :
  SetNestedField ((a, VMap m') :: rest) v [a; b] = Ok ((a, VMap (assoc_set b v m')) :: rest).
Proof.
  rewrite (SetNestedField_two _ v a b m'); cbn; by rewrite String.eqb_refl.
Qed.

Lemma renderValues_eq config caCert ipsec :
  comp_EnableOVNIPSec (spec_Component (cfg_Spec config)) = Some ipsec ->
  renderValues config caCert =
  Done (Ok [("Values", VMap (value_fields config caCert));
            ("kubeovn", VMap (include_fields config ipsec))]).
Proof.
  intros Hip. unfold renderValues, SetNestedField_ctx, generateMap, generateIncludeValues.
  rewrite Hip, generateMasterNodeAffinity_eq.
  unfold value_fields, include_fields.
  generalize (encode_fields (ConfigurationSpec_fields (cfg_Spec config))) as V0. intros V0.
  rewrite SetNestedField_head. cbn [res_bind]. rewrite SetNestedField_head.
  cbn -[affinity String.append strings_Join length]. rewrite SetNestedField_head. cbn [res_bind].
  destruct (String.eqb (spec_MasterNodesLabel (cfg_Spec config)) "") eqn:Hl.
  - reflexivity.
  - rewrite affinity_nonempty. erewrite SetNestedField_two; [|reflexivity]. reflexivity.
Qed.

Lemma fields_ok_app m f1 f2 : fields_ok m (f1 ++ f2)%list <-> fields_ok m f1 /\ fields_ok m f2.
Proof. induction f1 as [|[k t] f1 IH]; cbn; [tauto|]. rewrite IH. tauto. Qed.

Lemma encode_fields_ok l :
  names_distinct (FStruct l) = true -> fields_ok (encode_fields l) (shapes l).
Proof.
  intros H. apply encode_shape in H. rewrite encode_struct in H.
  apply has_ty_map in H as (m & Hm & Hf). by injection Hm as <-.
Qed.

Lemma spec_names_distinct s : names_distinct (FStruct (ConfigurationSpec_fields s)) = true.
Proof. by vm_compute. Qed.
Lemma component_names_distinct s : names_distinct (FStruct (ComponentSpec_fields s)) = true.
Proof. by vm_compute. Qed.
Lemma networking_names_distinct s : names_distinct (FStruct (NetworkingSpec_fields s)) = true.
Proof. by vm_compute. Qed.

Lemma encode_field l k f :
  names_distinct (FStruct l) = true -> In (k, f) l -> assoc k (encode_fields l) = encode f.
Proof.
  intros H Hin. cbn in H. apply andb_true_iff in H as [Hnd _].
  apply assoc_encode_fields; [by apply bool_decide_eq_true in Hnd|by apply list_elem_of_In].
Qed.

(** A field of the spec is found under its name in [.Values]. *)
Lemma value_field config caCert k :
  negb (existsb (String.eqb k) ["namespace"; "caCert"; "MASTER_NODES"]) = true ->
  assoc k (value_fields config caCert) =
  assoc k (encode_fields (ConfigurationSpec_fields (cfg_Spec config))).
Proof.
  cbn [existsb]. rewrite !negb_orb, !andb_true_iff, !negb_true_iff, !String.eqb_neq.
  intros (H1 & H2 & H3 & _). unfold value_fields. by rewrite !assoc_set_ne by done.
Qed.

Lemma has_ty_cons k t fs m :
  has_ty t (assoc k m) -> fields_ok m fs -> fields_ok m ((k, t) :: fs).
Proof. done. Qed.

Lemma value_fields_ok config caCert b :
  comp_SecureServing (spec_Component (cfg_Spec config)) = Some b ->
  fields_ok (value_fields config caCert) (values_fields (cfg_Spec config)).
Proof.
  intros Hss. unfold values_fields. apply fields_ok_app. split.
  - repeat apply has_ty_cons; [..|exact I].
    + unfold value_fields. rewrite !assoc_set_ne by done. rewrite assoc_set_eq. by eexists.
    + unfold value_fields. rewrite assoc_set_ne by done. rewrite assoc_set_eq. by eexists.
    + unfold value_fields. rewrite assoc_set_eq. by eexists.
    + rewrite value_field by done. apply assoc_encode_fields_None.
      apply (bool_decide_unpack _). by vm_compute.
    + rewrite value_field by done. apply assoc_encode_fields_None.
      apply (bool_decide_unpack _). by vm_compute.
    + rewrite value_field by done.
      rewrite (encode_field _ _ (FStruct (ComponentSpec_fields (spec_Component (cfg_Spec config)))));
        [|apply spec_names_distinct|cbn; tauto].
      rewrite encode_struct. apply has_ty_map. eexists. split; [done|].
      apply has_ty_cons; [|apply encode_fields_ok, component_names_distinct].
      rewrite (encode_field _ _ (FBoolPtr (comp_SecureServing (spec_Component (cfg_Spec config)))));
        [|apply component_names_distinct|cbn; tauto].
      rewrite Hss. by exists b.
    + rewrite value_field by done.
      rewrite (encode_field _ _ (FStruct (NetworkingSpec_fields (spec_Networking (cfg_Spec config)))));
        [|apply spec_names_distinct|cbn; tauto].
      rewrite encode_struct. apply has_ty_map. eexists. split; [done|].
      apply has_ty_cons;
        [|apply has_ty_cons; [|apply encode_fields_ok, networking_names_distinct]];
        apply assoc_encode_fields_None; apply (bool_decide_unpack _); by vm_compute.
  - unfold value_fields. repeat (apply fields_ok_set; [|apply (bool_decide_unpack _); by vm_compute]).
    apply encode_fields_ok, spec_names_distinct.
Qed.

Lemma include_fields_ok config ipsec :
  spec_MasterNodesLabel (cfg_Spec config) <> "" ->
  fields_ok (include_fields config ipsec) kubeovn_fields.
Proof.
  intros Hl. unfold include_fields. rewrite (proj2 (String.eqb_neq _ _) Hl).
  repeat apply has_ty_cons; [by eexists|by eexists| | |by eexists|by eexists|exact I].
  - apply has_ty_map. eexists. split; [done|]. split; [by eexists|exact I].
  - apply has_ty_map. eexists. split; [done|]. done.
Qed.

(** The values of a configuration whose pointers are set have their type. *)
Lemma values_typed config caCert ipsec b :
  comp_SecureServing (spec_Component (cfg_Spec config)) = Some b ->
  spec_MasterNodesLabel (cfg_Spec config) <> "" ->
  has_ty (values_ty (cfg_Spec config))
    (Some (VMap [("Values", VMap (value_fields config caCert));
                 ("kubeovn", VMap (include_fields config ipsec))])).
Proof.
  intros Hss Hl. apply has_ty_map. eexists. split; [done|].
  repeat apply has_ty_cons; [..|done|exact I].
  - apply has_ty_map. eexists. split; [done|]. by eapply value_fields_ok.
  - apply has_ty_map. eexists. split; [done|]. by apply include_fields_ok.
Qed.

(** Every checked template renders with the values of a configuration. *)
Lemma checked_renders config caCert ipsec b t :
  comp_SecureServing (spec_Component (cfg_Spec config)) = Some b ->
  spec_MasterNodesLabel (cfg_Spec config) <> "" ->
  In t checked_templates ->
  exists out,
    renderTemplate t [("Values", VMap (value_fields config caCert));
                      ("kubeovn", VMap (include_fields config ipsec))] = Done (Ok out).
Proof.
  intros Hss Hl Hin.
  pose proof (values_typed config caCert ipsec b Hss Hl) as Hty.
  pose proof (all_checked (cfg_Spec config)) as Hck. rewrite forallb_forall in Hck.
  specialize (Hck t Hin). unfold checks in Hck. unfold renderTemplate.
  destruct (Parse _ t) as [e|tmpl]; [done|].
  destruct (check_template_sound _ _ render_sig_ok _ _ _ Hck Hty) as [out Hout].
  exists out. by rewrite Hout.
Qed.

End values.
