(* ===== verification/Guarantees.v ===== *)
(** * What the controllers do to the Configuration

    An invariant of the Configuration that the operations of the code preserve
    ([Stable]) holds of every Configuration a controller sends to the API
    server, as long as it holds of those the server answers with. One walk over
    the programs of the three controllers, for every such invariant. *)

From S2P Require Import Prelude GoLib Effects KubeApi ConfigTypes Calls Executor.
From S2P Require Import ConfigurationController NodeController HealthCheck.
Local Open Scope kube_scope.

Section guarantees.
Context `{KL : KubeLib}.

(** The conditions the operator sets: type, status and reason. *)
Definition condition_table : list (string * ConditionStatus * string) :=
  let unknown ty := (ty, ConditionUnknownStatus, ReasonConditionUnknown) in
  let both ty yes no := [unknown ty; (ty, ConditionTrue, yes); (ty, ConditionFalse, no)] in
  both WaitingForMatchignNodesCondition NodesNotFoundReason NodesFoundReason ++
  both OVNNBLeaderFound LeaderFound LeaderNotFound ++
  both OVNSBLeaderFound LeaderFound LeaderNotFound ++
  both OVNNBDBHealth DBHealth DBHealth ++
  both OVNSBDBHealth DBHealth DBHealth.
Definition in_table (ty st reason : string) : bool :=
  bool_decide ((ty, st, reason) ∈ condition_table).

Class Stable (I : Configuration -> Prop) : Prop := {
  stable_SetCondition now c ty st msg reason :
    I c -> in_table ty st reason = true -> I (SetCondition now c ty st msg reason);
  stable_sort c :
    I c -> I (with_MatchingNodeAddresses c (slices_Sort (st_MatchingNodeAddresses (cfg_Status c))));
  stable_discovered c l :
    I c -> Forall (fun a => nonEmpty a = true) l -> I (with_MatchingNodeAddresses c (slices_Sort l));
  stable_removeElement c a :
    I c -> I (with_MatchingNodeAddresses c
                (removeElement (st_MatchingNodeAddresses (cfg_Status c)) a).1);
  stable_Tag c version : I c -> I (with_Tag c version);
  stable_Deployed c : I c -> I (with_StatusStatus c ConfigurationStatusDeployed);
  stable_Finalizers c f : I c -> I (with_Finalizers c f)
}.

Context (I : Configuration -> Prop) `{HI : !Stable I} (D : Prop).

(** The Configurations the server answers with satisfy the invariant ... *)
Definition given : forall X, callE X -> X -> Prop := fun X e =>
  match e in callE X return X -> Prop with
  | GetConfiguration _ => fun x => forall c, x = Ok c -> I c
  | _ => fun _ => True
  end.

(** ... and so do the ones a controller sends. *)
Definition sent : forall X, callE X -> Prop := fun X e =>
  match e with
  | PatchConfiguration base new | PatchConfigurationStatus base new => I base /\ I new
  | CreateConfiguration c => I c
  | _ => True
  end.

Abbreviation kept := (wp D given sent).
Definition kept_step (f : reconcileFunc) : Prop :=
  forall c, I c -> kept (fun res => I res.1) (f c).

(** Walk to the leaves of a program. *)
Ltac walk :=
  repeat first
    [ done | progress cbn [wp bind call sent given] | split | intros ? _ | case_match
    | apply wp_for_each ].

Lemma kept_setCondition c ty st msg reason :
  I c -> in_table ty st reason = true -> kept I (setCondition c ty st msg reason).
Proof. intros Hc Ht. split; [done|]. intros now _. by apply stable_SetCondition. Qed.

(** ** The configuration controller *)

Section configuration.
Context `{CL : !ControllerLib, RD : !Renderer} (r : ConfigurationReconciler).
Context (order : list (objectType * list string)).
Context (Hpanic : forall ty l c caCert m, In (ty, l) order \/ (ty, l) = (TCustomResourceDefinition, CRDList) ->
  I c -> GenerateObjects l c ty (cr_Version r) caCert = Panicked m -> D).

Lemma kept_initializeConditions : kept_step initializeConditions.
Proof.
  intros c Hc. unfold initializeConditions.
  assert (He : forall c t, I c -> in_table t ConditionUnknownStatus ReasonConditionUnknown = true ->
    kept I (ensureCondition c t)).
  { clear c Hc. intros c t Hc Ht. unfold ensureCondition.
    destruct (ConditionExists c t); [done|by apply kept_setCondition]. }
  do 5 (apply (wp_seq _ _ _ I); [by apply He|]; clear c Hc; intros c Hc). exact Hc.
Qed.

Lemma kept_reconcileClusterScopedReference : kept_step reconcileClusterScopedReference.
Proof. intros c Hc. unfold reconcileClusterScopedReference. walk. Qed.

Lemma kept_findMasterNodes : kept_step findMasterNodes.
Proof.
  intros c Hc. unfold findMasterNodes. destruct (ConvertSelectorToLabelsMap _); [done|].
  split; [done|]. intros [err|items] _; [done|]. cbn [bind call].
  set (found := List.filter nonEmpty (map nodeInternalIP items)).
  assert (Hf : Forall (fun a => nonEmpty a = true) found).
  { apply List.Forall_forall. intros addr Ha. apply filter_In in Ha. tauto. }
  destruct (_ && _).
  - split; [done|]. intros _ _. cbn [bind].
    apply (wp_seq _ _ _ I); [by apply kept_setCondition|done].
  - unfold addressArrayEqual.
    pose proof (stable_sort c Hc) as Hs. destruct (slices_Equal _ _); [done|].
    apply (wp_seq _ _ _ I); [by apply kept_setCondition|].
    intros c' Hc'. by apply stable_discovered.
Qed.

Lemma kept_applyOne owner obj : kept (fun _ => True) (applyOne owner obj).
Proof. unfold applyOne, reconcileObject. walk. Qed.

Lemma kept_applyType ns caCert entry : In entry order -> kept_step (applyType r ns caCert entry).
Proof.
  intros Hin c Hc. destruct entry as [ty l]. unfold applyType.
  destruct (IsObjectNamespaced ty) as [err|namespaced]; [done|].
  destruct (GenerateObjects l c ty (cr_Version r) caCert) as [[err|objs]|m] eqn:Hg.
  - by apply stable_Tag.
  - apply (wp_seq _ _ _ (fun _ => True)).
    + apply wp_for_each. intros o _. apply kept_applyOne.
    + intros err _. by apply stable_Tag.
  - by apply (Hpanic ty l c caCert m); [left|..].
Qed.

Lemma kept_applyObject : kept_step (applyObject r order).
Proof.
  intros c Hc. unfold applyObject. destruct (bool_decide _); [done|].
  destruct (bool_decide _); [done|]. split; [done|]. intros [err|ns] _; [done|].
  split; [done|]. intros [err|secret] _; [done|]. cbn [bind].
  destruct (secret_Data secret !! "ca.crt") as [caCert|]; [|done].
  apply (wp_seq _ _ _ (fun res => I res.1)).
  - apply wp_fold_each; [|done]. intros entry c' Hin. by apply kept_applyType.
  - intros [c' [err|]] Hc'; [done|]. by apply stable_Deployed.
Qed.

Lemma kept_count_each {A} (l : list A) (f : A -> op (res error nat)) n :
  (forall x, kept (fun _ => True) (f x)) -> kept (fun _ => True) (count_each l f n).
Proof.
  intros Hf. revert n. induction l as [|x l IH]; intros n; [done|].
  apply (wp_seq _ _ _ (fun _ => True)); [apply Hf|]. intros [e|k] _; [done|apply IH].
Qed.

Lemma kept_cleanupCRD obj : kept (fun _ => True) (cleanupCRD obj).
Proof.
  unfold cleanupCRD. destruct (obj_body obj) as [crd|]; [|done].
  apply kept_count_each. intros version. split; [done|]. intros [err|items] _; cbn [bind]; [walk|].
  apply (wp_seq _ _ _ (fun _ => True)); [|walk].
  apply wp_for_each. intros v _. unfold deleteResource. walk.
Qed.

Lemma kept_deletion c : I c -> kept (fun _ => True) (deleteClusterScopedReference r c).
Proof.
  intros Hc. unfold deleteClusterScopedReference.
  destruct (GenerateObjects CRDList c TCustomResourceDefinition (cr_Version r) "")
    as [[err|objs]|m] eqn:Hg; [done| |by apply (Hpanic TCustomResourceDefinition CRDList c "" m); [right|..]].
  apply (wp_seq _ _ _ (fun _ => True)).
  - split; [done|]. intros [err|] _; cbn [bind]; [done|].
    apply (wp_seq _ _ _ (fun _ => True)); [|walk].
    apply kept_count_each, kept_cleanupCRD.
  - intros [err|] _; [done|].
    apply (wp_seq _ _ _ (fun _ => True)); [unfold deleteFakeNamespace; walk|].
    intros [err|] _; [done|]. pose proof (stable_Tag c (cr_Version r) Hc) as Ht.
    destruct (ContainsFinalizer _ _).
    + split; [|done]. by split; [|apply stable_Finalizers].
    + split; [done|]. intros [e|items] _; [done|].
      apply wp_for_each. intros n _. unfold releaseNode. walk.
Qed.

Lemma kept_Reconcile req : kept (fun _ => True) (ConfigurationController.Reconcile r order req).
Proof.
  split; [done|]. intros [err|c] Hc; cbn [bind]; [walk|]. specialize (Hc c eq_refl).
  destruct (om_DeletionTimestamp (cfg_meta c)).
  { apply (wp_seq _ _ _ (fun _ => True)); [by apply kept_deletion|done]. }
  destruct (negb _).
  { split; [|done]. by split; [|apply stable_Finalizers]. }
  apply (wp_seq _ _ _ (fun res => I res.1)).
  - unfold run_steps, reconcileSteps. apply wp_fold_each; [|exact Hc].
    intros step c' Hstep Hc'.
    destruct Hstep as [<-|[<-|[<-|[<-|[]]]]]; revert c' Hc'.
    + apply kept_initializeConditions.
    + apply kept_reconcileClusterScopedReference.
    + apply kept_findMasterNodes.
    + apply kept_applyObject.
  - intros [c' [err|]] Hc'; [done|]. destruct (bool_decide _); [done|]. by split.
Qed.

End configuration.

(** ** The node controller and the health check *)

Lemma kept_podList label ns : kept (fun _ => True) (podList label ns).
Proof. unfold podList. walk. Qed.

Lemma kept_executeOVNCentralCommand script label ns :
  kept (fun _ => True) (executeOVNCentralCommand script label ns).
Proof.
  unfold executeOVNCentralCommand. apply (wp_seq _ _ _ (fun _ => True)); [apply kept_podList|].
  intros [err|[|pod [|pod2 items]]] _; [done..| |done].
  unfold NewRemoteCommandExecutor, Run. cbn. walk.
Qed.

Section node.
Context `{CS : !CleanupScripts} (r : NodeReconciler).

Lemma kept_executeRemoteScriptOnLeader script label node :
  kept (fun _ => True) (executeRemoteScriptOnLeader r script label node).
Proof.
  apply (wp_seq _ _ _ (fun _ => True)); [apply kept_executeOVNCentralCommand|walk].
Qed.

Lemma kept_reconcileOVNCentralState nodeIP :
  kept (fun _ => True) (reconcileOVNCentralState r nodeIP).
Proof.
  unfold reconcileOVNCentralState. destruct (GenerateNorthBoundCleanupScript nodeIP); [done|].
  apply (wp_seq _ _ _ (fun _ => True)); [apply kept_executeRemoteScriptOnLeader|].
  intros [err|] _; [done|]. destruct (GenerateSouthBoundCleanupScript nodeIP); [done|].
  apply kept_executeRemoteScriptOnLeader.
Qed.

Lemma kept_reconcileNodeDeletion c node :
  I c -> kept (fun _ => True) (reconcileNodeDeletion r c node).
Proof.
  intros Hc. unfold reconcileNodeDeletion. destruct (bool_decide _); [done|].
  apply (wp_seq _ _ _ (fun _ => True)).
  - destruct (slices_Contains _ _); [|done].
    apply (wp_seq _ _ _ (fun _ => True)); [apply kept_reconcileOVNCentralState|].
    intros [err|] _; [done|]. split; [|done]. split; [done|by apply stable_removeElement].
  - intros [err|] _; [done|]. unfold reconcileOVSOVNState.
    apply (wp_seq _ _ _ (fun _ => True)).
    + destruct (GenerateChassisCleanupScript _); [done|apply kept_executeRemoteScriptOnLeader].
    + walk.
Qed.

Lemma kept_reconcileNode node : kept (fun _ => True) (reconcileNode r node).
Proof.
  split; [done|]. intros [err|c] Hc; cbn [bind]; [walk|]. specialize (Hc c eq_refl).
  destruct (om_DeletionTimestamp (cfg_meta c)); [done|].
  destruct (om_DeletionTimestamp (node_meta node)); [by apply kept_reconcileNodeDeletion|walk].
Qed.

Lemma kept_NodeReconcile req : kept (fun _ => True) (NodeController.Reconcile r req).
Proof.
  split; [done|]. intros [err|node] _; cbn [bind]; [|apply kept_reconcileNode].
  destruct (IsNotFound err); [done|apply kept_reconcileNode].
Qed.

End node.

Section health.
Context (r : HealthCheckReconciler).

Lemma kept_checkLeader c condition missing pods :
  I c -> in_table condition ConditionTrue LeaderFound = true ->
  in_table condition ConditionFalse LeaderNotFound = true ->
  kept (fun res => I res.1) (checkLeader c condition missing pods).
Proof.
  intros Hc Hy Hn. destruct pods; (apply (wp_seq _ _ _ I); [by apply kept_setCondition|done]).
Qed.

Lemma kept_checkDB run script label condition c :
  I c -> in_table condition ConditionTrue DBHealth = true ->
  in_table condition ConditionFalse DBHealth = true ->
  kept I (checkDB r run script label condition c).
Proof.
  intros Hc Hy Hn. destruct run; [|done].
  apply (wp_seq _ _ _ (fun _ => True)); [apply kept_executeOVNCentralCommand|].
  intros [result [err|]] _; by apply kept_setCondition.
Qed.

Lemma kept_reconcileOVNDBHealth c :
  I c -> kept (fun res => I res.1) (reconcileOVNDBHealth r c).
Proof.
  intros Hc. split; [done|]. intros now _. cbn [bind]. destruct (negb _); [done|].
  apply (wp_seq _ _ _ (fun _ => True)); [apply kept_podList|]. intros [err|nb] _; [done|].
  apply (wp_seq _ _ _ (fun res => I res.1)); [by apply kept_checkLeader|].
  intros [c1 run1] Hc1. apply (wp_seq _ _ _ (fun _ => True)); [apply kept_podList|].
  intros [err|sb] _; [done|].
  apply (wp_seq _ _ _ (fun res => I res.1)); [by apply kept_checkLeader|]. intros [c2 run2] Hc2.
  apply (wp_seq _ _ _ I); [by apply kept_checkDB|]. intros c3 Hc3.
  apply (wp_seq _ _ _ I); [by apply kept_checkDB|done].
Qed.

Lemma kept_HealthReconcile req : kept (fun _ => True) (HealthCheck.Reconcile r req).
Proof.
  split; [done|]. intros [err|c] Hc; cbn [bind]; [walk|]. specialize (Hc c eq_refl).
  destruct (om_DeletionTimestamp (cfg_meta c)); [done|]. destruct (negb _); [done|].
  apply (wp_seq _ _ _ (fun res => I res.1)); [by apply kept_reconcileOVNDBHealth|].
  intros [c' [err|]] Hc'; [done|]. apply (wp_seq _ _ _ (fun _ => True)).
  - destruct (bool_decide _); [done|]. by split.
  - by intros [err|] _.
Qed.

End health.

End guarantees.
