(* ===== verification/System.v ===== *)
(** * The operator among other clients of the API server

    Any number of workers run the controllers and the bootstrapper, one call at
    a time and in any interleaving; a worker may stop at any point (the process
    is killed, the leader election is lost). The API server is a parameter: a
    state [W] with the versions of the Configuration it has stored, and a
    relation [serve] between a call, the state, the answer and the next state.

    [ApiServerLaws] states what is assumed of it. A read answers with any
    version ever stored (the managers read through caches). The Configuration
    has a status subresource: a creation drops the status, a patch of the
    object keeps it, and a patch of the status is a JSON merge patch, computed
    by [client.MergeFrom] from the difference between the two objects of the
    call: it replaces the fields that differ, lists as a whole, and keeps the
    others as stored. Every other client keeps the status. A deletion is a
    change that stores no version. *)

From S2P Require Import Prelude GoLib Effects KubeApi ConfigTypes Calls Executor.
From S2P Require Import ConfigurationController NodeController HealthCheck Bootstrap Guarantees.
Local Open Scope kube_scope.

Section server.
Context `{KL : KubeLib}.

(** The status of a new object. *)
Definition noStatus : ConfigurationStatus := mkConfigurationStatus [] [] "" [].

(** One field of a merge patch. *)
Definition merge {A} `{EqDecision A} (base new stored : A) : A :=
  if decide (new = base) then stored else new.

Definition merge_status (base new stored : ConfigurationStatus) : ConfigurationStatus :=
  mkConfigurationStatus
    (merge (st_MatchingNodeAddresses base) (st_MatchingNodeAddresses new)
       (st_MatchingNodeAddresses stored))
    (merge (st_Conditions base) (st_Conditions new) (st_Conditions stored))
    (merge (st_Status base) (st_Status new) (st_Status stored))
    (merge (st_ManagedObjects base) (st_ManagedObjects new) (st_ManagedObjects stored)).

(** The status a call stores, over the stored one (none before the creation). *)
Definition stores {X} (e : callE X) (stored : option ConfigurationStatus)
    (s : ConfigurationStatus) : Prop :=
  match e with
  | CreateConfiguration _ => s = noStatus
  | PatchConfiguration _ _ => stored = Some s
  | PatchConfigurationStatus base new =>
      exists s0, stored = Some s0 /\ s = merge_status (cfg_Status base) (cfg_Status new) s0
  | _ => False
  end.

Class ApiServer (W : Type) := {
  versions : W -> list Configuration;
  serve : forall X, callE X -> W -> X -> W -> Prop;
  others : W -> W -> Prop
}.

(** The status in the newest version. *)
Definition current `{ApiServer W} (w : W) : option ConfigurationStatus :=
  match versions w with c :: _ => Some (cfg_Status c) | [] => None end.

Class ApiServerLaws `{AS : ApiServer W} : Prop := {
  serve_reads key w c w' : serve _ (GetConfiguration key) w (Ok c) w' -> In c (versions w);
  serve_stores X (e : callE X) w x w' :
    serve X e w x w' ->
    versions w' = versions w \/
    exists c, versions w' = c :: versions w /\ stores e (current w) (cfg_Status c);
  others_keep w w' :
    others w w' ->
    versions w' = versions w \/
    exists c, versions w' = c :: versions w /\
      (cfg_Status c = noStatus \/ current w = Some (cfg_Status c))
}.

End server.

Section system.
Context `{KL : KubeLib, CL : !ControllerLib, RD : !Renderer, CS : !CleanupScripts}.
Context `{BL : !BootstrapLib, AS : !ApiServer W}.

(** What a worker does, without its result. *)
Definition task := op unit.
Definition worker {A} (p : op A) : task := p ;;; Ret tt.

Record system := mkSystem { sys_server : W; sys_tasks : list task }.

Inductive step : system -> system -> Prop :=
| step_configuration w l r order req :
    order ≡ₚ OrderedObjectList ->
    step (mkSystem w l) (mkSystem w (worker (ConfigurationController.Reconcile r order req) :: l))
| step_node w l r req :
    step (mkSystem w l) (mkSystem w (worker (NodeController.Reconcile r req) :: l))
| step_health w l r req :
    step (mkSystem w l) (mkSystem w (worker (HealthCheck.Reconcile r req) :: l))
| step_bootstrap w l b :
    step (mkSystem w l) (mkSystem w (worker (Start b) :: l))
| step_call w l1 X (e : callE X) k l2 x w' :
    serve X e w x w' ->
    step (mkSystem w (l1 ++ Vis e k :: l2)) (mkSystem w' (l1 ++ k x :: l2))
| step_stop w l1 t l2 : step (mkSystem w (l1 ++ t :: l2)) (mkSystem w (l1 ++ l2))
| step_others w w' l : others w w' -> step (mkSystem w l) (mkSystem w' l).

End system.
