(* ===== verification/TestServer.v ===== *)
(** * A concrete library and a small in-memory API server

    Instances of the library interfaces, and a handler of the operator's calls
    over a cluster state, used to exercise the theorems at concrete inputs. The
    theorems themselves hold for every library that satisfies the stated laws
    and for every behaviour of the API server. *)

From S2P Require Import Prelude GoLib Effects KubeApi ConfigTypes Calls.
From S2P Require Import ConfigurationController System.
From Stdlib Require Import Ascii.
Local Open Scope string_scope.

(** ** Library functions *)

#[export] Instance testLib : KubeLib := {|
  Quantity := string;
  Quantity_eq_dec := _;
  Quantity_zero := "0";
  Quantity_IsZero q := bool_decide (q = "0");
  MustParse s := s;
  Quantity_String q := q;
  LibError := string;
  LibError_Error e := e;
  lib_IsNotFound e := bool_decide (e = "NotFound");
  lib_IsAlreadyExists e := bool_decide (e = "AlreadyExists");
  ContainsFinalizer l f := bool_decide (f ∈ l);
  AddFinalizer l f := if bool_decide (f ∈ l) then l else (l ++ [f])%list;
  RemoveFinalizer l f := List.filter (fun g => negb (bool_decide (g = f))) l;
  ConvertSelectorToLabelsMap s :=
    match strings_Split s "="%char with
    | [""] => Ok ∅
    | [k; v] => Ok {[ k := v ]}
    | _ => Err "invalid selector"
    end;
  labels_Selector := string;
  labels_Parse s := Ok s;
  Payload := string
|}.

#[export] Instance testLaws : KubeLaws.
Proof.
  split.
  - done.
  - intros l f. apply bool_decide_eq_true.
  - intros l f g. cbn. case_bool_decide; set_solver.
  - intros l f g. cbn. rewrite !list_elem_of_In, filter_In, negb_true_iff, bool_decide_eq_false.
    tauto.
Qed.

Definition isNamespaced (t : objectType) : bool :=
  match t with
  | TCustomResourceDefinition | TClusterRole | TClusterRoleBinding
  | TValidatingWebhookConfiguration => false
  | _ => true
  end.

Definition addOwner (o : OwnerReference) (obj : Object) : Object :=
  let m := obj_meta obj in
  mkObject (obj_type obj)
    (mkObjectMeta (om_Name m) (om_Namespace m) (om_Generation m) (om_DeletionTimestamp m)
       (om_Finalizers m) (om_OwnerReferences m ++ [o])%list) (obj_body obj).

#[export] Instance testControllerLib : ControllerLib := {|
  IsObjectNamespaced t := Ok (isNamespaced t);
  SetControllerReference owner obj :=
    match owner with
    | OwnerConfiguration c =>
        Ok (addOwner (mkOwnerReference APIVersion Kind (om_Name (cfg_meta c))) obj)
    | OwnerNamespace ns =>
        Ok (addOwner (mkOwnerReference "v1" "Namespace" (om_Name (ns_meta ns))) obj)
    end;
  ToUnstructured obj := Ok obj
|}.

(** ** The cluster *)

Record cluster := mkCluster {
  cl_config : option Configuration;
  cl_nodes : list Node;
  cl_fakeNS : option Namespace;
  cl_secret : option Secret;
  cl_configMap : option ConfigMap;
  cl_customObjects : list (resourceInterface * list Unstructured);
  cl_pods : list (string * Pod);
  cl_objects : list Object;
  cl_clock : Time
}.

Definition notFound : error := ELib "NotFound".

Definition found {A} (o : option A) : res error A :=
  match o with Some a => Ok a | None => Err notFound end.

Definition put_config (cl : cluster) (o : option Configuration) : cluster :=
  mkCluster o (cl_nodes cl) (cl_fakeNS cl) (cl_secret cl) (cl_configMap cl)
    (cl_customObjects cl) (cl_pods cl) (cl_objects cl) (cl_clock cl).
Definition put_fakeNS (cl : cluster) (o : option Namespace) : cluster :=
  mkCluster (cl_config cl) (cl_nodes cl) o (cl_secret cl) (cl_configMap cl)
    (cl_customObjects cl) (cl_pods cl) (cl_objects cl) (cl_clock cl).
Definition put_nodes (cl : cluster) (l : list Node) : cluster :=
  mkCluster (cl_config cl) l (cl_fakeNS cl) (cl_secret cl) (cl_configMap cl)
    (cl_customObjects cl) (cl_pods cl) (cl_objects cl) (cl_clock cl).
Definition put_objects (cl : cluster) (l : list Object) : cluster :=
  mkCluster (cl_config cl) (cl_nodes cl) (cl_fakeNS cl) (cl_secret cl) (cl_configMap cl)
    (cl_customObjects cl) (cl_pods cl) l (cl_clock cl).
Definition tick (cl : cluster) : cluster :=
  mkCluster (cl_config cl) (cl_nodes cl) (cl_fakeNS cl) (cl_secret cl) (cl_configMap cl)
    (cl_customObjects cl) (cl_pods cl) (cl_objects cl) (cl_clock cl + time_Second)%Z.

(** An object being deleted goes away with its last finalizer. *)
Definition collect (c : Configuration) : option Configuration :=
  match om_DeletionTimestamp (cfg_meta c), om_Finalizers (cfg_meta c) with
  | Some _, [] => None
  | _, _ => Some c
  end.

Definition keep_status (stored new : Configuration) : Configuration :=
  with_Status new (cfg_Status stored).

(** The labels of a node contain a selector set. *)
Definition matches (sel : nodeSelector) (n : Node) : bool :=
  match sel with
  | Everything => true
  | MatchingLabels set =>
      forallb (fun '(k, v) => bool_decide (node_labels n !! k = Some v)) (map_to_list set)
  end.

Definition server : handler callE cluster := fun X e cl =>
  match e in callE X return X * cluster with
  | GetConfiguration key =>
      (match cl_config cl with
       | Some c => if bool_decide (om_Name (cfg_meta c) = nn_Name key) then Ok c else Err notFound
       | None => Err notFound
       end, cl)
  | CreateConfiguration c =>
      match cl_config cl with
      | Some _ => (Some (ELib "AlreadyExists"), cl)
      | None => (None, put_config cl (Some (with_Status c noStatus)))
      end
  | PatchConfiguration _ new =>
      match cl_config cl with
      | Some c => (None, put_config cl (collect (keep_status c new)))
      | None => (Some notFound, cl)
      end
  | PatchConfigurationStatus base new =>
      match cl_config cl with
      | Some c =>
          (None, put_config cl (Some (with_Status c
             (merge_status (cfg_Status base) (cfg_Status new) (cfg_Status c)))))
      | None => (Some notFound, cl)
      end
  | GetNamespace _ => (found (cl_fakeNS cl), cl)
  | CreateNamespace ns => (None, put_fakeNS cl (Some ns))
  | DeleteNamespace _ => (None, put_fakeNS cl None)
  | GetSecret _ => (found (cl_secret cl), cl)
  | GetConfigMap _ => (found (cl_configMap cl), cl)
  | GetNode key =>
      (found (find_first (fun n => bool_decide (om_Name (node_meta n) = nn_Name key))
                (cl_nodes cl)), cl)
  | ListNodes sel => (Ok (List.filter (matches sel) (cl_nodes cl)), cl)
  | PatchNode _ new =>
      (None, put_nodes cl
         (map (fun n => if bool_decide (om_Name (node_meta n) = om_Name (node_meta new))
                        then new else n) (cl_nodes cl)))
  | ListPods sel _ =>
      (Ok (map snd (List.filter (fun p => bool_decide (p.1 = sel)) (cl_pods cl))), cl)
  | ApplyObject obj _ => (None, put_objects cl (cl_objects cl ++ [obj]))
  | DynNewForConfig => (None, cl)
  | DynList ri =>
      (match find_first (fun p => bool_decide (gvr_Resource (ri_gvr p.1) = gvr_Resource (ri_gvr ri)))
               (cl_customObjects cl) with
       | Some (_, l) => Ok l
       | None => Err notFound
       end, cl)
  | DynDelete _ _ => (None, cl)
  | NewClientset => (None, cl)
  | ExecPod _ pod _ _ => ((None, "ok on " +:+ pod, ""), cl)
  | RecordEvent _ _ _ _ => (tt, cl)
  | Now => (cl_clock cl, tick cl)
  end.

(** A run of a program against this server. *)
Lemma server_runs {A} (p : op A) cl :
  runs p (exec_trace server p cl) (exec server p cl).1.
Proof. apply exec_runs. Qed.

(** ** A sample Configuration *)

Definition sampleResources : ResourceSpec :=
  mkResourceSpec (mkCPUMemSpec "200m" "0" "0") (mkCPUMemSpec "0" "1Gi" "0").

Definition sampleStack (ip : string) : NetworkStackSpec :=
  mkNetworkStackSpec (ip +:+ "/16") ip "10.96.0.0/12" "100.64.0.0/16" "1.1.1.1" "google.com.".

Definition sampleNetworking (stack : string) : NetworkingSpec :=
  mkNetworkingSpec stack (Some false) "geneve" "geneve" "" "" "" "veth-pair"
    (mkVlanSpec "provider" "" "ovn-vlan" 1) (Some false) (Some true) "ovn-default" "ovn-cluster"
    "join" (Some false) (Some true) "" 180000 5000 5 10000 10 1 (Some false) "" "".

Definition sampleComponent (ipsec : option bool) : ComponentSpec :=
  mkComponentSpec (Some true) (Some true) (Some true) (Some false) (Some false) (Some true)
    (Some true) (Some true) (Some true) (Some false) (Some true) (Some false)
    (mkU2OFeatures false) (Some false) (Some false) (Some false) (Some true) ipsec
    (Some false) (Some false) 3 10 (Some true) "standard" (Some false) (Some false).

Definition sampleSpecOf (networking : NetworkingSpec) (component : ComponentSpec)
    (performance : PerformanceSpec) (label : string) : ConfigurationSpec :=
  mkConfigurationSpec
    (mkGlobalSpec (mkRegistrySpec "docker.io/kubeovn" [])
       (mkImageDetails (mkKubeOVNImageSpec "kube-ovn" "" "kube-ovn-dpdk" "vpc-nat-gateway")
          (mkNATGatewayImageSpec "vpc-nat-gateway" "")))
    "IfNotPresent" label networking component
    (sampleStack "10.16.0.1") (sampleStack "fd00::1") (sampleStack "10.16.0.1,fd00::1")
    performance (mkDebugSpec None "mirror0")
    (mkCNIConfSpec "01" "/etc/cni/net.d" "/etc/cni/net.d" "/opt/cni/bin"
       "/kube-ovn/01-kube-ovn.conflist" "/usr/local/bin" None (Some true))
    (mkKubeletConfigSpec "/var/lib/kubelet") (mkLogConfigSpec "/var/log")
    "/etc/origin/openvswitch" "/etc/origin/ovs_ipsec_keys" "/etc/origin/ovn" None None
    "hugepages-2Mi" "1Gi" "v1.16.1-dpdk" "1000m" "2Gi"
    sampleResources sampleResources sampleResources sampleResources sampleResources
    sampleResources.

Definition sampleSpec (stack label : string) : ConfigurationSpec :=
  sampleSpecOf (sampleNetworking stack) (sampleComponent (Some false))
    (mkPerformanceSpec 360 20 100) label.

Definition sampleConfig (deleted : option Time) (finalizers : list string)
    (status : ConfigurationStatus) : Configuration :=
  mkConfiguration (mkObjectMeta "kubeovn" "kube-system" 1 deleted finalizers [])
    (sampleSpec "ipv4" "role=master") status.

Definition sampleNode (name ip : string) (labels : gmap string string) (deleted : option Time)
    (finalizers : list string) : Node :=
  mkNode (mkObjectMeta name "" 1 deleted finalizers []) labels
    [mkNodeAddress "Hostname" name; mkNodeAddress NodeInternalIP ip].

Definition masterLabels : gmap string string := {[ "role" := "master" ]}.

Definition sampleSecret : Secret :=
  mkSecret (mkObjectMeta KubeOVNOperatorWebhookCertSecret "kube-system" 1 None [] [])
    {[ "ca.crt" := "CERT" ]}.

Definition sampleCluster (c : option Configuration) (nodes : list Node)
    (custom : list (resourceInterface * list Unstructured)) : cluster :=
  mkCluster c nodes None (Some sampleSecret) None custom
    [(NBLeaderLabel, mkPod (mkObjectMeta "ovn-central-0" "kube-system" 1 None [] []));
     (SBLeaderLabel, mkPod (mkObjectMeta "ovn-central-1" "kube-system" 1 None [] []))]
    [] 63000000000000000000%Z.

(** A generator of two object types, for the theorems on the controller. *)
Definition sampleObject (ty : objectType) (name : string) (tag : string) : Object :=
  mkObject ty (mkObjectMeta name "kube-system" 0 None [] [])
    (match ty with
     | TCustomResourceDefinition => inl (mkCRDSpec "kubeovn.io" name "Cluster" ["v1"])
     | _ => inr tag
     end).

Definition sampleRenderer : Renderer := {|
  GenerateObjects l c ty version caCert :=
    Done (Ok (map (fun name => sampleObject ty name version) l));
  OrderedObjectList := [(TCustomResourceDefinition, ["subnets"; "vpcs"]); (TService, ["ovn-nb"])];
  CRDList := ["subnets"; "vpcs"]
|}.

Lemma sampleRendererLaws : @RendererLaws _ sampleRenderer.
Proof. split. done. Qed.

Definition sampleReconciler : ConfigurationReconciler :=
  mkConfigurationReconciler "kube-system" "v1.16.2".

(** A run whose outcome is computed. *)
Lemma server_run {A} (p : op A) cl a :
  (exec server p cl).1 = Done a -> runs p (exec_trace server p cl) (Done a).
Proof. intros <-. apply server_runs. Qed.

(** Sample states of the cluster. *)
Definition sampleKey : NamespacedName := mkNamespacedName "kube-system" "kubeovn".
Definition liveConfig : Configuration :=
  sampleConfig None [KubeOVNConfigurationFinalizer] noStatus.
Definition readyConfig : Configuration :=
  sampleConfig None [KubeOVNConfigurationFinalizer]
    (mkConfigurationStatus ["10.0.0.2"] [] "" []).
Definition deletedConfig : Configuration :=
  sampleConfig (Some 5%Z) [KubeOVNConfigurationFinalizer] noStatus.
Definition masterNode : Node := sampleNode "n1" "10.0.0.1" masterLabels None [].
Definition workerNode : Node :=
  sampleNode "n2" "10.0.0.2" ∅ None [KubeOVNNodeFinalizer].
Definition otherOwner : OwnerReference := mkOwnerReference "apps/v1" "Deployment" "d".

Definition liveCluster : cluster := sampleCluster (Some liveConfig) [workerNode; masterNode] [].
Definition emptyCluster : cluster := sampleCluster (Some liveConfig) [workerNode] [].

(** The result of a step that succeeds. *)
Definition step_ok (p : op (Configuration * option error)) (cl : cluster) : bool :=
  match (exec server p cl).1 with Done (_, None) => true | _ => false end.
Definition step_config (p : op (Configuration * option error)) (cl : cluster) : Configuration :=
  match (exec server p cl).1 with Done (c, _) => c | _ => liveConfig end.

Lemma step_run p cl :
  step_ok p cl = true -> runs p (exec_trace server p cl) (Done (step_config p cl, None)).
Proof.
  intros Hok. apply server_run. unfold step_ok, step_config in *.
  by destruct (exec _ _ _) as [[[c [err|]]|] w].
Qed.

(** The same for a program that only reports an error, and for [Reconcile]. *)
Definition err_ok {A} (p : op (A * option error)) (cl : cluster) : bool :=
  match (exec server p cl).1 with Done (_, None) => true | _ => false end.

Lemma reconcile_run (p : op (Result * option error)) cl :
  err_ok p cl = true -> exists res, runs p (exec_trace server p cl) (Done (res, None)).
Proof.
  intros Hok. unfold err_ok in Hok.
  pose proof (server_runs p cl) as Hr.
  destruct (exec _ _ _) as [[[res [err|]]|] w]; try done. by exists res.
Qed.

Definition done_ok (p : op (option error)) (cl : cluster) : bool :=
  match (exec server p cl).1 with Done None => true | _ => false end.

Lemma done_run (p : op (option error)) cl :
  done_ok p cl = true -> runs p (exec_trace server p cl) (Done None).
Proof.
  intros Hok. apply server_run. unfold done_ok in *.
  by destruct (exec _ _ _) as [[[err|]|] w].
Qed.
