(* ===== verification/TestRender.v ===== *)
(** * A concrete rendering library

    An instance of [RenderLib] that follows the documentation of the library
    functions where the laws or the examples need it, and the sample values
    used to exercise the theorems on rendering. *)

From Stdlib Require Import Ascii.
From S2P Require Import Prelude GoLib Effects KubeApi ConfigTypes Calls.
From S2P Require Import ConfigurationController NodeController TextTemplate Render TestServer.
Local Open Scope string_scope.

(** [SetNestedField]: create the missing maps, fail on other values. *)
Fixpoint set_nested (m : list (string * value)) (v : value) (path : list string) :
    option (list (string * value)) :=
  match path with
  | [] => None
  | [k] => Some (assoc_set k v m)
  | k :: path' =>
      match assoc k m with
      | Some (VMap m') => option_map (fun m'' => assoc_set k (VMap m'') m) (set_nested m' v path')
      | None => option_map (fun m'' => assoc_set k (VMap m'') m) (set_nested [] v path')
      | Some _ => None
      end
  end.

Definition quote_string : string := String quote_char EmptyString.

(** Break lines after each newline, with [pad] after it. *)
Fixpoint indent (pad s : string) : string :=
  match s with
  | EmptyString => EmptyString
  | String c s' =>
      if Ascii.eqb c newline then String c (pad +:+ indent pad s') else String c (indent pad s')
  end.

Fixpoint spaces (n : nat) : string :=
  match n with O => EmptyString | S n => String " "%char (spaces n) end.

#[export] Instance testRenderLib : RenderLib := {|
  sprig_default d v := if truth (Some v) then v else d;
  sprig_quote l := join_with " " (map (fun v => quote_string +:+ print_value v +:+ quote_string) l);
  sprig_nindent n s :=
    String newline (spaces (Z.to_nat n) +:+ indent (spaces (Z.to_nat n)) s);
  sprig_trim s := rev_string (trim_left (rev_string (trim_left s)));
  sprig_b64enc s := s;
  sprig_ternary vt vf b := if b then vt else vf;
  sprig_splitList sep s :=
    match sep with
    | String c EmptyString => strings_Split s c
    | _ => [s]
    end;
  sprig_join sep v :=
    match v with
    | VList l => join_with sep (map print_value l)
    | _ => print_value v
    end;
  sprig_rest v :=
    match v with
    | VList (_ :: l) => Ok l
    | _ => Err "cannot find rest"
    end;
  sprig_genCA cn days := Ok ("CERT " +:+ cn, "KEY " +:+ cn);
  sprig_genSignedCert cn ips dns days ca := Ok ("CERT " +:+ cn, "KEY " +:+ cn);
  helm_lookup _ _ _ _ := Ok [];
  NestedFieldCopy := nested_lookup;
  SetNestedField m v path :=
    match set_nested m v path with
    | Some m' => Ok m'
    | None => Err "value is not a map"
    end;
  yaml_Unmarshal_object ty s := Ok (mkObject ty emptyMeta (inr s))
|}.

#[export] Instance testRenderLaws : RenderLaws.
Proof.
  split.
  - done.
  - intros m v a b m' Ha. cbn. by rewrite Ha.
  - done.
  - done.
  - intros sep l. cbn. induction l as [|x [|y l] IH]; [done..|]. cbn in *. by rewrite IH.
Qed.

(** Every pointer the templates or the generator rely on is set. *)
Definition sampleValues (stack label : string) : outcome (res error (list (string * value))) :=
  renderValues (mkConfiguration (cfg_meta readyConfig) (sampleSpec stack label)
    (cfg_Status readyConfig)) "CA".

Definition rendered (t : string) (stack label : string) : string :=
  match sampleValues stack label with
  | Done (Ok vals) =>
      match renderTemplate t vals with
      | Done (Ok s) => s
      | Done (Err e) => "error: " +:+ Error e
      | Panicked m => "panic: " +:+ m
      end
  | Done (Err e) => "error: " +:+ Error e
  | Panicked m => "panic: " +:+ m
  end.
