(* ===== verification/ConfigurationFacts.v ===== *)
(** * Theorems on the configuration controller

    Properties of every run of [Reconcile] and of its parts, whatever the API
    server answers: conditions, discovery of the master nodes, application of
    the generated objects, deletion, and the surfacing of errors. *)

From S2P Require Import Prelude GoLib Effects KubeApi ConfigTypes Calls.
From S2P Require Import ConfigurationController.
Local Open Scope kube_scope.

(** ** Conditions *)

Section conditions.
Context `{KL : KubeLib, CL : !ControllerLib, RD : !Renderer}.

(** [c'] has the conditions of [c], with the same values, perhaps more of
    them, and agrees with [c] on everything else. *)
Definition extends_conditions (c c' : Configuration) : Prop :=
  (forall ty, ConditionExists c ty = true ->
     ConditionExists c' ty = true /\ LookupCondition c' ty = LookupCondition c ty) /\
  (conditions_wf c -> conditions_wf c') /\
  with_Conditions c' [] = with_Conditions c [].

#[local] Instance extends_conditions_preorder : PreOrder extends_conditions.
Proof.
  split; [by intros c; repeat split|].
  intros c1 c2 c3 (He1 & Hw1 & Hf1) (He2 & Hw2 & Hf2). split_and!; [|auto|congruence].
  intros ty Hty. destruct (He1 ty Hty) as [Hty2 <-]. auto.
Qed.

Lemma ensureCondition_runs c ty t o :
  runs (ensureCondition c ty) t o ->
  exists c', o = Done c' /\ extends_conditions c c' /\
    condition_types c' = condition_types c ++ (if ConditionExists c ty then [] else [ty]).
Proof.
  unfold ensureCondition. destruct (ConditionExists c ty) eqn:Hex; intros Hr.
  - destruct Hr as [_ ->]. exists c. by rewrite app_nil_r.
  - apply runs_setCondition in Hr as (now & _ & ->).
    eexists. split; [done|]. split; [|by rewrite condition_types_SetCondition, Hex].
    split_and!; eauto with kube.
    intros ty' Hty'. autorewrite with kube. rewrite Hty'.
    rewrite LookupCondition_SetCondition_ne; [done|congruence].
Qed.

(** The types [ensureCondition] adds, one after the other. *)
Definition add_type (l : list string) (ty : string) : list string :=
  l ++ (if bool_decide (ty ∈ l) then [] else [ty]).

Lemma ensure_types c c' ty :
  condition_types c' = condition_types c ++ (if ConditionExists c ty then [] else [ty]) ->
  condition_types c' = add_type (condition_types c) ty.
Proof.
  intros ->. unfold add_type. f_equal. destruct (ConditionExists c ty) eqn:Hex.
  - apply ConditionExists_In in Hex. by rewrite bool_decide_eq_true_2.
  - rewrite bool_decide_eq_false_2; [done|]. rewrite <- ConditionExists_In. congruence.
Qed.

Lemma elem_of_add_type l ty : ty ∈ add_type l ty /\ l ⊆ add_type l ty.
Proof.
  unfold add_type. case_bool_decide; [rewrite app_nil_r|]; set_solver.
Qed.

(** The five baseline condition types, in the order of the code. *)
Definition baselineConditions : list string :=
  [WaitingForMatchignNodesCondition; OVNNBLeaderFound; OVNSBLeaderFound;
   OVNNBDBHealth; OVNSBDBHealth].

(** A condition as [initializeConditions] adds it at the time [now]. *)
Definition unknown_condition (ty : string) (c : Configuration) (now : Time) : Condition :=
  mkCondition ty ConditionUnknownStatus (om_Generation (cfg_meta c)) now
    ReasonConditionUnknown "Unknown".

(** [c'] is [c] with the missing types among [tys] added as Unknown, at times
    the trace [t] read from the clock, and nothing else changed. *)
Record initialized (tys : list string) (c c' : Configuration) (t : trace callE) : Prop := {
  initialized_extends : extends_conditions c c';
  initialized_present ty : ty ∈ tys -> ConditionExists c' ty = true;
  initialized_unknown ty :
    ty ∈ tys -> ConditionExists c ty = false ->
    exists now, In (Obs Now now) t /\ LookupCondition c' ty = unknown_condition ty c now;
  initialized_others ty : ty ∉ tys -> ConditionExists c' ty = ConditionExists c ty
}.

Lemma extends_meta c c' : extends_conditions c c' -> cfg_meta c' = cfg_meta c.
Proof. intros (_ & _ & Hf). by apply (f_equal cfg_meta) in Hf. Qed.

Lemma initialized_nil c : initialized [] c c [].
Proof. split; try done; intros ty Hty; by apply not_elem_of_nil in Hty. Qed.

Lemma initialized_app tys1 tys2 c c1 c2 t1 t2 :
  initialized tys1 c c1 t1 -> initialized tys2 c1 c2 t2 ->
  initialized (tys1 ++ tys2) c c2 (t1 ++ t2).
Proof.
  intros [E1 P1 U1 O1] [E2 P2 U2 O2]. pose proof (extends_meta _ _ E1) as Hm.
  destruct E2 as (H2 & HE2) eqn:HE. clear HE. split.
  - transitivity c1; [done|by split].
  - intros ty [Hty|Hty]%elem_of_app; [|by apply P2]. by apply H2, P1.
  - intros ty Hty Hex. destruct (decide (ty ∈ tys1)) as [Hin|Hin].
    + destruct (U1 ty Hin Hex) as (now & Hnow & Hl). exists now. rewrite in_app_iff.
      split; [by left|]. by rewrite (proj2 (H2 ty (P1 ty Hin))).
    + rewrite <- (O1 ty Hin) in Hex. apply elem_of_app in Hty as [?|Hty]; [done|].
      destruct (U2 ty Hty Hex) as (now & Hnow & Hl). exists now. rewrite in_app_iff.
      split; [by right|]. unfold unknown_condition in *. by rewrite <- Hm.
  - intros ty [Hn1 Hn2]%not_elem_of_app. by rewrite O2, O1.
Qed.

Lemma ensureCondition_initialized c ty t c' :
  runs (ensureCondition c ty) t (Done c') -> initialized [ty] c c' t.
Proof.
  intros Hr. pose proof Hr as (x & [= <-] & He & _)%ensureCondition_runs.
  unfold ensureCondition in Hr. destruct (ConditionExists c ty) eqn:Hex.
  - destruct Hr as [-> [= ->]]. split; try done; intros ty' ->%list_elem_of_singleton; congruence.
  - apply runs_setCondition in Hr as (now & -> & [= ->]). split; [done|..].
    + intros ty' ->%list_elem_of_singleton. autorewrite with kube.
      by rewrite bool_decide_eq_true_2, orb_true_r.
    + intros ty' ->%list_elem_of_singleton _. exists now. split; [by left|].
      by rewrite LookupCondition_SetCondition.
    + intros ty' Hty'%not_elem_of_cons. autorewrite with kube.
      rewrite bool_decide_eq_false_2 by tauto. by rewrite orb_false_r.
Qed.

Lemma initializeConditions_runs c t o :
  runs (initializeConditions c) t o ->
  exists c', o = Done (c', None) /\ initialized baselineConditions c c' t /\
    condition_types c' = fold_left add_type baselineConditions (condition_types c).
Proof.
  unfold initializeConditions. intros Hr. inv_runs;
    repeat match goal with
      | H : runs (ensureCondition _ _) _ (Done _) |- _ =>
          let Hi := fresh "Hi" in pose proof (ensureCondition_initialized _ _ _ _ H) as Hi;
          apply ensureCondition_runs in H as (? & [=] & _ & ?%ensure_types); subst
      | H : runs (ensureCondition _ _) _ (Panicked _) |- _ =>
          by apply ensureCondition_runs in H as (? & [=] & _)
      end.
  eexists. split; [done|]. split; [|cbn; congruence].
  repeat (eapply (initialized_app [_]); [eassumption|]). apply initialized_nil.
Qed.

(** C13: [initializeConditions] always succeeds. It adds the missing baseline
    types, in the order of the code, each as a condition with status Unknown,
    reason ConditionUnknown, message "Unknown", the generation of the object and
    a time this run read from the clock. Conditions that were there keep their
    value, no other type appears, one condition per type stays one condition per
    type, and the rest of the object is as it was. *)
Theorem initializeConditions_spec c t o :
  runs (initializeConditions c) t o ->
  exists c', o = Done (c', None) /\ extends_conditions c c' /\
    condition_types c' = fold_left add_type baselineConditions (condition_types c) /\
    (forall ty, ty ∈ baselineConditions -> ConditionExists c' ty = true) /\
    (forall ty, ty ∈ baselineConditions -> ConditionExists c ty = false ->
       exists now, In (Obs Now now) t /\ LookupCondition c' ty = unknown_condition ty c now) /\
    (forall ty, ty ∉ baselineConditions -> ConditionExists c' ty = ConditionExists c ty).
Proof.
  intros (c' & -> & [He Hp Hu Ho] & Ht)%initializeConditions_runs. by exists c'.
Qed.

End conditions.

(** ** Discovery of the master nodes *)

Section master_nodes.
Context `{KL : KubeLib, CL : !ControllerLib, RD : !Renderer}.

(** The addresses the listed nodes contribute. *)
Definition usable (items : list Node) : list string :=
  List.filter nonEmpty (map nodeInternalIP items).

(** What the step makes of a listing, as a function of the clock. *)
Definition discovery (now : Time) (c : Configuration) (items : list Node) : Configuration :=
  let W := WaitingForMatchignNodesCondition in
  let old := st_MatchingNodeAddresses (cfg_Status c) in
  if decide (usable items = [] /\ IsConditionTrue c W = false) then
    SetCondition now c W ConditionTrue "Waiting for matching nodes" NodesNotFoundReason
  else if decide (slices_Sort (usable items) = slices_Sort old) then
    with_MatchingNodeAddresses c (slices_Sort old)
  else
    with_MatchingNodeAddresses
      (SetCondition now c W ConditionFalse
         ("found nodes " +:+ strings_Join (slices_Sort (usable items)) ",") NodesFoundReason)
      (slices_Sort (usable items)).

(** The successful node listings in a trace. *)
Definition node_listing (o : obs callE) : option (list Node) :=
  match o with
  | Obs e r =>
      match e in callE X return X -> option (list Node) with
      | ListNodes _ => fun r => match r with Ok items => Some items | Err _ => None end
      | _ => fun _ => None
      end r
  end.
Definition node_listings (t : trace callE) : list (list Node) := omap node_listing t.

Definition is_ListNodes {X} (e : callE X) : bool :=
  match e with ListNodes _ => true | _ => false end.

Lemma node_listings_none t : none_of (@is_ListNodes) t -> node_listings t = [].
Proof.
  induction 1 as [|[X e x] t He Ht IH]; [done|]. unfold node_listings in *. cbn.
  by destruct e.
Qed.

(** A successful [findMasterNodes] lists the nodes once, with the selector of
    the label of the spec, and makes of the answer what [discovery] says. *)
Lemma findMasterNodes_runs c t c' :
  runs (findMasterNodes c) t (Done (c', None)) ->
  exists now set items t',
    ConvertSelectorToLabelsMap (spec_MasterNodesLabel (cfg_Spec c)) = Ok set /\
    t = Obs (ListNodes (MatchingLabels set)) (Ok items) :: t' /\
    none_of (@is_ListNodes) t' /\ c' = discovery now c items.
Proof.
  unfold findMasterNodes. destruct (ConvertSelectorToLabelsMap _) as [e|set];
    [by intros [_ [=]]|].
  intros Hr. inv_runs_step. destruct r as [e|items]; [by destruct Hr as [_ [=]]|].
  fold (usable items) in Hr. unfold discovery.
  destruct (decide (usable items = [] /\ IsConditionTrue c WaitingForMatchignNodesCondition = false))
    as [[Hu Hc]|Hn].
  - rewrite Hu, Hc, bool_decide_eq_true_2 in Hr by done. cbn [andb negb] in Hr. inv_runs.
    apply runs_setCondition in Hr0 as (now & -> & [= ->]).
    eexists now, set, items, _. rewrite decide_True by done.
    split; [done|]. split; [reflexivity|]. by repeat constructor.
  - replace (bool_decide (usable items = []) && _) with false in Hr.
    2: { symmetry. apply andb_false_iff. rewrite bool_decide_eq_false, negb_false_iff.
         destruct (decide (usable items = [])), (IsConditionTrue c _); naive_solver. }
    cbn [andb] in Hr. unfold addressArrayEqual, slices_Equal in Hr. cbv beta iota zeta in Hr.
    case_bool_decide as Heq.
    + inv_runs. eexists zeroTime, set, items, _. rewrite decide_False, decide_True by done.
      split; [done|]. split; [reflexivity|]. by repeat constructor.
    + inv_runs. apply runs_setCondition in Hr0 as (now & -> & [= ->]).
      eexists now, set, items, _. rewrite !decide_False by done.
      split; [done|]. split; [reflexivity|]. by repeat constructor.
Qed.

Lemma findMasterNodes_inv c t c' :
  runs (findMasterNodes c) t (Done (c', None)) ->
  exists now items, node_listings t = [items] /\ c' = discovery now c items.
Proof.
  intros (now & set & items & t' & _ & -> & Hn%node_listings_none & ->)%findMasterNodes_runs.
  exists now, items. split; [|done]. unfold node_listings in *. cbn. by rewrite Hn.
Qed.

Lemma usable_Permutation items items' : items ≡ₚ items' -> usable items ≡ₚ usable items'.
Proof.
  intros Hp. unfold usable.
  assert (Hm : map nodeInternalIP items ≡ₚ map nodeInternalIP items') by by rewrite Hp.
  revert Hm. generalize (map nodeInternalIP items), (map nodeInternalIP items').
  induction 1; cbn; repeat case_match; eauto using Permutation.
Qed.

(** C12: what a successful [findMasterNodes] establishes. It lists the nodes
    once, with the labels parsed from the [masterNodesLabel] of the spec. When a
    node of the answer has an internal address, the status holds exactly the
    non-empty internal addresses of those nodes, sorted; the waiting condition
    is set to False, with reason NodesFound, exactly when the addresses differ
    (as a multiset) from the recorded ones, and all conditions are unchanged
    otherwise. The order in which the server lists the nodes does not matter. *)
Theorem findMasterNodes_found c t c' :
  runs (findMasterNodes c) t (Done (c', None)) ->
  exists set items t',
    ConvertSelectorToLabelsMap (spec_MasterNodesLabel (cfg_Spec c)) = Ok set /\
    t = Obs (ListNodes (MatchingLabels set)) (Ok items) :: t' /\ none_of (@is_ListNodes) t' /\
    (usable items <> [] ->
     st_MatchingNodeAddresses (cfg_Status c') = slices_Sort (usable items) /\
     (usable items ≡ₚ st_MatchingNodeAddresses (cfg_Status c) ->
        st_Conditions (cfg_Status c') = st_Conditions (cfg_Status c)) /\
     (~ usable items ≡ₚ st_MatchingNodeAddresses (cfg_Status c) ->
        IsConditionFalse c' WaitingForMatchignNodesCondition = true /\
        c_Reason (LookupCondition c' WaitingForMatchignNodesCondition) = NodesFoundReason) /\
     (forall items', items' ≡ₚ items -> exists now, c' = discovery now c items')).
Proof.
  intros (now & set & items & t' & Hset & -> & Hn & ->)%findMasterNodes_runs.
  exists set, items, t'. split; [done|]. split; [done|]. split; [done|]. intros Hu.
  assert (Hd : forall its, usable its ≡ₚ usable items -> discovery now c its =
    discovery now c items).
  { intros its Hp. unfold discovery.
    rewrite (proj2 (slices_Sort_eq _ _) Hp).
    rewrite !(decide_False (P := _ /\ _)); [done|naive_solver|].
    intros [He _]. rewrite He in Hp. apply Permutation_nil_l in Hp. done. }
  split_and!.
  4: { intros items' Hp. exists now. symmetry. apply Hd. by apply usable_Permutation. }
  all: unfold discovery; rewrite decide_False by naive_solver.
  - destruct (decide _) as [Hs|Hs]; [cbn; congruence|done].
  - intros Hp. rewrite decide_True; [done|]. by apply slices_Sort_eq.
  - intros Hp. rewrite decide_False by by rewrite slices_Sort_eq.
    unfold IsConditionFalse.
    change (LookupCondition (with_MatchingNodeAddresses ?a _)) with (LookupCondition a).
    by rewrite LookupCondition_SetCondition.
Qed.

Lemma discovery_none now c items :
  usable items = [] ->
  discovery now c items =
  let W := WaitingForMatchignNodesCondition in
  if IsConditionTrue c W then
    if decide (st_MatchingNodeAddresses (cfg_Status c) = []) then
      with_MatchingNodeAddresses c []
    else with_MatchingNodeAddresses
      (SetCondition now c W ConditionFalse "found nodes " NodesFoundReason) []
  else SetCondition now c W ConditionTrue "Waiting for matching nodes" NodesNotFoundReason.
Proof.
  intros Hu. unfold discovery. rewrite Hu. cbn.
  destruct (IsConditionTrue c _) eqn:Hc.
  - rewrite decide_False by (intros [_ [=]]).
    destruct (decide (st_MatchingNodeAddresses (cfg_Status c) = [])) as [->|Hne].
    + by rewrite decide_True.
    + rewrite decide_False; [done|]. intros Hs. apply Hne.
      change (slices_Sort []) with (@nil string) in Hs.
      apply Permutation_nil_r. rewrite Hs. symmetry. apply slices_Sort_Permutation.
  - by rewrite decide_True.
Qed.

End master_nodes.

(** ** Applying the generated objects *)

Section apply.
Context `{KL : KubeLib, CL : !ControllerLib, RD : !Renderer, RL : !RendererLaws}.
Context (r : ConfigurationReconciler).

(** The object sent to the API server for a generated object. *)
Definition prepared (owner : Owner) (obj : Object) : list Object :=
  match SetControllerReference owner obj with
  | Ok obj => match ToUnstructured obj with Ok u => [u] | Err _ => [] end
  | Err _ => []
  end.

(** The objects one entry of the object list stands for. *)
Definition desired_type (config : Configuration) (ns : Namespace) (caCert : string)
    (entry : objectType * list string) : list Object :=
  let '(ty, templates) := entry in
  match IsObjectNamespaced ty, GenerateObjects templates config ty (cr_Version r) caCert with
  | Ok namespaced, Done (Ok objs) =>
      flat_map (prepared (ownerFor namespaced (with_Tag config (cr_Version r)) ns)) objs
  | _, _ => []
  end.
Definition desired config ns caCert (order : list (objectType * list string)) : list Object :=
  flat_map (desired_type config ns caCert) order.

Lemma desired_type_with_Tag c ns ca e :
  desired_type (with_Tag c (cr_Version r)) ns ca e = desired_type c ns ca e.
Proof.
  destruct e as [ty l]. unfold desired_type. by rewrite GenerateObjects_with_Tag, with_Tag_idemp.
Qed.

Lemma applyOne_ok owner obj t :
  runs (applyOne owner obj) t (Done None) -> applied t = prepared owner obj.
Proof.
  unfold applyOne, prepared, reconcileObject.
  destruct (SetControllerReference owner obj) as [e|obj1]; [by intros [_ [=]]|].
  destruct (ToUnstructured obj1) as [e|u]; cbn [bind]; intros Hr; inv_runs; [done|].
  by destruct r0; inv_runs.
Qed.

Lemma applyType_ok ns ca e c t c' :
  runs (applyType r ns ca e c) t (Done (c', None)) ->
  c' = with_Tag c (cr_Version r) /\ applied t = desired_type c ns ca e.
Proof.
  destruct e as [ty l]. unfold applyType, desired_type.
  destruct (IsObjectNamespaced ty) as [err|nsd]; [by intros [_ [=]]|].
  destruct (GenerateObjects _ _ _ _ _) as [[err|objs]|m]; [by intros [_ [=]]| |by intros [_ [=]]].
  intros Hr. apply runs_bind in Hr as [(a & t1 & t2 & -> & H1 & H2)|(m & _ & [=])].
  destruct H2 as [-> [= -> <-]]. rewrite app_nil_r. split; [done|].
  exact (runs_for_each_omap _ _ _ _ _ (fun x t _ => applyOne_ok _ x t) H1).
Qed.

Lemma applyTypes_ok ns ca order c t c' :
  runs (fold_each order (applyType r ns ca) c) t (Done (c', None)) ->
  with_Tag c' (cr_Version r) = with_Tag c (cr_Version r) /\ applied t = desired c ns ca order.
Proof.
  revert c t. induction order as [|e order IH]; intros c t Hr;
    apply runs_fold_each_ok in Hr.
  - by destruct Hr as [-> ->].
  - destruct Hr as (c1 & t1 & t2 & -> & H1 & H2).
    apply applyType_ok in H1 as [-> Ha]. apply IH in H2 as [-> Ha2].
    split; [done|]. unfold applied, desired in *. rewrite omap_app, Ha, Ha2. cbn. f_equal.
    apply flat_map_ext. intros e'. apply desired_type_with_Tag.
Qed.

(** The gates of [applyObject] and the reads that precede the loop. *)
Lemma applyObject_inv order c t c' :
  runs (applyObject r order c) t (Done (c', None)) ->
  st_MatchingNodeAddresses (cfg_Status c) <> [] ->
  st_Status (cfg_Status c) <> ConfigurationStatusDeploying ->
  exists ns secret ca t1 c1,
    t = Obs (GetNamespace KubeOVNFakeNamespace) (Ok ns) ::
        Obs (GetSecret (mkNamespacedName (cr_Namespace r) KubeOVNOperatorWebhookCertSecret))
          (Ok secret) :: t1 /\
    secret_Data secret !! "ca.crt" = Some ca /\
    runs (fold_each order (applyType r ns ca) c) t1 (Done (c1, None)) /\
    c' = with_StatusStatus c1 ConfigurationStatusDeployed.
Proof.
  unfold applyObject. intros Hr Ha Hs.
  rewrite !bool_decide_eq_false_2 in Hr by done.
  inv_runs_step. destruct r0 as [e|ns]; [by inv_runs|].
  inv_runs_step. destruct r0 as [e|secret]; [by inv_runs|].
  destruct (secret_Data secret !! "ca.crt") as [ca|] eqn:Hca; [|by inv_runs].
  apply runs_bind in Hr as [([c1 [err|]] & t1 & t2 & -> & H1 & H2)|(m & _ & [=])];
    [by inv_runs|].
  destruct H2 as [-> [= ->]]. rewrite app_nil_r. eauto 10.
Qed.

(** C5: a successful application is complete. When [applyObject] passes its
    two gates and returns no error, it read the owner namespace and the CA
    certificate of the webhook secret, it applied to the API server exactly
    the objects generated from every entry of the object list it ranged over,
    each with its owner reference set, in that order, and it recorded the
    status Deployed; besides that it changed nothing but the image tag. *)
Theorem applyObject_complete order c t c' :
  runs (applyObject r order c) t (Done (c', None)) ->
  st_MatchingNodeAddresses (cfg_Status c) <> [] ->
  st_Status (cfg_Status c) <> ConfigurationStatusDeploying ->
  exists ns secret caCert rest,
    t = Obs (GetNamespace KubeOVNFakeNamespace) (Ok ns) ::
        Obs (GetSecret (mkNamespacedName (cr_Namespace r) KubeOVNOperatorWebhookCertSecret))
          (Ok secret) :: rest /\
    secret_Data secret !! "ca.crt" = Some caCert /\
    applied t = desired c ns caCert order /\
    with_Tag c' (cr_Version r) =
      with_StatusStatus (with_Tag c (cr_Version r)) ConfigurationStatusDeployed.
Proof.
  intros Hr Ha Hs.
  destruct (applyObject_inv _ _ _ _ Hr Ha Hs) as (ns & secret & ca & t1 & c1 & -> & Hca & H1 & ->).
  apply applyTypes_ok in H1 as [Ht H1]. exists ns, secret, ca, t1. split_and!; try done.
  change (with_StatusStatus (with_Tag c1 (cr_Version r)) ConfigurationStatusDeployed =
    with_StatusStatus (with_Tag c (cr_Version r)) ConfigurationStatusDeployed).
  by rewrite Ht.
Qed.

(** What a trace read: the owner namespaces and the secrets, in order. *)
Definition namespace_read (o : obs callE) : option Namespace :=
  match o with
  | Obs e r =>
      match e in callE X return X -> option Namespace with
      | GetNamespace _ => fun r => match r with Ok ns => Some ns | Err _ => None end
      | _ => fun _ => None
      end r
  end.
Definition secret_read (o : obs callE) : option Secret :=
  match o with
  | Obs e r =>
      match e in callE X return X -> option Secret with
      | GetSecret _ => fun r => match r with Ok s => Some s | Err _ => None end
      | _ => fun _ => None
      end r
  end.
Definition reads (t : trace callE) : list Namespace * list Secret :=
  (omap namespace_read (take 2 t), omap secret_read (take 2 t)).

(** C17: the iteration order of the object map is irrelevant to what is
    applied. Go's [range] over the map [OrderedObjectList] may enumerate it in
    any order; two successful applications of the same configuration that use
    permuted orders, and that read the same owner namespace and secret, apply
    the same objects, each the same number of times, and end with the same
    status. *)
Theorem applyObject_order_irrelevant order1 order2 c t1 c1 t2 c2 :
  order1 ≡ₚ order2 ->
  st_MatchingNodeAddresses (cfg_Status c) <> [] ->
  st_Status (cfg_Status c) <> ConfigurationStatusDeploying ->
  runs (applyObject r order1 c) t1 (Done (c1, None)) ->
  runs (applyObject r order2 c) t2 (Done (c2, None)) ->
  reads t1 = reads t2 ->
  applied t1 ≡ₚ applied t2 /\ cfg_Status c1 = cfg_Status c2.
Proof.
  intros Hp Ha Hs Hr1 Hr2 Hreads.
  destruct (applyObject_inv _ _ _ _ Hr1 Ha Hs) as (n1 & s1 & ca1 & u1 & d1 & -> & Hc1 & H1 & ->).
  destruct (applyObject_inv _ _ _ _ Hr2 Ha Hs) as (n2 & s2 & ca2 & u2 & d2 & -> & Hc2 & H2 & ->).
  apply applyTypes_ok in H1 as [Ht1 H1], H2 as [Ht2 H2].
  unfold reads in Hreads. cbn in Hreads. injection Hreads as <- <-.
  assert (ca2 = ca1) as -> by congruence.
  split.
  - change (applied u1 ≡ₚ applied u2). rewrite H1, H2. unfold desired. by rewrite Hp.
  - rewrite <- Ht2 in Ht1. apply (f_equal cfg_Status) in Ht1. cbn in *. by rewrite Ht1.
Qed.

End apply.
