(* ===== verification/DeletionFacts.v ===== *)
(** * Theorems on the deletion of a Configuration

    [deleteClusterScopedReference]: custom resources are listed and deleted
    first; the owner namespace, the finalizer of the Configuration and the
    finalizers of the nodes are touched only once every listing was empty. *)

From S2P Require Import Prelude GoLib Effects KubeApi ConfigTypes Calls.
From S2P Require Import ConfigurationController.
Local Open Scope kube_scope.

Section deletion.
Context `{KL : KubeLib, CL : !ControllerLib, RD : !Renderer}.
Context (r : ConfigurationReconciler).

(** The calls that let the Configuration, or what depends on it, go. *)
Definition is_final {X} (e : callE X) : bool :=
  match e with
  | DeleteNamespace _ | PatchConfiguration _ _ | PatchNode _ _ => true
  | _ => false
  end.

(** A listing of custom resources that found none. *)
Definition empty_listing (o : obs callE) : Prop :=
  match o with
  | Obs e r =>
      match e in callE X return X -> Prop with
      | DynList _ => fun r =>
          match r with Ok items => items = [] | Err err => IsNotFound err = true end
      | _ => fun _ => True
      end r
  end.

(** The resources the deletion path has to look at, in its order. *)
Definition version_resource (crd : CRDSpec) (version : string) : resourceInterface :=
  mkResourceInterface (mkGVR (crd_Group crd) version (crd_Plural crd))
    (if bool_decide (crd_Scope crd = NamespaceScoped) then Some "" else None).

Definition crd_resources (obj : Object) : list resourceInterface :=
  match obj_body obj with
  | inr _ => []
  | inl crd => map (version_resource crd) (crd_Versions crd)
  end.

(** ** The cleanup loops *)

Lemma deleteResource_quiet ri v :
  only (fun X e => is_final e = false) (deleteResource ri v).
Proof. unfold deleteResource. solve_only. Qed.

Lemma deleteResource_listed ri v t :
  runs (deleteResource ri v) t (Done None) -> omap listed_resource t = [].
Proof.
  unfold deleteResource. destruct (un_DeletionTimestamp v); intros Hr; inv_runs; [done|].
  by destruct r0; inv_runs.
Qed.

Lemma cleanupVersion_quiet name crd v :
  only (fun X e => is_final e = false) (cleanupVersion name crd v).
Proof. unfold cleanupVersion. solve_only. apply deleteResource_quiet. Qed.

Lemma cleanupVersion_ok name crd v t n :
  runs (cleanupVersion name crd v) t (Done (Ok n)) ->
  listed t = [version_resource crd v] /\
  (n = 0 -> Forall empty_listing t).
Proof.
  unfold cleanupVersion. intros Hr.
  set (ri := if bool_decide _ then _ else _) in Hr.
  replace (version_resource crd v) with ri
    by (subst ri; unfold version_resource; by case_bool_decide).
  inv_runs_step. destruct r0 as [err|items].
  - destruct (IsNotFound err) eqn:Hnf; inv_runs; [|done]. split; [done|].
    intros _. by constructor.
  - inv_runs. destruct a as [err|]; inv_runs; [done|].
    rewrite app_nil_r. split.
    + unfold listed. cbn. f_equal.
      rewrite (runs_for_each_omap _ (fun _ => []) _ _ _ (fun x t _ => deleteResource_listed ri x t) Hr0).
      clear. induction items; done.
    + destruct items; [|done]. destruct Hr0 as [-> _]. intros _. by constructor.
Qed.

(** A counting loop that ends without an error went through every element. *)
Lemma count_each_ok {A} (P : obs callE -> Prop) (h : A -> list resourceInterface)
    (f : A -> op (res error nat)) l n0 t n :
  (forall x t n, runs (f x) t (Done (Ok n)) -> listed t = h x /\ (n = 0 -> Forall P t)) ->
  runs (count_each l f n0) t (Done (Ok n)) ->
  n0 <= n /\ listed t = flat_map h l /\ (n = n0 -> Forall P t).
Proof.
  intros Hf. revert n0 t. induction l as [|x l IH]; intros n0 t Hr; cbn in Hr.
  - destruct Hr as [-> [= ->]]. done.
  - apply runs_bind in Hr as [(m & t1 & t2 & -> & H1 & H2)|(m & _ & [=])].
    destruct m as [err|m]; [by destruct H2 as [_ [=]]|].
    apply Hf in H1 as [Hl1 HP1]. apply IH in H2 as (Hle & Hl2 & HP2).
    unfold listed in *. rewrite omap_app, Hl1, Hl2. split; [lia|]. split; [done|].
    intros ->. apply Forall_app. split; [apply HP1|apply HP2]; lia.
Qed.

Lemma only_count_each {A} (P : forall X, callE X -> Prop) (f : A -> op (res error nat)) l n0 :
  (forall x, only P (f x)) -> only P (count_each l f n0).
Proof.
  intros Hf. revert n0. induction l as [|x l IH]; intros n0; cbn; [done|].
  apply only_bind; [done|]. intros [err|m]; [done|apply IH].
Qed.

Lemma cleanupCRD_ok obj t n :
  runs (cleanupCRD obj) t (Done (Ok n)) ->
  listed t = crd_resources obj /\ (n = 0 -> Forall empty_listing t).
Proof.
  unfold cleanupCRD, crd_resources. destruct (obj_body obj) as [crd|].
  - intros Hr. eapply (count_each_ok empty_listing (fun v => [version_resource crd v])) in Hr as (_ & -> & HP).
    + split; [|done]. clear. by induction (crd_Versions crd) as [|v l IH]; cbn; [|rewrite IH].
    + intros v t' n' H'. by apply cleanupVersion_ok in H'.
  - intros [-> _]. done.
Qed.

Lemma ensureCRDObjectCleanup_quiet objs :
  only (fun X e => is_final e = false) (ensureCRDObjectCleanup objs).
Proof.
  unfold ensureCRDObjectCleanup. solve_only.
  apply only_count_each. intros obj. unfold cleanupCRD. destruct (obj_body obj); [|done].
  apply only_count_each, cleanupVersion_quiet.
Qed.

Lemma ensureCRDObjectCleanup_ok objs t :
  runs (ensureCRDObjectCleanup objs) t (Done None) ->
  listed t = flat_map crd_resources objs /\ Forall empty_listing t.
Proof.
  unfold ensureCRDObjectCleanup. intros Hr. inv_runs_step. destruct r0; inv_runs; [done|].
  destruct a as [err|n]; [by inv_runs|].
  apply (count_each_ok empty_listing crd_resources) in Hr0 as (_ & Hl & HP);
    [|apply cleanupCRD_ok].
  destruct (Nat.ltb_spec 0 n); inv_runs; [done|]. rewrite app_nil_r.
  split; [done|]. constructor; [done|]. apply HP. lia.
Qed.

(** ** The rest of the deletion path *)

Lemma releaseNode_ok node t :
  runs (releaseNode node) t (Done None) ->
  patched_nodes t =
    if ContainsFinalizer (om_Finalizers (node_meta node)) KubeOVNNodeFinalizer
    then [(node, node_set_Finalizers node
             (RemoveFinalizer (om_Finalizers (node_meta node)) KubeOVNNodeFinalizer))]
    else [].
Proof.
  unfold releaseNode. destruct (ContainsFinalizer _ _); intros Hr; inv_runs; [|done].
  by destruct r0; inv_runs.
Qed.

Lemma deleteFakeNamespace_no_nodes :
  only (fun X e => is_PatchNode e = false) deleteFakeNamespace.
Proof. unfold deleteFakeNamespace. solve_only. Qed.

(** The run after the custom resources are gone. *)
Definition release (config : Configuration) : op (option error) :=
  err <- deleteFakeNamespace ;;
  match err with
  | Some err => Ret (Some err)
  | None =>
      if ContainsFinalizer (om_Finalizers (cfg_meta config)) KubeOVNConfigurationFinalizer
      then
        call (PatchConfiguration config (with_Finalizers config
          (RemoveFinalizer (om_Finalizers (cfg_meta config)) KubeOVNConfigurationFinalizer)))
      else
        nodeList <- call (ListNodes Everything) ;;
        match nodeList with
        | Err err =>
            Ret (Some (Errorf_v "error fetching node list during configuration deletion: " err))
        | Ok items => for_each items releaseNode
        end
  end.

Lemma release_no_listing config t o : runs (release config) t o ->
  Forall empty_listing t /\ listed t = [].
Proof.
  intros Hr.
  assert (Hq : Forall (obs_of (fun X e => match e with DynList _ => False | _ => True end)) t).
  { eapply only_runs; [|exact Hr]. unfold release, deleteFakeNamespace, releaseNode. solve_only. }
  clear Hr. induction Hq as [|[X e x] t He _ [IH1 IH2]]; [done|].
  split; [constructor; [by destruct e|done]|]. unfold listed in *. cbn. rewrite IH2.
  by destruct e.
Qed.

Lemma deleteClusterScopedReference_inv config t o :
  runs (deleteClusterScopedReference r config) t o ->
  (none_of (@is_final) t /\ o <> Done None) \/
  exists crdObjs t1 t2,
    GenerateObjects CRDList config TCustomResourceDefinition (cr_Version r) "" =
      Done (Ok crdObjs) /\
    t = t1 ++ t2 /\ none_of (@is_final) t1 /\
    listed t1 = flat_map crd_resources crdObjs /\ Forall empty_listing t1 /\
    runs (release (with_Tag config (cr_Version r))) t2 o.
Proof.
  unfold deleteClusterScopedReference.
  destruct (GenerateObjects _ _ _ _ _) as [[err|crdObjs]|m].
  - intros [-> ->]. left. auto with kube.
  - intros Hr. apply runs_bind in Hr as [(e & t1 & t2 & -> & H1 & H2)|(m & H1 & ->)].
    + pose proof (only_none_of (@is_final) _ _ _ (ensureCRDObjectCleanup_quiet _) H1) as Hn.
      destruct e as [err|].
      * destruct H2 as [-> ->]. left. by rewrite app_nil_r.
      * right. apply ensureCRDObjectCleanup_ok in H1 as [Hl He].
        exists crdObjs, t1, t2. done.
    + left. split; [|done].
      by apply (only_none_of (@is_final) _ _ _ (ensureCRDObjectCleanup_quiet _) H1).
  - intros [-> ->]. left. auto with kube.
Qed.

(** C6: the custom resources go first. In every run of the deletion path that
    deletes the owner namespace, patches the Configuration or patches a node,
    and in every run that succeeds, the operator rendered the CRDs, listed the
    custom resources of every version of every CRD, in order, and every one of
    these listings was empty or answered NotFound. *)
Theorem deletion_waits_for_custom_resources config t o :
  runs (deleteClusterScopedReference r config) t o ->
  some_of (@is_final) t \/ o = Done None ->
  exists crdObjs,
    GenerateObjects CRDList config TCustomResourceDefinition (cr_Version r) "" =
      Done (Ok crdObjs) /\
    listed t = flat_map crd_resources crdObjs /\ Forall empty_listing t.
Proof.
  intros [[Hn Ho]|(crdObjs & t1 & t2 & Hg & -> & _ & Hl & He & H2)]%deleteClusterScopedReference_inv Hf.
  - destruct Hf as [Hf|Hf]; [by destruct (none_of_some_of _ _ Hn Hf)|done].
  - apply release_no_listing in H2 as [He2 Hl2]. exists crdObjs. split; [done|].
    unfold listed in *. rewrite omap_app, Hl, Hl2, app_nil_r, Forall_app. done.
Qed.

(** C30: releasing the Configuration. When the Configuration still carries the
    operator's finalizer, a successful run of the deletion path ends with the
    patch that removes it (and only it) from the object, and that run patches
    no node: the loop that should remove the node finalizers is not reached on
    this path. *)
Theorem deletion_with_finalizer_skips_nodes config t :
  runs (deleteClusterScopedReference r config) t (Done None) ->
  ContainsFinalizer (om_Finalizers (cfg_meta config)) KubeOVNConfigurationFinalizer = true ->
  let c := with_Tag config (cr_Version r) in
  (exists t0, t = t0 ++ [Obs (PatchConfiguration c (with_Finalizers c
     (RemoveFinalizer (om_Finalizers (cfg_meta c)) KubeOVNConfigurationFinalizer))) None]) /\
  none_of (@is_PatchNode _) t.
Proof.
  intros [[_ Hne]|(crdObjs & t1 & t2 & _ & -> & Hn1 & _ & _ & H2)]%deleteClusterScopedReference_inv Hf;
    [done|]. unfold release in H2.
  apply runs_bind in H2 as [(a & t0 & t3 & -> & Hr & H2)|(m & _ & [=])].
  destruct a as [err|]; [by inv_runs|].
  change (om_Finalizers (cfg_meta (with_Tag config (cr_Version r)))) with
    (om_Finalizers (cfg_meta config)) in *. rewrite Hf in H2. inv_runs.
  split; [exists (t1 ++ t0); by rewrite (assoc_L (++))|].
  rewrite !none_of_app. split; [|split].
  - eapply Forall_impl; [exact Hn1|]. by intros [? []].
  - eapply only_none_of; [apply deleteFakeNamespace_no_nodes|done].
  - by repeat constructor.
Qed.

(** C29: releasing the nodes. Once the Configuration no longer carries the
    operator's finalizer, a successful run lists all nodes and patches exactly
    those that carry the node finalizer, in order, removing that finalizer and
    nothing else. *)
Theorem deletion_without_finalizer_releases_nodes config t :
  runs (deleteClusterScopedReference r config) t (Done None) ->
  ContainsFinalizer (om_Finalizers (cfg_meta config)) KubeOVNConfigurationFinalizer = false ->
  exists t1 items t2,
    t = t1 ++ Obs (ListNodes Everything) (Ok items) :: t2 /\
    patched_nodes t =
      map (fun n => (n, node_set_Finalizers n
             (RemoveFinalizer (om_Finalizers (node_meta n)) KubeOVNNodeFinalizer)))
        (List.filter (fun n => ContainsFinalizer (om_Finalizers (node_meta n)) KubeOVNNodeFinalizer)
           items).
Proof.
  intros [[_ Hne]|(crdObjs & t1 & t2 & _ & -> & Hn1 & _ & _ & H2)]%deleteClusterScopedReference_inv Hf;
    [done|]. unfold release in H2.
  apply runs_bind in H2 as [(a & t0 & t3 & -> & Hr & H2)|(m & _ & [=])].
  destruct a as [err|]; [by inv_runs|].
  change (om_Finalizers (cfg_meta (with_Tag config (cr_Version r)))) with
    (om_Finalizers (cfg_meta config)) in *. rewrite Hf in H2.
  inv_runs_step. destruct r0 as [err|items]; [by inv_runs|].
  exists (t1 ++ t0), items, t. split; [by rewrite (assoc_L (++))|].
  assert (Hz : forall t', none_of (@is_PatchNode _) t' -> patched_nodes t' = []).
  { intros t'. induction 1 as [|[X e x] t' He _ IH]; [done|]. unfold patched_nodes in *.
    cbn. rewrite IH. by destruct e. }
  pose proof (only_none_of (@is_PatchNode _) _ _ _ deleteFakeNamespace_no_nodes Hr) as Hn0.
  assert (Hn1' : none_of (@is_PatchNode _) t1)
    by (eapply Forall_impl; [exact Hn1|]; by intros [? []]).
  apply Hz in Hn0, Hn1'. unfold patched_nodes in *. rewrite !omap_app, Hn0, Hn1'. cbn.
  rewrite (runs_for_each_omap _ _ _ _ _ (fun x t _ => releaseNode_ok x t) H2).
  clear. induction items as [|n items IH]; cbn; [done|].
  destruct (ContainsFinalizer _ _); cbn; congruence.
Qed.

End deletion.
