(* ===== verification/ReconcileFacts.v ===== *)
(** * Theorems on the reconcile loop of the Configuration

    [Reconcile] as a whole: the finalizer comes before any other write, objects
    are applied only for a Configuration that may be deployed, a failed write
    is always reported, and the status patch carries a real status change. *)

From S2P Require Import Prelude GoLib Effects KubeApi ConfigTypes Calls.
From S2P Require Import ConfigurationController ConfigurationFacts DeletionFacts.
Local Open Scope kube_scope.

Section reconcile.
Context `{KL : KubeLib, CL : !ControllerLib, RD : !Renderer}.
Context (r : ConfigurationReconciler).

(** ** The answers of the loop's parts *)

Lemma ensureCondition_reads c ty :
  only (fun X e => is_write e = false) (ensureCondition c ty).
Proof. unfold ensureCondition. solve_only. Qed.

Lemma initializeConditions_reads c :
  only (fun X e => is_write e = false) (initializeConditions c).
Proof. unfold initializeConditions. solve_only; apply ensureCondition_reads. Qed.

Lemma findMasterNodes_reads c :
  only (fun X e => is_write e = false) (findMasterNodes c).
Proof.
  unfold findMasterNodes. destruct (ConvertSelectorToLabelsMap _); [done|]. solve_only.
Qed.

Lemma reconcileClusterScopedReference_ok c t c' :
  runs (reconcileClusterScopedReference c) t (Done (c', None)) -> writes_ok t /\ c' = c.
Proof.
  unfold reconcileClusterScopedReference. intros Hr. inv_runs_step. destruct r0 as [e|ns].
  - destruct (IsNotFound e); [|by inv_runs]. inv_runs_step.
    destruct Hr as [-> [= -> <-]]. by repeat constructor.
  - destruct Hr as [-> [= ->]]. by repeat constructor.
Qed.

Lemma applyOne_writes owner obj t :
  runs (applyOne owner obj) t (Done None) -> writes_ok t.
Proof.
  unfold applyOne, reconcileObject.
  destruct (SetControllerReference _ _); [by intros [_ [=]]|].
  destruct (ToUnstructured _); cbn [bind]; intros Hr; inv_runs; [done|].
  destruct r0; inv_runs; [done|]. by repeat constructor.
Qed.

Lemma applyType_writes ns ca e c t c' :
  runs (applyType r ns ca e c) t (Done (c', None)) -> writes_ok t.
Proof.
  destruct e as [ty l]. unfold applyType.
  destruct (IsObjectNamespaced ty); [by intros [_ [=]]|].
  destruct (GenerateObjects _ _ _ _ _) as [[?|objs]|?]; [by intros [_ [=]]| |by intros [_ [=]]].
  intros Hr. apply runs_bind in Hr as [(err & t1 & t2 & -> & H1 & H2)|(m & _ & [=])].
  destruct H2 as [-> [= -> <-]]. rewrite app_nil_r.
  eapply runs_for_each_Forall; [|exact H1]. intros obj t _. apply applyOne_writes.
Qed.

(** [c'] differs from [c] at most in its status and its image tag. *)
Definition same_but_tag (c c' : Configuration) : Prop :=
  cfg_meta c' = cfg_meta c /\
  (cfg_Spec c' = cfg_Spec c \/ cfg_Spec c' = cfg_Spec (with_Tag c (cr_Version r))).

Lemma same_but_tag_spec c c1 c' :
  cfg_meta c1 = cfg_meta c -> cfg_Spec c1 = cfg_Spec c -> same_but_tag c1 c' -> same_but_tag c c'.
Proof.
  unfold same_but_tag. intros -> Hs [Hm H]. split; [done|]. unfold with_Tag in *. cbn in *.
  by rewrite Hs in H.
Qed.

Lemma same_but_tag_with_Tag c c' :
  same_but_tag c c' -> same_but_tag c (with_Tag c' (cr_Version r)).
Proof.
  intros [Hm Hs]. split; [done|]. right. unfold with_Tag. cbn.
  by destruct Hs as [-> | ->].
Qed.

(** The object itself: the one of [c], or the tagged one, with a new status. *)
Lemma same_but_tag_eq c c' :
  same_but_tag c c' ->
  c' = with_Status c (cfg_Status c') \/
  c' = with_Status (with_Tag c (cr_Version r)) (cfg_Status c').
Proof.
  intros [Hm [Hs|Hs]]; [left|right]; destruct c'; cbn in *; unfold with_Status; by subst.
Qed.

(** What a successful [applyObject] did: nothing, or one complete pass. *)
Lemma applyObject_cases order c t c' :
  runs (applyObject r order c) t (Done (c', None)) ->
  (t = [] /\ c' = c) \/
  (st_MatchingNodeAddresses (cfg_Status c) <> [] /\
   st_Status (cfg_Status c) <> ConfigurationStatusDeploying /\ writes_ok t /\
   same_but_tag c c' /\ cfg_Status c' =
     cfg_Status (with_StatusStatus c ConfigurationStatusDeployed)).
Proof.
  intros Hr.
  destruct (decide (st_MatchingNodeAddresses (cfg_Status c) = [])) as [Ha|Ha].
  { left. unfold applyObject in Hr. rewrite bool_decide_eq_true_2 in Hr by done.
    by destruct Hr as [-> [= ->]]. }
  destruct (decide (st_Status (cfg_Status c) = ConfigurationStatusDeploying)) as [Hs|Hs].
  { left. unfold applyObject in Hr.
    rewrite bool_decide_eq_false_2, bool_decide_eq_true_2 in Hr by done.
    by destruct Hr as [-> [= ->]]. }
  right. split; [done|]. split; [done|].
  destruct (applyObject_inv _ _ _ _ _ Hr Ha Hs) as (ns & s & ca & t1 & c1 & -> & _ & H1 & ->).
  split.
  - constructor; [done|]. constructor; [done|].
    eapply runs_fold_each_Forall; [|exact H1]. intros e c0 t c2 _. apply applyType_writes.
  - eapply (runs_fold_each_inv (fun c1 => same_but_tag c c1 /\ cfg_Status c1 = cfg_Status c))
      in H1 as [Hm Hst]; [| |split; [split; [done|by left]|done]].
    + split; [done|]. cbn. by rewrite Hst.
    + intros [ty l] c0 t c2 _ [Hm0 Hs0]. unfold applyType.
      destruct (IsObjectNamespaced ty); [by intros [_ [=]]|].
      destruct (GenerateObjects _ _ _ _ _) as [[?|objs]|?];
        [by intros [_ [=]]| |by intros [_ [=]]].
      intros H2. apply runs_bind in H2 as [(err & ? & ? & _ & _ & H2)|(m & _ & [=])].
      destruct H2 as [_ [= -> _]]. split; [by apply same_but_tag_with_Tag|done].
Qed.

(** The four steps, one after the other. *)
Lemma run_steps_inv order c t c' :
  runs (run_steps (reconcileSteps r order) c) t (Done (c', None)) ->
  exists c1 t1 t2 c2 t3 t4,
    t = t1 ++ t2 ++ t3 ++ t4 /\
    runs (initializeConditions c) t1 (Done (c1, None)) /\
    runs (reconcileClusterScopedReference c1) t2 (Done (c1, None)) /\
    runs (findMasterNodes c1) t3 (Done (c2, None)) /\
    runs (applyObject r order c2) t4 (Done (c', None)).
Proof.
  unfold run_steps, reconcileSteps. intros Hr.
  apply runs_fold_each_ok in Hr as (c1 & t1 & t1' & -> & H1 & Hr).
  apply runs_fold_each_ok in Hr as (c2 & t2 & t2' & -> & H2 & Hr).
  apply runs_fold_each_ok in Hr as (c3 & t3 & t3' & -> & H3 & Hr).
  apply runs_fold_each_ok in Hr as (c4 & t4 & t4' & -> & H4 & Hr).
  apply runs_fold_each_ok in Hr as [-> ->].
  pose proof (reconcileClusterScopedReference_ok _ _ _ H2) as [_ ->].
  exists c1, t1, t2, c3, t3, t4. rewrite app_nil_r. done.
Qed.

Lemma initializeConditions_inv c t c' :
  runs (initializeConditions c) t (Done (c', None)) ->
  cfg_meta c' = cfg_meta c /\ with_Conditions c' [] = with_Conditions c [].
Proof.
  unfold initializeConditions. intros Hr.
  assert (Hstep : forall c ty t c1, runs (ensureCondition c ty) t (Done c1) ->
    cfg_meta c1 = cfg_meta c /\ with_Conditions c1 [] = with_Conditions c []).
  { intros c0 ty t0 c1 (? & [= <-] & (_ & _ & Hf) & _)%ensureCondition_runs.
    split; [|done]. by apply (f_equal cfg_meta) in Hf. }
  inv_runs. repeat match goal with
    | H : runs (ensureCondition _ _) _ (Done _) |- _ => apply Hstep in H as [? ?]
    end.
  split; congruence.
Qed.

Lemma with_Conditions_status c c' :
  with_Conditions c' [] = with_Conditions c [] ->
  st_MatchingNodeAddresses (cfg_Status c') = st_MatchingNodeAddresses (cfg_Status c) /\
  st_Status (cfg_Status c') = st_Status (cfg_Status c) /\
  st_ManagedObjects (cfg_Status c') = st_ManagedObjects (cfg_Status c).
Proof.
  intros Hw. apply (f_equal cfg_Status) in Hw. cbn in Hw. injection Hw. auto.
Qed.

(** Discovery leaves metadata, status word and managed objects alone, and any
    address it leaves was recorded before or was just listed. *)
Lemma discovery_frame now c items :
  let c' := discovery now c items in
  cfg_meta c' = cfg_meta c /\
  st_Status (cfg_Status c') = st_Status (cfg_Status c) /\
  st_ManagedObjects (cfg_Status c') = st_ManagedObjects (cfg_Status c) /\
  (st_MatchingNodeAddresses (cfg_Status c') <> [] ->
     st_MatchingNodeAddresses (cfg_Status c) <> [] \/ usable items <> []).
Proof.
  unfold discovery. destruct (decide _); [by auto|]. destruct (decide _) as [Hs|Hs]; cbn.
  - split_and!; try done. intros Hne. left. intros He. apply Hne. by rewrite He.
  - split_and!; try done. intros Hne. right. intros He. apply Hne. by rewrite He.
Qed.

Lemma discovery_spec now c items : cfg_Spec (discovery now c items) = cfg_Spec c.
Proof. unfold discovery. by repeat case_decide. Qed.

Lemma findMasterNodes_no_apply c :
  only (fun X e => is_ApplyObject e = false) (findMasterNodes c).
Proof.
  unfold findMasterNodes. destruct (ConvertSelectorToLabelsMap _); [done|]. solve_only.
Qed.

Lemma deletion_no_apply config :
  only (fun X e => is_ApplyObject e = false) (deleteClusterScopedReference r config).
Proof.
  unfold deleteClusterScopedReference, ensureCRDObjectCleanup, deleteFakeNamespace, releaseNode.
  solve_only. apply only_count_each. intros obj. unfold cleanupCRD.
  destruct (obj_body obj); [|done]. apply only_count_each. intros v.
  unfold cleanupVersion, deleteResource. solve_only.
Qed.

Lemma applyObject_gate order c t o :
  runs (applyObject r order c) t o -> some_of (@is_ApplyObject _) t ->
  st_MatchingNodeAddresses (cfg_Status c) <> [] /\
  st_Status (cfg_Status c) <> ConfigurationStatusDeploying.
Proof.
  unfold applyObject. intros Hr Hs.
  case_bool_decide; [destruct Hr as [-> _]; inversion Hs|].
  case_bool_decide; [destruct Hr as [-> _]; inversion Hs|]. done.
Qed.

(** The last step of a list of steps. *)
Lemma runs_last (f : reconcileFunc) c t o :
  runs (fold_each [f] (fun v config => v config) c) t o -> exists o', runs (f c) t o'.
Proof.
  cbn [fold_each]. intros [([c1 e] & t1 & t2 & -> & H1 & H2)|(m & H1 & ->)]%runs_bind; [|eauto].
  destruct e; destruct H2 as [-> _]; rewrite app_nil_r; eauto.
Qed.

(** Runs of the steps that apply something. *)
Lemma run_steps_apply order c t o :
  runs (run_steps (reconcileSteps r order) c) t o -> some_of (@is_ApplyObject _) t ->
  st_Status (cfg_Status c) <> ConfigurationStatusDeploying /\
  (st_MatchingNodeAddresses (cfg_Status c) <> [] \/
   exists items, items ∈ node_listings t /\ usable items <> []).
Proof.
  unfold run_steps, reconcileSteps. intros Hr Hs.
  assert (Hno : forall A (p : op A) t o, only (fun X e => is_ApplyObject e = false) p ->
    runs p t o -> ~ some_of (@is_ApplyObject _) t).
  { intros A p t' o' Hp Hp' Hs'. eapply none_of_some_of; [|exact Hs'].
    by eapply only_none_of. }
  assert (Hsplit : forall t1 t2 : trace callE, some_of (@is_ApplyObject _) (t1 ++ t2) ->
    ~ some_of (@is_ApplyObject _) t1 -> some_of (@is_ApplyObject _) t2).
  { intros t1 t2 [H1|H1]%Exists_app H2; done. }
  cbn [fold_each] in Hr.
  apply runs_bind in Hr as [([c1 e1] & t1 & t1' & -> & H1 & Hr)|(m & H1 & ->)].
  2: { apply Hno in H1; [done|]. unfold initializeConditions, ensureCondition. solve_only. }
  apply Hsplit in Hs.
  2: { eapply Hno; [|exact H1]. unfold initializeConditions, ensureCondition. solve_only. }
  destruct e1; [destruct Hr as [-> _]; inversion Hs|].
  apply runs_bind in Hr as [([c2 e2] & t2 & t2' & -> & H2 & Hr)|(m & H2 & ->)].
  2: { apply Hno in H2; [done|]. unfold reconcileClusterScopedReference. solve_only. }
  apply Hsplit in Hs.
  2: { eapply Hno; [|exact H2]. unfold reconcileClusterScopedReference. solve_only. }
  destruct e2; [destruct Hr as [-> _]; inversion Hs|].
  apply reconcileClusterScopedReference_ok in H2 as [_ ->].
  apply runs_bind in Hr as [([c3 e3] & t3 & t3' & -> & H3 & Hr)|(m & H3 & ->)].
  2: { apply Hno in H3; [done|]. apply findMasterNodes_no_apply. }
  apply Hsplit in Hs.
  2: { eapply Hno; [|exact H3]. apply findMasterNodes_no_apply. }
  destruct e3; [destruct Hr as [-> _]; inversion Hs|].
  apply initializeConditions_inv in H1 as [_ (Ha1 & Hst1 & _)%with_Conditions_status].
  apply findMasterNodes_inv in H3 as (now & items & Hl & ->).
  pose proof (discovery_frame now c1 items) as (_ & Hst & _ & Haddr).
  assert (Hgate : st_MatchingNodeAddresses (cfg_Status (discovery now c1 items)) <> [] /\
    st_Status (cfg_Status (discovery now c1 items)) <> ConfigurationStatusDeploying).
  { apply runs_last in Hr as [o' Hr]. by eapply applyObject_gate. }
  destruct Hgate as [Hg1 Hg2]. split; [congruence|].
  destruct (Haddr Hg1) as [Hr1|Hr1]; [left; congruence|].
  right. exists items. split; [|done].
  unfold node_listings in *. rewrite !omap_app, Hl. set_solver.
Qed.

(** ** Writes of the parts *)

Lemma count_each_Forall {A} (P : obs callE -> Prop) (f : A -> op (res error nat)) l n0 t n :
  (forall x t n, runs (f x) t (Done (Ok n)) -> Forall P t) ->
  runs (count_each l f n0) t (Done (Ok n)) -> Forall P t.
Proof.
  intros Hf. revert n0 t. induction l as [|x l IH]; intros n0 t Hr; cbn in Hr.
  - by destruct Hr as [-> _].
  - apply runs_bind in Hr as [(m & t1 & t2 & -> & H1 & H2)|(m & _ & [=])].
    destruct m as [err|m]; [by destruct H2 as [_ [=]]|].
    apply Forall_app. eauto.
Qed.

Lemma cleanupVersion_writes_ok name crd v t n :
  runs (cleanupVersion name crd v) t (Done (Ok n)) -> writes_ok t.
Proof.
  unfold cleanupVersion. intros Hr. inv_runs_step. destruct r0 as [err|items].
  - destruct (IsNotFound err); destruct Hr as [-> _]; by repeat constructor.
  - apply runs_bind in Hr as [(e & t1 & t2 & -> & H1 & H2)|(m & _ & [=])].
    destruct e as [e|]; [by destruct H2 as [_ [=]]|]. destruct H2 as [-> _].
    rewrite app_nil_r. constructor; [done|].
    eapply runs_for_each_Forall; [|exact H1]. intros u t2 _ Hu. unfold deleteResource in Hu.
    destruct (un_DeletionTimestamp u); inv_runs; [done|].
    destruct r0; inv_runs; [done|]. by repeat constructor.
Qed.

Lemma deletion_writes_ok config t :
  runs (deleteClusterScopedReference r config) t (Done None) -> writes_ok t.
Proof.
  unfold deleteClusterScopedReference.
  destruct (GenerateObjects _ _ _ _ _) as [[err|objs]|m]; [by intros [_ [=]]| |by intros [_ [=]]].
  intros Hr. apply runs_bind in Hr as [([e|] & t1 & t2 & -> & H1 & H2)|(m & _ & [=])];
    [by destruct H2 as [_ [=]]|].
  apply Forall_app. split.
  - unfold ensureCRDObjectCleanup in H1. inv_runs_step. destruct r0; [by destruct H1|].
    apply runs_bind in H1 as [([e|n] & u1 & u2 & -> & H1 & H3)|(m & _ & [=])];
      [by destruct H3 as [_ [=]]|].
    destruct (0 <? n); [by destruct H3 as [_ [=]]|]. destruct H3 as [-> _].
    rewrite app_nil_r. constructor; [done|].
    eapply count_each_Forall; [|exact H1]. intros obj u1' m Hm. unfold cleanupCRD in Hm.
    destruct (obj_body obj); [|by destruct Hm as [-> _]].
    eapply count_each_Forall; [|exact Hm]. intros v u2' k. apply cleanupVersion_writes_ok.
  - apply runs_bind in H2 as [([e|] & u1 & u2 & -> & H2 & H3)|(m & _ & [=])];
      [by destruct H3 as [_ [=]]|].
    apply Forall_app. split.
    + unfold deleteFakeNamespace in H2. inv_runs_step. destruct r0 as [e|ns].
      * destruct (IsNotFound e); destruct H2 as [-> _]; by repeat constructor.
      * inv_runs. by repeat constructor.
    + destruct (ContainsFinalizer _ _); [inv_runs; by repeat constructor|].
      inv_runs_step. destruct r0 as [e|items]; [by destruct H3|]. constructor; [done|].
      eapply runs_for_each_Forall; [|exact H3]. intros n u2' _ Hn. unfold releaseNode in Hn.
      destruct (ContainsFinalizer _ _); inv_runs; [|done].
      destruct r0; inv_runs; [done|]. by repeat constructor.
Qed.

Lemma run_steps_writes_ok order c t c' :
  runs (run_steps (reconcileSteps r order) c) t (Done (c', None)) -> writes_ok t.
Proof.
  intros (c1 & t1 & t2 & c2 & t3 & t4 & -> & H1 & H2 & H3 & H4)%run_steps_inv.
  apply applyObject_cases in H4.
  apply reconcileClusterScopedReference_ok in H2 as [H2 _].
  apply reads_writes_ok in H1; [|apply initializeConditions_reads].
  apply reads_writes_ok in H3; [|apply findMasterNodes_reads].
  unfold writes_ok in *. rewrite !Forall_app. split_and!; try done.
  by destruct H4 as [[-> _]|(_ & _ & H4 & _)].
Qed.

Lemma run_steps_frame order c t c' :
  runs (run_steps (reconcileSteps r order) c) t (Done (c', None)) ->
  same_but_tag c c' /\
  st_ManagedObjects (cfg_Status c') = st_ManagedObjects (cfg_Status c) /\
  (st_Status (cfg_Status c') = st_Status (cfg_Status c) \/
   st_Status (cfg_Status c') = ConfigurationStatusDeployed).
Proof.
  intros (c1 & t1 & t2 & c2 & t3 & t4 & -> & H1 & H2 & H3 & H4)%run_steps_inv.
  apply applyObject_cases in H4.
  apply initializeConditions_inv in H1 as [Hm1 Hf1].
  pose proof (f_equal cfg_Spec Hf1) as Hsp1. cbn in Hsp1.
  apply with_Conditions_status in Hf1 as (_ & Hs1 & Ho1).
  apply findMasterNodes_inv in H3 as (now & items & _ & ->).
  destruct (discovery_frame now c1 items) as (Hm & Hs & Ho & _).
  pose proof (discovery_spec now c1 items) as Hsp.
  destruct H4 as [[-> ->]|(_ & _ & _ & Ht4 & Hs4)].
  - split_and!; [split; [congruence|left; congruence]|congruence|]. left. congruence.
  - rewrite Hs4. cbn. split_and!; [|congruence|by right].
    eapply same_but_tag_spec; [..|exact Ht4]; congruence.
Qed.

Lemma run_steps_no_status_patch order c :
  only (fun X e => is_status_patch e = false) (run_steps (reconcileSteps r order) c).
Proof.
  unfold run_steps, reconcileSteps. cbn [fold_each].
  unfold initializeConditions, ensureCondition, reconcileClusterScopedReference,
    findMasterNodes, applyObject, applyType, applyOne, reconcileObject.
  solve_only.
Qed.

Lemma deletion_no_status_patch config :
  only (fun X e => is_status_patch e = false) (deleteClusterScopedReference r config).
Proof.
  unfold deleteClusterScopedReference, ensureCRDObjectCleanup, deleteFakeNamespace, releaseNode.
  solve_only. apply only_count_each. intros obj. unfold cleanupCRD.
  destruct (obj_body obj); [|done]. apply only_count_each. intros v.
  unfold cleanupVersion, deleteResource. solve_only.
Qed.

(** ** Properties *)

(** C1: objects are applied only when they may be. In any run of [Reconcile]
    that applies an object, the run started by fetching the Configuration; that
    object was not being deleted, already carried the operator's finalizer (so
    its deletion cannot leave the objects behind), was not marked Deploying,
    and a master node address was recorded in its status or found by the
    listing of the nodes in this very run. *)
Theorem Reconcile_apply_gate order req t o :
  runs (Reconcile r order req) t o -> some_of (@is_ApplyObject _) t ->
  exists c t', t = Obs (GetConfiguration req) (Ok c) :: t' /\
    om_DeletionTimestamp (cfg_meta c) = None /\
    ContainsFinalizer (om_Finalizers (cfg_meta c)) KubeOVNConfigurationFinalizer = true /\
    st_Status (cfg_Status c) <> ConfigurationStatusDeploying /\
    (st_MatchingNodeAddresses (cfg_Status c) <> [] \/
     exists items, items ∈ node_listings t' /\ usable items <> []).
Proof.
  unfold Reconcile. intros Hr Hs. inv_runs_step. destruct r0 as [err|c].
  - destruct (IsNotFound err); destruct Hr as [-> _];
      by apply Exists_cons in Hs as [?|Hs%Exists_nil].
  - apply Exists_cons in Hs as [?|Hs']; [done|]. exists c, t0. split; [done|].
    destruct (om_DeletionTimestamp (cfg_meta c)) as [d|].
    { exfalso. eapply none_of_some_of; [|exact Hs'].
      eapply only_none_of; [|exact Hr]. solve_only. apply deletion_no_apply. }
    split; [done|].
    destruct (ContainsFinalizer _ _); cbn [negb] in Hr.
    + split; [done|].
      apply runs_bind in Hr as [([c1 e] & t1 & t2 & -> & H1 & H2)|(m & H1 & ->)].
      * assert (Hn : none_of (@is_ApplyObject _) t2).
        { eapply only_none_of; [|exact H2]. solve_only. }
        apply Exists_app in Hs' as [Hs'|Hs']; [|by destruct (none_of_some_of _ _ Hn Hs')].
        destruct (run_steps_apply _ _ _ _ H1 Hs') as [? [?|(items & Hi & ?)]]; [auto|].
        split; [done|]. right. exists items. split; [|done].
        unfold node_listings in *. rewrite omap_app. set_solver.
      * eapply run_steps_apply; eauto.
    + exfalso. eapply none_of_some_of; [|exact Hs'].
      eapply only_none_of; [|exact Hr]. solve_only.
Qed.

(** C16: no failed write goes unreported. In every run of [Reconcile] that
    returns without an error (and without a panic), every write it issued, in
    the steps, in the deletion path or to the status, succeeded. *)
Theorem Reconcile_reports_failed_writes order req t res :
  runs (Reconcile r order req) t (Done (res, None)) -> writes_ok t.
Proof.
  unfold Reconcile. intros Hr. inv_runs_step. destruct r0 as [err|c].
  { destruct (IsNotFound err); destruct Hr as [-> _]; by repeat constructor. }
  constructor; [done|]. destruct (om_DeletionTimestamp (cfg_meta c)) as [d|].
  { apply runs_bind in Hr as [(e & t1 & t2 & -> & H1 & H2)|(m & _ & [=])].
    destruct H2 as [-> [= -> <-]]. rewrite app_nil_r. by apply deletion_writes_ok in H1. }
  destruct (ContainsFinalizer _ _); cbn [negb] in Hr.
  - apply runs_bind in Hr as [([c1 [e|]] & t1 & t2 & -> & H1 & H2)|(m & _ & [=])].
    { by destruct H2 as [_ [=]]. }
    apply Forall_app. split; [by apply run_steps_writes_ok in H1|].
    case_bool_decide; [by destruct H2 as [-> _]|]. inv_runs_step.
    destruct H2 as [-> [= -> <-]]. by repeat constructor.
  - inv_runs_step. destruct Hr as [-> [= -> <-]]. by repeat constructor.
Qed.

(** C14: the status patch. A status patch of [Reconcile] is the only one of its
    run and the last call of it; its answer is what the run reports. It is
    computed against the object that run fetched, and really changes the status.
    The patched object is the fetched one with that status, perhaps with the
    image tag of the operator: nothing else of the metadata and the spec differs.
    The managed objects are left alone, and the status word stays as it was or
    becomes Deployed: no run ever writes Deploying. *)
Theorem Reconcile_status_patch order req t o base new e :
  runs (Reconcile r order req) t o ->
  In (Obs (PatchConfigurationStatus base new) e) t ->
  (exists t', t = Obs (GetConfiguration req) (Ok base) :: t' ++
     [Obs (PatchConfigurationStatus base new) e] /\ none_of (@is_status_patch _) t') /\
  o = Done (emptyResult, e) /\
  cfg_Status new <> cfg_Status base /\
  (new = with_Status base (cfg_Status new) \/
   new = with_Status (with_Tag base (cr_Version r)) (cfg_Status new)) /\
  cfg_meta new = cfg_meta base /\
  st_ManagedObjects (cfg_Status new) = st_ManagedObjects (cfg_Status base) /\
  (st_Status (cfg_Status new) = st_Status (cfg_Status base) \/
   st_Status (cfg_Status new) = ConfigurationStatusDeployed).
Proof.
  unfold Reconcile. intros Hr Hin. inv_runs_step. destruct r0 as [err|c].
  { destruct (IsNotFound err); destruct Hr as [-> _]; by destruct Hin as [[=]|[]]. }
  destruct Hin as [[=]|Hin]. destruct (om_DeletionTimestamp (cfg_meta c)) as [d|].
  { exfalso. eapply no_status_patch; [|exact Hr|exact Hin]. solve_only.
    apply deletion_no_status_patch. }
  destruct (ContainsFinalizer _ _); cbn [negb] in Hr.
  2: { exfalso. eapply no_status_patch; [|exact Hr|exact Hin]. solve_only. }
  apply runs_bind in Hr as [([c1 err] & t1 & t2 & -> & H1 & H2)|(m & H1 & ->)].
  2: { exfalso. eapply no_status_patch; [|exact H1|exact Hin]. apply run_steps_no_status_patch. }
  pose proof (only_none_of _ _ _ _ (run_steps_no_status_patch order c) H1) as Hn.
  apply in_app_iff in Hin as [Hin|Hin].
  { exfalso. eapply no_status_patch; [|exact H1|exact Hin]. apply run_steps_no_status_patch. }
  destruct err as [err|]; [by destruct H2 as [-> _]|].
  case_bool_decide as Heq; [by destruct H2 as [-> _]|]. inv_runs_step.
  destruct H2 as [-> ->]. destruct Hin as [Hin|[]].
  pose proof (status_patch_inj _ _ _ _ _ _ Hin) as (-> & -> & ->).
  apply run_steps_frame in H1 as (Ht & Hm & Hst). split; [eauto|]. split; [done|].
  split; [congruence|]. split; [by apply same_but_tag_eq|]. by split; [apply Ht|].
Qed.

(** The Configurations a trace fetched. *)
Definition configuration_read (o : obs callE) : option Configuration :=
  match o with
  | Obs e r =>
      match e in callE X return X -> option Configuration with
      | GetConfiguration _ => fun r => match r with Ok c => Some c | Err _ => None end
      | _ => fun _ => None
      end r
  end.

(** C15: the finalizer comes first. When the fetched Configuration is not being
    deleted and does not carry the operator's finalizer, the whole run is the
    fetch and one patch whose new object differs from the fetched one only by
    the added finalizer; the run reports the answer of that patch. *)
Theorem Reconcile_adds_finalizer_first `{KW : !KubeLaws} order req c t o :
  runs (Reconcile r order req) t o ->
  head (omap configuration_read t) = Some c ->
  om_DeletionTimestamp (cfg_meta c) = None ->
  KubeOVNConfigurationFinalizer ∉ om_Finalizers (cfg_meta c) ->
  exists c' e,
    t = [Obs (GetConfiguration req) (Ok c); Obs (PatchConfiguration c c') e] /\
    o = Done (emptyResult, e) /\
    (forall f, f ∈ om_Finalizers (cfg_meta c') <->
       f = KubeOVNConfigurationFinalizer \/ f ∈ om_Finalizers (cfg_meta c)) /\
    with_Finalizers c' (om_Finalizers (cfg_meta c)) = c.
Proof.
  unfold Reconcile. intros Hr Hc Hd Hf. inv_runs_step. destruct r0 as [err|c0].
  { destruct (IsNotFound err); by destruct Hr as [-> _]. }
  injection Hc as ->. rewrite Hd in Hr.
  destruct (ContainsFinalizer _ _) eqn:Hcf;
    [by apply ContainsFinalizer_spec in Hcf|]. cbn [negb] in Hr.
  inv_runs_step. destruct Hr as [-> ->]. do 2 eexists. split; [done|]. split; [done|].
  split; [intros f; apply AddFinalizer_spec|]. by destruct c as [[] ? ?].
Qed.

(** ** The waiting condition of a Configuration without nodes *)

(** The status a successful run leaves for the Configuration [c] it fetched:
    the one of its status patch, or the old one if there was nothing to patch. *)
Definition recorded (c : Configuration) (t : trace callE) : ConfigurationStatus :=
  from_option (fun p => cfg_Status p.2) (cfg_Status c) (last (omap status_patch t)).

Lemma no_status_patches {A} (p : op A) t o :
  only (fun X e => is_status_patch e = false) p -> runs p t o -> omap status_patch t = [].
Proof.
  intros Hp Hr. apply (only_none_of _ _ _ _ Hp) in Hr.
  induction Hr as [|[X e x] t He Ht IH]; [done|]. cbn. by destruct e.
Qed.

(** A successful run past the finalizer ran all steps and recorded their result. *)
Lemma Reconcile_ok_inv order req t res c :
  runs (Reconcile r order req) t (Done (res, None)) ->
  head (omap configuration_read t) = Some c ->
  om_DeletionTimestamp (cfg_meta c) = None ->
  ContainsFinalizer (om_Finalizers (cfg_meta c)) KubeOVNConfigurationFinalizer = true ->
  exists c' t', runs (run_steps (reconcileSteps r order) c) t' (Done (c', None)) /\
    node_listings t = node_listings t' /\ recorded c t = cfg_Status c'.
Proof.
  unfold Reconcile. intros Hr Hc Hd Hf. inv_runs_step. destruct r0 as [err|c0].
  { destruct (IsNotFound err); by destruct Hr as [-> _]. }
  injection Hc as ->. rewrite Hd, Hf in Hr. cbn [negb] in Hr.
  apply runs_bind in Hr as [([c' err] & t1 & t2 & -> & H1 & H2)|(m & H1 & [=])].
  destruct err as [err|]; [by destruct H2 as [_ [=]]|].
  pose proof (no_status_patches _ _ _ (run_steps_no_status_patch order c) H1) as Hn.
  exists c', t1. split; [done|]. unfold recorded, node_listings. cbn. rewrite !omap_app, Hn.
  case_bool_decide as Heq.
  - destruct H2 as [-> _]. by rewrite app_nil_r.
  - inv_runs_step. destruct H2 as [-> _]. cbn. by rewrite app_nil_r.
Qed.

Lemma IsConditionTrue_lookup c c' ty :
  LookupCondition c ty = LookupCondition c' ty -> IsConditionTrue c ty = IsConditionTrue c' ty.
Proof. unfold IsConditionTrue. by intros ->. Qed.

(** What the steps before the discovery leave of the waiting condition. *)
Lemma initializeConditions_waiting c t c' :
  runs (initializeConditions c) t (Done (c', None)) ->
  let W := WaitingForMatchignNodesCondition in
  IsConditionTrue c' W = IsConditionTrue c W /\
  (IsConditionTrue c W = true -> LookupCondition c' W = LookupCondition c W).
Proof.
  intros (? & [= <-] & [(He & _) _ Hu _] & _)%initializeConditions_runs. cbn zeta.
  unfold IsConditionTrue. destruct (ConditionExists c WaitingForMatchignNodesCondition) eqn:Hex.
  - by rewrite (proj2 (He _ Hex)).
  - destruct (Hu WaitingForMatchignNodesCondition) as (now & _ & ->); [left|done|].
    unfold LookupCondition, ConditionExists in *. by destruct (find_first _ _).
Qed.

(** The status a pass over the steps leaves when no listed node is usable. *)
Lemma run_steps_waiting order c t c' :
  runs (run_steps (reconcileSteps r order) c) t (Done (c', None)) ->
  Forall (fun items => usable items = []) (node_listings t) ->
  exists now c1,
    IsConditionTrue c1 WaitingForMatchignNodesCondition =
      IsConditionTrue c WaitingForMatchignNodesCondition /\
    (IsConditionTrue c WaitingForMatchignNodesCondition = true ->
       LookupCondition c1 WaitingForMatchignNodesCondition =
       LookupCondition c WaitingForMatchignNodesCondition) /\
    st_MatchingNodeAddresses (cfg_Status c1) = st_MatchingNodeAddresses (cfg_Status c) /\
    st_Conditions (cfg_Status c') = st_Conditions (cfg_Status (discovery now c1 [])) /\
    st_MatchingNodeAddresses (cfg_Status c') =
      st_MatchingNodeAddresses (cfg_Status (discovery now c1 [])).
Proof.
  intros (c1 & t1 & t2 & c2 & t3 & t4 & -> & H1 & _ & H3 & H4)%run_steps_inv Hu.
  pose proof (initializeConditions_waiting _ _ _ H1) as [Hw Hl].
  apply initializeConditions_inv in H1 as [_ (Ha & _)%with_Conditions_status].
  apply findMasterNodes_inv in H3 as (now & items & Hi & ->).
  unfold node_listings in Hu, Hi. rewrite !omap_app, Hi in Hu.
  apply Forall_app in Hu as [_ [_ [[Hu _]%Forall_cons _]%Forall_app]%Forall_app].
  assert (Hd : discovery now c1 items = discovery now c1 []) by (unfold discovery; by rewrite Hu).
  rewrite Hd in H4. exists now, c1. split_and!; try done.
  all: apply applyObject_cases in H4 as [[_ ->]|(_ & _ & _ & _ & ->)]; done.
Qed.

(** C38: the waiting condition flaps when the last matching node disappears.
    Take a successful [Reconcile] of a live Configuration in which no listed
    node has an address. If the waiting condition was not True, it becomes True,
    and the recorded addresses stay, stale. If it was True and addresses were
    recorded, these are dropped, but the condition becomes False, with reason
    NodesFound and the message "found nodes ". If it was True and no address was
    recorded, it stays as it is. So after the last node is gone three
    reconciles leave the condition at True, False and True, and only from then
    on does it keep its value. *)
Theorem lost_nodes_condition order req t res c :
  runs (Reconcile r order req) t (Done (res, None)) ->
  head (omap configuration_read t) = Some c ->
  om_DeletionTimestamp (cfg_meta c) = None ->
  ContainsFinalizer (om_Finalizers (cfg_meta c)) KubeOVNConfigurationFinalizer = true ->
  Forall (fun items => usable items = []) (node_listings t) ->
  let W := WaitingForMatchignNodesCondition in
  let c' := with_Status c (recorded c t) in
  let old := st_MatchingNodeAddresses (cfg_Status c) in
  let new := st_MatchingNodeAddresses (cfg_Status c') in
  (IsConditionTrue c W = false -> IsConditionTrue c' W = true /\ new = old) /\
  (IsConditionTrue c W = true -> old <> [] ->
     IsConditionFalse c' W = true /\ c_Reason (LookupCondition c' W) = NodesFoundReason /\
     c_Message (LookupCondition c' W) = "found nodes " /\ new = []) /\
  (IsConditionTrue c W = true -> old = [] ->
     LookupCondition c' W = LookupCondition c W /\ new = []).
Proof.
  intros Hr Hc Hd Hf Hu. cbn zeta.
  destruct (Reconcile_ok_inv _ _ _ _ _ Hr Hc Hd Hf) as (c' & t' & Hs & Hl & ->).
  rewrite Hl in Hu.
  destruct (run_steps_waiting _ _ _ _ Hs Hu) as (now & c1 & Hw & Hk & Ha & Hcs & Has).
  assert (Hlook : LookupCondition (with_Status c (cfg_Status c')) WaitingForMatchignNodesCondition =
    LookupCondition (discovery now c1 []) WaitingForMatchignNodesCondition)
    by by unfold LookupCondition; cbn [cfg_Status with_Status]; rewrite Hcs.
  cbn [cfg_Status with_Status]. rewrite Has. unfold IsConditionFalse.
  rewrite (IsConditionTrue_lookup _ _ _ Hlook), Hlook, discovery_none by done.
  cbn zeta. rewrite Hw, Ha.
  split_and!.
  - intros ->. split; [|exact Ha]. unfold IsConditionTrue. by rewrite LookupCondition_SetCondition.
  - intros -> Hne. rewrite decide_False by done.
    change (LookupCondition (with_MatchingNodeAddresses ?a _)) with (LookupCondition a).
    by rewrite LookupCondition_SetCondition.
  - intros Ht He. rewrite Ht, decide_True by done. split; [exact (Hk Ht)|done].
Qed.

End reconcile.
