(* ===== verification/NodeFacts.v ===== *)
(** * Theorems on the node controller

    Leader commands, the finalizer of the nodes, the order of the cleanup of a
    deleted node, and what happens when a read or the cleanup fails. *)

From S2P Require Import Prelude GoLib Effects KubeApi ConfigTypes Calls Executor.
From S2P Require Import ConfigurationController NodeController TestServer.
Local Open Scope kube_scope.

(** ** Commands on the leader pod *)

Section leader.
Context `{KL : KubeLib}.

(** The trace of a command that succeeded on the only pod with a label. *)
Definition leader_exec (label namespace script : string) (t : trace callE) : Prop :=
  exists selector p out err,
    labels_Parse label = Ok selector /\
    t = [Obs (ListPods selector namespace) (Ok [p]); Obs NewClientset None;
         Obs (ExecPod (om_Namespace (pod_meta p)) (om_Name (pod_meta p)) OVNCentralContainerName
                ["/bin/sh"; "-c"; script]) (None, out, err)].

(** The answers of the execs of a trace. *)
Definition exec_answer (o : obs callE) : option (option error * string * string) :=
  match o with
  | Obs e r =>
      match e in callE X return X -> option (option error * string * string) with
      | ExecPod _ _ _ _ => fun r => Some r
      | _ => fun _ => None
      end r
  end.
Definition exec_answers (t : trace callE) : list (option error * string * string) :=
  omap exec_answer t.

(** The answer of a node patch. *)
Definition patch_answer (o : obs callE) : option (option error) :=
  match o with
  | Obs e r =>
      match e in callE X return X -> option (option error) with
      | PatchNode _ _ => fun r => Some r
      | _ => fun _ => None
      end r
  end.

(** The answers of the reads of a node and of the Configuration. *)
Definition node_answer (o : obs callE) : option (res error Node) :=
  match o with
  | Obs e r =>
      match e in callE X return X -> option (res error Node) with
      | GetNode _ => fun r => Some r
      | _ => fun _ => None
      end r
  end.
Definition configuration_answer (o : obs callE) : option (res error Configuration) :=
  match o with
  | Obs e r =>
      match e in callE X return X -> option (res error Configuration) with
      | GetConfiguration _ => fun r => Some r
      | _ => fun _ => None
      end r
  end.

Lemma runs_podList label namespace t o :
  runs (podList label namespace) t o ->
  (exists err, labels_Parse label = Err err /\ t = [] /\
     o = Done (Err (Errorf_v ("error unable to parse label list " +:+ label +:+ ": ") (ELib err))))
  \/ (exists selector r, labels_Parse label = Ok selector /\
        t = [Obs (ListPods selector namespace) r] /\ o = Done r).
Proof.
  unfold podList. destruct (labels_Parse label) as [err|sel]; intros Hr.
  - destruct Hr as [-> ->]. left. by exists err.
  - apply runs_call in Hr as (r & -> & ->). right. by exists sel, r.
Qed.

(** The runs of [Run]: one exec. *)
Lemma runs_Run r c cmd t o :
  runs (Run r c cmd) t o -> exists e out err,
    t = [Obs (ExecPod (om_Namespace (pod_meta (rce_pod r))) (om_Name (pod_meta (rce_pod r))) c
                ["/bin/sh"; "-c"; cmd]) (e, out, err)] /\
    o = Done (match e with
              | Some e => (err, Some (Errorf_v "error during command execution: " e))
              | None => (out, None)
              end).
Proof.
  unfold Run. cbn. intros ([[e out] err] & t' & -> & Hr).
  exists e, out, err. by destruct e as [e|]; destruct Hr as [-> ->].
Qed.

(** Every run of a command returns, with or without an error. *)
Lemma executeOVNCentralCommand_cases script label namespace t o :
  runs (executeOVNCentralCommand script label namespace) t o ->
  exists out err, o = Done (out, err) /\
    ((some_of (@is_ExecPod _) t ->
       exists selector p e so se,
         labels_Parse label = Ok selector /\
         t = [Obs (ListPods selector namespace) (Ok [p]); Obs NewClientset None;
              Obs (ExecPod (om_Namespace (pod_meta p)) (om_Name (pod_meta p))
                     OVNCentralContainerName ["/bin/sh"; "-c"; script]) (e, so, se)] /\
         (err = None <-> e = None) /\
         out = match e with None => so | Some _ => se end) /\
     (none_of (@is_ExecPod _) t -> out = "" /\ err <> None)) /\
    (err = None -> leader_exec label namespace script t).
Proof.
  unfold executeOVNCentralCommand. rewrite runs_bind.
  intros [(pods & t1 & t2 & -> & Hp & Hr)|(m & Hp & _)]; last first.
  { apply runs_podList in Hp as [(? & _ & _ & [=])|(? & ? & _ & _ & [=])]. }
  assert (Hno : forall t out e, runs (Ret (E := callE) (out, Some e)) t o ->
    t = [] /\ o = Done (out, Some e)) by (by intros ??? [-> ->]).
  apply runs_podList in Hp as [(err & Hl & -> & [= ->])|(sel & res & Hl & -> & [= <-])].
  { apply Hno in Hr as [-> ->]. do 2 eexists. split_and!; [done| |done|done].
    intros Hs. by apply Exists_nil in Hs. }
  destruct pods as [err|items].
  { apply Hno in Hr as [-> ->]. do 2 eexists. split_and!; [done| |done|done].
    intros Hs. by apply Exists_cons in Hs as [?|?%Exists_nil]. }
  destruct items as [|p [|p' items]]; cbn [length Nat.eqb Nat.ltb orb] in Hr.
  1,3: apply Hno in Hr as [-> ->]; do 2 eexists; split_and!; [done| |done|done];
    intros Hs; by apply Exists_cons in Hs as [?|?%Exists_nil].
  unfold NewRemoteCommandExecutor in Hr. cbn -[Run] in Hr.
  destruct Hr as ([err|] & t' & -> & Hr); cbn -[Run] in Hr.
  { apply Hno in Hr as [-> ->]. do 2 eexists. split_and!; [done| |done|done].
    intros Hs. by apply Exists_cons in Hs as [?|[?|?%Exists_nil]%Exists_cons]. }
  apply runs_Run in Hr as (e & so & se & -> & ->). cbn.
  destruct e as [e|]; do 2 eexists; (split_and!; [done|intros _|intros Hn; exfalso|]); cbn.
  - exists sel, p, (Some e), so, se. split_and!; try done.
  - by rewrite !none_of_cons in Hn; destruct Hn as (_ & _ & ? & _).
  - done.
  - exists sel, p, None, so, se. split_and!; done.
  - by rewrite !none_of_cons in Hn; destruct Hn as (_ & _ & ? & _).
  - intros _. exists sel, p, so, se. done.
Qed.

(** C20: commands run on the unique leader only. In every run of
    [executeOVNCentralCommand] that execs into a pod, the label selector was
    parsed, exactly one pod of the operator's namespace carried the label, and
    the script is run there by a shell in the ovn-central container; no run
    panics; and a run succeeds with output [out] exactly when that exec
    succeeded and printed [out]. *)
Theorem executeOVNCentralCommand_spec script label namespace t o :
  runs (executeOVNCentralCommand script label namespace) t o ->
  (forall m, o <> Panicked m) /\
     (some_of (@is_ExecPod _) t ->
     exists selector p e so se,
       labels_Parse label = Ok selector /\
     t = [Obs (ListPods selector namespace) (Ok [p]); Obs NewClientset None;
            Obs (ExecPod (om_Namespace (pod_meta p)) (om_Name (pod_meta p))
                   OVNCentralContainerName ["/bin/sh"; "-c"; script]) (e, so, se)]) /\
     (forall out, o = Done (out, None) <->
     exists selector p se,
       labels_Parse label = Ok selector /\
     t = [Obs (ListPods selector namespace) (Ok [p]); Obs NewClientset None;
            Obs (ExecPod (om_Namespace (pod_meta p)) (om_Name (pod_meta p))
                   OVNCentralContainerName ["/bin/sh"; "-c"; script]) (None, out, se)]).
Proof.
  intros Hr. apply executeOVNCentralCommand_cases in Hr as (out & err & -> & [He _] & Ho).
  split_and!; [done|..].
  { intros Hs. apply He in Hs as (sel & p & e & so & se & Hl & Ht & _). by exists sel, p, e, so, se. }
  intros out'. split.
  - intros [= -> ->]. destruct (Ho eq_refl) as (sel & p & so & se & Hl & Ht).
    destruct He as (sel' & p' & e' & so' & se' & Hl' & Ht' & He' & Hout).
    { rewrite Ht. unfold some_of. rewrite !Exists_cons. auto. }
    rewrite (proj1 He' eq_refl) in Ht', Hout. cbn in Hout. exists sel', p', se'. split; [done|]. by rewrite Ht', Hout.
  - intros (sel & p & se & Hl & Ht).
    destruct He as (sel' & p' & e' & so' & se' & _ & Ht' & He' & Hout).
    { rewrite Ht. unfold some_of. rewrite !Exists_cons. auto. }
    rewrite Ht in Ht'.
    pose proof (f_equal (fun t => exec_answers t) Ht') as Hx. cbn in Hx.
    injection Hx as <- <- <-. by rewrite (proj2 He' eq_refl), Hout.
Qed.

End leader.

(** ** Cleanup of a deleted node *)

Section cleanup.
Context `{KL : KubeLib, CS : !CleanupScripts} (r : NodeReconciler).
Let ns := nr_Namespace r.

Lemma executeRemoteScriptOnLeader_cases script label node t o :
  runs (executeRemoteScriptOnLeader r script label node) t o ->
  exists err, o = Done err /\ (err = None -> leader_exec label ns script t).
Proof.
  unfold executeRemoteScriptOnLeader. rewrite runs_bind.
  intros [(out & t1 & t2 & -> & Hc & Hr)|(m & Hc & _)];
    apply executeOVNCentralCommand_cases in Hc as (so & err & Ho & _ & Hl); [|done].
  injection Ho as ->. destruct err as [err|]; destruct Hr as [-> ->].
  - by eexists.
  - exists None. split; [done|]. intros _. rewrite app_nil_r. by apply Hl.
Qed.

(** The trace of a complete cleanup of both databases. *)
Definition central_cleanup (nodeIP : string) (t : trace callE) : Prop :=
  exists nb sb tn ts,
    GenerateNorthBoundCleanupScript nodeIP = Ok nb /\
     GenerateSouthBoundCleanupScript nodeIP = Ok sb /\
     leader_exec NBLeaderLabel ns nb tn /\ leader_exec SBLeaderLabel ns sb ts /\
     t = tn ++ ts.

Lemma reconcileOVNCentralState_cases nodeIP t o :
  runs (reconcileOVNCentralState r nodeIP) t o ->
  exists err, o = Done err /\ (err = None -> central_cleanup nodeIP t).
Proof.
  unfold reconcileOVNCentralState.
  destruct (GenerateNorthBoundCleanupScript nodeIP) as [e|nb] eqn:Hn.
  { intros [-> ->]. by eexists. }
  rewrite runs_bind.
  intros [(err & t1 & t2 & -> & Hc & Hr)|(m & Hc & _)];
    apply executeRemoteScriptOnLeader_cases in Hc as (err' & Ho & Hl); [|done].
  injection Ho as <-. destruct err as [err|]; [destruct Hr as [-> ->]; by eexists|].
  destruct (GenerateSouthBoundCleanupScript nodeIP) as [e|sb] eqn:Hs.
  { destruct Hr as [-> ->]. by eexists. }
  apply executeRemoteScriptOnLeader_cases in Hr as (err & -> & Hl2).
  exists err. split; [done|]. intros ->. exists nb, sb, t1, t2. auto 6.
Qed.

(** The trace of a complete chassis cleanup. *)
Definition chassis_cleanup (hostname : string) (t : trace callE) : Prop :=
  exists cs, GenerateChassisCleanupScript hostname = Ok cs /\ leader_exec SBLeaderLabel ns cs t.

Lemma reconcileOVSOVNState_cases hostname t o :
  runs (reconcileOVSOVNState r hostname) t o ->
  exists err, o = Done err /\ (err = None -> chassis_cleanup hostname t).
Proof.
  unfold reconcileOVSOVNState.
  destruct (GenerateChassisCleanupScript hostname) as [e|cs] eqn:Hn.
  { intros [-> ->]. by eexists. }
  intros (err & -> & Hl)%executeRemoteScriptOnLeader_cases.
  exists err. split; [done|]. intros ->. exists cs. auto.
Qed.

Lemma only_executeRemoteScriptOnLeader script label node :
  only (fun X e => is_PatchNode e = false) (executeRemoteScriptOnLeader r script label node).
Proof.
  unfold executeRemoteScriptOnLeader, executeOVNCentralCommand, podList,
    NewRemoteCommandExecutor, Run. solve_only.
Qed.

Lemma leader_exec_no_patch label script t :
  leader_exec label ns script t -> none_of (@is_PatchNode _) t.
Proof.
  intros (sel & p & so & se & _ & ->). unfold none_of. repeat constructor.
Qed.

Lemma chassis_cleanup_no_patch ip t : chassis_cleanup ip t -> none_of (@is_PatchNode _) t.
Proof. intros (cs & _ & Hl). by eapply leader_exec_no_patch. Qed.

Lemma only_cleanupMaster config ip :
  only (fun X e => is_PatchNode e = false) (cleanupMaster r config ip).
Proof.
  pose proof only_executeRemoteScriptOnLeader.
  unfold cleanupMaster, reconcileOVNCentralState.
  repeat first [progress auto | progress solve_only].
Qed.

Lemma only_reconcileOVSOVNState ip :
  only (fun X e => is_PatchNode e = false) (reconcileOVSOVNState r ip).
Proof.
  pose proof only_executeRemoteScriptOnLeader.
  unfold reconcileOVSOVNState. repeat first [progress auto | progress solve_only].
Qed.

(** The trace of the cleanup of a recorded master: both databases, then the
    status of the Configuration without the address. *)
Definition master_cleanup (config : Configuration) (ip : string) (t : trace callE) : Prop :=
  exists tc, central_cleanup ip tc /\
    t = tc ++ [Obs (PatchConfigurationStatus config (with_MatchingNodeAddresses config
          (removeElement (st_MatchingNodeAddresses (cfg_Status config)) ip).1)) None].

Lemma cleanupMaster_cases config ip t o :
  runs (cleanupMaster r config ip) t o ->
  exists err, o = Done err /\ (err = None -> master_cleanup config ip t).
Proof.
  unfold cleanupMaster. rewrite runs_bind.
  intros [(err & t1 & t2 & -> & Hc & Hr)|(m & Hc & _)];
    apply reconcileOVNCentralState_cases in Hc as (err' & Ho & Hl); [|done].
  injection Ho as <-. destruct err as [err|]; [destruct Hr as [-> ->]; by eexists|].
  apply runs_call in Hr as (err & -> & ->).
  exists err. split; [done|]. intros ->. exists t1. auto.
Qed.

(** The cleanup a deleted node needs, depending on whether its address is
    recorded as the address of a master. *)
Definition node_cleanup (config : Configuration) (ip : string) (t : trace callE) : Prop :=
  exists tm tc, t = tm ++ tc /\
    (if slices_Contains (st_MatchingNodeAddresses (cfg_Status config)) ip
     then master_cleanup config ip tm else tm = []) /\
    chassis_cleanup ip tc.

(** Every run of the deletion of a node: it returns, and either it patched
    nothing, or it did the whole cleanup and then removed the finalizer. *)
Lemma reconcileNodeDeletion_cases config node t o :
  runs (reconcileNodeDeletion r config node) t o ->
  exists err, o = Done (emptyResult, err) /\
    (none_of (@is_PatchNode _) t \/
     exists tc, node_cleanup config (nodeInternalIP node) tc /\
       nodeInternalIP node <> "" /\
       ContainsFinalizer (om_Finalizers (node_meta node)) KubeOVNNodeFinalizer = true /\
       t = tc ++ [Obs (PatchNode node (node_set_Finalizers node
             (RemoveFinalizer (om_Finalizers (node_meta node)) KubeOVNNodeFinalizer))) err]).
Proof.
  unfold reconcileNodeDeletion. case_bool_decide as Hip.
  { intros [-> ->]. eexists. split; [done|]. left. constructor. }
  rewrite runs_bind. intros [(err & t1 & t2 & -> & Hm & Hr)|(m & Hm & _)]; last first.
  { destruct (slices_Contains _ _) in Hm; [|by destruct Hm as [_ [=]]].
    by apply cleanupMaster_cases in Hm as (? & [=] & _). }
  assert (Hm' : none_of (@is_PatchNode _) t1 /\ (err = None ->
    if slices_Contains (st_MatchingNodeAddresses (cfg_Status config)) (nodeInternalIP node)
    then master_cleanup config (nodeInternalIP node) t1 else t1 = [])).
  { destruct (slices_Contains _ _).
    - split; [by eapply only_none_of, Hm; apply only_cleanupMaster|].
      apply cleanupMaster_cases in Hm as (err' & [= ->] & Hm). done.
    - destruct Hm as [-> _]. split; [constructor|done]. }
  destruct Hm' as [Hn Hm']. destruct err as [err|].
  { destruct Hr as [-> ->]. rewrite app_nil_r. eauto. }
  rewrite runs_bind in Hr. destruct Hr as [(err & t3 & t4 & -> & Hc & Hr)|(m & Hc & _)]; last first.
  { by apply reconcileOVSOVNState_cases in Hc as (? & [=] & _). }
  assert (Hn3 : none_of (@is_PatchNode _) t3)
    by (eapply only_none_of, Hc; apply only_reconcileOVSOVNState).
  apply reconcileOVSOVNState_cases in Hc as (err' & [= <-] & Hc).
  destruct err as [err|].
  { destruct Hr as [-> ->]. rewrite app_nil_r. eexists. split; [done|]. left.
    by apply none_of_app. }
  destruct (ContainsFinalizer _ _) eqn:Hf.
  - rewrite runs_bind in Hr. destruct Hr as [(err & t5 & t6 & -> & Hp & Hr)|(m & Hp & _)]; last first.
    { by apply runs_call in Hp as (? & _ & [=]). }
    apply runs_call in Hp as (e & -> & [= <-]). destruct Hr as [-> ->].
    exists err. split; [done|]. right. exists (t1 ++ t3). split_and!; [|done..|].
    + exists t1, t3. split_and!; [done|by apply Hm'|by apply Hc].
    + by rewrite app_nil_r, app_assoc.
  - destruct Hr as [-> ->]. rewrite app_nil_r. eexists. split; [done|]. left.
    by apply none_of_app.
Qed.

End cleanup.

(** ** The handler *)

Section reconcile.
Context `{KL : KubeLib, KW : !KubeLaws, CS : !CleanupScripts} (r : NodeReconciler).
Let config_key := mkNamespacedName (nr_Namespace r) DefaultConfigurationName.

(** The rest of the handler once the Configuration was read. *)
Lemma reconcileNode_cases node t o :
  runs (reconcileNode r node) t o ->
  exists res t', t = Obs (GetConfiguration config_key) res :: t' /\
    match res with
    | Err err =>
        t' = [] /\ o = Done (emptyResult, if IsNotFound err then None else Some err)
    | Ok config =>
        match om_DeletionTimestamp (cfg_meta config), om_DeletionTimestamp (node_meta node) with
        | Some _, _ => t' = [] /\ o = Done (emptyResult, None)
        | None, None =>
            if ContainsFinalizer (om_Finalizers (node_meta node)) KubeOVNNodeFinalizer
            then t' = [] /\ o = Done (emptyResult, None)
            else exists e,
              t' = [Obs (PatchNode node (node_set_Finalizers node
                      (AddFinalizer (om_Finalizers (node_meta node)) KubeOVNNodeFinalizer))) e] /\
              o = Done (emptyResult, e)
        | None, Some _ => runs (reconcileNodeDeletion r config node) t' o
        end
    end.
Proof.
  unfold reconcileNode, fetchKubeovnConfig. cbn -[reconcileNodeDeletion].
  intros (res & t' & -> & Hr). exists res, t'. split; [done|].
  destruct res as [err|config].
  - by destruct (IsNotFound err); destruct Hr as [-> ->].
  - destruct (om_DeletionTimestamp (cfg_meta config)); [done|].
    destruct (om_DeletionTimestamp (node_meta node)); [done|].
    destruct (ContainsFinalizer _ _); cbn in Hr; [done|].
    destruct Hr as (e & t'' & -> & -> & ->). by exists e.
Qed.

(** C7: the order of the cleanup. Whenever the controller patches a node that
    is being deleted, the run is: the reads of the node and of a Configuration
    not being deleted; then, exactly when the node's internal address is
    recorded as a master's, the northbound and the southbound cleanup scripts
    of that address, each run with success on the unique leader pod of its
    database, and a successful status patch that removes the address; then, for
    every node, a successful run of the chassis script, which is given the
    internal address; and last the patch, which removes the operator's finalizer
    and changes nothing else. *)
Theorem Reconcile_releases_cleaned_node req t o base new e :
  runs (NodeController.Reconcile r req) t o ->
  In (Obs (PatchNode base new) e) t ->
  om_DeletionTimestamp (node_meta base) <> None ->
  exists config tc,
    t = Obs (GetNode req) (Ok base) :: Obs (GetConfiguration config_key) (Ok config) ::
        tc ++ [Obs (PatchNode base new) e] /\
    om_DeletionTimestamp (cfg_meta config) = None /\
    nodeInternalIP base <> "" /\
    node_cleanup r config (nodeInternalIP base) tc /\
    new = node_set_Finalizers base
      (RemoveFinalizer (om_Finalizers (node_meta base)) KubeOVNNodeFinalizer) /\
    o = Done (emptyResult, e).
Proof.
  unfold NodeController.Reconcile. cbn -[reconcileNode].
  intros (got & t1 & -> & Hr) Hin Hdel.
  destruct Hin as [Hin|Hin].
  { by apply (f_equal (call_of (@is_PatchNode _))) in Hin. }
  assert (Hcase : exists node, runs (reconcileNode r node) t1 o /\
    (got = Ok node \/ om_DeletionTimestamp (node_meta node) = None)).
  { destruct got as [err|node]; [|by eauto].
    destruct (IsNotFound err); [|by eauto]. by destruct Hr as [-> _]. }
  clear Hr. destruct Hcase as (node & Hr & Hgot).
  apply reconcileNode_cases in Hr as (res & t' & -> & Hr).
  destruct Hin as [Hin|Hin].
  { by apply (f_equal (call_of (@is_PatchNode _))) in Hin. }
  destruct res as [err|config]; [by destruct Hr as [-> _]|].
  destruct (om_DeletionTimestamp (cfg_meta config)) eqn:Hcd; [by destruct Hr as [-> _]|].
  destruct (om_DeletionTimestamp (node_meta node)) eqn:Hnd; last first.
  { destruct (ContainsFinalizer _ _); [by destruct Hr as [-> _]|].
    destruct Hr as (e' & -> & _). destruct Hin as [Hin|[]].
    apply (f_equal patched_node) in Hin. injection Hin as -> _. done. }
  destruct Hgot as [->|?]; [|done].
  apply reconcileNodeDeletion_cases in Hr as (err & -> & [Hn|(tc & Hc & Hip & Hf & ->)]).
  { apply list_elem_of_In in Hin. unfold none_of in Hn. rewrite Forall_forall in Hn.
    by apply Hn in Hin. }
  apply in_app_or in Hin as [Hin|[Hin|[]]].
  { exfalso. destruct Hc as (tm & tk & -> & Hm & Hk).
    assert (Hnone : none_of (@is_PatchNode _) (tm ++ tk)).
    { apply none_of_app. split; [|by eapply chassis_cleanup_no_patch].
      destruct (slices_Contains _ _); [|subst; constructor].
      destruct Hm as (tc & (nb & sb & tn & ts & _ & _ & Hn & Hs & ->) & ->).
      rewrite !none_of_app. split_and!; try by eapply leader_exec_no_patch.
      repeat constructor. }
    apply list_elem_of_In in Hin. unfold none_of in Hnone. rewrite Forall_forall in Hnone.
    by apply Hnone in Hin. }
  pose proof (f_equal patched_node Hin) as Hp. injection Hp as -> <-.
  assert (err = e) as ->.
  { pose proof (f_equal patch_answer Hin) as Hp. by injection Hp. }
  exists config, tc. auto 7.
Qed.

(** C31: every node gets the finalizer. A run that reads a node which is not
    being deleted and lacks the operator's finalizer, and a Configuration that
    is not being deleted, is those two reads and one patch that adds the
    finalizer and nothing else, whatever the labels of the node and the label
    selector of the Configuration; a node that has the finalizer is not
    touched. *)
Theorem Reconcile_marks_every_node req node config t o :
  runs (NodeController.Reconcile r req)
    (Obs (GetNode req) (Ok node) :: Obs (GetConfiguration config_key) (Ok config) :: t) o ->
  om_DeletionTimestamp (node_meta node) = None ->
  om_DeletionTimestamp (cfg_meta config) = None ->
  (KubeOVNNodeFinalizer ∈ om_Finalizers (node_meta node) /\ t = [] /\ o = Done (emptyResult, None))
  \/ ((KubeOVNNodeFinalizer ∉ om_Finalizers (node_meta node)) /\
      (exists new e, t = [Obs (PatchNode node new) e] /\ o = Done (emptyResult, e) /\
        (forall f, f ∈ om_Finalizers (node_meta new) <->
           f = KubeOVNNodeFinalizer \/ f ∈ om_Finalizers (node_meta node)) /\
        node_set_Finalizers new (om_Finalizers (node_meta node)) = node)).
Proof.
  unfold NodeController.Reconcile. cbn -[reconcileNode]. intros (got & t1 & Ht & Hr) Hnd Hcd.
  assert (got = Ok node) as ->.
  { pose proof (f_equal (fun t => omap node_answer (take 1 t)) Ht) as Hx. cbn in Hx. by injection Hx. }
  apply (f_equal tail) in Ht. cbn in Ht. subst t1.
  apply reconcileNode_cases in Hr as (res & t' & Ht & Hr).
  assert (res = Ok config) as ->.
  { pose proof (f_equal (fun t => omap configuration_answer (take 1 t)) Ht) as Hx.
    by injection Hx. }
  apply (f_equal tail) in Ht. cbn in Ht. subst t'.
  rewrite Hcd, Hnd in Hr. pose proof (ContainsFinalizer_spec (om_Finalizers (node_meta node))
    KubeOVNNodeFinalizer) as Hspec.
  destruct (ContainsFinalizer _ _).
  - left. split; [by apply Hspec|done].
  - right. split; [by intros ?%Hspec|]. destruct Hr as (e & -> & ->).
    do 2 eexists. split_and!; [done|done|apply AddFinalizer_spec|]. by destruct node as [[]].
Qed.

(** C35: a failed chassis cleanup is silent. When a node carrying the finalizer
    is being deleted and its address is not recorded as a master's, every run
    that does not get to release the node, whatever failed, reports success
    and asks for no requeue: the node keeps its finalizer and nothing retries. *)
Theorem reconcileNodeDeletion_silent_failure config node t o :
  runs (reconcileNodeDeletion r config node) t o ->
  nodeInternalIP node <> "" ->
  nodeInternalIP node ∉ st_MatchingNodeAddresses (cfg_Status config) ->
  KubeOVNNodeFinalizer ∈ om_Finalizers (node_meta node) ->
  none_of (@is_PatchNode _) t ->
  o = Done (emptyResult, None).
Proof.
  intros Hr Hip Hnm Hf Hn. apply ContainsFinalizer_spec in Hf.
  unfold reconcileNodeDeletion in Hr. rewrite (bool_decide_eq_false_2 _ Hip) in Hr.
  unfold slices_Contains in Hr. rewrite (bool_decide_eq_false_2 _ Hnm), Hf in Hr.
  cbn [bind] in Hr. rewrite runs_bind in Hr.
  destruct Hr as [(err & t1 & t2 & -> & Hc & Hr)|(m & Hc & _)];
    apply reconcileOVSOVNState_cases in Hc as (err' & [= <-] & Hc).
  destruct err as [err|]; [by destruct Hr as [_ ->]|].
  rewrite runs_bind in Hr. destruct Hr as [(e & t3 & t4 & -> & Hp & _)|(m & Hp & _)];
    apply runs_call in Hp as (? & -> & ?); [|done].
  apply none_of_app in Hn as [_ Hn]. by apply none_of_cons in Hn as [? _].
Qed.

(** C36: a failed read of the node is not noticed. When the server answers the
    read of the node with an error other than NotFound and the Configuration
    is live, the run goes on with an empty node: it patches the node with the
    empty name, adding the finalizer to it, and never reports the error of
    the read. *)
Theorem Reconcile_ignores_read_error req err config t o :
  runs (NodeController.Reconcile r req)
    (Obs (GetNode req) (Err err) :: Obs (GetConfiguration config_key) (Ok config) :: t) o ->
  IsNotFound err = false ->
  om_DeletionTimestamp (cfg_meta config) = None ->
  exists new e, t = [Obs (PatchNode emptyNode new) e] /\ o = Done (emptyResult, e) /\
    om_Name (node_meta new) = "" /\ KubeOVNNodeFinalizer ∈ om_Finalizers (node_meta new).
Proof.
  unfold NodeController.Reconcile. cbn -[reconcileNode]. intros (got & t1 & Ht & Hr) Herr Hcd.
  assert (got = Err err) as ->.
  { pose proof (f_equal (fun t => omap node_answer (take 1 t)) Ht) as Hx. cbn in Hx. by injection Hx. }
  apply (f_equal tail) in Ht. cbn in Ht. subst t1. rewrite Herr in Hr.
  apply reconcileNode_cases in Hr as (res & t' & Ht & Hr).
  assert (res = Ok config) as ->.
  { pose proof (f_equal (fun t => omap configuration_answer (take 1 t)) Ht) as Hx.
    by injection Hx. }
  apply (f_equal tail) in Ht. cbn in Ht. subst t'. rewrite Hcd in Hr. cbn in Hr.
  destruct (ContainsFinalizer [] _) eqn:Hf.
  { apply ContainsFinalizer_spec in Hf. by apply not_elem_of_nil in Hf. }
  destruct Hr as (e & -> & ->). do 2 eexists. split_and!; [done..|].
  cbn. apply AddFinalizer_spec. auto.
Qed.

End reconcile.

(** ** removeElement *)

Lemma last_cons_Some (rest : list string) x : last (x :: rest) = Some (List.last rest x).
Proof.
  revert x. induction rest as [|y rest IH]; intros x; [done|].
  change (last (x :: y :: rest)) with (last (y :: rest)). rewrite IH. f_equal.
  clear IH. destruct rest as [|z rest]; [done|]. cbn [List.last].
  revert z. induction rest as [|w rest IH]; intros z; [done|]. apply IH.
Qed.

(** C22: [removeElement] removes the first occurrence and nothing else: the
    rest keeps its order, and an absent element leaves the list as it is. The
    slice of the caller is spliced in place: it reads the result followed by
    its old last element. *)
Theorem removeElement_spec elements element :
  let '(result, backing) := removeElement elements element in
  (element ∈ elements ->
     exists l1 l2, elements = l1 ++ element :: l2 /\ (element ∉ l1) /\ result = l1 ++ l2 /\
       exists d, last elements = Some d /\ backing = result ++ [d]) /\
  (element ∉ elements -> result = elements /\ backing = elements) /\
  length backing = length elements.
Proof.
  induction elements as [|x rest IH]; cbn [removeElement].
  { split_and!; [by intros ?%not_elem_of_nil|done..]. }
  case_bool_decide as Hx.
  - subst x. split_and!.
    + intros _. exists [], rest. split_and!; [done|apply not_elem_of_nil|done|].
      exists (List.last rest element). split; [|done]. apply last_cons_Some.
    + set_solver.
    + rewrite length_app. cbn. lia.
  - destruct (removeElement rest element) as [result backing]. destruct IH as (H1 & H2 & H3).
    split_and!.
    + intros Hin. assert (element ∈ rest) as Hr by set_solver.
      destruct (H1 Hr) as (l1 & l2 & -> & Hn & -> & d & Hl & ->).
      exists (x :: l1), l2. split_and!; [done|set_solver|done|].
      exists d. split; [|done]. by destruct l1.
    + intros Hn. destruct H2 as [-> ->]; [set_solver|done].
    + cbn. lia.
Qed.
