(* ===== verification/HealthFacts.v ===== *)
(** * Theorems on the health check controller

    When a check runs, what it leaves in the conditions, where its commands
    run, and the arithmetic of the interval. *)

From S2P Require Import Prelude GoLib Effects KubeApi ConfigTypes Calls Executor.
From S2P Require Import ConfigurationController NodeController HealthCheck TestServer NodeFacts.
Local Open Scope kube_scope.

(** ** The interval *)

Section interval.
Context `{KL : KubeLib} (r : HealthCheckReconciler).
Local Open Scope Z_scope.

(** The largest interval, in seconds, that a [time.Duration] can hold. *)
Definition max_interval : Z := 9223372036.

Lemma interval_value :
  0 <= hr_HealthCheckInterval r <= max_interval ->
  interval r = hr_HealthCheckInterval r * time_Second.
Proof.
  unfold interval, Duration_mul, max_interval, time_Second. intros H.
  apply int64_wrap_id. unfold int64_min, int64_max. lia.
Qed.

(** C24: when a check is due. For an interval of 0 to 9223372036 seconds a check
    is due exactly when strictly more than that many seconds passed since the
    last transition of the condition ovnNorthDBLeaderFound; when the condition
    is missing, the zero time stands for it. Beyond that bound, and up to twice
    it, the multiplication of the duration wraps around: the interval is
    negative and a check is always due at or after the last transition. *)
Theorem interval_passed_spec (config : Configuration) (now : Time) :
  let last := if ConditionExists config OVNNBLeaderFound
              then c_LastTransitionTime (LookupCondition config OVNNBLeaderFound)
              else zeroTime in
  (0 <= hr_HealthCheckInterval r <= max_interval ->
     interval_passed r config now = true <->
     last + hr_HealthCheckInterval r * time_Second < now) /\
  (max_interval < hr_HealthCheckInterval r <= 2 * max_interval + 1 -> last <= now ->
     interval r < 0 /\ interval_passed r config now = true).
Proof.
  intros last.
  assert (Hlast : c_LastTransitionTime (LookupCondition config OVNNBLeaderFound) = last).
  { unfold last, ConditionExists, LookupCondition. by destruct (find_first _ _). }
  unfold interval_passed. rewrite Hlast. split.
  - intros H. rewrite interval_value by done. unfold Time_Before, Time_Add.
    by rewrite Z.ltb_lt.
  - intros H Hnow.
    assert (Hneg : interval r < 0).
    { unfold interval, Duration_mul, max_interval, time_Second, int64_wrap in *.
      replace (hr_HealthCheckInterval r * 1000000000 + 2 ^ 63) with
        ((hr_HealthCheckInterval r * 1000000000 - 2 ^ 63) + 1 * 2 ^ 64) by lia.
      rewrite Z_mod_plus_full, Z.mod_small by lia. lia. }
    split; [done|]. unfold Time_Before, Time_Add. rewrite Z.ltb_lt. lia.
Qed.

End interval.

(** ** The checks *)

(** The arguments of an exec, and the answer of a listing of pods. *)
Definition exec_call `{KubeLib} (o : obs callE) :
    option (string * string * string * list string) :=
  match o with
  | Obs (ExecPod n p ct cmd) _ => Some (n, p, ct, cmd)
  | _ => None
  end.
Definition pods_answer `{KubeLib} (o : obs callE) : option (res error (list Pod)) :=
  match o with
  | Obs e r =>
      match e in callE X return X -> option (res error (list Pod)) with
      | ListPods _ _ => fun r => Some r
      | _ => fun _ => None
      end r
  end.

Section checks.
Context `{KL : KubeLib} (r : HealthCheckReconciler).
Let ns := hr_Namespace r.

(** The status, message and reason of a leader condition. *)
Definition leader_result (missing : string) (pods : list Pod) :
    ConditionStatus * string * string :=
  match pods with
  | [] => (ConditionFalse, missing, LeaderNotFound)
  | pod :: _ => (ConditionTrue, "northbound leader found " +:+ om_Name (pod_meta pod), LeaderFound)
  end.

Definition missing_northbound : string :=
  "no pods matching northbound leader label requirements found".
Definition missing_southbound : string :=
  "no pods matching southbound leader label requirements found".

Lemma runs_checkLeader c ty missing pods t o :
  runs (checkLeader c ty missing pods) t o ->
  exists now status msg reason,
    t = [Obs Now now] /\
    o = Done (SetCondition now c ty status msg reason, negb (bool_decide (pods = []))) /\
    leader_result missing pods = (status, msg, reason).
Proof.
  unfold checkLeader. destruct pods as [|p pods]; cbn;
    intros (now & t' & -> & -> & ->); do 4 eexists; split_and!; reflexivity.
Qed.

Lemma runs_checkDB run script label ty c t o :
  runs (checkDB r run script label ty c) t o ->
  if run then exists result err now t0,
      runs (executeOVNCentralCommand script label ns) t0 (Done (result, err)) /\
      t = t0 ++ [Obs Now now] /\
      o = Done (SetCondition now c ty
                  (match err with Some _ => ConditionFalse | None => ConditionTrue end)
                  result DBHealth)
  else t = [] /\ o = Done c.
Proof.
  unfold checkDB. destruct run; [|done]. rewrite runs_bind.
  intros [(out & t1 & t2 & -> & Hc & Hr)|(m & Hc & _)]; last first.
  { by apply executeOVNCentralCommand_cases in Hc as (? & ? & [=] & _). }
  destruct out as [result [err|]]; apply runs_setCondition in Hr as (now & -> & ->).
  - by exists result, (Some err), now, t1.
  - by exists result, None, now, t1.
Qed.

(** The shape of every run of the checks. *)
Definition db_step (run : bool) (script : string) (ty : string) (c c' : Configuration)
    (t : trace callE) : Prop :=
  if run then exists result err now t0,
      runs (executeOVNCentralCommand script SBLeaderLabel ns) t0 (Done (result, err)) /\
      t = t0 ++ [Obs Now now] /\
      c' = SetCondition now c ty
             (match err with Some _ => ConditionFalse | None => ConditionTrue end) result DBHealth
  else t = [] /\ c' = c.

Lemma db_step_runs (run : bool) script ty c c' t :
  (if run then exists result err now t0,
      runs (executeOVNCentralCommand script SBLeaderLabel ns) t0 (Done (result, err)) /\
      t = t0 ++ [Obs Now now] /\
      Done c' = Done (SetCondition now c ty
                  (match err with Some _ => ConditionFalse | None => ConditionTrue end)
                  result DBHealth)
   else t = [] /\ Done c' = Done c) ->
  db_step run script ty c c' t.
Proof.
  unfold db_step. destruct run.
  - intros (x & e & n & t0 & Hx & -> & Hc). injection Hc as Hc. by exists x, e, n, t0.
  - intros [-> Hc]. injection Hc as Hc. done.
Qed.

Lemma reconcileOVNDBHealth_cases c t o :
  runs (reconcileOVNDBHealth r c) t o ->
  exists now t', t = Obs Now now :: t' /\
    if negb (interval_passed r c now) then t' = [] /\ o = Done (c, None) else
    (exists err c', o = Done (c', Some err) /\ none_of (@is_ExecPod _) t) \/
    (exists seln sels nb sb t1 t2 n1 n2 s1 s2 m1 m2 k1 k2 c2 c3 c',
       labels_Parse NBLeaderLabel = Ok seln /\ labels_Parse SBLeaderLabel = Ok sels /\
       t' = Obs (ListPods seln ns) (Ok nb) :: Obs Now n1 ::
            Obs (ListPods sels ns) (Ok sb) :: Obs Now n2 :: t1 ++ t2 /\
       leader_result missing_northbound nb = (s1, m1, k1) /\
       leader_result missing_southbound sb = (s2, m2, k2) /\
       c2 = SetCondition n2 (SetCondition n1 c OVNNBLeaderFound s1 m1 k1)
              OVNSBLeaderFound s2 m2 k2 /\
       db_step (negb (bool_decide (nb = []))) NBCheckScript OVNNBDBHealth c2 c3 t1 /\
       db_step (negb (bool_decide (sb = []))) SBCheckScript OVNSBDBHealth c3 c' t2 /\
       o = Done (c', None)).
Proof.
  unfold reconcileOVNDBHealth, checkNeeded. cbn [bind call]. cbn -[podList checkLeader checkDB bind].
  intros (now & t' & -> & Hr). exists now, t'. split; [done|].
  destruct (interval_passed r c now); cbn [negb] in Hr |- *; [|done].
  rewrite runs_bind in Hr. destruct Hr as [(nb & t1 & t2 & -> & Hp & Hr)|(m & Hp & _)]; last first.
  { apply runs_podList in Hp as [(? & _ & _ & [=])|(? & ? & _ & _ & [=])]. }
  apply runs_podList in Hp as [(err & Hl & -> & [= ->])|(seln & res & Hn & -> & [= <-])].
  { destruct Hr as [-> ->]. left. do 2 eexists. split; [done|]. repeat constructor. }
  destruct nb as [err|nb].
  { destruct Hr as [-> ->]. left. do 2 eexists. split; [done|]. repeat constructor. }
  rewrite runs_bind in Hr. destruct Hr as [(l1 & t1 & t3 & -> & Hc & Hr)|(m & Hc & _)]; last first.
  { by apply runs_checkLeader in Hc as (? & ? & ? & ? & _ & [=] & _). }
  apply runs_checkLeader in Hc as (n1 & s1 & m1 & k1 & -> & [= ->] & Hs1).
  rewrite runs_bind in Hr. destruct Hr as [(sb & t1 & t4 & -> & Hp & Hr)|(m & Hp & _)]; last first.
  { apply runs_podList in Hp as [(? & _ & _ & [=])|(? & ? & _ & _ & [=])]. }
  apply runs_podList in Hp as [(err & Hl & -> & [= ->])|(sels & res & Hs & -> & [= <-])].
  { destruct Hr as [-> ->]. left. do 2 eexists. split; [done|]. repeat constructor. }
  destruct sb as [err|sb].
  { destruct Hr as [-> ->]. left. do 2 eexists. split; [done|]. repeat constructor. }
  rewrite runs_bind in Hr. destruct Hr as [(l2 & t1 & t5 & -> & Hc & Hr)|(m & Hc & _)]; last first.
  { by apply runs_checkLeader in Hc as (? & ? & ? & ? & _ & [=] & _). }
  apply runs_checkLeader in Hc as (n2 & s2 & m2 & k2 & -> & [= ->] & Hs2).
  right.
  rewrite runs_bind in Hr. destruct Hr as [(c3 & t1 & t6 & -> & Hd & Hr)|(m & Hd & _)]; last first.
  { apply runs_checkDB in Hd. destruct (negb _) in Hd; [|by destruct Hd as [_ [=]]].
    by destruct Hd as (? & ? & ? & ? & _ & _ & [=]). }
  rewrite runs_bind in Hr. destruct Hr as [(c4 & t2 & t7 & -> & Hd2 & Hr)|(m & Hd2 & _)]; last first.
  { apply runs_checkDB in Hd2. destruct (negb _) in Hd2; [|by destruct Hd2 as [_ [=]]].
    by destruct Hd2 as (? & ? & ? & ? & _ & _ & [=]). }
  destruct Hr as [-> ->]. apply runs_checkDB in Hd, Hd2.
  exists seln, sels, nb, sb, t1, t2, n1, n2, s1, s2, m1, m2, k1, k2. eexists. exists c3, c4.
  split_and!; [done|done| |done|done|reflexivity| | |reflexivity].
  - cbn. by rewrite app_nil_r.
  - by apply db_step_runs.
  - by apply db_step_runs.
Qed.

Lemma with_Conditions_SetCondition now c ty s m k l :
  with_Conditions (SetCondition now c ty s m k) l = with_Conditions c l.
Proof. done. Qed.

Lemma with_Conditions_id c : with_Conditions c (st_Conditions (cfg_Status c)) = c.
Proof. by destruct c as [? ? []]. Qed.

Definition ok_status {A} (err : option A) : ConditionStatus :=
  match err with Some _ => ConditionFalse | None => ConditionTrue end.

(** What a database step leaves. *)
Lemma db_step_other run script ty c c' t ty' :
  db_step run script ty c c' t -> ty <> ty' -> LookupCondition c' ty' = LookupCondition c ty'.
Proof.
  unfold db_step. destruct run; [|by intros [_ ->]].
  intros (x & e & n & t0 & _ & _ & ->) Hne. by apply LookupCondition_SetCondition_ne.
Qed.

Lemma db_step_frame run script ty c c' t :
  db_step run script ty c c' t ->
  (forall l, with_Conditions c' l = with_Conditions c l) /\ (conditions_wf c -> conditions_wf c').
Proof.
  unfold db_step. destruct run; [|by intros [_ ->]].
  intros (x & e & n & t0 & _ & _ & ->). split; [done|apply conditions_wf_SetCondition].
Qed.

(** What a command reports, read off the answer of its exec: the standard
    output of a success, the standard error of a failure, and a failure without
    output when no exec was reached. *)
Definition command_result (t : trace callE) : ConditionStatus * string :=
  match exec_answers t with
  | [(None, out, _)] => (ConditionTrue, out)
  | [(Some _, _, errOut)] => (ConditionFalse, errOut)
  | _ => (ConditionFalse, "")
  end.

Lemma exec_answers_none t : none_of (@is_ExecPod _) t -> exec_answers t = [].
Proof.
  unfold exec_answers. induction 1 as [|[X e x] t He _ IH]; [done|].
  cbn. rewrite IH. by destruct e.
Qed.

Lemma command_reports script label t result err :
  runs (executeOVNCentralCommand script label ns) t (Done (result, err)) ->
  command_result t = (ok_status err, result).
Proof.
  intros (out & e & Ho & [Hs Hn] & _)%executeOVNCentralCommand_cases. injection Ho as <- <-.
  destruct (decide (some_of (@is_ExecPod _) t)) as [Hsome|Hnone].
  - destruct (Hs Hsome) as (sel & p & e & so & se & _ & -> & He & ->). unfold command_result. cbn.
    destruct e as [e|], err as [err|]; cbn; try done; exfalso; naive_solver.
  - assert (Hno : none_of (@is_ExecPod _) t).
    { apply Forall_forall. intros ob Hin. destruct (call_of (@is_ExecPod _) ob) eqn:Hob; [|done].
      exfalso. apply Hnone, Exists_exists. eauto. }
    destruct (Hn Hno) as [-> He]. unfold command_result. rewrite exec_answers_none by done.
    by destruct err.
Qed.

(** What the check of one database leaves, and the part of the trace it makes:
    nothing without a leader; with one, a command and the reading of the clock,
    and the condition says what the command reported. *)
Definition checked (leaders : list Pod) (script ty : string) (c c' : Configuration)
    (t : trace callE) : Prop :=
  match leaders with
  | [] => t = [] /\ LookupCondition c' ty = LookupCondition c ty
  | _ :: _ => exists t0 now out,
      t = t0 ++ [Obs Now now] /\
      runs (executeOVNCentralCommand script SBLeaderLabel ns) t0 (Done out) /\
      LookupCondition c' ty =
        mkCondition ty (command_result t0).1 (om_Generation (cfg_meta c)) now DBHealth
          (command_result t0).2
  end.

Lemma db_step_checked leaders script ty c c' t :
  db_step (negb (bool_decide (leaders = []))) script ty c c' t -> checked leaders script ty c c' t.
Proof.
  unfold db_step, checked. destruct leaders as [|p leaders]; cbn; [by intros [-> ->]|].
  intros (x & e & n & t0 & Hx & -> & ->). exists t0, n, (x, e). split; [done|]. split; [done|].
  rewrite LookupCondition_SetCondition, (command_reports _ _ _ _ _ Hx). done.
Qed.

(** The same between objects that agree on that condition. *)
Lemma checked_between leaders script ty c0 c c1 c' t :
  checked leaders script ty c c1 t -> LookupCondition c ty = LookupCondition c0 ty ->
  cfg_meta c = cfg_meta c0 -> LookupCondition c' ty = LookupCondition c1 ty ->
  checked leaders script ty c0 c' t.
Proof.
  intros Hc H0 Hm H1. unfold checked in *. rewrite <- Hm, H1, <- H0. exact Hc.
Qed.

(** The condition of one leader. *)
Definition leader_condition (ty missing : string) (pods : list Pod) (c : Configuration)
    (now : Time) : Condition :=
  let '(status, msg, reason) := leader_result missing pods in
  mkCondition ty status (om_Generation (cfg_meta c)) now reason msg.

(** C11: what a check leaves in the conditions. A run of the check that returns
    no error either found the check not due, and then changed nothing and made
    no call but the reading of the clock; or its trace is the listings of the
    leader pods of both databases, each followed by a reading of the clock, and
    then the part [t1] of the northbound check and the part [t2] of the
    southbound one. Each leader condition is True, with the name of the first
    pod, exactly when a leader was listed. A database without a leader runs
    nothing and keeps its health condition. Each other one runs its command, and
    its health condition is the answer of the exec in that part of the trace:
    True with the standard output of an exec that succeeded, False with the
    standard error of one that failed, False with an empty message when no exec
    was reached. No other condition and no other part of the object changes, and
    one condition per type stays one condition per type. *)
Theorem reconcileOVNDBHealth_spec c t c' :
  runs (reconcileOVNDBHealth r c) t (Done (c', None)) ->
  (exists now, t = [Obs Now now] /\ interval_passed r c now = false /\ c' = c) \/
  (exists now seln sels nb sb n1 n2 t1 t2,
     interval_passed r c now = true /\
     labels_Parse NBLeaderLabel = Ok seln /\ labels_Parse SBLeaderLabel = Ok sels /\
     t = Obs Now now :: Obs (ListPods seln ns) (Ok nb) :: Obs Now n1 ::
         Obs (ListPods sels ns) (Ok sb) :: Obs Now n2 :: t1 ++ t2 /\
     LookupCondition c' OVNNBLeaderFound =
       leader_condition OVNNBLeaderFound missing_northbound nb c n1 /\
     LookupCondition c' OVNSBLeaderFound =
       leader_condition OVNSBLeaderFound missing_southbound sb c n2 /\
     checked nb NBCheckScript OVNNBDBHealth c c' t1 /\
     checked sb SBCheckScript OVNSBDBHealth c c' t2 /\
     (forall ty, ty ∉ [OVNNBLeaderFound; OVNSBLeaderFound; OVNNBDBHealth; OVNSBDBHealth] ->
        LookupCondition c' ty = LookupCondition c ty) /\
     with_Conditions c' (st_Conditions (cfg_Status c)) = c /\
     (conditions_wf c -> conditions_wf c')).
Proof.
  intros (now & t' & -> & Hr)%reconcileOVNDBHealth_cases.
  destruct (interval_passed r c now) eqn:Hi; cbn [negb] in Hr; last first.
  { destruct Hr as [-> Hc]. injection Hc as ->. left. by exists now. }
  right. destruct Hr as [(err & c0 & [=] & _)|Hr].
  destruct Hr as (seln & sels & nb & sb & t1 & t2 & n1 & n2 & s1 & s2 & m1 & m2 & k1 & k2 & c2 & c3 &
    c4 & Hn & Hs & -> & Hs1 & Hs2 & Hc2 & Hd1 & Hd2 & Ho).
  injection Ho as <-.
  destruct (db_step_frame _ _ _ _ _ _ Hd1) as [Hf1 Hw1].
  destruct (db_step_frame _ _ _ _ _ _ Hd2) as [Hf2 Hw2].
  assert (Ho1 : forall ty, OVNNBDBHealth <> ty -> LookupCondition c3 ty = LookupCondition c2 ty)
    by (intros; by eapply db_step_other).
  assert (Ho2 : forall ty, OVNSBDBHealth <> ty -> LookupCondition c' ty = LookupCondition c3 ty)
    by (intros; by eapply db_step_other).
  apply db_step_checked in Hd1, Hd2.
  exists now, seln, sels, nb, sb, n1, n2, t1, t2.
  split_and!; [done|done|done|done|..].
  - rewrite Ho2, Ho1 by done. subst c2. unfold leader_condition. rewrite Hs1.
    by rewrite LookupCondition_SetCondition_ne, LookupCondition_SetCondition by done.
  - rewrite Ho2, Ho1 by done. subst c2. unfold leader_condition. rewrite Hs2.
    by rewrite LookupCondition_SetCondition.
  - eapply checked_between; [exact Hd1| | |].
    + subst c2. by rewrite !LookupCondition_SetCondition_ne by done.
    + by subst c2.
    + by apply Ho2.
  - eapply checked_between; [exact Hd2| | |done].
    + rewrite Ho1 by done. subst c2. by rewrite !LookupCondition_SetCondition_ne by done.
    + pose proof (f_equal cfg_meta (Hf1 [])) as Hm. cbn in Hm. rewrite Hm. by subst c2.
  - intros ty Hty. rewrite Ho2, Ho1 by set_solver. subst c2.
    by rewrite !LookupCondition_SetCondition_ne by set_solver.
  - rewrite Hf2, Hf1. subst c2. rewrite !with_Conditions_SetCondition. apply with_Conditions_id.
  - intros Hwf. apply Hw2, Hw1. subst c2. auto using conditions_wf_SetCondition.
Qed.

(** The execs of a successful or failed command: on the only pod listed. *)
Lemma exec_on_listed_pod script label t o n p ct cmd x :
  runs (executeOVNCentralCommand script label ns) t o ->
  In (Obs (ExecPod n p ct cmd) x) t ->
  exists sel q, labels_Parse label = Ok sel /\ In (Obs (ListPods sel ns) (Ok [q])) t /\
    n = om_Namespace (pod_meta q) /\ p = om_Name (pod_meta q) /\
    cmd = ["/bin/sh"; "-c"; script].
Proof.
  intros (out & err & _ & [He _] & _)%executeOVNCentralCommand_cases Hin.
  destruct He as (sel & q & e & so & se & Hl & -> & _).
  { apply Exists_exists. eexists. split; [by apply list_elem_of_In|done]. }
  exists sel, q. destruct Hin as [Hin|[Hin|[Hin|[]]]].
  1,2: by apply (f_equal (call_of (@is_ExecPod _))) in Hin.
  pose proof (f_equal exec_call Hin) as Hx. injection Hx as <- <- <- <-.
  split_and!; [done|by left|done..].
Qed.

Lemma db_step_execs run script ty c c' t n p ct cmd x :
  db_step run script ty c c' t -> In (Obs (ExecPod n p ct cmd) x) t ->
  exists sel q, labels_Parse SBLeaderLabel = Ok sel /\ In (Obs (ListPods sel ns) (Ok [q])) t /\
    n = om_Namespace (pod_meta q) /\ p = om_Name (pod_meta q) /\
    cmd = ["/bin/sh"; "-c"; script].
Proof.
  unfold db_step. destruct run; [|by intros [-> _]].
  intros (res & e & now & t0 & Hx & -> & _) Hin.
  apply in_app_or in Hin as [Hin|[Hin|[]]].
  - destruct (exec_on_listed_pod _ _ _ _ _ _ _ _ _ Hx Hin) as (sel & q & Hl & Hi & H).
    exists sel, q. split; [done|]. split; [by apply in_or_app; left|done].
  - by apply (f_equal (call_of (@is_ExecPod _))) in Hin.
Qed.

Lemma db_step_no_leader run script ty c c' t :
  db_step run script ty c c' t ->
  (forall sel n items, labels_Parse SBLeaderLabel = Ok sel ->
     In (Obs (ListPods sel n) (Ok items)) t -> items = []) ->
  none_of (@is_ExecPod _) t /\
  (run = true -> c_Status (LookupCondition c' ty) = ConditionFalse /\
     c_Message (LookupCondition c' ty) = "").
Proof.
  unfold db_step. destruct run; [|intros [-> ->]; split; [constructor|done]].
  intros (res & e & now & t0 & Hx & -> & ->) Hno.
  assert (Hn : none_of (@is_ExecPod _) t0).
  { apply Forall_forall. intros [X cl a] Hin%list_elem_of_In.
    destruct cl; try done. exfalso.
    destruct (exec_on_listed_pod _ _ _ _ _ _ _ _ _ Hx Hin) as (sel & q & Hl & Hi & _).
    by assert ([q] = []) by (eapply Hno; [done|apply in_or_app; left; done]). }
  split; [apply none_of_app; split; [done|repeat constructor]|intros _].
  apply executeOVNCentralCommand_cases in Hx as (out & err & Ho & [_ He] & _).
  injection Ho as -> ->. destruct (He Hn) as [-> Hne].
  rewrite LookupCondition_SetCondition. by destruct err.
Qed.

(** C37: the northbound check asks the southbound leader. Every command the
    check runs, the northbound one included, runs in a pod that carries the
    southbound leader label. In particular a run with a northbound leader
    but without a southbound leader runs no command at all and marks the
    northbound database unhealthy, with an empty message. *)
Theorem northbound_check_asks_southbound_leader c t o :
  runs (reconcileOVNDBHealth r c) t o ->
  (forall n p ct cmd x, In (Obs (ExecPod n p ct cmd) x) t ->
     exists sel q, labels_Parse SBLeaderLabel = Ok sel /\ In (Obs (ListPods sel ns) (Ok [q])) t /\
       n = om_Namespace (pod_meta q) /\ p = om_Name (pod_meta q) /\
       (cmd = ["/bin/sh"; "-c"; NBCheckScript] \/ cmd = ["/bin/sh"; "-c"; SBCheckScript])) /\
  (forall c' now seln nb n1 t',
     t = Obs Now now :: Obs (ListPods seln ns) (Ok nb) :: Obs Now n1 :: t' ->
     o = Done (c', None) -> nb <> [] ->
     (forall sel n items, labels_Parse SBLeaderLabel = Ok sel ->
        In (Obs (ListPods sel n) (Ok items)) t' -> items = []) ->
     none_of (@is_ExecPod _) t /\
     c_Status (LookupCondition c' OVNNBDBHealth) = ConditionFalse /\
     c_Message (LookupCondition c' OVNNBDBHealth) = "").
Proof.
  intros (now & t' & -> & Hr)%reconcileOVNDBHealth_cases.
  destruct (interval_passed r c now); cbn [negb] in Hr; last first.
  { destruct Hr as [-> ->]. split.
    - intros n p ct cmd x [Hin|[]]. by apply (f_equal (call_of (@is_ExecPod _))) in Hin.
    - by intros c' now' seln nb n1 t' [=]. }
  destruct Hr as [(err & c0 & -> & Hn)|Hr].
  { split; [|by intros c' now' seln nb n1 t'' _ [=]].
    intros n p ct cmd x Hin. exfalso. unfold none_of in Hn. rewrite Forall_forall in Hn.
    by apply list_elem_of_In, Hn in Hin. }
  destruct Hr as (seln & sels & nb & sb & t1 & t2 & n1 & n2 & s1 & s2 & m1 & m2 & k1 & k2 & c2 & c3 &
    c4 & Hn & Hs & -> & Hs1 & Hs2 & Hc2 & Hd1 & Hd2 & ->).
  split.
  - intros n p ct cmd x Hin.
    destruct Hin as [Hin|[Hin|[Hin|[Hin|[Hin|Hin]]]]].
    1-5: by apply (f_equal (call_of (@is_ExecPod _))) in Hin.
    apply in_app_or in Hin as [Hin|Hin].
    + destruct (db_step_execs _ _ _ _ _ _ _ _ _ _ _ Hd1 Hin) as (sel & q & Hl & Hi & -> & -> & ->).
      exists sel, q. split_and!; auto. do 5 right. apply in_or_app. auto.
    + destruct (db_step_execs _ _ _ _ _ _ _ _ _ _ _ Hd2 Hin) as (sel & q & Hl & Hi & -> & -> & ->).
      exists sel, q. split_and!; auto. do 5 right. apply in_or_app. auto.
  - intros c' now' seln' nb' n1' t' Ht Ho Hne Hno. injection Ho as <-.
    assert (nb' = nb) as ->.
    { pose proof (f_equal (fun t => omap pods_answer (take 2 t)) Ht) as Hx. cbn in Hx.
      by injection Hx. }
    pose proof (f_equal (drop 3) Ht) as Hd. cbn in Hd. rewrite drop_0 in Hd. subst t'. clear Ht.
    destruct (db_step_no_leader _ _ _ _ _ _ Hd1) as [Hn1 Hh].
    { intros sel n items Hl Hi. eapply Hno; [done|]. do 2 right. apply in_or_app. eauto. }
    destruct (db_step_no_leader _ _ _ _ _ _ Hd2) as [Hn2 _].
    { intros sel n items Hl Hi. eapply Hno; [done|]. do 2 right. apply in_or_app. eauto. }
    split.
    + rewrite !none_of_cons, none_of_app. auto 10.
    + rewrite (db_step_other _ _ _ _ _ _ _ Hd2) by done. apply Hh.
      by rewrite bool_decide_eq_false_2.
Qed.

Lemma reconcileOVNDBHealth_frame c t c' :
  runs (reconcileOVNDBHealth r c) t (Done (c', None)) ->
  with_Conditions c' (st_Conditions (cfg_Status c)) = c /\ (conditions_wf c -> conditions_wf c').
Proof.
  intros (now & t' & -> & Hr)%reconcileOVNDBHealth_cases.
  destruct (interval_passed r c now); cbn [negb] in Hr; last first.
  { destruct Hr as [-> Hc]. injection Hc as ->. split; [apply with_Conditions_id|done]. }
  destruct Hr as [(err & c0 & [=] & _)|Hr].
  destruct Hr as (? & ? & nb & sb & t1 & t2 & n1 & n2 & s1 & s2 & m1 & m2 & k1 & k2 & c2 & c3 &
    c4 & _ & _ & _ & _ & _ & Hc2 & Hd1 & Hd2 & Ho).
  injection Ho as <-.
  destruct (db_step_frame _ _ _ _ _ _ Hd1) as [Hf1 Hw1].
  destruct (db_step_frame _ _ _ _ _ _ Hd2) as [Hf2 Hw2].
  split.
  - rewrite Hf2, Hf1, Hc2, !with_Conditions_SetCondition. apply with_Conditions_id.
  - intros Hwf. apply Hw2, Hw1. rewrite Hc2. auto using conditions_wf_SetCondition.
Qed.

(** A check patches no status itself. *)
Lemma only_reconcileOVNDBHealth c :
  only (fun X e => is_status_patch e = false) (reconcileOVNDBHealth r c).
Proof.
  unfold reconcileOVNDBHealth, checkNeeded, checkLeader, checkDB, executeOVNCentralCommand,
    podList, NewRemoteCommandExecutor, Run.
  repeat first [progress solve_only | case_bool_decide].
Qed.

(** Calls that check the databases or write. *)
Definition is_check {X} (e : callE X) : bool :=
  match e with
  | ListPods _ _ => true
  | _ => is_write e
  end.

Definition checkable (c : Configuration) : bool :=
  match om_DeletionTimestamp (cfg_meta c) with
  | Some _ => false
  | None => bool_decide (st_Status (cfg_Status c) = ConfigurationStatusDeployed)
  end.

Lemma checkable_spec c :
  checkable c = true <->
  om_DeletionTimestamp (cfg_meta c) = None /\
  st_Status (cfg_Status c) = ConfigurationStatusDeployed.
Proof.
  unfold checkable. destruct (om_DeletionTimestamp _).
  - split; [done|by intros [[=] _]].
  - rewrite bool_decide_eq_true. tauto.
Qed.

(** The shape of every run of the handler. *)
Lemma HealthCheck_Reconcile_cases req t o :
  runs (HealthCheck.Reconcile r req) t o ->
  (exists got err, t = [Obs (GetConfiguration req) got] /\ o = Done (emptyResult, err) /\
     forall c, got = Ok c -> checkable c = false) \/
  (exists c c' err t1, checkable c = true /\ runs (reconcileOVNDBHealth r c) t1 (Done (c', err)) /\
     match err with
     | Some err => t = Obs (GetConfiguration req) (Ok c) :: t1 /\
         exists e, o = Done (emptyResult, Some e)
     | None =>
         (st_Conditions (cfg_Status c') = st_Conditions (cfg_Status c) /\
          t = Obs (GetConfiguration req) (Ok c) :: t1 /\ o = Done (mkResult (interval r), None)) \/
         (st_Conditions (cfg_Status c') <> st_Conditions (cfg_Status c) /\ exists e,
          t = Obs (GetConfiguration req) (Ok c) :: t1 ++ [Obs (PatchConfigurationStatus c c') e] /\
          o = Done (match e with Some _ => emptyResult | None => mkResult (interval r) end, e))
     end).
Proof.
  unfold HealthCheck.Reconcile. cbn -[reconcileOVNDBHealth].
  intros (got & t1 & -> & Hr). destruct got as [err|c].
  { left. exists (Err err). destruct (IsNotFound err); destruct Hr as [-> ->]; by eexists. }
  pose proof (checkable_spec c) as Hck. unfold checkable in *.
  destruct (om_DeletionTimestamp (cfg_meta c)) as [d|] eqn:Hd.
  { left. destruct Hr as [-> ->]. exists (Ok c), None. split_and!; [done..|].
    intros c' [= <-]. by rewrite Hd. }
  case_bool_decide as Hst; cbn [negb] in Hr; last first.
  { left. destruct Hr as [-> ->]. exists (Ok c), None. split_and!; [done..|].
    intros c' [= <-]. by rewrite Hd, bool_decide_eq_false_2. }
  right. rewrite runs_bind in Hr.
  destruct Hr as [([c' err] & t2 & t3 & -> & Hc & Hr)|(m & Hc & _)]; last first.
  { apply reconcileOVNDBHealth_cases in Hc as (now & t' & _ & Hc).
    destruct (negb _) in Hc; [by destruct Hc as [_ [=]]|].
    destruct Hc as [(? & ? & [=] & _)|Hc].
    by destruct Hc as (? & ? & ? & ? & ? & ? & ? & ? & ? & ? & ? & ? & ? & ? & ? & ? & ? & Hc);
      destruct Hc as (_ & _ & _ & _ & _ & _ & _ & _ & [=]). }
  exists c, c', err, t2. rewrite Hd, bool_decide_eq_true_2 by done. split_and!; [done|done|].
  destruct err as [err|].
  { destruct Hr as [-> ->]. rewrite app_nil_r. split; [done|by eexists]. }
  case_bool_decide as He; cbn in Hr.
  - destruct Hr as [-> ->]. rewrite app_nil_r. auto.
  - right. split; [done|]. destruct Hr as (e & t4 & -> & Hr). exists e.
    destruct e as [e|]; by destruct Hr as [-> ->].
Qed.

(** A check reads the clock, and stops there when it is not due. *)
Lemma check_gate c t c' err :
  runs (reconcileOVNDBHealth r c) t (Done (c', err)) ->
  exists now t', t = Obs Now now :: t' /\
    (t' <> [] \/ st_Conditions (cfg_Status c') <> st_Conditions (cfg_Status c) ->
     interval_passed r c now = true).
Proof.
  intros (now & t' & -> & Hc)%reconcileOVNDBHealth_cases. exists now, t'. split; [done|].
  destruct (interval_passed r c now); [done|].
  cbn [negb] in Hc. destruct Hc as [-> Ho]. injection Ho as -> _. by intros [?|?].
Qed.

Lemma check_no_status_patch c t o base new e :
  runs (reconcileOVNDBHealth r c) t o -> ~ In (Obs (PatchConfigurationStatus base new) e) t.
Proof.
  intros Hc Hin.
  assert (Hnp : none_of (@is_status_patch _) t)
    by (eapply only_none_of, Hc; apply only_reconcileOVNDBHealth).
  unfold none_of in Hnp. rewrite Forall_forall in Hnp. by apply list_elem_of_In, Hnp in Hin.
Qed.

(** C10: the gates and the effect of a health check. A run that lists pods,
    runs a command or writes started by fetching a Configuration that is not
    being deleted and is marked Deployed, and by reading a clock for which a
    check is due. A status patch is the last call of its run, and changes the
    conditions of the fetched object and nothing else. A run without an error
    asks to be requeued after the interval if it fetched such an object, and
    for nothing otherwise. *)
Theorem HealthCheck_Reconcile_spec req t o :
  runs (HealthCheck.Reconcile r req) t o ->
  (some_of (@is_check) t -> exists c now t',
     t = Obs (GetConfiguration req) (Ok c) :: Obs Now now :: t' /\
     om_DeletionTimestamp (cfg_meta c) = None /\
     st_Status (cfg_Status c) = ConfigurationStatusDeployed /\
     interval_passed r c now = true) /\
  (forall base new e, In (Obs (PatchConfigurationStatus base new) e) t ->
     exists t', t = Obs (GetConfiguration req) (Ok base) :: t' ++
                    [Obs (PatchConfigurationStatus base new) e] /\
     st_Conditions (cfg_Status new) <> st_Conditions (cfg_Status base) /\
     with_Conditions new (st_Conditions (cfg_Status base)) = base /\
     (conditions_wf base -> conditions_wf new)) /\
  (forall res, o = Done (res, None) ->
     (exists c t', t = Obs (GetConfiguration req) (Ok c) :: t' /\
        om_DeletionTimestamp (cfg_meta c) = None /\
        st_Status (cfg_Status c) = ConfigurationStatusDeployed /\ res = mkResult (interval r)) \/
     (res = emptyResult /\ exists a, t = [Obs (GetConfiguration req) a])).
Proof.
  intros [(got & err & -> & -> & _)|Hr]%HealthCheck_Reconcile_cases.
  { split_and!.
    - by intros [?|?%Exists_nil]%Exists_cons.
    - intros base new e [Hin|[]]. by apply (f_equal (call_of (@is_status_patch _))) in Hin.
    - intros res Ho. injection Ho as <- _. right. eauto. }
  destruct Hr as (c & c' & err & t1 & Hck & Hc & Hr).
  apply checkable_spec in Hck as [Hd Hst].
  assert (Hin1 : forall b n e, In (Obs (PatchConfigurationStatus b n) e) t1 -> False)
    by (intros b n e; exact (check_no_status_patch _ _ _ _ _ _ Hc)).
  destruct (check_gate _ _ _ _ Hc) as (now & t2 & -> & Hgate).
  destruct err as [err|]; [|destruct Hr as [(He & -> & ->)|(He & e & -> & ->)]].
  - destruct Hr as [-> [e ->]]. split_and!.
    + intros [?|Hs]%Exists_cons; [done|]. exists c, now, t2. split_and!; try done. apply Hgate.
      left. intros ->. by apply Exists_cons in Hs as [?|?%Exists_nil].
    + intros b n e' [Hin|Hin]; [|by apply Hin1 in Hin].
      by apply (f_equal (call_of (@is_status_patch _))) in Hin.
    + by intros res [=].
  - split_and!.
    + intros [?|Hs]%Exists_cons; [done|]. exists c, now, t2. split_and!; try done. apply Hgate.
      left. intros ->. by apply Exists_cons in Hs as [?|?%Exists_nil].
    + intros b n e' [Hin|Hin]; [|by apply Hin1 in Hin].
      by apply (f_equal (call_of (@is_status_patch _))) in Hin.
    + intros res Ho. injection Ho as <-. left. by exists c, (Obs Now now :: t2).
  - destruct (reconcileOVNDBHealth_frame _ _ _ Hc) as [Hf Hw]. split_and!.
    + intros _. exists c, now. eexists. split_and!; [reflexivity|done|done|]. apply Hgate. by right.
    + intros b n e' [Hin|Hin]; [by apply (f_equal (call_of (@is_status_patch _))) in Hin|].
      apply in_app_or in Hin as [Hin|[Hin|[]]]; [by apply Hin1 in Hin|].
      exists (Obs Now now :: t2). rewrite <- Hin.
      pose proof (f_equal status_patch Hin) as Hx. injection Hx as -> ->. done.
    + intros res Ho. destruct e; [done|]. injection Ho as <-. left.
      exists c. by eexists.
Qed.

End checks.
