(* ===== verification/RenderFacts.v ===== *)
(** * Theorems on the rendering of the objects

    How a part of a template reaches the output, and templates that read values
    nobody sets. *)

From Stdlib Require Import Ascii.
From S2P Require Import Prelude GoLib Effects KubeApi ConfigTypes Calls.
From S2P Require Import ConfigurationController NodeController TextTemplate TemplateText.
From S2P Require Import TemplatesRBAC TemplatesDeployments TemplatesDaemonSets TemplatesServices.
From S2P Require Import Render TemplateCheck RenderValues.
Local Open Scope kube_scope.
Local Open Scope string_scope.

(** ** Parts of an output *)

Section parts.
Context `{KL : KubeLib, RL : !RenderLib, RW : !RenderLaws}.
Let fm := with_builtins render_functions.

(** The text of a template, parsed, and its node at a position. *)
Definition template_node (t : string) (k : nat) : option node :=
  match Parse (function_names render_functions) t with
  | Ok l => nth_error l k
  | Err _ => None
  end.

Lemma walk_all_app l1 l2 dot vs vs' out :
  walk_all (walk fm) (l1 ++ l2)%list dot vs = Ok (vs', out) ->
  exists vs1 o1 o2, walk_all (walk fm) l1 dot vs = Ok (vs1, o1) /\
    walk_all (walk fm) l2 dot vs1 = Ok (vs', o2) /\ out = o1 +:+ o2.
Proof.
  revert vs out. induction l1 as [|n l1 IH]; intros vs out; cbn [app walk_all].
  - intros H. by exists vs, "", out.
  - destruct (walk fm n dot vs) as [e|[vs1 o1]]; cbn [res_bind fst snd]; [done|].
    destruct (walk_all _ (l1 ++ l2)%list dot vs1) as [e|[vs2 o2]] eqn:Hw; cbn [res_bind fst snd]; [done|].
    intros [= -> <-]. destruct (IH _ _ Hw) as (vs3 & o3 & o4 & -> & H2 & ->). cbn [res_bind fst snd].
    exists vs3, (o1 +:+ o3), o4. by rewrite append_assoc.
Qed.

(** A text and the action after it are found in the output. *)
Lemma rendered_part t k a n v vals out :
  renderTemplate t vals = Done (Ok out) ->
  template_node t k = Some (NText a) -> template_node t (S k) = Some n ->
  (forall vs, exists vs', walk fm n (Some (VMap vals)) vs = Ok (vs', v)) ->
  exists before after, out = before +:+ a +:+ v +:+ after.
Proof.
  unfold renderTemplate, template_node, Execute.
  destruct (Parse _ t) as [e|nodes]; [done|]. intros Hout Ha Hn Hv.
  apply nth_error_split in Ha as (l1 & l2 & -> & <-).
  rewrite nth_error_app2 in Hn by lia.
  replace (S (length l1) - length l1) with 1 in Hn by lia. cbn in Hn.
  destruct l2 as [|n' l2]; [done|]. injection Hn as ->.
  destruct (walk_all _ _ _ _) as [e|[vs' o]] eqn:Hw; cbn in Hout; [done|]. injection Hout as <-.
  apply walk_all_app in Hw as (vs1 & o1 & o2 & _ & Hw & ->). cbn [walk_all walk res_bind fst snd] in Hw.
  destruct (Hv vs1) as [vs2 Hn]. rewrite Hn in Hw. cbn [res_bind fst snd] in Hw.
  destruct (walk_all _ l2 _ _) as [e|[vs3 o3]]; cbn [res_bind fst snd] in Hw; [done|].
  injection Hw as _ <-. by exists o1, o3.
Qed.

(** An action that reads a chain of fields. *)
Lemma walk_field path data vs v :
  evalFieldChain false data path = Ok v ->
  walk fm (NAction (mkPipe NoDecl [[EField path]])) data vs = Ok (vs, print_rvalue (dig v)).
Proof. intros H. cbn. by rewrite H. Qed.

Definition is_string (s : string) (x : rvalue) : bool :=
  match x with Some (VString y) => String.eqb y s | _ => false end.

(** A conditional on a string field, which may be missing. *)
Lemma walk_if_eq path s x thn els data vs :
  evalFieldChain false data path = Ok x -> (x = None \/ exists y, x = Some (VString y)) ->
  walk fm (NIf (mkPipe NoDecl [[EIdent "eq"; EField path; EStr s]]) thn els) data vs =
  res_bind (walk_all (walk fm)
              (if is_string s x then thn else els) data vs)
    (fun r => Ok (popTo (length vs) r.1, r.2)).
Proof.
  intros Hx Hs. cbn [walk evalPipe p_cmds pipeline evalCommand map evalArg]. rewrite Hx.
  assert (Heq : f_eq [AVal x; AVal (Some (VString s))] = Ok (Some (VBool (is_string s x)))).
  { destruct Hs as [->|[y ->]]; [done|]. unfold f_eq. cbn [map arg_value dig eq_any].
    rewrite eq_values_strings. cbn [res_bind is_string]. by destruct (String.eqb y s). }
  unfold evalCall. cbn -[f_eq walk_all walk res_bind]. cbn [res_bind]. rewrite Heq. reflexivity.
Qed.

Lemma popTo_refl (vs : list (string * rvalue)) : popTo (length vs) vs = vs.
Proof. unfold popTo. by rewrite Nat.sub_diag. Qed.

Lemma values_chain V rest path :
  evalFieldChain false (Some (VMap (("Values", VMap V) :: rest))) ("Values" :: path) =
  evalFieldChain false (Some (VMap V)) path.
Proof. by rewrite evalFieldChain_cons. Qed.

(** The sub-map of a struct field of the spec. *)
Lemma struct_chain config caCert k l path :
  In (k, FStruct l) (ConfigurationSpec_fields (cfg_Spec config)) ->
  negb (existsb (String.eqb k) ["namespace"; "caCert"; "MASTER_NODES"]) = true ->
  evalFieldChain false (Some (VMap (value_fields config caCert))) (k :: path) =
  evalFieldChain false (Some (VMap (encode_fields l))) path.
Proof.
  intros Hin Hk. rewrite evalFieldChain_cons. cbn [evalField].
  rewrite value_field by done.
  by rewrite (encode_field _ _ (FStruct l)), encode_struct by (apply spec_names_distinct || done).
Qed.

End parts.

(** ** Values nobody sets *)

Section unset.
Context `{KL : KubeLib, RL : !RenderLib, RW : !RenderLaws}.

(** A configuration whose pointers are set, rendered for a version. *)
Definition rendered_as (config : Configuration) (version caCert t out : string) : Prop :=
  exists vals, renderValues (with_Tag config version) caCert = Done (Ok vals) /\
    renderTemplate t vals = Done (Ok out).

Lemma rendered_values config version caCert t out :
  rendered_as config version caCert t out ->
  exists ipsec,
    renderTemplate t
      [("Values", VMap (value_fields (with_Tag config version) caCert));
       ("kubeovn", VMap (include_fields (with_Tag config version) ipsec))] = Done (Ok out).
Proof.
  intros (vals & Hv & Ht).
  destruct (comp_EnableOVNIPSec (spec_Component (cfg_Spec (with_Tag config version)))) as [ipsec|]
    eqn:Hip.
  - rewrite (renderValues_eq _ caCert _ Hip) in Hv. injection Hv as <-. by exists ipsec.
  - exfalso. revert Hv. unfold renderValues, generateIncludeValues. rewrite Hip.
    unfold SetNestedField_ctx.
    by destruct (SetNestedField _ _ _) as [e|m]; [|destruct (SetNestedField m _ _)].
Qed.

(** A number that is zero is missing from its struct. *)
Lemma zero_int_missing l k z :
  names_distinct (FStruct l) = true -> In (k, FInt z) l -> z = 0%Z ->
  evalFieldChain false (Some (VMap (encode_fields l))) [k] = Ok None.
Proof. intros Hn Hin ->. cbn. by rewrite (encode_field _ _ _ Hn Hin). Qed.

(** An interval of zero is rendered as a missing value. The API accepts 0
    for the garbage collection interval (its minimum), but every tag of the
    spec has omitempty, so the value never reaches the template: the
    kube-ovn-controller deployment of such a Configuration passes the flag
    [--gc-interval=<no value>]. *)
Lemma zero_gc_interval_rendered_as_no_value config version caCert out :
  perf_GCInterval (spec_Performance (cfg_Spec config)) = 0%Z ->
  rendered_as config version caCert kube_ovn_controller_deployment out ->
  exists before after, out = before +:+ "--gc-interval=<no value>" +:+ after.
Proof.
  intros Hgc (ipsec & Hr)%rendered_values.
  destruct (rendered_part kube_ovn_controller_deployment 73 "
          - --logtostderr=false
          - --alsologtostderr=true
          - --gc-interval="
    (NAction (mkPipe NoDecl [[EField ["Values"; "performance"; "gcInterval"]]]))
    "<no value>" _ _ Hr) as (x & y & ->); [by vm_compute|by vm_compute| |].
  - intros vs. exists vs.
    rewrite (walk_field _ _ _ None); [done|].
    rewrite values_chain.
    rewrite (struct_chain _ _ _ (PerformanceSpec_fields (spec_Performance (cfg_Spec config))));
      [|cbn; tauto|done].
    apply (zero_int_missing _ _ (perf_GCInterval (spec_Performance (cfg_Spec config))));
      [by vm_compute|cbn; tauto|done].
  - exists (x +:+ "
          - --logtostderr=false
          - --alsologtostderr=true
          - "), y. by rewrite !append_assoc.
Qed.

(** The OpenFlow probe interval is never passed on. The ovs-ovn daemon set
    reads [networking.ovnRemoteOpenFlowInterval], but the JSON name of the field
    is [ovnRemoteOpenflowInterval]: whatever the Configuration, the environment
    variable OVN_REMOTE_OPENFLOW_INTERVAL of the daemon set is [<no value>]. *)
Lemma openflow_interval_never_rendered config version caCert out :
  rendered_as config version caCert ovs_ovn_daemonset out ->
  exists before after,
    out = before +:+ tpl "- name: OVN_REMOTE_OPENFLOW_INTERVAL
              value: ^<no value>" +:+ after.
Proof.
  intros (ipsec & Hr)%rendered_values.
  destruct (rendered_part ovs_ovn_daemonset 45 (tpl "^
            - name: OVN_REMOTE_OPENFLOW_INTERVAL
              value: ^")
    (NAction (mkPipe NoDecl [[EField ["Values"; "networking"; "ovnRemoteOpenFlowInterval"]]]))
    "<no value>" _ _ Hr) as (x & y & ->); [by vm_compute|by vm_compute| |].
  - intros vs. exists vs.
    rewrite (walk_field _ _ _ None); [done|].
    rewrite values_chain.
    rewrite (struct_chain _ _ _ (NetworkingSpec_fields (spec_Networking (cfg_Spec config))));
      [|cbn; tauto|done].
    cbn [evalFieldChain evalField]. rewrite assoc_encode_fields_None; [done|].
    apply (bool_decide_unpack _). by vm_compute.
  - exists (x +:+ tpl "^
            "), y. by rewrite !append_assoc.
Qed.

(** The action of that argument: the branch of the dual stack, and the others. *)
Definition dual_stack_else : list node :=
  let when stack := mkPipe NoDecl
    [[EIdent "eq"; EField ["Values"; "networking"; "netStack"]; EStr stack]] in
  let range stack := [NAction (mkPipe NoDecl [[EField ["Values"; stack; "serviceCIDR"]]])] in
  [NIf (when "ipv4") (range "ipv4") [NIf (when "ipv6") (range "ipv6") []]].
Definition dual_stack_range : node :=
  NIf (mkPipe NoDecl
         [[EIdent "eq"; EField ["Values"; "networking"; "netStack"]; EStr "dual_stack"]])
    [NAction (mkPipe NoDecl [[EField ["Values"; "dual_stack"; "serviceCIDR"]]])] dual_stack_else.

(** In dual stack the CNI daemon set reads [dual_stack.serviceCIDR], which no
    field has (the JSON name is [dualStack]). *)
Lemma dual_stack_service_range_missing config version caCert out :
  net_NetStack (spec_Networking (cfg_Spec config)) = "dual_stack" ->
  rendered_as config version caCert kube_ovn_cni_daemonset out ->
  exists before after, out = before +:+ "--service-cluster-ip-range=<no value>" +:+ after.
Proof.
  intros Hns (ipsec & Hr)%rendered_values.
  destruct (rendered_part kube_ovn_cni_daemonset 42 "
          - --encap-checksum=true
          - --service-cluster-ip-range=" dual_stack_range "<no value>" _ _ Hr) as (x & y & ->);
    [by vm_compute|by vm_compute| |].
  - intros vs. exists vs. unfold dual_stack_range.
    rewrite (walk_if_eq _ _ (Some (VString "dual_stack"))); [|..|right; by eexists].
    + cbn [is_string]. rewrite String.eqb_refl. cbn [walk_all].
      rewrite (walk_field _ _ _ None).
      * cbn [res_bind fst snd]. by rewrite popTo_refl.
      * rewrite values_chain, evalFieldChain_cons. cbn [evalField].
        rewrite value_field by done. rewrite assoc_encode_fields_None; [done|].
        apply (bool_decide_unpack _). by vm_compute.
    + rewrite values_chain.
      rewrite (struct_chain _ _ _ (NetworkingSpec_fields (spec_Networking (cfg_Spec config))));
        [|cbn; tauto|done].
      cbn [evalFieldChain evalField].
      rewrite (encode_field _ _ (FString (net_NetStack (spec_Networking (cfg_Spec config)))));
        [|apply networking_names_distinct|cbn; tauto].
      by rewrite Hns.
  - exists (x +:+ "
          - --encap-checksum=true
          - "), y. by rewrite !append_assoc.
Qed.

(** C39: three settings are lost, each in one manifest. In dual stack the daemon set
    kube-ovn-cni reads [dual_stack.serviceCIDR], but the JSON name of the field
    is [dualStack]: it passes [--service-cluster-ip-range=<no value>]. The
    daemon set ovs-ovn reads [ovnRemoteOpenFlowInterval], but the JSON name is
    [ovnRemoteOpenflowInterval]: OVN_REMOTE_OPENFLOW_INTERVAL is [<no value>],
    whatever the Configuration. And a garbage collection interval of zero,
    which the API allows, is dropped by omitempty before the rendering: the
    controller gets [--gc-interval=<no value>]. Other manifests read the first
    two under their right names: the deployment kube-ovn-controller the service
    range, the daemon set ovs-ovn-dpdk the OpenFlow interval. *)
Theorem values_lost_in_templates config version caCert out :
  (net_NetStack (spec_Networking (cfg_Spec config)) = "dual_stack" ->
   rendered_as config version caCert kube_ovn_cni_daemonset out ->
   exists before after, out = before +:+ "--service-cluster-ip-range=<no value>" +:+ after) /\
  (rendered_as config version caCert ovs_ovn_daemonset out ->
   exists before after,
     out = before +:+ tpl "- name: OVN_REMOTE_OPENFLOW_INTERVAL
              value: ^<no value>" +:+ after) /\
  (perf_GCInterval (spec_Performance (cfg_Spec config)) = 0%Z ->
   rendered_as config version caCert kube_ovn_controller_deployment out ->
   exists before after, out = before +:+ "--gc-interval=<no value>" +:+ after).
Proof.
  split_and!; [apply dual_stack_service_range_missing|apply openflow_interval_never_rendered
    |apply zero_gc_interval_rendered_as_no_value].
Qed.

End unset.
