(* ===== verification/RenderObjects.v ===== *)
(** * Theorems on GenerateObjects, the node affinity and the cleanup scripts

    The refinement of [GenerateObjects] to the decoding of the rendered texts,
    the objects a flag turns off, the text of the affinity and of the
    scripts. *)

From Stdlib Require Import Ascii.
From S2P Require Import Prelude GoLib Effects KubeApi ConfigTypes Calls.
From S2P Require Import ConfigurationController NodeController TextTemplate TemplateText.
From S2P Require Import TemplatesRBAC TemplatesDeployments TemplatesDaemonSets TemplatesServices.
From S2P Require Import Render TemplateCheck RenderValues RenderFacts.
Local Open Scope kube_scope.
Local Open Scope string_scope.

(** ** GenerateObjects *)

Section objects.
Context `{KL : KubeLib, RL : !RenderLib, RW : !RenderLaws}.

(** What the controller gets from the texts of one type: the objects of the
    non-empty ones, in order, or the error of the first that does not decode. *)
Fixpoint decode_all (ty : objectType) (texts : list string) : res error (list Object) :=
  match texts with
  | [] => Ok []
  | t :: rest =>
      if (String.length t =? 0)%nat then decode_all ty rest
      else
        match yaml_Unmarshal_object ty t with
        | Err e => Err (Errorf_v "error returned from generateTemplate: " (ELib e))
        | Ok o => objs <-? decode_all ty rest ; Ok (o :: objs)
        end
  end.

Lemma generateAll_decodes ty nty vals templates texts :
  InitialiseNewObject ty = Some nty ->
  Forall2 (fun t out => renderTemplate t vals = Done (Ok out)) templates texts ->
  generateAll templates vals ty = Done (decode_all nty texts).
Proof.
  intros Hty. induction 1 as [|t out templates texts Ht _ IH]; [done|].
  cbn [generateAll decode_all]. unfold generateObject. rewrite Hty, Ht.
  destruct (String.length out =? 0)%nat; [by rewrite IH; destruct (decode_all nty texts)|].
  destruct (yaml_Unmarshal_object nty out); [done|].
  rewrite IH. by destruct (decode_all nty texts).
Qed.

(** C8: [GenerateObjects] is the decoding of the rendered texts. For a
    Configuration that sets the two pointers and a master node label, an object
    type the operator knows and templates among [checked_templates] (all of the
    operator's but the TLS secret and the custom resource definitions), every
    template renders to a text and [GenerateObjects] does not panic: it returns
    the objects of the texts that are not empty, in the order of the templates,
    and its only error is a text that the YAML decoder refuses. *)
Theorem GenerateObjects_decodes templates config ty nty version caCert ipsec b :
  InitialiseNewObject ty = Some nty ->
  comp_EnableOVNIPSec (spec_Component (cfg_Spec config)) = Some ipsec ->
  comp_SecureServing (spec_Component (cfg_Spec config)) = Some b ->
  spec_MasterNodesLabel (cfg_Spec config) <> "" ->
  Forall (fun t => In t checked_templates) templates ->
  exists texts,
    Forall2 (fun t out => rendered_as config version caCert t out) templates texts /\
    Render_GenerateObjects templates config ty version caCert = Done (decode_all nty texts).
Proof.
  intros Hty Hip Hss Hl Hall. unfold Render_GenerateObjects, rendered_as.
  set (c := with_Tag config version). rewrite (renderValues_eq c caCert ipsec Hip).
  set (vals := [("Values", VMap (value_fields c caCert)); ("kubeovn", VMap (include_fields c ipsec))]).
  assert (Ht : exists texts,
    Forall2 (fun t out => renderTemplate t vals = Done (Ok out)) templates texts).
  { induction Hall as [|t l Hin _ [texts IH]]; [by exists []|].
    destruct (checked_renders c caCert ipsec b t Hss Hl Hin) as [out Hout].
    exists (out :: texts). by constructor. }
  destruct Ht as [texts Ht]. exists texts. split.
  - eapply Forall2_impl; [exact Ht|]. intros t out Hr. by exists vals.
  - by apply generateAll_decodes.
Qed.

(** C40: a missing [enableOVNIPSec] panics. The generator dereferences the
    pointer whatever the templates and the object type, so for a Configuration
    without it a rendering panics, and with it the deletion of that
    Configuration, before any call to the API server. *)
Theorem missing_ipsec_pointer_panics (r : ConfigurationReconciler) templates config ty version
    caCert t o :
  comp_EnableOVNIPSec (spec_Component (cfg_Spec config)) = None ->
  runs (deleteClusterScopedReference r config) t o ->
  let nil_pointer := "invalid memory address or nil pointer dereference" in
  Render_GenerateObjects templates config ty version caCert = Panicked nil_pointer /\
  t = [] /\ o = Panicked nil_pointer.
Proof.
  intros Hip Hr nil_pointer.
  assert (Hgen : forall l ty version caCert,
    Render_GenerateObjects l config ty version caCert = Panicked nil_pointer).
  { intros l ty' v ca. unfold Render_GenerateObjects, renderValues, generateIncludeValues.
    set (c := with_Tag config v).
    change (comp_EnableOVNIPSec (spec_Component (cfg_Spec c)))
      with (comp_EnableOVNIPSec (spec_Component (cfg_Spec config))). rewrite Hip.
    unfold SetNestedField_ctx, generateMap. by rewrite !SetNestedField_head. }
  split; [apply Hgen|]. revert Hr. unfold deleteClusterScopedReference. cbn [GenerateObjects operatorRenderer].
  rewrite Hgen. by intros [-> ->].
Qed.

End objects.

(** ** Objects a flag turns off *)

Section guards.
Context `{KL : KubeLib, RL : !RenderLib, RW : !RenderLaws}.
Let fm := with_builtins render_functions.

Definition prints_text (n : node) : bool :=
  match n with NText (String _ _) => true | _ => false end.

(** The whole template is a conditional on a field, whose branch has a text. *)
Definition guarded_by (t : string) (path : list string) : bool :=
  match Parse (function_names render_functions) t with
  | Ok [NIf (mkPipe NoDecl [[EField p]]) thn []] =>
      bool_decide (p = path) && existsb prints_text thn
  | _ => false
  end.

Lemma walk_all_text l dot vs vs' out :
  existsb prints_text l = true -> walk_all (walk fm) l dot vs = Ok (vs', out) -> out <> "".
Proof.
  intros (n & Hn & Ht)%existsb_exists. apply in_split in Hn as (l1 & l2 & ->).
  destruct n as [[|c a]|p|p thn els|p thn els|p thn els]; try discriminate.
  intros (vs1 & o1 & o2 & _ & Hw & ->)%walk_all_app. fold fm in Hw. revert Hw. cbn [walk_all walk res_bind fst snd].
  destruct (walk_all (walk fm) l2 dot vs1) as [e|[vs2 o]]; cbn [res_bind fst snd]; [done|].
  intros [= _ <-]. destruct o1; discriminate.
Qed.

Lemma guarded_by_inv t path :
  guarded_by t path = true ->
  exists thn, Parse (function_names render_functions) t =
    Ok [NIf (mkPipe NoDecl [[EField path]]) thn []] /\ existsb prints_text thn = true.
Proof.
  unfold guarded_by. intros H. repeat case_match; try discriminate.
  apply andb_true_iff in H as [->%bool_decide_eq_true H]. by eauto.
Qed.

Lemma guarded_render t path vals x out :
  guarded_by t path = true -> evalFieldChain false (Some (VMap vals)) path = Ok x ->
  renderTemplate t vals = Done (Ok out) -> (out = "" <-> truth (dig x) = false).
Proof.
  intros (thn & Hp & Ht)%guarded_by_inv Hx. unfold renderTemplate. rewrite Hp.
  unfold Execute. cbn [walk_all walk evalPipe p_cmds p_decl pipeline evalCommand].
  fold fm. rewrite Hx. cbn [res_bind bindVars].
  destruct (truth (dig x)); [|by intros [= <-]].
  destruct (walk_all (walk fm) thn _ _) as [e|[vs1 o]] eqn:Hw; cbn [res_bind fst snd]; [done|].
  intros [= <-]. apply walk_all_text in Hw; [|done]. by rewrite append_nil_r.
Qed.

Lemma bool_field_chain l k o :
  names_distinct (FStruct l) = true -> In (k, FBoolPtr o) l ->
  evalFieldChain false (Some (VMap (encode_fields l))) [k] = Ok (option_map VBool o).
Proof. intros Hn Hin. cbn. by rewrite (encode_field _ _ _ Hn Hin). Qed.

Lemma truth_bool_ptr o : truth (dig (option_map VBool o)) = default false o.
Proof. by destruct o. Qed.

(** The templates that are off unless a flag of the Configuration is true. *)
Definition optional_objects (config : Configuration) : list (string * option bool) :=
  [(ovn_ic_controller_deployment, comp_EnableIC (spec_Component (cfg_Spec config)));
   (ovs_ovn_dpdk_daemonset, spec_HybridDPDK (cfg_Spec config));
   (kube_ovn_tls_secret, net_EnableSSL (spec_Networking (cfg_Spec config)))].

(** C28: optional objects follow their flag. The OVN-IC controller, the DPDK
    daemon set and the TLS secret render to the empty text, which
    [generateObject] skips, exactly when [enableIC], [hybridDPDK] or
    [enableSSL] is not true in the Configuration (false or unset). *)
Theorem optional_objects_follow_flag config version caCert t flag out :
  In (t, flag) (optional_objects config) ->
  rendered_as config version caCert t out ->
  (out = "" <-> default false flag = false).
Proof.
  intros Hin (ipsec & Hr)%rendered_values. rewrite <- truth_bool_ptr.
  destruct Hin as [Ht|[Ht|[Ht|[]]]]; injection Ht as <- <-.
  - eapply (guarded_render ovn_ic_controller_deployment ["Values"; "components"; "enableIC"]); [by vm_compute| |exact Hr].
    rewrite values_chain.
    rewrite (struct_chain _ _ _ (ComponentSpec_fields (spec_Component (cfg_Spec config))));
      [|cbn; tauto|done].
    apply bool_field_chain; [apply component_names_distinct|cbn; tauto].
  - eapply (guarded_render ovs_ovn_dpdk_daemonset ["Values"; "hybridDPDK"]); [by vm_compute| |exact Hr].
    rewrite values_chain, evalFieldChain_cons. cbn [evalField]. rewrite value_field by done.
    rewrite (encode_field _ _ (FBoolPtr (spec_HybridDPDK (cfg_Spec config))));
      [done|apply spec_names_distinct|cbn; tauto].
  - eapply (guarded_render kube_ovn_tls_secret ["Values"; "networking"; "enableSSL"]); [by vm_compute| |exact Hr].
    rewrite values_chain.
    rewrite (struct_chain _ _ _ (NetworkingSpec_fields (spec_Networking (cfg_Spec config))));
      [|cbn; tauto|done].
    apply bool_field_chain; [apply networking_names_distinct|cbn; tauto].
Qed.

End guards.

(** ** The node affinity *)

Section affinity.
Context `{KL : KubeLib, RL : !RenderLib, RW : !RenderLaws}.

(** No occurrence of a character. *)
Fixpoint lacks (c : ascii) (s : string) : bool :=
  match s with
  | EmptyString => true
  | String c' s' => negb (Ascii.eqb c' c) && lacks c s'
  end.

Lemma strings_Split_lacks s sep : lacks sep s = true -> strings_Split s sep = [s].
Proof.
  induction s as [|c s IH]; [done|]. cbn. intros [Hc Hs]%andb_true_iff.
  apply negb_true_iff in Hc. by rewrite Hc, IH.
Qed.

Lemma strings_Split_app s s' sep :
  lacks sep s = true -> strings_Split (s +:+ String sep s') sep = s :: strings_Split s' sep.
Proof.
  induction s as [|c s IH]; intros H.
  - change (strings_Split (String sep s') sep = "" :: strings_Split s' sep). cbn [strings_Split].
    by rewrite Ascii.eqb_refl.
  - cbn in H. apply andb_true_iff in H as [Hc Hs]. apply negb_true_iff in Hc.
    change ((String c s +:+ String sep s')) with (String c (s +:+ String sep s')).
    cbn [strings_Split]. by rewrite Hc, IH.
Qed.

(** C25: the node affinity of the control plane. Without a label there is no
    affinity. A label [key] or [key=] asks for nodes that have the key,
    whatever its value; a label [key=val] asks for nodes whose key has exactly
    the value after the first equality sign, which may hold others; in each
    case the text is the YAML term, indented for its place. *)
Theorem generateMasterNodeAffinity_spec config key val :
  lacks "=" key = true -> val <> "" ->
  let label := spec_MasterNodesLabel (cfg_Spec config) in
  (label = "" -> generateMasterNodeAffinity config = Ok "") /\
  (label = key /\ key <> "" \/ label = key +:+ "=" ->
   generateMasterNodeAffinity config = Ok (tpl "nodeAffinity:
  requiredDuringSchedulingIgnoredDuringExecution:
    nodeSelectorTerms:
      - matchExpressions:
          - key: " +:+ key +:+ tpl "
            operator: Exists")) /\
  (label = key +:+ "=" +:+ val ->
   generateMasterNodeAffinity config = Ok (tpl "nodeAffinity:
  requiredDuringSchedulingIgnoredDuringExecution:
    nodeSelectorTerms:
      - matchExpressions:
          - key: " +:+ key +:+ tpl "
            operator: In
            values:
              - " +:+ sprig_quote [VString val])).
Proof.
  intros Hk Hv label. rewrite generateMasterNodeAffinity_eq. fold label. split_and!.
  - by intros ->.
  - intros Hl. assert (Hne : String.eqb label "" = false).
    { apply String.eqb_neq. destruct Hl as [[-> Hne]| ->]; [done|]. by destruct key. }
    rewrite Hne. f_equal. unfold affinity, affinity_head.
    destruct Hl as [[-> _]| ->].
    + by rewrite (strings_Split_lacks key "=" Hk), append_assoc.
    + change "=" with (String "=" ""). by rewrite (strings_Split_app key "" "=" Hk), append_assoc.
  - intros ->. assert (Hne : String.eqb (key +:+ "=" +:+ val) "" = false)
      by (apply String.eqb_neq; by destruct key).
    rewrite Hne. f_equal. unfold affinity, affinity_head, affinity_in.
    change ("=" +:+ val) with (String "=" val). rewrite (strings_Split_app key val "=" Hk).
    rewrite strings_Join_Split. apply String.eqb_neq in Hv. rewrite Hv. by rewrite append_assoc.
Qed.

End affinity.

(** ** The cleanup scripts *)

Section scripts.
Context `{KL : KubeLib, RL : !RenderLib, RW : !RenderLaws}.

(** Texts with the same field between two of them. *)
Fixpoint holes (name : string) (pieces : list string) : list node :=
  match pieces with
  | [] => []
  | [p] => [NText p]
  | p :: rest => NText p :: NAction (mkPipe NoDecl [[EField [name]]]) :: holes name rest
  end.

Lemma walk_holes name v pieces vs :
  walk_all (walk (with_builtins [])) (holes name pieces) (Some (VMap [(name, VString v)])) vs =
  Ok (vs, strings_Join pieces v).
Proof.
  induction pieces as [|p [|q rest] IH]; [done|cbn; by rewrite append_nil_r|].
  change (holes name (p :: q :: rest))
    with (NText p :: NAction (mkPipe NoDecl [[EField [name]]]) :: holes name (q :: rest)).
  cbn [walk_all walk evalPipe p_cmds p_decl pipeline evalCommand evalFieldChain evalField assoc].
  rewrite String.eqb_refl. cbn [res_bind fst snd dig print_rvalue print_value].
  change (bindVars vs NoDecl (Some (VString v))) with vs. rewrite IH. reflexivity.
Qed.

Lemma executeScript_holes what script name v pieces :
  Parse (function_names []) script = Ok (holes name pieces) ->
  executeScript what script [(name, VString v)] = Ok (strings_Join pieces v).
Proof. intros Hp. unfold executeScript, Execute. by rewrite Hp, walk_holes. Qed.

(** C26: the cleanup scripts are substitutions. Generating a script never
    fails, whatever the address: the northbound and the southbound script are
    their template with each [{{ .NodeAddress }}] replaced by the address, as it
    is, and the chassis script is its template with [{{ .Hostname }}] replaced. *)
Theorem cleanup_scripts_substitute :
  exists nb sb chassis : list string,
    strings_Join nb "{{ .NodeAddress }}" = CleanupNBDB /\ length nb = 4 /\
    strings_Join sb "{{ .NodeAddress }}" = CleanupSBDB /\ length sb = 3 /\
    strings_Join chassis "{{ .Hostname }}" = CleanupChassis /\ length chassis = 2 /\
    forall address,
      GenerateNorthBoundCleanupScript address = Ok (strings_Join nb address) /\
      GenerateSouthBoundCleanupScript address = Ok (strings_Join sb address) /\
      GenerateChassisCleanupScript address = Ok (strings_Join chassis address).
Proof.
  pose (texts t := match Parse (function_names []) t with
                   | Ok l => omap (fun n => match n with NText s => Some s | _ => None end) l
                   | Err _ => [] end).
  exists (texts CleanupNBDB), (texts CleanupSBDB), (texts CleanupChassis).
  split_and!; [by vm_compute..|]. intros address.
  split_and!; apply executeScript_holes; by vm_compute.
Qed.

End scripts.

(** ** The IP family of the services *)

Section services.
Context `{KL : KubeLib, RL : !RenderLib, RW : !RenderLaws}.
Let fm := with_builtins render_functions.

Definition policy : string := "
  ipFamilyPolicy: PreferDualStack".

(** The nodes of a service template that sets the policy on a field of
    [networking]. *)
Definition service_nodes (field a b : string) (c : list string) : list node :=
  app [NText a; NAction (mkPipe NoDecl [[EField ["Values"; "namespace"]]]); NText b;
       NIf (mkPipe NoDecl [[EIdent "eq"; EField ["Values"; "networking"; field];
                            EStr "dual_stack"]]) [NText policy] []]
    (map NText c).

Lemma walk_all_cons n l dot vs vs1 vs2 o1 o2 :
  walk fm n dot vs = Ok (vs1, o1) -> walk_all (walk fm) l dot vs1 = Ok (vs2, o2) ->
  walk_all (walk fm) (n :: l) dot vs = Ok (vs2, o1 +:+ o2).
Proof. intros Hn Hl. cbn [walk_all]. rewrite Hn. cbn [res_bind fst snd]. by rewrite Hl. Qed.

Lemma walk_texts c dot vs : walk_all (walk fm) (map NText c) dot vs = Ok (vs, strings_Join c "").
Proof.
  induction c as [|s c IH]; [done|]. cbn [map].
  rewrite (walk_all_cons (NText s) _ dot vs vs vs s _ eq_refl IH). destruct c; [by rewrite append_nil_r|done].
Qed.

(** A field of [networking]. *)
Lemma networking_field config caCert rest field :
  evalFieldChain false (Some (VMap (("Values", VMap (value_fields config caCert)) :: rest)))
    ["Values"; "networking"; field] =
  Ok (assoc field (encode_fields (NetworkingSpec_fields (spec_Networking (cfg_Spec config))))).
Proof.
  rewrite values_chain.
  by rewrite (struct_chain _ _ _ (NetworkingSpec_fields (spec_Networking (cfg_Spec config))));
    [|cbn; tauto|done].
Qed.

Lemma namespace_field config caCert rest :
  evalFieldChain false (Some (VMap (("Values", VMap (value_fields config caCert)) :: rest)))
    ["Values"; "namespace"] = Ok (Some (VString (om_Namespace (cfg_meta config)))).
Proof.
  rewrite values_chain, evalFieldChain_cons. cbn [evalField]. unfold value_fields.
  rewrite !assoc_set_ne by done. by rewrite assoc_set_eq.
Qed.

Lemma service_render t field a b c config caCert rest x out :
  Parse (function_names render_functions) t = Ok (service_nodes field a b c) ->
  assoc field (encode_fields (NetworkingSpec_fields (spec_Networking (cfg_Spec config)))) = x ->
  (x = None \/ exists y, x = Some (VString y)) ->
  renderTemplate t (("Values", VMap (value_fields config caCert)) :: rest) = Done (Ok out) ->
  out = a +:+ om_Namespace (cfg_meta config) +:+ b +:+
        (if is_string "dual_stack" x then policy else "") +:+ strings_Join c "".
Proof.
  intros Hp Hx Hs. unfold renderTemplate, Execute. rewrite Hp.
  set (dot := Some (VMap _)). set (vs := [("", dot)]).
  assert (Hw : walk_all (walk fm) (service_nodes field a b c) dot vs =
    Ok (vs, a +:+ om_Namespace (cfg_meta config) +:+ b +:+
        (if is_string "dual_stack" x then policy else "") +:+ strings_Join c "")).
  { apply (walk_all_cons _ _ _ _ vs); [done|].
    apply (walk_all_cons _ _ _ _ vs).
    { apply (walk_field _ _ vs _ (namespace_field config caCert rest)). }
    apply (walk_all_cons _ _ _ _ vs); [done|].
    apply (walk_all_cons _ _ _ _ vs); [|apply walk_texts].
    etrans; [apply (walk_if_eq _ _ x); [|exact Hs]|].
    - by rewrite <- Hx, <- (networking_field config caCert rest).
    - by destruct (is_string _ x). }
  fold fm. rewrite Hw. by intros [= <-].
Qed.

(** The services with an IP family policy, and the field it is read from. *)
Definition dual_stack_services : list (string * bool) :=
  [(kube_ovn_controller_service, true); (kube_ovn_monitor_service, true);
   (ovn_nb_service, false); (ovn_northd_service, false); (kube_ovn_cni_service, false);
   (kube_ovn_pinger_service, false); (ovn_sb_service, false)].

(** C33: only two of the seven services follow the dual stack. Each of these
    service manifests is a fixed text with the namespace of the Configuration in
    it. The services of the controller and of the monitor ask for
    PreferDualStack exactly when [netStack] is [dual_stack]; the five others
    read the field [NET_STACK], which no Configuration has, and never do. *)
Theorem services_dual_stack t follows :
  In (t, follows) dual_stack_services ->
  exists a b c, forall config version caCert out,
    rendered_as config version caCert t out ->
    out = a +:+ om_Namespace (cfg_meta config) +:+ b +:+
      (if follows && String.eqb (net_NetStack (spec_Networking (cfg_Spec config))) "dual_stack"
       then "
  ipFamilyPolicy: PreferDualStack" else "") +:+ c.
Proof.
  set (parts t := match Parse (function_names render_functions) t with
                  | Ok (NText a :: _ :: NText b :: _ :: c) =>
                      (a, b, omap (fun n => match n with NText s => Some s | _ => None end) c)
                  | _ => ("", "", []) end).
  intros Hin. exists (parts t).1.1, (parts t).1.2, (strings_Join (parts t).2 "").
  intros config version caCert out (ipsec & Hr)%rendered_values.
  pose (net := NetworkingSpec_fields (spec_Networking (cfg_Spec config))).
  assert (Hstack : assoc "netStack" (encode_fields net) =
    encode (FString (net_NetStack (spec_Networking (cfg_Spec config)))))
    by (apply encode_field; [apply networking_names_distinct|cbn; tauto]).
  assert (Hnone : assoc "NET_STACK" (encode_fields net) = None).
  { apply assoc_encode_fields_None. apply (bool_decide_unpack _). by vm_compute. }
  assert (Hpart : forall field,
    Parse (function_names render_functions) t =
      Ok (service_nodes field (parts t).1.1 (parts t).1.2 (parts t).2) ->
    (field = "netStack" /\ follows = true \/ field = "NET_STACK" /\ follows = false) ->
    out = (parts t).1.1 +:+ om_Namespace (cfg_meta config) +:+ (parts t).1.2 +:+
      (if follows && String.eqb (net_NetStack (spec_Networking (cfg_Spec config))) "dual_stack"
       then policy else "") +:+ strings_Join (parts t).2 "").
  { intros field Hp [[-> ->]|[-> ->]].
    - refine (eq_trans (service_render _ _ _ _ _ (with_Tag config version) _ _ _ _ Hp Hstack _ Hr) _).
      + cbn [encode]. destruct (String.eqb _ ""); [by left|right; by eexists].
      + cbn [encode]. destruct (String.eqb_spec (net_NetStack (spec_Networking (cfg_Spec config))) "")
          as [Hs|_]; [by rewrite Hs|done].
    - exact (service_render _ _ _ _ _ (with_Tag config version) _ _ _ _ Hp Hnone (or_introl eq_refl) Hr). }
  cbn [In dual_stack_services] in Hin.
  destruct_or! Hin; try done; injection Hin as <- <-;
    first [by apply (Hpart "netStack"); [vm_compute|left]
          |by apply (Hpart "NET_STACK"); [vm_compute|right]].
Qed.

End services.

(** ** An empty master node label *)

Section empty_label.
Context `{KL : KubeLib, RL : !RenderLib, RW : !RenderLaws}.
Let fm := with_builtins render_functions.

(** A template does not render when one of its nodes fails. *)
Lemma node_fails t k n vals :
  template_node t k = Some n ->
  (forall vs, exists e, walk fm n (Some (VMap vals)) vs = Err e) ->
  exists e, renderTemplate t vals = Done (Err e).
Proof.
  unfold renderTemplate, template_node, Execute. fold fm.
  destruct (Parse _ t) as [e|nodes]; [done|]. intros Hn Hf.
  apply nth_error_split in Hn as (l1 & l2 & -> & _).
  destruct (walk_all (walk fm) (l1 ++ n :: l2)%list _ _) as [e|[vs' out]] eqn:Hw; [by eexists|].
  apply walk_all_app in Hw as (vs1 & o1 & o2 & _ & Hw & _). fold fm in Hw.
  destruct (Hf vs1) as [e He]. cbn [walk_all] in Hw. by rewrite He in Hw.
Qed.

(** C34: an empty master node label blocks the deployments. The generator
    accepts the empty label and then sets no affinity, but the deployment
    template passes the missing value to a function that wants a string: for
    such a Configuration the generation of the deployments always fails, with
    the error of the first template, ovn-central. *)
Theorem empty_label_blocks_deployments config version caCert ipsec :
  comp_EnableOVNIPSec (spec_Component (cfg_Spec config)) = Some ipsec ->
  spec_MasterNodesLabel (cfg_Spec config) = "" ->
  (exists vals, renderValues (with_Tag config version) caCert = Done (Ok vals)) /\
  exists e, Render_GenerateObjects DeploymentList config TDeployment version caCert = Done (Err e).
Proof.
  intros Hip Hl. unfold Render_GenerateObjects. set (c := with_Tag config version).
  rewrite (renderValues_eq c caCert ipsec Hip). split; [by eexists|].
  set (vals := [("Values", _); _]).
  assert (Hc : exists e, renderTemplate ovn_central_deployment vals = Done (Err e)).
  { apply (node_fails _ 5 (NAction (mkPipe NoDecl
      [[EIdent "include"; EStr "kubeovn.masterNodeAffinity"; EDot]; [EIdent "nindent"; ENum 8]])));
      [by vm_compute|]. intros vs. eexists.
    assert (Ha : include "kubeovn.masterNodeAffinity" vals = VNil).
    { unfold include. rewrite NestedFieldCopy_lookup. unfold vals, include_fields.
      change (spec_MasterNodesLabel (cfg_Spec c)) with (spec_MasterNodesLabel (cfg_Spec config)).
      by rewrite Hl. }
    cbn -[include vals]. rewrite Ha. reflexivity. }
  destruct Hc as [e Hc]. unfold DeploymentList. cbn [generateAll]. unfold generateObject.
  cbn [InitialiseNewObject]. rewrite Hc. by eexists.
Qed.

End empty_label.
