(* ===== verification/NumberFacts.v ===== *)
(** * Theorems on the numbers of the rendered texts

    A number of the spec reaches the templates as a [float64], and an action
    prints it with the shortest format of the language: in decimal below a
    million, with an exponent above. *)

From Stdlib Require Import Ascii.
From S2P Require Import Prelude GoLib Effects KubeApi ConfigTypes Calls.
From S2P Require Import ConfigurationController NodeController TextTemplate TemplateText.
From S2P Require Import TemplatesDeployments Render TemplateCheck RenderValues RenderFacts RenderObjects.
Local Open Scope string_scope.

(** ** Printing *)

Section numbers.
Local Open Scope Z_scope.

(** Below 2^53 an integer is a [float64]. *)
Lemma float64_of_int_small z : Z.abs z < 2 ^ 53 -> float64_of_int z = z.
Proof.
  intros Hz. unfold float64_of_int.
  assert (He : Z.max 0 (Z.log2 (Z.abs z) - 52) = 0).
  { destruct (Z.eq_dec z 0) as [->|Hne]; [done|].
    assert (Z.log2 (Z.abs z) < 53) by (apply Z.log2_lt_pow2; lia). lia. }
  rewrite He. cbn [Z.ltb Z.compare andb]. rewrite Z.shiftr_0_r, Z.shiftl_0_r. lia.
Qed.

Lemma digits_fuel_le f k : forall a, 0 <= a < 10 ^ Z.of_nat k -> (digits_fuel f a <= k)%nat.
Proof.
  revert f. induction k as [|k IH]; intros f a Ha.
  - assert (a = 0) as -> by (cbn in Ha; lia). by destruct f.
  - destruct f as [|f]; cbn; [lia|]. destruct (a =? 0); [lia|].
    apply le_n_S, IH. rewrite Nat2Z.inj_succ, Z.pow_succ_r in Ha by lia.
    split; [apply Z.div_pos; lia|apply Z.div_lt_upper_bound; lia].
Qed.

Lemma digits_fuel_gt f k : forall a, (k < f)%nat -> 10 ^ Z.of_nat k <= a -> (k < digits_fuel f a)%nat.
Proof.
  revert f. induction k as [|k IH]; intros f a Hf Ha.
  - destruct f as [|f]; [lia|]. cbn. destruct (Z.eqb_spec a 0); [cbn in Ha; lia|lia].
  - destruct f as [|f]; [lia|]. cbn.
    rewrite Nat2Z.inj_succ, Z.pow_succ_r in Ha by lia.
    pose proof (Z.pow_pos_nonneg 10 (Z.of_nat k)).
    destruct (Z.eqb_spec a 0); [lia|].
    enough (k < digits_fuel f (a / 10))%nat by lia.
    apply IH; [lia|]. apply Z.div_le_lower_bound; lia.
Qed.

Lemma digits_le k a : 0 <= a < 10 ^ Z.of_nat k -> (digits a <= k)%nat.
Proof. apply digits_fuel_le. Qed.

Lemma digits_gt k a : 10 ^ Z.of_nat k <= a -> (k < digits a)%nat.
Proof.
  intros Ha. apply digits_fuel_gt; [|done].
  assert (2 ^ Z.of_nat k <= a).
  { etrans; [|exact Ha]. apply Z.pow_le_mono_l. lia. }
  assert (Z.of_nat k <= Z.log2 a).
  { apply Z.log2_le_pow2; [|done]. pose proof (Z.pow_pos_nonneg 2 (Z.of_nat k)). lia. }
  lia.
Qed.

Lemma round_digits_bound a n : 0 <= a < 10 ^ 15 -> (1 <= n)%nat -> 0 <= round_digits a n < 2 ^ 53.
Proof.
  intros Ha Hn. unfold round_digits.
  pose proof (digits_le 15 a Ha) as Hd. destruct (Z.leb_spec (Z.of_nat (digits a)) (Z.of_nat n)); [lia|].
  set (u := 10 ^ (Z.of_nat (digits a) - Z.of_nat n)).
  assert (Hu : 0 < u <= 10 ^ 14).
  { unfold u. split; [apply Z.pow_pos_nonneg; lia|apply Z.pow_le_mono_r; lia]. }
  assert (Hq : 0 <= u / 2 <= u) by (split; [apply Z.div_pos; lia|apply Z.div_le_upper_bound; lia]).
  pose proof (Z.mul_div_le (a + u / 2) u). pose proof (Z.div_pos (a + u / 2) u). lia.
Qed.

Lemma shortest_from_exact a : forall f n, 0 <= a < 10 ^ 15 -> (1 <= n)%nat -> shortest_from a n f = a.
Proof.
  induction f as [|f IH]; intros n Ha Hn; [done|]. cbn [shortest_from].
  pose proof (round_digits_bound a n Ha Hn) as Hb.
  rewrite float64_of_int_small by lia.
  destruct (Z.eqb_spec (round_digits a n) a) as [He|_]; [done|apply IH; lia].
Qed.

Lemma shortest_exact a : 0 <= a < 10 ^ 15 -> shortest a = a.
Proof. intros Ha. by apply shortest_from_exact. Qed.

End numbers.

(** A number below a million prints in decimal. *)
Lemma print_float_decimal z : (0 < z < 10 ^ 6)%Z -> print_float (float64_of_int z) = pretty z.
Proof.
  intros Hz. rewrite float64_of_int_small by lia. unfold print_float.
  rewrite Z.abs_eq by lia. rewrite shortest_exact by lia.
  pose proof (digits_le 6 z) as Hd.
  destruct (Nat.leb_spec 6 (digits z - 1)); [lia|].
  destruct (Z.ltb_spec z 0); [lia|done].
Qed.

(** From a million on, it prints with an exponent. *)
Lemma print_float_exponent z :
  (10 ^ 6 <= z < 10 ^ 15)%Z ->
  exists m, print_float (float64_of_int z) = m +:+ "e+" +:+ exponent (digits z - 1).
Proof.
  intros Hz. rewrite float64_of_int_small by lia. unfold print_float.
  rewrite Z.abs_eq by lia. rewrite shortest_exact by lia.
  pose proof (digits_gt 6 z) as Hd.
  destruct (Nat.leb_spec 6 (digits z - 1)); [|lia].
  destruct (Z.ltb_spec z 0); [lia|]. by eexists.
Qed.

(** ** The probe interval *)

Section probe.
Context `{KL : KubeLib, RL : !RenderLib, RW : !RenderLaws}.
Let fm := with_builtins render_functions.

(** A text, the action after it and the text after that. *)
Lemma rendered_between t k a n b v vals out :
  renderTemplate t vals = Done (Ok out) ->
  template_node t k = Some (NText a) -> template_node t (S k) = Some n ->
  template_node t (S (S k)) = Some (NText b) ->
  (forall vs, exists vs', walk fm n (Some (VMap vals)) vs = Ok (vs', v)) ->
  exists before after, out = before +:+ a +:+ v +:+ b +:+ after.
Proof.
  unfold renderTemplate, template_node, Execute. fold fm.
  destruct (Parse _ t) as [e|nodes]; [done|]. intros Hout Ha Hn Hb Hv.
  apply nth_error_split in Ha as (l1 & l2 & -> & <-).
  rewrite nth_error_app2 in Hn, Hb by lia.
  replace (S (length l1) - length l1) with 1 in Hn by lia.
  replace (S (S (length l1)) - length l1) with 2 in Hb by lia. cbn in Hn, Hb.
  destruct l2 as [|n' [|n'' l2]]; [done..|]. injection Hn as ->. injection Hb as ->.
  destruct (walk_all _ _ _ _) as [e|[vs' o]] eqn:Hw; cbn in Hout; [done|]. injection Hout as <-.
  apply walk_all_app in Hw as (vs1 & o1 & o2 & _ & Hw & ->). fold fm in Hw.
  cbn [walk_all walk res_bind fst snd] in Hw.
  destruct (Hv vs1) as [vs2 Hn]. rewrite Hn in Hw. cbn [res_bind fst snd] in Hw.
  destruct (walk_all _ l2 _ _) as [e|[vs3 o3]]; cbn [res_bind fst snd] in Hw; [done|].
  injection Hw as _ <-. by exists o1, o3.
Qed.

(** The text of an integer field: omitempty drops a zero, the JSON decoder
    makes a [float64] of the rest. *)
Definition number_text (z : Z) : string :=
  if Z.eqb z 0 then "<no value>" else print_float (float64_of_int z).

Lemma number_text_cases z :
  (z = 0%Z -> number_text z = "<no value>") /\
  ((0 < z < 10 ^ 6)%Z -> number_text z = pretty z) /\
  ((10 ^ 6 <= z < 10 ^ 15)%Z -> exists m k, number_text z = m +:+ "e+" +:+ exponent k).
Proof.
  unfold number_text. split_and!.
  - by intros ->.
  - intros Hz. destruct (Z.eqb_spec z 0); [lia|]. by apply print_float_decimal.
  - intros Hz. destruct (Z.eqb_spec z 0); [lia|].
    destruct (print_float_exponent z Hz) as [m Hm]. by eexists _, _.
Qed.

(** C32: the probe interval in the ovn-central deployment. The environment
    variable PROBE_INTERVAL of every rendered deployment is, between its quotes,
    the decimal number of the Configuration when that is positive and below a
    million milliseconds, the text [<no value>] when it is zero, and a number
    with an exponent, like 1e+06, from a million on. *)
Theorem probe_interval_rendered config version caCert out :
  rendered_as config version caCert ovn_central_deployment out ->
  let z := net_ProbeInterval (spec_Networking (cfg_Spec config)) in
  exists before text after,
    out = before +:+ tpl "- name: PROBE_INTERVAL
              value: ^" +:+ text +:+ tpl "^
            - name: OVN_NORTHD_PROBE_INTERVAL" +:+ after /\
    (z = 0%Z -> text = "<no value>") /\
    ((0 < z < 10 ^ 6)%Z -> text = pretty z) /\
    ((10 ^ 6 <= z < 10 ^ 15)%Z -> exists m k, text = m +:+ "e+" +:+ exponent k).
Proof.
  intros (ipsec & Hr)%rendered_values z.
  destruct (rendered_between ovn_central_deployment 30 (tpl "^
            - name: PROBE_INTERVAL
              value: ^")
    (NAction (mkPipe NoDecl [[EField ["Values"; "networking"; "probeInterval"]]])) (tpl "^
            - name: OVN_NORTHD_PROBE_INTERVAL
              value: ^") (number_text z) _ _ Hr) as (x & y & ->); [by vm_compute..| |].
  - intros vs. exists vs. unfold fm. rewrite (walk_field _ _ _ _ (networking_field _ _ _ _)).
    rewrite (encode_field _ _ (FInt z)); [|apply networking_names_distinct|cbn; tauto].
    unfold number_text. cbn [encode]. by destruct (z =? 0)%Z.
  - exists (x +:+ tpl "^
            "), (number_text z), (tpl "
              value: ^" +:+ y).
    split; [by rewrite !append_assoc|apply number_text_cases].
Qed.

End probe.
