(* ===== verification/CrdFacts.v ===== *)
(** * Theorems on the custom resource definitions

    Their texts hold no action, so what the operator applies and what it cleans
    up at the deletion are the same objects, for every Configuration. *)

From S2P Require Import Prelude GoLib Effects KubeApi ConfigTypes Calls.
From S2P Require Import ConfigurationController TextTemplate PlainText Crds Render RenderValues.
From S2P Require Import RenderFacts RenderObjects.
Local Open Scope string_scope.

Section crds.
Context `{KL : KubeLib, RL : !RenderLib, RW : !RenderLaws}.

Definition nonempty (s : string) : bool := match s with EmptyString => false | _ => true end.

Lemma renderTemplate_text t vals :
  nonempty t && no_action t = true -> renderTemplate t vals = Done (Ok t).
Proof.
  intros [Hne Ht]%andb_true_iff. destruct t as [|c t]; [done|].
  unfold renderTemplate. by rewrite (Parse_text _ _ _ Ht), Execute_text.
Qed.

Lemma CRDList_text t : In t Crds.CRDList -> nonempty t && no_action t = true.
Proof.
  assert (Hall : forallb (fun t => nonempty t && no_action t) Crds.CRDList = true) by by vm_compute.
  rewrite forallb_forall in Hall. apply Hall.
Qed.

(** C27: the definitions of the custom resources do not depend on the
    Configuration. Each of the 24 texts is a template without actions: parsing
    and executing it gives the text back, whatever the values. So
    [GenerateObjects] decodes the same texts for every Configuration, version
    and certificate: the deletion, which passes an empty certificate, lists
    and removes the custom resources of exactly the definitions the operator
    applied. *)
Theorem crds_render_unchanged config version caCert ipsec :
  comp_EnableOVNIPSec (spec_Component (cfg_Spec config)) = Some ipsec ->
  length Crds.CRDList = 24 /\
  (forall t vals, In t Crds.CRDList -> renderTemplate t vals = Done (Ok t)) /\
  Render_GenerateObjects Crds.CRDList config TCustomResourceDefinition version caCert =
    Done (decode_all TCustomResourceDefinition Crds.CRDList).
Proof.
  intros Hip. split; [done|].
  assert (Ht : forall t vals, In t Crds.CRDList -> renderTemplate t vals = Done (Ok t))
    by (intros t vals Hin; apply renderTemplate_text, CRDList_text, Hin).
  split; [exact Ht|]. unfold Render_GenerateObjects.
  rewrite (renderValues_eq (with_Tag config version) caCert ipsec Hip).
  apply generateAll_decodes; [done|]. apply Forall_Forall2_diag. rewrite List.Forall_forall. auto.
Qed.

End crds.
