(* ===== verification/GoMemory.v ===== *)
(** * Go values in memory, and the bodies of deep copies

    Pointers and slices are locations of a heap, so sharing is visible: two
    values that hold the same location see each other's writes. Strings,
    numbers, booleans and times are immutable scalars. A struct is stored
    inline, as the list of its fields. A slice stands for its whole backing
    array.

    A deep copy function is a list of statements, one constructor for each form
    that occurs in api/v1/zz_generated.deepcopy.go; [run_method] runs it. The
    cells of [in] and [out] are different cells there, and no body writes to
    [in], so a body is run on the value of [*in] at its entry. *)

From S2P Require Import Prelude.

(** ** Values and memory *)

Definition loc := positive.

Inductive scalar := SString (s : string) | SInt (z : Z) | SBool (b : bool).

Inductive gval :=
| VScalar (s : scalar)
| VNil
| VPtr (l : loc)
| VSlice (l : loc)
| VStruct (fields : list (string * gval)).

(** A cell holds the variable a pointer points to, or a backing array. *)
Inductive cell := CVar (v : gval) | CArray (vs : list gval).
Abbreviation heap := (gmap loc cell).

Definition alloc (c : cell) (h : heap) : loc * heap :=
  let l := fresh (dom h) in (l, <[l := c]> h).

(** ** Types *)

Inductive gtype :=
| TScalar
| TPtr (t : gtype)
| TSlice (t : gtype)
| TStruct (fields : list (string * gtype))
| TLib (name : string).

(** Types of the Kubernetes libraries that have a deep copy of their own. *)
Class LibTypes := {
  lib_typed : string -> heap -> gval -> Prop;
  lib_copy : string -> gval -> heap -> option (gval * heap)
}.

Section memory.
Context `{LT : !LibTypes}.

(** ** Fields *)

Fixpoint get {A} (f : string) (l : list (string * A)) : option A :=
  match l with
  | [] => None
  | (g, a) :: l' => if bool_decide (g = f) then Some a else get f l'
  end.

Fixpoint put {A} (f : string) (a : A) (l : list (string * A)) : list (string * A) :=
  match l with
  | [] => []
  | (g, b) :: l' => if bool_decide (g = f) then (g, a) :: l' else (g, b) :: put f a l'
  end.

(** ** Well typed values *)

Inductive typed (h : heap) : gtype -> gval -> Prop :=
| typed_scalar s : typed h TScalar (VScalar s)
| typed_nil_ptr t : typed h (TPtr t) VNil
| typed_ptr t l v : h !! l = Some (CVar v) -> typed h t v -> typed h (TPtr t) (VPtr l)
| typed_nil_slice t : typed h (TSlice t) VNil
| typed_slice t l vs :
    h !! l = Some (CArray vs) -> (forall v, In v vs -> typed h t v) -> typed h (TSlice t) (VSlice l)
| typed_struct ts fs :
    map fst fs = map fst ts ->
    (forall f t v, get f ts = Some t -> get f fs = Some v -> typed h t v) ->
    typed h (TStruct ts) (VStruct fs)
| typed_lib n v : lib_typed n h v -> typed h (TLib n) v.

(** ** Statements *)

Inductive stmt :=
(** [*out = *in] *)
| CopyAll
(** [out.F = in.F] *)
| Assign (f : string)
(** [if in.F != nil { *out = new(T); **out = **in }] *)
| NewPtr (f : string)
(** [if in.F != nil { *out = make([]T, len( *in)); copy( *out, *in) }] *)
| MakeCopy (f : string)
(** [... for i := range *in { ( *in)[i].DeepCopyInto(&( *out)[i]) }] *)
| MakeEach (f : string) (m : list stmt)
(** the same, with a method of a library *)
| MakeEachLib (f name : string)
(** [in.F.DeepCopyInto(&out.F)] *)
| Into (f : string) (m : list stmt)
(** the same, with a method of a library *)
| IntoLib (f name : string)
(** [out.F = in.F.DeepCopy()], a method of a library *)
| AssignLib (f name : string).

Definition method := list stmt.
Definition fields := list (string * gval).

(** Copy the elements of an array into the array at [l], one by one. *)
Fixpoint copy_elements (copy : gval -> heap -> option (gval * heap)) (l : loc) (i : nat)
    (vs : list gval) (h : heap) : option heap :=
  match vs with
  | [] => Some h
  | v :: vs' =>
      '(v', h) ← copy v h;
      match h !! l with
      | Some (CArray out) => copy_elements copy l (S i) vs' (<[l := CArray (<[i := v']> out)]> h)
      | _ => None
      end
  end.

(** [if in.F != nil { make and the loop over a slice }]. *)
Definition make_each (copy : gval -> heap -> option (gval * heap)) (f : string)
    (ins outs : fields) (h : heap) : option (fields * heap) :=
  v ← get f ins;
  match v with
  | VNil => Some (outs, h)
  | VSlice l =>
      match h !! l with
      | Some (CArray vs) =>
          let '(l', h) := alloc (CArray (replicate (length vs) VNil)) h in
          h ← copy_elements copy l' 0 vs h;
          Some (put f (VSlice l') outs, h)
      | _ => None
      end
  | _ => None
  end.

(** A field set by a copy of its value. *)
Definition copy_field (copy : gval -> heap -> option (gval * heap)) (f : string)
    (ins outs : fields) (h : heap) : option (fields * heap) :=
  v ← get f ins;
  '(v', h) ← copy v h;
  Some (put f v' outs, h).

(** [if in.F != nil { a new cell with the contents of the old one }]. *)
Definition new_cell (f : string) (ins outs : fields) (h : heap) : option (fields * heap) :=
  v ← get f ins;
  match v with
  | VNil => Some (outs, h)
  | VPtr l =>
      match h !! l with
      | Some (CVar x) => let '(l', h) := alloc (CVar x) h in Some (put f (VPtr l') outs, h)
      | _ => None
      end
  | VSlice l =>
      match h !! l with
      | Some (CArray vs) => let '(l', h) := alloc (CArray vs) h in Some (put f (VSlice l') outs, h)
      | _ => None
      end
  | _ => None
  end.

(** One statement: [ins] is [*in], [outs] is [*out] before it. A method that
    is called on a field or an element starts with [*out = *in], so what [out]
    held before does not matter. *)
Fixpoint run_stmt (s : stmt) (ins outs : fields) (h : heap) : option (fields * heap) :=
  let run_all := fix run_all (m : list stmt) (ins outs : fields) (h : heap) :=
    match m with
    | [] => Some (outs, h)
    | s :: m' => '(outs, h) ← run_stmt s ins outs h; run_all m' ins outs h
    end in
  let into := fun m v h =>
    match v with
    | VStruct ins => '(outs, h) ← run_all m ins [] h; Some (VStruct outs, h)
    | _ => None
    end in
  match s with
  | CopyAll => Some (ins, h)
  | Assign f => v ← get f ins; Some (put f v outs, h)
  | NewPtr f | MakeCopy f => new_cell f ins outs h
  | MakeEach f m => make_each (into m) f ins outs h
  | MakeEachLib f name => make_each (lib_copy name) f ins outs h
  | Into f m => copy_field (into m) f ins outs h
  | IntoLib f name | AssignLib f name => copy_field (lib_copy name) f ins outs h
  end.

Fixpoint run_method (m : method) (ins outs : fields) (h : heap) : option (fields * heap) :=
  match m with
  | [] => Some (outs, h)
  | s :: m' => '(outs, h) ← run_stmt s ins outs h; run_method m' ins outs h
  end.

(** A method applied to a struct. *)
Definition copy_struct (m : method) (v : gval) (h : heap) : option (gval * heap) :=
  match v with
  | VStruct ins => '(outs, h) ← run_method m ins [] h; Some (VStruct outs, h)
  | _ => None
  end.

(** [DeepCopy]: a fresh struct, filled by [DeepCopyInto]; nil for nil. *)
Definition DeepCopy (m : method) (v : gval) (h : heap) : option (gval * heap) :=
  match v with
  | VNil => Some (VNil, h)
  | VPtr l =>
      match h !! l with
      | Some (CVar (VStruct ins)) =>
          let '(l', h) := alloc (CVar (VStruct [])) h in
          '(out, h) ← copy_struct m (VStruct ins) h;
          Some (VPtr l', <[l' := CVar out]> h)
      | _ => None
      end
  | _ => None
  end.

(** [DeepCopyObject]: [if c := in.DeepCopy(); c != nil { return c }; return nil]. *)
Definition DeepCopyObject (m : method) (v : gval) (h : heap) : option (gval * heap) :=
  '(c, h) ← DeepCopy m v h;
  Some (match c with VNil => VNil | _ => c end, h).

End memory.
