(* ===== verification/DeepCopy.v ===== *)
(** * api/v1/zz_generated.deepcopy.go

    The fields of the API types, from api/v1/configuration_types.go, and the
    deep copy methods of all of them, statement by statement, in the language of
    [GoMemory]. *)

From S2P Require Import Prelude GoMemory.
Local Open Scope string_scope.
Local Open Scope list_scope.

(** [metav1.TypeMeta] holds two strings. *)
Definition TypeMeta_type : gtype := TStruct [("Kind", TScalar); ("APIVersion", TScalar)].

Section types.
Context `{LT : !LibTypes}.

(** ** CNIConfSpec *)

Definition CNIConfSpec_layout : list (string * gtype) :=
  [("CNIConfigPriority", TScalar); ("CNIConfigDir", TScalar); ("MountCNIConfDir", TScalar);
   ("CNIBinDir", TScalar); ("CNIConfFile", TScalar); ("LocalBinDir", TScalar);
   ("MountLocalBinDir", TPtr TScalar); ("NonPrimaryCNI", TPtr TScalar)].

Definition CNIConfSpec_DeepCopyInto : method :=
  [CopyAll; NewPtr "MountLocalBinDir"; NewPtr "NonPrimaryCNI"].

Definition CNIConfSpec_DeepCopy : gval -> heap -> option (gval * heap) :=
  DeepCopy CNIConfSpec_DeepCopyInto.

(** ** CPUMemSpec *)

Definition CPUMemSpec_layout : list (string * gtype) :=
  [("CPU", TLib "resource.Quantity"); ("Memory", TLib "resource.Quantity");
   ("EphemeralStorage", TLib "resource.Quantity")].

Definition CPUMemSpec_DeepCopyInto : method :=
  [CopyAll; AssignLib "CPU" "resource.Quantity"; AssignLib "Memory" "resource.Quantity";
   AssignLib "EphemeralStorage" "resource.Quantity"].

Definition CPUMemSpec_DeepCopy : gval -> heap -> option (gval * heap) :=
  DeepCopy CPUMemSpec_DeepCopyInto.

(** ** U2OFeatures *)

Definition U2OFeatures_layout : list (string * gtype) :=
  [("OverlayOnlyRouting", TScalar)].

Definition U2OFeatures_DeepCopyInto : method :=
  [CopyAll].

Definition U2OFeatures_DeepCopy : gval -> heap -> option (gval * heap) :=
  DeepCopy U2OFeatures_DeepCopyInto.

(** ** ComponentSpec *)

Definition ComponentSpec_layout : list (string * gtype) :=
  [("EnableLB", TPtr TScalar); ("EnableNP", TPtr TScalar); ("EnableExternalVPC", TPtr TScalar);
   ("HardwareOffload", TPtr TScalar); ("EnableLBSVC", TPtr TScalar);
   ("EnableKeepVMIP", TPtr TScalar); ("LsDnatModDlDst", TPtr TScalar);
   ("LsCtSkipOstLportIPS", TPtr TScalar); ("CheckGateway", TPtr TScalar);
   ("LogicalGateway", TPtr TScalar); ("EnableBindLocalIP", TPtr TScalar);
   ("SecureServing", TPtr TScalar); ("U2OFeatures", TStruct U2OFeatures_layout);
   ("U2OInterconnection", TPtr TScalar); ("EnableTProxy", TPtr TScalar);
   ("EnableIC", TPtr TScalar); ("EnableNATGateway", TPtr TScalar);
   ("EnableOVNIPSec", TPtr TScalar); ("EnableANP", TPtr TScalar);
   ("SetVLANTxOff", TPtr TScalar); ("OVSDBConTimeout", TScalar);
   ("OVSDBInactivityTimeout", TScalar); ("EnableLiveMigrationOptimize", TPtr TScalar);
   ("NPEnforcement", TScalar); ("EnableDNSNameResolver", TPtr TScalar);
   ("EnableOVNLBPreferLocal", TPtr TScalar)].

Definition ComponentSpec_DeepCopyInto : method :=
  [CopyAll; NewPtr "EnableLB"; NewPtr "EnableNP"; NewPtr "EnableExternalVPC";
   NewPtr "HardwareOffload"; NewPtr "EnableLBSVC"; NewPtr "EnableKeepVMIP";
   NewPtr "LsDnatModDlDst"; NewPtr "LsCtSkipOstLportIPS"; NewPtr "CheckGateway";
   NewPtr "LogicalGateway"; NewPtr "EnableBindLocalIP"; NewPtr "SecureServing";
   Assign "U2OFeatures"; NewPtr "U2OInterconnection"; NewPtr "EnableTProxy"; NewPtr "EnableIC";
   NewPtr "EnableNATGateway"; NewPtr "EnableOVNIPSec"; NewPtr "EnableANP";
   NewPtr "SetVLANTxOff"; NewPtr "EnableLiveMigrationOptimize"; NewPtr "EnableDNSNameResolver";
   NewPtr "EnableOVNLBPreferLocal"].

Definition ComponentSpec_DeepCopy : gval -> heap -> option (gval * heap) :=
  DeepCopy ComponentSpec_DeepCopyInto.

(** ** RegistrySpec *)

Definition RegistrySpec_layout : list (string * gtype) :=
  [("Address", TScalar); ("ImagePullSecrets", TSlice TScalar)].

Definition RegistrySpec_DeepCopyInto : method :=
  [CopyAll; MakeCopy "ImagePullSecrets"].

Definition RegistrySpec_DeepCopy : gval -> heap -> option (gval * heap) :=
  DeepCopy RegistrySpec_DeepCopyInto.

(** ** KubeOVNImageSpec *)

Definition KubeOVNImageSpec_layout : list (string * gtype) :=
  [("Repository", TScalar); ("Tag", TScalar); ("DpdkRepository", TScalar);
   ("VpcRepository", TScalar)].

Definition KubeOVNImageSpec_DeepCopyInto : method :=
  [CopyAll].

Definition KubeOVNImageSpec_DeepCopy : gval -> heap -> option (gval * heap) :=
  DeepCopy KubeOVNImageSpec_DeepCopyInto.

(** ** NATGatewayImageSpec *)

Definition NATGatewayImageSpec_layout : list (string * gtype) :=
  [("Repository", TScalar); ("Tag", TScalar)].

Definition NATGatewayImageSpec_DeepCopyInto : method :=
  [CopyAll].

Definition NATGatewayImageSpec_DeepCopy : gval -> heap -> option (gval * heap) :=
  DeepCopy NATGatewayImageSpec_DeepCopyInto.

(** ** ImageDetails *)

Definition ImageDetails_layout : list (string * gtype) :=
  [("KubeOVNImage", TStruct KubeOVNImageSpec_layout);
   ("NATGatewayImage", TStruct NATGatewayImageSpec_layout)].

Definition ImageDetails_DeepCopyInto : method :=
  [CopyAll; Assign "KubeOVNImage"; Assign "NATGatewayImage"].

Definition ImageDetails_DeepCopy : gval -> heap -> option (gval * heap) :=
  DeepCopy ImageDetails_DeepCopyInto.

(** ** GlobalSpec *)

Definition GlobalSpec_layout : list (string * gtype) :=
  [("Registry", TStruct RegistrySpec_layout); ("Images", TStruct ImageDetails_layout)].

Definition GlobalSpec_DeepCopyInto : method :=
  [CopyAll; Into "Registry" RegistrySpec_DeepCopyInto; Assign "Images"].

Definition GlobalSpec_DeepCopy : gval -> heap -> option (gval * heap) :=
  DeepCopy GlobalSpec_DeepCopyInto.

(** ** VlanSpec *)

Definition VlanSpec_layout : list (string * gtype) :=
  [("ProviderName", TScalar); ("VlanInterface", TScalar); ("VlanName", TScalar);
   ("VlanID", TScalar)].

Definition VlanSpec_DeepCopyInto : method :=
  [CopyAll].

Definition VlanSpec_DeepCopy : gval -> heap -> option (gval * heap) :=
  DeepCopy VlanSpec_DeepCopyInto.

(** ** NetworkingSpec *)

Definition NetworkingSpec_layout : list (string * gtype) :=
  [("NetStack", TScalar); ("EnableSSL", TPtr TScalar); ("NetworkType", TScalar);
   ("TunnelType", TScalar); ("Interface", TScalar); ("DpdkTunnelInterface", TScalar);
   ("ExcludeIPS", TScalar); ("PodNicType", TScalar); ("Vlan", TStruct VlanSpec_layout);
   ("ExchangeLinkName", TPtr TScalar); ("EnableEIPSNAT", TPtr TScalar);
   ("DefaultSubnet", TScalar); ("DefaultVPC", TScalar); ("NodeSubnet", TScalar);
   ("EnableECMP", TPtr TScalar); ("EnableMetrics", TPtr TScalar); ("NodeLocalDNSIPS", TScalar);
   ("ProbeInterval", TScalar); ("OvnNorthdProbeInterval", TScalar);
   ("OvnLeaderProbeInterval", TScalar); ("OvnRemoteProbeInterval", TScalar);
   ("OvnRemoteOpenflowInterval", TScalar); ("OvnNorthdNThreads", TScalar);
   ("EnableCompact", TPtr TScalar); ("SkipConnTrackDstCIDRs", TScalar);
   ("ExternalGatewayConfigNS", TScalar)].

Definition NetworkingSpec_DeepCopyInto : method :=
  [CopyAll; NewPtr "EnableSSL"; Assign "Vlan"; NewPtr "ExchangeLinkName";
   NewPtr "EnableEIPSNAT"; NewPtr "EnableECMP"; NewPtr "EnableMetrics"; NewPtr "EnableCompact"].

Definition NetworkingSpec_DeepCopy : gval -> heap -> option (gval * heap) :=
  DeepCopy NetworkingSpec_DeepCopyInto.

(** ** NetworkStackSpec *)

Definition NetworkStackSpec_layout : list (string * gtype) :=
  [("PodCIDR", TScalar); ("PodGateway", TScalar); ("ServiceCIDR", TScalar);
   ("JoinCIDR", TScalar); ("PingerExternalAddress", TScalar); ("PingerExternalDomain", TScalar)].

Definition NetworkStackSpec_DeepCopyInto : method :=
  [CopyAll].

Definition NetworkStackSpec_DeepCopy : gval -> heap -> option (gval * heap) :=
  DeepCopy NetworkStackSpec_DeepCopyInto.

(** ** PerformanceSpec *)

Definition PerformanceSpec_layout : list (string * gtype) :=
  [("GCInterval", TScalar); ("InspectInterval", TScalar); ("OVSVSCtlConcurrency", TScalar)].

Definition PerformanceSpec_DeepCopyInto : method :=
  [CopyAll].

Definition PerformanceSpec_DeepCopy : gval -> heap -> option (gval * heap) :=
  DeepCopy PerformanceSpec_DeepCopyInto.

(** ** DebugSpec *)

Definition DebugSpec_layout : list (string * gtype) :=
  [("EnableMirror", TPtr TScalar); ("MirrorInterface", TScalar)].

Definition DebugSpec_DeepCopyInto : method :=
  [CopyAll; NewPtr "EnableMirror"].

Definition DebugSpec_DeepCopy : gval -> heap -> option (gval * heap) :=
  DeepCopy DebugSpec_DeepCopyInto.

(** ** KubeletConfigSpec *)

Definition KubeletConfigSpec_layout : list (string * gtype) :=
  [("KubeletDir", TScalar)].

Definition KubeletConfigSpec_DeepCopyInto : method :=
  [CopyAll].

Definition KubeletConfigSpec_DeepCopy : gval -> heap -> option (gval * heap) :=
  DeepCopy KubeletConfigSpec_DeepCopyInto.

(** ** LogConfigSpec *)

Definition LogConfigSpec_layout : list (string * gtype) :=
  [("LogDir", TScalar)].

Definition LogConfigSpec_DeepCopyInto : method :=
  [CopyAll].

Definition LogConfigSpec_DeepCopy : gval -> heap -> option (gval * heap) :=
  DeepCopy LogConfigSpec_DeepCopyInto.

(** ** ResourceSpec *)

Definition ResourceSpec_layout : list (string * gtype) :=
  [("Requests", TStruct CPUMemSpec_layout); ("Limits", TStruct CPUMemSpec_layout)].

Definition ResourceSpec_DeepCopyInto : method :=
  [CopyAll; Into "Requests" CPUMemSpec_DeepCopyInto; Into "Limits" CPUMemSpec_DeepCopyInto].

Definition ResourceSpec_DeepCopy : gval -> heap -> option (gval * heap) :=
  DeepCopy ResourceSpec_DeepCopyInto.

(** ** ConfigurationSpec *)

Definition ConfigurationSpec_layout : list (string * gtype) :=
  [("Global", TStruct GlobalSpec_layout); ("ImagePullPolicy", TScalar);
   ("MasterNodesLabel", TScalar); ("Networking", TStruct NetworkingSpec_layout);
   ("Component", TStruct ComponentSpec_layout); ("IPv4", TStruct NetworkStackSpec_layout);
   ("IPv6", TStruct NetworkStackSpec_layout); ("DualStack", TStruct NetworkStackSpec_layout);
   ("Performance", TStruct PerformanceSpec_layout); ("Debug", TStruct DebugSpec_layout);
   ("CNIConf", TStruct CNIConfSpec_layout);
   ("KubeletConfig", TStruct KubeletConfigSpec_layout);
   ("LogConfig", TStruct LogConfigSpec_layout); ("OpenVSwitchDir", TScalar);
   ("OVNIPSecKeysDir", TScalar); ("OVNDir", TScalar);
   ("DisableModulesManagement", TPtr TScalar); ("HybridDPDK", TPtr TScalar);
   ("HugepageSizeType", TScalar); ("HugePages", TLib "resource.Quantity");
   ("DPDKImageTag", TScalar); ("DPDKCPU", TLib "resource.Quantity");
   ("DPDKMemory", TLib "resource.Quantity"); ("OVNCentral", TStruct ResourceSpec_layout);
   ("OVSOVN", TStruct ResourceSpec_layout); ("KubeOVNController", TStruct ResourceSpec_layout);
   ("KubeOVNCNI", TStruct ResourceSpec_layout); ("KubeOVNPinger", TStruct ResourceSpec_layout);
   ("KubeOVNMonitor", TStruct ResourceSpec_layout)].

Definition ConfigurationSpec_DeepCopyInto : method :=
  [CopyAll; Into "Global" GlobalSpec_DeepCopyInto;
   Into "Networking" NetworkingSpec_DeepCopyInto; Into "Component" ComponentSpec_DeepCopyInto;
   Assign "IPv4"; Assign "IPv6"; Assign "DualStack"; Assign "Performance";
   Into "Debug" DebugSpec_DeepCopyInto; Into "CNIConf" CNIConfSpec_DeepCopyInto;
   Assign "KubeletConfig"; Assign "LogConfig"; NewPtr "DisableModulesManagement";
   NewPtr "HybridDPDK"; AssignLib "HugePages" "resource.Quantity";
   AssignLib "DPDKCPU" "resource.Quantity"; AssignLib "DPDKMemory" "resource.Quantity";
   Into "OVNCentral" ResourceSpec_DeepCopyInto; Into "OVSOVN" ResourceSpec_DeepCopyInto;
   Into "KubeOVNController" ResourceSpec_DeepCopyInto;
   Into "KubeOVNCNI" ResourceSpec_DeepCopyInto; Into "KubeOVNPinger" ResourceSpec_DeepCopyInto;
   Into "KubeOVNMonitor" ResourceSpec_DeepCopyInto].

Definition ConfigurationSpec_DeepCopy : gval -> heap -> option (gval * heap) :=
  DeepCopy ConfigurationSpec_DeepCopyInto.

(** ** GroupVersionKind *)

Definition GroupVersionKind_layout : list (string * gtype) :=
  [("Group", TScalar); ("Version", TScalar); ("Kind", TScalar)].

Definition GroupVersionKind_DeepCopyInto : method :=
  [CopyAll].

Definition GroupVersionKind_DeepCopy : gval -> heap -> option (gval * heap) :=
  DeepCopy GroupVersionKind_DeepCopyInto.

(** ** ObjectReference *)

Definition ObjectReference_layout : list (string * gtype) :=
  [("GVK", TStruct GroupVersionKind_layout); ("Name", TScalar)].

Definition ObjectReference_DeepCopyInto : method :=
  [CopyAll; Assign "GVK"].

Definition ObjectReference_DeepCopy : gval -> heap -> option (gval * heap) :=
  DeepCopy ObjectReference_DeepCopyInto.

(** ** ConfigurationStatus *)

Definition ConfigurationStatus_layout : list (string * gtype) :=
  [("MatchingNodeAddresses", TSlice TScalar); ("Conditions", TSlice (TLib "metav1.Condition"));
   ("Status", TScalar); ("ManagedObjects", TSlice (TStruct ObjectReference_layout))].

Definition ConfigurationStatus_DeepCopyInto : method :=
  [CopyAll; MakeCopy "MatchingNodeAddresses"; MakeEachLib "Conditions" "metav1.Condition";
   MakeCopy "ManagedObjects"].

Definition ConfigurationStatus_DeepCopy : gval -> heap -> option (gval * heap) :=
  DeepCopy ConfigurationStatus_DeepCopyInto.

(** ** Configuration *)

Definition Configuration_layout : list (string * gtype) :=
  [("TypeMeta", TypeMeta_type); ("ObjectMeta", TLib "metav1.ObjectMeta");
   ("Spec", TStruct ConfigurationSpec_layout); ("Status", TStruct ConfigurationStatus_layout)].

Definition Configuration_DeepCopyInto : method :=
  [CopyAll; Assign "TypeMeta"; IntoLib "ObjectMeta" "metav1.ObjectMeta";
   Into "Spec" ConfigurationSpec_DeepCopyInto; Into "Status" ConfigurationStatus_DeepCopyInto].

Definition Configuration_DeepCopy : gval -> heap -> option (gval * heap) :=
  DeepCopy Configuration_DeepCopyInto.

Definition Configuration_DeepCopyObject : gval -> heap -> option (gval * heap) :=
  DeepCopyObject Configuration_DeepCopyInto.

(** ** ConfigurationList *)

Definition ConfigurationList_layout : list (string * gtype) :=
  [("TypeMeta", TypeMeta_type); ("ListMeta", TLib "metav1.ListMeta");
   ("Items", TSlice (TStruct Configuration_layout))].

Definition ConfigurationList_DeepCopyInto : method :=
  [CopyAll; Assign "TypeMeta"; IntoLib "ListMeta" "metav1.ListMeta";
   MakeEach "Items" Configuration_DeepCopyInto].

Definition ConfigurationList_DeepCopy : gval -> heap -> option (gval * heap) :=
  DeepCopy ConfigurationList_DeepCopyInto.

Definition ConfigurationList_DeepCopyObject : gval -> heap -> option (gval * heap) :=
  DeepCopyObject ConfigurationList_DeepCopyInto.

(** Every type with its fields and its method. *)
Definition deepcopy_methods : list (list (string * gtype) * method) :=
  [(CNIConfSpec_layout, CNIConfSpec_DeepCopyInto);
   (CPUMemSpec_layout, CPUMemSpec_DeepCopyInto);
   (U2OFeatures_layout, U2OFeatures_DeepCopyInto);
   (ComponentSpec_layout, ComponentSpec_DeepCopyInto);
   (RegistrySpec_layout, RegistrySpec_DeepCopyInto);
   (KubeOVNImageSpec_layout, KubeOVNImageSpec_DeepCopyInto);
   (NATGatewayImageSpec_layout, NATGatewayImageSpec_DeepCopyInto);
   (ImageDetails_layout, ImageDetails_DeepCopyInto);
   (GlobalSpec_layout, GlobalSpec_DeepCopyInto); (VlanSpec_layout, VlanSpec_DeepCopyInto);
   (NetworkingSpec_layout, NetworkingSpec_DeepCopyInto);
   (NetworkStackSpec_layout, NetworkStackSpec_DeepCopyInto);
   (PerformanceSpec_layout, PerformanceSpec_DeepCopyInto);
   (DebugSpec_layout, DebugSpec_DeepCopyInto);
   (KubeletConfigSpec_layout, KubeletConfigSpec_DeepCopyInto);
   (LogConfigSpec_layout, LogConfigSpec_DeepCopyInto);
   (ResourceSpec_layout, ResourceSpec_DeepCopyInto);
   (ConfigurationSpec_layout, ConfigurationSpec_DeepCopyInto);
   (GroupVersionKind_layout, GroupVersionKind_DeepCopyInto);
   (ObjectReference_layout, ObjectReference_DeepCopyInto);
   (ConfigurationStatus_layout, ConfigurationStatus_DeepCopyInto);
   (Configuration_layout, Configuration_DeepCopyInto);
   (ConfigurationList_layout, ConfigurationList_DeepCopyInto)].

End types.
