(* ===== verification/GoMemoryFacts.v ===== *)
(** * Deep copies: what makes a body complete

    [deep hr old h v v']: [v'], read in [h], equals [v], read in [hr], and every
    cell [v'] reaches is outside [old]. [complete ts m] decides, for the field
    types [ts] of a struct, that the body [m] copies every field that holds
    memory. [DeepCopy_complete]: a complete body makes a deep copy. *)

From S2P Require Import Prelude GoMemory.

(** ** Fields *)

Section fields.
Context {A B : Type}.

Lemma get_names (l : list (string * A)) (l' : list (string * B)) f a :
  map fst l = map fst l' -> get f l = Some a -> exists b, get f l' = Some b.
Proof.
  revert l'. induction l as [|[g x] l IH]; intros [|[g' y] l'] Hn; try done.
  injection Hn as -> Hn. cbn. case_bool_decide; [by eexists|by apply IH].
Qed.

Lemma put_names f (a : A) l : map fst (put f a l) = map fst l.
Proof. induction l as [|[g b] l IH]; cbn; [done|]. case_bool_decide; cbn; congruence. Qed.

Lemma get_put_eq f (a b : A) l : get f l = Some b -> get f (put f a l) = Some a.
Proof.
  induction l as [|[g c] l IH]; cbn; [done|]. case_bool_decide as Hg; cbn.
  - by rewrite bool_decide_eq_true_2.
  - by rewrite bool_decide_eq_false_2.
Qed.

Lemma get_put_ne f g (a : A) l : f <> g -> get f (put g a l) = get f l.
Proof.
  intros Hne. induction l as [|[k c] l IH]; cbn; [done|]. case_bool_decide as Hg; cbn.
  - subst k. by rewrite bool_decide_eq_false_2 by congruence.
  - by rewrite IH.
Qed.

Lemma get_In f (a : A) l : get f l = Some a -> In (f, a) l.
Proof.
  induction l as [|[g b] l IH]; cbn; [done|].
  case_bool_decide as Hg; [intros [= ->]; subst; by left|by right; apply IH].
Qed.

End fields.

(** ** Deep copies *)

Inductive deep (hr : heap) (old : gset loc) (h : heap) : gval -> gval -> Prop :=
| deep_scalar s : deep hr old h (VScalar s) (VScalar s)
| deep_nil : deep hr old h VNil VNil
| deep_ptr l l' v v' :
    hr !! l = Some (CVar v) -> l' ∉ old -> h !! l' = Some (CVar v') ->
    deep hr old h v v' -> deep hr old h (VPtr l) (VPtr l')
| deep_slice l l' vs vs' :
    hr !! l = Some (CArray vs) -> l' ∉ old -> h !! l' = Some (CArray vs') ->
    length vs' = length vs ->
    (forall i v v', vs !! i = Some v -> vs' !! i = Some v' -> deep hr old h v v') ->
    deep hr old h (VSlice l) (VSlice l')
| deep_struct fs fs' :
    map fst fs' = map fst fs ->
    (forall f v v', get f fs = Some v -> get f fs' = Some v' -> deep hr old h v v') ->
    deep hr old h (VStruct fs) (VStruct fs').

(** The documentation of the library's deep copies. *)
Class LibLaws `{LT : LibTypes} : Prop := {
  lib_typed_mono n h h' v : h ⊆ h' -> lib_typed n h v -> lib_typed n h' v;
  lib_copy_deep n h v :
    lib_typed n h v ->
    exists v' h', lib_copy n v h = Some (v', h') /\ h ⊆ h' /\ deep h (dom h) h' v v';
  lib_deep_base n hr hr' old h v v' :
    hr ⊆ hr' -> lib_typed n hr v -> deep hr' old h v v' -> deep hr old h v v';
  lib_deep_typed n hr old h v v' : lib_typed n hr v -> deep hr old h v v' -> lib_typed n h v'
}.

Section deep.
Context `{LT : LibTypes, LL : !LibLaws}.

(** The cells outside [old] are all that the copy depends on. *)
Lemma deep_frame hr old h h' v v' :
  (forall l, l ∉ old -> is_Some (h !! l) -> h' !! l = h !! l) ->
  deep hr old h v v' -> deep hr old h' v v'.
Proof.
  intros Hh. induction 1 as [s| |l l' v v' Hl Ho Hl' _ IH|l l' vs vs' Hl Ho Hl' Hn _ IH|fs fs' Hn _ IH].
  - constructor.
  - constructor.
  - econstructor; eauto. by rewrite Hh.
  - econstructor; eauto. by rewrite Hh.
  - econstructor; eauto.
Qed.

Lemma deep_mono hr old h h' v v' : h ⊆ h' -> deep hr old h v v' -> deep hr old h' v v'.
Proof.
  intros Hs. apply deep_frame. intros l _ [c Hc]. rewrite Hc. by eapply lookup_weaken.
Qed.

Lemma deep_old hr old old' h v v' : old' ⊆ old -> deep hr old h v v' -> deep hr old' h v v'.
Proof. intros Hs. induction 1; econstructor; eauto. Qed.

(** What was well typed in a smaller heap is read there. *)
Lemma deep_base hr hr' old h t v v' :
  hr ⊆ hr' -> typed hr t v -> deep hr' old h v v' -> deep hr old h v v'.
Proof.
  intros Hs Ht. revert v'. induction Ht as [s|t|t l v Hl Ht IH|t|t l vs Hl Ht IH|ts fs Hn Ht IH|n v Hv];
    intros w Hd; [by inversion_clear Hd; constructor..| | | | |].
  - inversion Hd; subst. simplify_map_eq. econstructor; eauto.
  - by inversion_clear Hd; constructor.
  - inversion Hd; subst. simplify_map_eq. econstructor; eauto.
    intros i x x' Hx Hx'. apply IH; [|by eauto].
    apply list_elem_of_In. by eapply list_elem_of_lookup_2.
  - inversion Hd; subst. constructor; [done|].
    intros f x x' Hx Hx'. destruct (get_names fs ts f x Hn Hx) as [t Hf]. eauto.
  - by eapply lib_deep_base.
Qed.

(** A deep copy has the type of the original. *)
Lemma deep_typed hr old h t v v' : typed hr t v -> deep hr old h v v' -> typed h t v'.
Proof.
  intros Ht. revert v'. induction Ht as [s|t|t l v Hl Ht IH|t|t l vs Hl Ht IH|ts fs Hn Ht IH|n v Hv];
    intros w Hd; inversion Hd; subst; simplify_map_eq; try by constructor; eauto using lib_deep_typed.
  - econstructor; eauto.
  - econstructor; [eauto|]. intros x Hx. apply list_elem_of_In, list_elem_of_lookup in Hx as [i Hx].
    assert (Hi : i < length vs) by (rewrite <- H3; by eapply lookup_lt_Some).
    apply lookup_lt_is_Some in Hi as [y Hy]. apply (IH y); [|by eauto].
    apply list_elem_of_In. by eapply list_elem_of_lookup_2.
  - constructor; [congruence|]. intros f t x Hf Hx.
    destruct (get_names ts fs f t (eq_sym Hn) Hf) as [y Hy]. eauto.
Qed.

Lemma typed_mono h h' t v : h ⊆ h' -> typed h t v -> typed h' t v.
Proof.
  intros Hs. induction 1; econstructor; eauto using lookup_weaken, lib_typed_mono.
Qed.

(** ** Values without memory *)

Fixpoint flat (t : gtype) : bool :=
  match t with
  | TScalar => true
  | TStruct ts => forallb (fun p => flat p.2) ts
  | _ => false
  end.

Lemma flat_deep hr t v old h : flat t = true -> typed hr t v -> deep hr old h v v.
Proof.
  intros Hf Ht. induction Ht as [s|t|t l v Hl Ht IH|t|t l vs Hl Ht IH|ts fs Hn Ht IH|n v Hv];
    try done; [constructor|].
  constructor; [done|]. intros f x x' Hx Hx'. rewrite Hx in Hx'. injection Hx' as <-.
  destruct (get_names fs ts f x Hn Hx) as [t Hft]. apply (IH f t); try done.
  cbn in Hf. rewrite forallb_forall in Hf. exact (Hf _ (get_In _ _ _ Hft)).
Qed.

(** ** Functions that make deep copies *)

Definition copies (t : gtype) (copy : gval -> heap -> option (gval * heap)) : Prop :=
  forall h v, typed h t v ->
    exists v' h', copy v h = Some (v', h') /\ h ⊆ h' /\ deep h (dom h) h' v v'.

(** In a larger heap. *)
Lemma copies_at t copy h0 h v :
  copies t copy -> h0 ⊆ h -> typed h0 t v ->
  exists v' h', copy v h = Some (v', h') /\ h ⊆ h' /\ deep h0 (dom h) h' v v'.
Proof.
  intros Hc Hs Ht. destruct (Hc h v) as (v' & h' & He & Hh & Hd); [by eapply typed_mono|].
  exists v', h'. split_and!; [done..|]. by eapply deep_base.
Qed.

Lemma copies_lib n : copies (TLib n) (lib_copy n).
Proof. intros h v Ht. inversion_clear Ht. by apply lib_copy_deep. Qed.

Lemma alloc_spec c h l h' :
  alloc c h = (l, h') -> (l ∉ dom h) /\ h' !! l = Some c /\ h ⊆ h'.
Proof.
  intros [= <- <-]. pose proof (is_fresh (dom h)) as Hf. split; [done|].
  split; [apply lookup_insert_eq|]. apply insert_subseteq. by apply not_elem_of_dom.
Qed.

Lemma insert_above (h0 h : heap) l c : l ∉ dom h0 -> h0 ⊆ h -> h0 ⊆ <[l:=c]> h.
Proof.
  intros Hl Hs. apply map_subseteq_spec. intros k x Hk.
  rewrite lookup_insert_ne; [by eapply lookup_weaken|].
  intros ->. apply Hl. by eapply elem_of_dom_2.
Qed.

(** The loop over the elements of a slice. *)
Lemma copy_elements_spec t copy l h0 vs : forall i h out,
  copies t copy -> l ∉ dom h0 -> (forall v, In v vs -> typed h0 t v) -> h0 ⊆ h ->
  h !! l = Some (CArray out) -> i + length vs = length out ->
  exists h' out', copy_elements copy l i vs h = Some h' /\
    (forall k, k <> l -> is_Some (h !! k) -> h' !! k = h !! k) /\
    h' !! l = Some (CArray out') /\ length out' = length out /\
    (forall j, j < i -> out' !! j = out !! j) /\
    (forall j v, vs !! j = Some v ->
       exists v', out' !! (i + j) = Some v' /\ deep h0 ({[l]} ∪ dom h0) h' v v').
Proof.
  induction vs as [|v vs IH]; intros i h out Hc Hl Ht Hs Hout Hn.
  { exists h, out. split_and!; [done..|]. intros j v [=]. }
  destruct (copies_at t copy h0 h v Hc Hs) as (v' & h1 & He & Hh1 & Hd); [apply Ht; by left|].
  cbn [copy_elements]. rewrite He. cbn [mbind option_bind].
  assert (Hout1 : h1 !! l = Some (CArray out)) by by eapply lookup_weaken.
  rewrite Hout1. set (h2 := <[l:=_]> h1).
  assert (Hn2 : S i + length vs = length (<[i:=v']> out)) by (rewrite length_insert; cbn in Hn; lia).
  destruct (IH (S i) h2 (<[i:=v']> out)) as (h' & out' & He' & Hk & Hl' & Hlen & Hlt & Hel);
    [done|done|intros x Hx; apply Ht; by right|by apply insert_above; [|transitivity h]
    |by apply lookup_insert_eq|done|].
  exists h', out'. split; [done|]. rewrite length_insert in Hlen. split_and!; try done.
  - intros k Hkl [c Hkc]. pose proof (lookup_weaken _ _ _ _ Hkc Hh1) as Hk1.
    assert (Hk2 : h2 !! k = Some c) by by unfold h2; rewrite lookup_insert_ne.
    by rewrite (Hk k Hkl), Hk2, Hkc by by rewrite Hk2.
  - intros j Hj. rewrite Hlt by lia. by rewrite list_lookup_insert_ne by lia.
  - intros [|j] x Hx.
    + injection Hx as <-. exists v'. rewrite Nat.add_0_r, Hlt by lia.
      split; [apply list_lookup_insert_eq; cbn in Hn; lia|].
      apply (deep_frame _ _ h1).
      * intros k Hko [c Hkc]. assert (k <> l) by set_solver.
        assert (Hk2 : h2 !! k = Some c) by by unfold h2; rewrite lookup_insert_ne.
        by rewrite (Hk k), Hk2, Hkc by first [done|by rewrite Hk2].
      * eapply deep_old; [|exact Hd]. apply union_subseteq. split.
        -- apply singleton_subseteq_l. by eapply elem_of_dom_2.
        -- by apply subseteq_dom.
    + replace (i + S j) with (S i + j) by lia. by apply Hel.
Qed.

(** ** Statements *)

(** The statement [run] makes the copy of field [f], whose value is [v]. *)
Definition sets_field (f : string) (v : gval) (ins outs : fields) (h0 h : heap)
    (res : option (fields * heap)) : Prop :=
  exists outs' h', res = Some (outs', h') /\ h ⊆ h' /\
    ((v = VNil /\ outs' = outs) \/
     exists v', outs' = put f v' outs /\ deep h0 (dom h0) h' v v').

Lemma dom_old (h0 h : heap) hr h' v v' :
  h0 ⊆ h -> deep hr (dom h) h' v v' -> deep hr (dom h0) h' v v'.
Proof. intros Hs. apply deep_old. by apply subseteq_dom. Qed.

Lemma copy_field_sets t copy f v ins outs h0 h :
  copies t copy -> get f ins = Some v -> typed h0 t v -> h0 ⊆ h ->
  sets_field f v ins outs h0 h (copy_field copy f ins outs h).
Proof.
  intros Hc Hf Ht Hs. unfold copy_field. rewrite Hf. cbn [mbind option_bind].
  destruct (copies_at t copy h0 h v Hc Hs Ht) as (v' & h' & -> & Hh & Hd).
  exists (put f v' outs), h'. split; [done|]. split; [done|]. right. exists v'.
  split; [done|]. by eapply dom_old.
Qed.

Lemma make_each_sets t copy f v ins outs h0 h :
  copies t copy -> get f ins = Some v -> typed h0 (TSlice t) v -> h0 ⊆ h ->
  sets_field f v ins outs h0 h (make_each copy f ins outs h).
Proof.
  intros Hc Hf Ht Hs. unfold make_each. rewrite Hf. cbn [mbind option_bind].
  inversion Ht as [| | |t0 Ht0|t0 l vs Hl Hvs| |]; subst.
  { exists outs, h. split; [done|]. split; [done|by left]. }
  rewrite (lookup_weaken _ _ _ _ Hl Hs).
  destruct (alloc (CArray (replicate (length vs) VNil)) h) as [l' h1] eqn:Ha.
  apply alloc_spec in Ha as (Hl' & Hl1 & Hh1).
  assert (Hl0 : l' ∉ dom h0) by (intros Hin; apply Hl'; by apply (subseteq_dom _ _ Hs)).
  destruct (copy_elements_spec t copy l' h0 vs 0 h1 (replicate (length vs) VNil))
    as (h' & out' & -> & Hk & Hl2 & Hlen & _ & Hel);
    [done..|by transitivity h|done|by rewrite length_replicate|].
  rewrite length_replicate in Hlen.
  exists (put f (VSlice l') outs), h'. split; [done|]. split.
  - apply map_subseteq_spec. intros k c Hkc. pose proof (lookup_weaken _ _ _ _ Hkc Hh1) as Hk1.
    rewrite Hk; [done|intros ->; apply Hl'; by eapply elem_of_dom_2|by rewrite Hk1].
  - right. exists (VSlice l'). split; [done|]. econstructor; eauto.
    intros i x x' Hx Hx'. destruct (Hel i x Hx) as (y & Hy & Hd). cbn in Hy.
    rewrite Hx' in Hy. injection Hy as <-. eapply deep_old; [|exact Hd]. set_solver.
Qed.

(** A new cell with the old contents, when these hold no memory. *)
Lemma new_cell_sets t f v ins outs h0 h :
  flat t = true -> get f ins = Some v -> typed h0 (TPtr t) v \/ typed h0 (TSlice t) v -> h0 ⊆ h ->
  sets_field f v ins outs h0 h (new_cell f ins outs h).
Proof.
  intros Hflat Hf Ht Hs. unfold new_cell. rewrite Hf. cbn [mbind option_bind].
  assert (Hnil : v = VNil \/
    (exists l x, v = VPtr l /\ h0 !! l = Some (CVar x) /\ typed h0 t x) \/
    (exists l vs, v = VSlice l /\ h0 !! l = Some (CArray vs) /\ forall x, In x vs -> typed h0 t x)).
  { destruct Ht as [Ht|Ht]; inversion Ht; subst; eauto 8. }
  destruct Hnil as [->|[(l & x & -> & Hl & Hx)|(l & vs & -> & Hl & Hx)]].
  - exists outs, h. split; [done|]. split; [done|by left].
  - rewrite (lookup_weaken _ _ _ _ Hl Hs). destruct (alloc (CVar x) h) as [l' h1] eqn:Ha.
    apply alloc_spec in Ha as (Hl' & Hl1 & Hh1). eexists _, h1. split; [done|]. split; [done|].
    right. exists (VPtr l'). split; [done|]. econstructor; [done| |done|by apply (flat_deep _ t)].
    intros Hin. apply Hl'. by apply (subseteq_dom _ _ Hs).
  - rewrite (lookup_weaken _ _ _ _ Hl Hs). destruct (alloc (CArray vs) h) as [l' h1] eqn:Ha.
    apply alloc_spec in Ha as (Hl' & Hl1 & Hh1). eexists _, h1. split; [done|]. split; [done|].
    right. exists (VSlice l'). split; [done|]. econstructor; [done| |done|done|].
    + intros Hin. apply Hl'. by apply (subseteq_dom _ _ Hs).
    + intros i y y' Hy Hy'. rewrite Hy in Hy'. injection Hy' as <-. apply (flat_deep _ t); [done|].
      apply Hx, list_elem_of_In. by eapply list_elem_of_lookup_2.
Qed.

(** ** Complete methods *)

Definition target (s : stmt) : option string :=
  match s with
  | CopyAll => None
  | Assign f | NewPtr f | MakeCopy f | MakeEach f _ | MakeEachLib f _ | Into f _
  | IntoLib f _ | AssignLib f _ => Some f
  end.

Definition copied_field (ss : list stmt) (p : string * gtype) : bool :=
  flat p.2 || existsb (fun s => bool_decide (target s = Some p.1)) ss.

(** The statement makes a deep copy of a field of that type. *)
Fixpoint stmt_ok (ts : list (string * gtype)) (s : stmt) : bool :=
  let complete := fun ts m =>
    match m with
    | CopyAll :: ss =>
        (fix all (ss : list stmt) := match ss with [] => true | s :: ss' => stmt_ok ts s && all ss' end) ss
        && forallb (copied_field ss) ts
    | _ => false
    end in
  match s with
  | CopyAll => false
  | Assign f => match get f ts with Some t => flat t | None => false end
  | NewPtr f => match get f ts with Some (TPtr t) => flat t | _ => false end
  | MakeCopy f => match get f ts with Some (TSlice t) => flat t | _ => false end
  | MakeEach f m => match get f ts with Some (TSlice (TStruct ts')) => complete ts' m | _ => false end
  | MakeEachLib f n => match get f ts with Some (TSlice (TLib n')) => bool_decide (n = n') | _ => false end
  | Into f m => match get f ts with Some (TStruct ts') => complete ts' m | _ => false end
  | IntoLib f n | AssignLib f n =>
      match get f ts with Some (TLib n') => bool_decide (n = n') | _ => false end
  end.

(** [*out = *in], and after it a copy of every field that holds memory. *)
Definition complete (ts : list (string * gtype)) (m : method) : bool :=
  match m with
  | CopyAll :: ss => forallb (stmt_ok ts) ss && forallb (copied_field ss) ts
  | _ => false
  end.

(** Induction on statements, with the methods they call. *)
Lemma stmt_rect_nested (P : stmt -> Prop) :
  P CopyAll -> (forall f, P (Assign f)) -> (forall f, P (NewPtr f)) -> (forall f, P (MakeCopy f)) ->
  (forall f m, Forall P m -> P (MakeEach f m)) -> (forall f n, P (MakeEachLib f n)) ->
  (forall f m, Forall P m -> P (Into f m)) -> (forall f n, P (IntoLib f n)) ->
  (forall f n, P (AssignLib f n)) ->
  forall s, P s.
Proof.
  intros H1 H2 H3 H4 H5 H6 H7 H8 H9. fix IH 1.
  assert (IHl : forall m, Forall P m) by (fix IHl 1; intros [|s m]; constructor; [apply IH|apply IHl]).
  intros [| | | | | | | |]; [exact H1|apply H2|apply H3|apply H4|apply H5, IHl|apply H6|apply H7, IHl
    |apply H8|apply H9].
Qed.

(** What a statement does to a well typed struct. *)
Definition good (s : stmt) : Prop :=
  forall ts ins outs h0 h,
    stmt_ok ts s = true -> typed h0 (TStruct ts) (VStruct ins) -> h0 ⊆ h ->
    exists f v, target s = Some f /\ get f ins = Some v /\
      sets_field f v ins outs h0 h (run_stmt s ins outs h).

(** The state of [out] when the fields of [done] were copied. *)
Definition partial (done : list string) (h0 h : heap) (ins outs : fields) : Prop :=
  map fst outs = map fst ins /\
  forall f v, get f ins = Some v ->
    exists v', get f outs = Some v' /\
      (deep h0 (dom h0) h v v' \/ (v' = v /\ f ∉ done)).

Lemma partial_step done f v h0 h h' ins outs res :
  partial done h0 h ins outs -> get f ins = Some v -> h ⊆ h' ->
  ((v = VNil /\ res = outs) \/ exists v', res = put f v' outs /\ deep h0 (dom h0) h' v v') ->
  partial (f :: done) h0 h' ins res.
Proof.
  intros [Hn Hp] Hf Hs Hres. split.
  { destruct Hres as [[_ ->]|(v' & -> & _)]; [done|]. by rewrite put_names. }
  intros g w Hg. destruct (Hp g w Hg) as (w' & Hw & Hd).
  destruct (decide (g = f)) as [->|Hne].
  - rewrite Hf in Hg. injection Hg as <-. destruct Hres as [[-> ->]|(v' & -> & Hv)].
    + exists w'. split; [done|]. left. destruct Hd as [Hd|[-> _]]; [by eapply deep_mono|constructor].
    + exists v'. split; [by eapply get_put_eq|by left].
  - exists w'. split.
    + destruct Hres as [[_ ->]|(v' & -> & _)]; [done|]. by rewrite get_put_ne.
    + destruct Hd as [Hd|[-> Hnd]]; [left; by eapply deep_mono|right].
      split; [done|]. rewrite not_elem_of_cons. done.
Qed.

Lemma run_method_partial ss ts h0 ins : forall done outs h,
  Forall good ss -> forallb (stmt_ok ts) ss = true -> typed h0 (TStruct ts) (VStruct ins) -> h0 ⊆ h ->
  partial done h0 h ins outs ->
  exists outs' h' done', run_method ss ins outs h = Some (outs', h') /\ h ⊆ h' /\
    partial done' h0 h' ins outs' /\ done ⊆ done' /\
    (forall s f, In s ss -> target s = Some f -> f ∈ done').
Proof.
  induction ss as [|s ss IH]; intros done outs h Hg Hok Ht Hs Hp.
  { exists outs, h, done. split_and!; done. }
  apply Forall_cons in Hg as [Hgs Hg]. cbn in Hok. apply andb_true_iff in Hok as [Hs1 Hok].
  destruct (Hgs ts ins outs h0 h Hs1 Ht Hs) as (f & v & Hf & Hv & outs1 & h1 & He & Hh1 & Hr).
  pose proof (partial_step _ _ _ _ _ _ _ _ _ Hp Hv Hh1 Hr) as Hp1.
  destruct (IH (f :: done) outs1 h1 Hg Hok Ht) as (outs' & h' & done' & He' & Hh' & Hp' & Hd & Hin);
    [by transitivity h|done|].
  exists outs', h', done'. cbn [run_method]. rewrite He. cbn [mbind option_bind].
  split; [done|]. split; [by transitivity h1|]. split; [done|]. split; [set_solver|].
  intros s' g [<-|Hs'] Hg'; [|by eapply Hin]. rewrite Hf in Hg'. injection Hg' as <-. set_solver.
Qed.

Lemma complete_copies m ts :
  Forall good m -> complete ts m = true -> copies (TStruct ts) (copy_struct m).
Proof.
  intros Hg Hc h v Ht. destruct m as [|[] ss]; try done. cbn in Hc.
  apply andb_true_iff in Hc as [Hok Hall]. apply Forall_cons in Hg as [_ Hg].
  assert (Hv : exists ins, v = VStruct ins) by (inversion Ht; by eexists). destruct Hv as [ins ->].
  assert (Hp : partial [] h h ins ins).
  { split; [done|]. intros f v Hf. exists v. split; [done|]. right. set_solver. }
  destruct (run_method_partial ss ts h ins [] ins h Hg Hok Ht (reflexivity _) Hp)
    as (outs & h' & done' & He & Hh & [Hn Hd] & _ & Hin).
  exists (VStruct outs), h'. cbn. rewrite He. split; [done|]. split; [done|].
  constructor; [done|]. intros f x x' Hx Hx'.
  destruct (Hd f x Hx) as (y & Hy & Hy'). rewrite Hx' in Hy. injection Hy as <-.
  destruct Hy' as [Hy'|[-> Hnd]]; [done|].
  inversion Ht as [| | | | |ts0 fs Hts Hty|]; subst.
  destruct (get_names ins ts f x Hts Hx) as [t Hft].
  rewrite forallb_forall in Hall. pose proof (Hall _ (get_In _ _ _ Hft)) as Hcf.
  apply orb_true_iff in Hcf as [Hflat|(s & Hs & Hts')%existsb_exists].
  - apply (flat_deep _ t); [done|by eapply Hty].
  - exfalso. apply Hnd. by apply (Hin s f); [|apply bool_decide_eq_true in Hts'].
Qed.

(** The nested loops are [run_method] and [forallb]. *)
Lemma run_stmt_Into f m ins outs h :
  run_stmt (Into f m) ins outs h = copy_field (copy_struct m) f ins outs h.
Proof. done. Qed.
Lemma run_stmt_MakeEach f m ins outs h :
  run_stmt (MakeEach f m) ins outs h = make_each (copy_struct m) f ins outs h.
Proof. done. Qed.
Lemma stmt_ok_Into ts f m :
  stmt_ok ts (Into f m) =
  match get f ts with Some (TStruct ts') => complete ts' m | _ => false end.
Proof. done. Qed.
Lemma stmt_ok_MakeEach ts f m :
  stmt_ok ts (MakeEach f m) =
  match get f ts with Some (TSlice (TStruct ts')) => complete ts' m | _ => false end.
Proof. done. Qed.

Lemma field_typed h ts ins f t :
  typed h (TStruct ts) (VStruct ins) -> get f ts = Some t ->
  exists v, get f ins = Some v /\ typed h t v.
Proof.
  intros Ht Hf. inversion Ht as [| | | | |ts0 fs Hts Hty|]; subst.
  destruct (get_names ts ins f t (eq_sym Hts) Hf) as [v Hv]. exists v. eauto.
Qed.

Ltac field_case Hok Ht :=
  repeat match type of Hok with
    | context [match ?x with _ => _ end] => destruct x eqn:?; try discriminate Hok
    end;
  match goal with
  | Hf : get _ _ = Some _ |- _ =>
      destruct (field_typed _ _ _ _ _ Ht Hf) as (v & Hv & Htv); eexists _, v;
      split; [reflexivity|]; split; [exact Hv|]
  end.

Lemma stmt_good s : good s.
Proof.
  induction s as [|f|f|f|f m IH|f n|f m IH|f n|f n] using stmt_rect_nested;
    intros ts ins outs h0 h Hok Ht Hs; [done|..].
  - cbn [stmt_ok] in Hok. field_case Hok Ht. cbn [run_stmt]. rewrite Hv.
    exists (put f v outs), h. split; [done|]. split; [done|]. right. exists v. split; [done|].
    by eapply flat_deep.
  - cbn [stmt_ok] in Hok. field_case Hok Ht. eapply new_cell_sets; eauto.
  - cbn [stmt_ok] in Hok. field_case Hok Ht. eapply new_cell_sets; eauto.
  - rewrite stmt_ok_MakeEach in Hok. field_case Hok Ht. rewrite run_stmt_MakeEach.
    eapply make_each_sets; eauto using complete_copies.
  - cbn [stmt_ok] in Hok. field_case Hok Ht. apply bool_decide_eq_true in Hok as ->.
    eapply make_each_sets; eauto using copies_lib.
  - rewrite stmt_ok_Into in Hok. field_case Hok Ht. rewrite run_stmt_Into.
    eapply copy_field_sets; eauto using complete_copies.
  - cbn [stmt_ok] in Hok. field_case Hok Ht. apply bool_decide_eq_true in Hok as ->.
    eapply copy_field_sets; eauto using copies_lib.
  - cbn [stmt_ok] in Hok. field_case Hok Ht. apply bool_decide_eq_true in Hok as ->.
    eapply copy_field_sets; eauto using copies_lib.
Qed.

(** A complete method makes a deep copy of every well typed struct. *)
Lemma complete_copy_struct m ts : complete ts m = true -> copies (TStruct ts) (copy_struct m).
Proof. apply complete_copies. induction m; constructor; [apply stmt_good|done]. Qed.

(** [DeepCopy] of a pointer to a struct. *)
Lemma complete_DeepCopy m ts : complete ts m = true -> copies (TPtr (TStruct ts)) (DeepCopy m).
Proof.
  intros Hc h v Ht. inversion Ht as [|t0 Hn|t0 l x Hl Hx| | | |]; subst.
  { exists VNil, h. split; [done|]. split; [done|constructor]. }
  assert (Hs : exists ins, x = VStruct ins) by (inversion Hx; by eexists). destruct Hs as [ins ->].
  unfold DeepCopy. rewrite Hl. destruct (alloc (CVar (VStruct [])) h) as [l' h1] eqn:Ha.
  apply alloc_spec in Ha as (Hl' & Hl1 & Hh1).
  destruct (copies_at _ _ h h1 _ (complete_copy_struct m ts Hc) Hh1 Hx) as (x' & h2 & -> & Hh2 & Hd).
  exists (VPtr l'), (<[l':=CVar x']> h2). split; [done|].
  split; [by apply insert_above; [|transitivity h1]|].
  econstructor; [done|done|apply lookup_insert_eq|].
  apply (dom_old h h1); [done|]. apply (deep_frame _ _ h2); [|done].
  intros k Hk _. apply lookup_insert_ne. intros <-. apply Hk. by eapply elem_of_dom_2.
Qed.

End deep.
