(* ===== verification/DeepCopyFacts.v ===== *)
(** * Theorems on the deep copies

    Every method of api/v1/zz_generated.deepcopy.go is complete for the fields
    its type has in api/v1/configuration_types.go, so every copy is deep. *)

From S2P Require Import Prelude GoMemory GoMemoryFacts DeepCopy.
Local Open Scope string_scope.
Local Open Scope list_scope.

Section deepcopy.
Context `{LT : LibTypes, LL : !LibLaws}.

Lemma methods_complete ts m : In (ts, m) deepcopy_methods -> complete ts m = true.
Proof.
  assert (Hall : forallb (fun p => complete p.1 p.2) deepcopy_methods = true) by by vm_compute.
  rewrite forallb_forall in Hall. exact (Hall (ts, m)).
Qed.

Lemma DeepCopyObject_eq m v h : DeepCopyObject m v h = DeepCopy m v h.
Proof. unfold DeepCopyObject. by destruct (DeepCopy m v h) as [[[] h']|]. Qed.

(** C18: [DeepCopy] makes deep copies, for each of the 22 API types and their
    list. For a well typed pointer it returns nil for nil, or a pointer to a
    new struct of the same type; it leaves every existing cell as it was; and the copy, read
    through its own pointers and slices, equals the original, with no cell in
    common with anything that existed before. So whatever is later written to
    the cells that existed before the copy, the copy still reads as the
    original did when it was made. [DeepCopyObject] returns the same. *)
Theorem DeepCopy_is_deep ts m h v :
  In (ts, m) deepcopy_methods -> typed h (TPtr (TStruct ts)) v ->
  exists v' h',
    DeepCopy m v h = Some (v', h') /\ DeepCopyObject m v h = Some (v', h') /\
    h ⊆ h' /\ typed h' (TPtr (TStruct ts)) v' /\ (v' = VNil <-> v = VNil) /\
    forall h'' : heap, (forall l, l ∉ dom h -> h'' !! l = h' !! l) ->
      deep h (dom h) h'' v v'.
Proof.
  intros Hin Ht.
  destruct (complete_DeepCopy m ts (methods_complete ts m Hin) h v Ht) as (v' & h' & He & Hs & Hd).
  exists v', h'. split; [done|]. split; [by rewrite DeepCopyObject_eq|]. split; [done|].
  split; [by eapply deep_typed|]. split.
  - inversion Hd; naive_solver.
  - intros h'' Hh. apply (deep_frame _ _ h'); [|done]. intros l Hl _. by apply Hh.
Qed.

End deepcopy.

(** ** An instance *)

(** Library values without memory: they are copied by assignment. *)
#[local] Instance scalarLib : LibTypes := {|
  lib_typed n h v := exists s, v = VScalar s;
  lib_copy n v h := Some (v, h)
|}.

#[local] Instance scalarLaws : LibLaws.
Proof.
  split.
  - done.
  - intros n h v [s ->]. exists (VScalar s), h. split; [done|]. split; [done|constructor].
  - intros n hr hr' old h v v' _ [s ->] Hd. inversion Hd. constructor.
  - intros n hr old h v v' [s ->] Hd. inversion Hd. by eexists.
Qed.

(** A status with two addresses, and its copy after the original lost one. *)
Definition statusHeap : heap :=
  {[ 1%positive := CVar (VStruct
       [("MatchingNodeAddresses", VSlice 2%positive); ("Conditions", VNil);
        ("Status", VScalar (SString "Deployed")); ("ManagedObjects", VNil)]);
     2%positive := CArray [VScalar (SString "10.0.0.1"); VScalar (SString "10.0.0.2")] ]}.

Lemma status_typed : typed statusHeap (TPtr (TStruct ConfigurationStatus_layout)) (VPtr 1%positive).
Proof.
  eapply typed_ptr; [reflexivity|]. apply typed_struct; [reflexivity|].
  intros f t v Ht Hv. cbn in Ht, Hv.
  repeat (case_bool_decide; [simplify_eq; try constructor|]); [|done].
  eapply typed_slice; [reflexivity|]. intros x [<-|[<-|[]]]; constructor.
Qed.

Lemma DeepCopy_is_deep_witness :
  exists l h', ConfigurationStatus_DeepCopy (VPtr 1%positive) statusHeap = Some (VPtr l, h') /\
    deep statusHeap (dom statusHeap) (<[2%positive := CArray []]> h') (VPtr 1%positive) (VPtr l).
Proof.
  assert (Hin : In (ConfigurationStatus_layout, ConfigurationStatus_DeepCopyInto) deepcopy_methods)
    by (cbn; tauto).
  destruct (DeepCopy_is_deep _ _ statusHeap (VPtr 1%positive) Hin status_typed)
    as (v' & h' & He & _ & _ & _ & _ & Hd).
  assert (H2 : 2%positive ∈ dom statusHeap) by (apply elem_of_dom; by eexists).
  assert (Hd2 := Hd (<[2%positive := CArray []]> h')).
  destruct v' as [s| |l|l|fs].
  3: { exists l, h'. split; [exact He|]. apply Hd2. intros k Hk. apply lookup_insert_ne.
       intros <-. by apply Hk. }
  all: exfalso; specialize (Hd h' (fun l _ => eq_refl)); inversion Hd.
Defined.
