(* ===== verification/MainFacts.v ===== *)
(** * Theorems on the start of the operator

    [main] runs a fixed script of library calls: the ones it cannot do without,
    and the ones whose error it only logs. *)

From S2P Require Import Prelude GoLib Effects KubeApi ConfigTypes Calls.
From S2P Require Import ConfigurationController NodeController HealthCheck Bootstrap Main TestServer.
Local Open Scope kube_scope.
Local Open Scope string_scope.
Local Open Scope list_scope.

Section script.
Context `{KL : KubeLib}.

(** A step of the script: its error ends the process, or is only logged. *)
Inductive entry :=
| Must (e : mainE (option error))
| Logged (e : mainE (option error))
| Plain (e : mainE unit).

Definition run_entry (x : entry) (k : prog mainE ended) : prog mainE ended :=
  match x with
  | Must e => or_exit e k
  | Logged e => or_log e k
  | Plain e => call e ;;; k
  end.
Definition run_script (l : list entry) (k : prog mainE ended) : prog mainE ended :=
  fold_right run_entry k l.

(** What is observed of a step, and whether it ends the process. *)
Definition observed (x : entry) (fatal : bool) (ob : obs mainE) : Prop :=
  match x with
  | Must e => exists r, ob = Obs e r /\ fatal = match r with Some _ => true | None => false end
  | Logged e => exists r, ob = Obs e r /\ fatal = false
  | Plain e => exists r, ob = Obs e r /\ fatal = false
  end.

(** The steps all ran, and none of them ended the process. *)
Definition all_ok : list entry -> trace mainE -> Prop :=
  Forall2 (fun x ob => observed x false ob).

(** The steps ran to their first fatal answer. *)
Definition fails_in (l : list entry) (t : trace mainE) (o : ended) : Prop :=
  exists l1 x l2 t1 ob, l = l1 ++ x :: l2 /\ t = t1 ++ [ob] /\ all_ok l1 t1 /\
    observed x true ob /\ o = Exit 1.

(** A step that is not a [go] statement. *)
Definition sequential (x : entry) : Prop :=
  match x with Must e | Logged e => is_Go e = false | Plain e => is_Go e = false end.

(** ** Runs of the process *)

Lemma process_Ret e t o : process (Ret e) None t o <-> t = [] /\ o = e.
Proof.
  split; [|intros [-> ->]; constructor; by left].
  inversion 1 as [? ? ? Hd|? ? ? ? ? ? Hs|]; subst; [|by destruct Hs].
  by destruct Hd as [[= ->]|[=]].
Qed.

(** One call of [main] while it is alone. *)
Lemma process_Vis {X} (e : mainE X) (k : X -> prog mainE ended) t o :
  process (Vis e k) None t o <->
  exists x t', t = Obs e x :: t' /\ process (k x) (spawned (Obs e x) None) t' o.
Proof.
  split.
  - inversion 1 as [? ? ? Hd|? ? ? ? ? ? Hs|]; subst; [by destruct Hd|].
    destruct Hs as (x & -> & ->). eauto.
  - intros (x & t' & -> & Hp). apply (process_main _ (k x)); [by exists x|done].
Qed.

Lemma process_entry x k t o :
  sequential x ->
  process (run_entry x k) None t o <->
  exists ob t', t = ob :: t' /\
    ((observed x true ob /\ t' = [] /\ o = Exit 1) \/ (observed x false ob /\ process k None t' o)).
Proof.
  intros Hx. destruct x as [e|e|e]; cbn [run_entry]; unfold or_exit, or_log, call; cbn [bind];
    rewrite process_Vis; cbn [spawned sequential observed] in *; rewrite Hx; split.
  - intros (r & t' & -> & Hp). exists (Obs e r), t'. split; [done|]. destruct r as [err|].
    + left. apply process_Ret in Hp as [-> ->]. eauto.
    + right. eauto.
  - intros (ob & t' & -> & [((r & -> & Hr) & -> & ->)|((r & -> & Hr) & Hp)]); exists r.
    + destruct r; [|done]. exists []. by rewrite process_Ret.
    + destruct r; [done|]. eauto.
  - intros (r & t' & -> & Hp). exists (Obs e r), t'. split; [done|]. right. eauto.
  - intros (ob & t' & -> & [((r & _ & [=]) & _)|((r & -> & _) & Hp)]). eauto.
  - intros (r & t' & -> & Hp). exists (Obs e r), t'. split; [done|]. right. eauto.
  - intros (ob & t' & -> & [((r & _ & [=]) & _)|((r & -> & _) & Hp)]). eauto.
Qed.

(** A script runs to its first fatal answer, or to its end and what follows. *)
Lemma process_script l k t o :
  Forall sequential l ->
  process (run_script l k) None t o <->
  fails_in l t o \/ exists t1 t2, t = t1 ++ t2 /\ all_ok l t1 /\ process k None t2 o.
Proof.
  intros Hl. revert t. induction Hl as [|x l Hx Hl IH]; intros t; cbn [run_script foldr].
  - split; [intros Hp; right; exists [], t; by repeat constructor|].
    intros [(l1 & x & l2 & ? & ? & H & _)|(t1 & t2 & -> & H & Hp)]; [by destruct l1|].
    by inversion H.
  - rewrite process_entry by done. setoid_rewrite IH. split.
    + intros (ob & t' & -> & [(Hob & -> & ->)|(Hob & [Hf|(t1 & t2 & -> & Hok & Hp)])]).
      * left. exists [], x, l, [], ob. split_and!; try done. constructor.
      * destruct Hf as (l1 & y & l2 & t1 & ob' & -> & -> & Hok & Hob' & ->). left.
        exists (x :: l1), y, l2, (ob :: t1), ob'. split_and!; try done. by constructor.
      * right. exists (ob :: t1), t2. split_and!; try done. by constructor.
    + intros [(l1 & y & l2 & t1 & ob' & Hll & -> & Hok & Hob' & ->)|(t1 & t2 & -> & Hok & Hp)].
      * destruct l1 as [|z l1]; injection Hll as -> ->; inversion Hok as [|? ob ? t1' Hob Hok']; subst.
        -- exists ob', []. eauto.
        -- exists ob, (t1' ++ [ob']). split; [done|]. right. split; [done|]. left.
           by exists l1, y, l2, t1', ob'.
      * inversion Hok as [|? ob ? t1' Hob Hok']; subst. exists ob, (t1' ++ t2).
        split; [done|]. right. split; [done|]. right. eauto.
Qed.

(** How the process ends once both managers run. The controller manager ends it
    with [main]; an error of the webhook manager ends it from the goroutine,
    with code 1; when the webhook manager returns without an error, the
    operator goes on without it. When both return before the process is gone,
    either of the two that ends it may be the one. *)
Definition end_of_main (r : option error) : ended :=
  match r with Some _ => Exit 1 | None => Return end.

Inductive ending : trace mainE -> ended -> Prop :=
| ending_main r : ending [Obs (StartManager ControllerManager) r] (end_of_main r)
| ending_webhook e : ending [Obs (StartManager WebhookManager) (Some e)] (Exit 1)
| ending_main_first r w o :
    o = end_of_main r \/ (w <> None /\ o = Exit 1) ->
    ending [Obs (StartManager ControllerManager) r; Obs (StartManager WebhookManager) w] o
| ending_webhook_first r w o :
    o = end_of_main r \/ (w <> None /\ o = Exit 1) ->
    ending [Obs (StartManager WebhookManager) w; Obs (StartManager ControllerManager) r] o.

(** The goroutine after its only call. *)
Definition after_webhook (w : option error) : prog mainE (option ended) :=
  match w with Some _ => Ret (Some (Exit 1)) | None => Ret None end.
Definition after_main (r : option error) : prog mainE ended := Ret (end_of_main r).

Lemma process_done r w t o :
  process (after_main r) (Some (after_webhook w)) t o <->
  t = [] /\ (o = end_of_main r \/ (w <> None /\ o = Exit 1)).
Proof.
  split.
  - inversion 1 as [? ? ? Hd|? ? ? ? ? ? Hs|? ? ? ? ? ? Hs]; subst.
    + split; [done|]. destruct Hd as [[=]|Hd]; [by left|]. right.
      destruct w; cbn in Hd; [|done]. by injection Hd as <-.
    + done.
    + by destruct w.
  - intros [-> Hd]. constructor. destruct Hd as [->|[Hw ->]]; [by left|right]. by destruct w.
Qed.

Lemma process_main_left w t o :
  process (or_exit (StartManager ControllerManager) (Ret Return)) (Some (after_webhook w)) t o <->
  (t = [] /\ w <> None /\ o = Exit 1) \/
  exists r t', t = Obs (StartManager ControllerManager) r :: t' /\
    process (after_main r) (Some (after_webhook w)) t' o.
Proof.
  split.
  - inversion 1 as [? ? ? Hd|? ? ? ? ? ? Hs|? ? ? ? ? ? Hs]; subst.
    + left. destruct Hd as [[=]|Hd]. destruct w; cbn in Hd; [|done]. by injection Hd as <-.
    + right. destruct Hs as (r & -> & ->). exists r. eexists. split; [done|]. by destruct r.
    + by destruct w.
  - intros [(-> & Hw & ->)|(r & t' & -> & Hp)]; [constructor; right; by destruct w|].
    eapply process_main; [by exists r|]. by destruct r.
Qed.

Lemma process_goroutine_left r t o :
  process (after_main r) (Some runWebhookManager) t o <->
  (t = [] /\ o = end_of_main r) \/
  exists w t', t = Obs (StartManager WebhookManager) w :: t' /\
    process (after_main r) (Some (after_webhook w)) t' o.
Proof.
  split.
  - inversion 1 as [? ? ? Hd|? ? ? ? ? ? Hs|? ? ? ? ? ? Hs]; subst.
    + left. by destruct Hd as [[=]|[=]].
    + done.
    + right. destruct Hs as (w & -> & ->). eauto.
  - intros [[-> ->]|(w & t' & -> & Hp)]; [constructor; by left|].
    eapply process_goroutine; [by exists w|done].
Qed.

Lemma process_managers t o :
  process startManagers None t o <->
  exists t', t = Obs (Go WebhookManager) tt :: t' /\ ending t' o.
Proof.
  unfold startManagers, call. cbn [bind]. rewrite process_Vis. split.
  - intros ([] & t' & -> & Hp). exists t'. split; [done|]. cbn in Hp.
    inversion Hp as [? ? ? Hd|? ? ? ? ? ? Hs Hq|? ? ? ? ? ? Hs Hq]; subst.
    + by destruct Hd.
    + destruct Hs as (r & -> & ->).
      match type of Hq with process _ _ ?u _ =>
        assert (Hq' : process (after_main r) (Some runWebhookManager) u o) by by destruct r
      end.
      apply process_goroutine_left in Hq' as [[-> ->]|(w & t2 & -> & Hq')]; [constructor|].
      apply process_done in Hq' as [-> Hq']. by constructor.
    + destruct Hs as (w & -> & ->).
      apply process_main_left in Hq as [(-> & Hw & ->)|(r & t2 & -> & Hq)].
      * destruct w; [constructor|done].
      * apply process_done in Hq as [-> Hq]. by constructor.
  - intros (t' & -> & He). exists tt, t'. split; [done|]. cbn.
    destruct He as [r|e|r w o Hd|r w o Hd].
    + eapply process_main; [by exists r|].
      assert (Hq : process (after_main r) (Some runWebhookManager) [] (end_of_main r))
        by (apply process_goroutine_left; by left). by destruct r.
    + eapply process_goroutine; [by exists (Some e)|]. constructor. by right.
    + assert (Hq : process (after_main r) (Some runWebhookManager)
        [Obs (StartManager WebhookManager) w] o).
      { apply process_goroutine_left. right. exists w, []. by rewrite process_done. }
      eapply process_main; [by exists r|]. by destruct r.
    + eapply process_goroutine; [by exists w|]. apply process_main_left. right. exists r, [].
      by rewrite process_done.
Qed.

End script.

Section startup.
Context `{KL : KubeLib} (f : flags).

Definition when_path {A} (p : string) (x : A) : list A := if nonEmptyPath p then [x] else [].

(** What the operator does before it starts the managers. *)
Definition startup : list entry :=
  let cm := ControllerManager in
  [Plain (SetLogger (flag_debug f) (flag_debug f))] ++
  when_path (webhookCertPath f) (Must (NewCertWatcher WebhookCert
    (path_Join [webhookCertPath f; webhookCertName f])
    (path_Join [webhookCertPath f; webhookCertKey f]))) ++
  when_path (metricsCertPath f) (Must (NewCertWatcher MetricsCert
    (path_Join [metricsCertPath f; metricsCertName f])
    (path_Join [metricsCertPath f; metricsCertKey f]))) ++
  [Must GetConfigOrDie;
   Must (NewManager cm (mkManagerOptions (metricsServerOptions f) (probeAddr f)
     (enableLeaderElection f) "1d231218.my.domain" [flag_namespace f] None));
   Plain SetupSignalHandler;
   Must (SetupWithManager (RegConfiguration (configurationReconciler f)) cm);
   Logged (SetupWithManager (RegNode (nodeReconciler f)) cm);
   Logged (SetupWithManager (RegHealthCheck (healthCheckReconciler f)) cm);
   Must GetConfigOrDie;
   Must (NewManager WebhookManager (mkManagerOptions (mkMetricsOptions "" false false []) "" false
     "" [] (Some (webhookTLSOpts f))));
   Must (SetupWithManager RegWebhook WebhookManager);
   Must (AddRunnable (RunBootstrapper (bootstrapper f)) cm)] ++
  when_path (metricsCertPath f) (Must (AddRunnable (RunCertWatcher MetricsCert) cm)) ++
  when_path (webhookCertPath f) (Must (AddRunnable (RunCertWatcher WebhookCert) WebhookManager)) ++
  [Must (AddHealthzCheck "healthz" cm); Must (AddReadyzCheck "readyz" cm)].

Lemma main_script : main f = run_script startup startManagers.
Proof.
  unfold main, startup, when_path, newWebhookCertWatcher, newMetricsCertWatcher,
    addMetricsCertWatcher, addWebhookCertWatcher.
  by destruct (nonEmptyPath (webhookCertPath f)), (nonEmptyPath (metricsCertPath f)).
Qed.

Lemma startup_sequential : Forall sequential startup.
Proof.
  unfold startup, when_path.
  destruct (nonEmptyPath (webhookCertPath f)), (nonEmptyPath (metricsCertPath f));
    by repeat constructor.
Qed.

(** C19: the managers start only after a complete setup, and the failure of
    either ends the process. These are exactly the runs of the process, in which
    [main] and the goroutine of the webhook manager interleave. Either the setup
    fails: a prefix of the calls of [startup] was made, in that order and each
    once, with the options of the flags (the certificate watchers only for the
    paths that are set, the three controllers and the bootstrapper for the same
    namespace), its last answer is a fatal error, the exit code is 1 and no
    manager was started. Or all of [startup] ran, the goroutine was started, and
    the process ends as [ending] says: with the controller manager (code 1 on an
    error, normally otherwise), or with code 1 on an error of the webhook
    manager. Two errors of the setup are not fatal: a node controller or a
    health check that could not be set up is only logged, and the operator runs
    without it. *)
Theorem main_starts_managers t o :
  process (main f) None t o <->
  fails_in startup t o \/
  exists t1 t2, t = t1 ++ Obs (Go WebhookManager) tt :: t2 /\ all_ok startup t1 /\ ending t2 o.
Proof.
  rewrite main_script, (process_script _ _ _ _ startup_sequential). setoid_rewrite process_managers.
  split; (intros [Hf|Hr]; [by left|right]).
  - destruct Hr as (t1 & ? & -> & Hok & t2 & -> & He). eauto.
  - destruct Hr as (t1 & t2 & -> & Hok & He). eauto 8.
Qed.

End startup.

(** ** An instance *)

(** Every call of the setup succeeds but the setup of the node controller. *)
Definition withoutNodes : handler mainE unit := fun X e w =>
  (match e in mainE X return X with
   | SetLogger _ _ | SetupSignalHandler | Go _ => tt
   | SetupWithManager (RegNode _) _ => Some (ELib ("no kind is registered" : string))
   | NewCertWatcher _ _ _ | GetConfigOrDie | NewManager _ _ | SetupWithManager _ _
   | AddRunnable _ _ | AddHealthzCheck _ _ | AddReadyzCheck _ _ | StartManager _ => None
   end, w).

(** The setup without the node controller, in the main goroutine. *)
Definition setup_trace : trace mainE :=
  exec_trace withoutNodes (run_script (startup defaultFlags) (Ret Return)) tt.

Lemma setup_trace_ok : all_ok (startup defaultFlags) setup_trace.
Proof. repeat constructor; by eexists. Qed.

(** The webhook manager then fails: the process ends with code 1. *)
Lemma main_starts_managers_witness :
  process (main defaultFlags) None
    (setup_trace ++ [Obs (Go WebhookManager) tt;
       Obs (StartManager WebhookManager) (Some (ELib ("address already in use" : string)))])
    (Exit 1).
Proof.
  apply (main_starts_managers defaultFlags). right. eexists _, _.
  split; [reflexivity|]. split; [exact setup_trace_ok|constructor].
Defined.
