(* ===== verification/SystemFacts.v ===== *)
(** * Theorems on the operator among other clients

    What the API server stores as the status of the Configuration, in every
    interleaving of the workers of [System]. *)

From S2P Require Import Prelude GoLib Effects KubeApi ConfigTypes Calls Executor.
From S2P Require Import ConfigurationController NodeController HealthCheck Bootstrap Guarantees.
From S2P Require Import System.
Local Open Scope kube_scope.

(** ** The invariant of the status *)

Record ok_status `{KubeLib} (s : ConfigurationStatus) : Prop := {
  ok_sorted : StronglySorted String.le (st_MatchingNodeAddresses s);
  ok_addresses : Forall (fun a => nonEmpty a = true) (st_MatchingNodeAddresses s);
  ok_types : NoDup (map c_Type (st_Conditions s));
  ok_conditions :
    Forall (fun c => in_table (c_Type c) (c_Status c) (c_Reason c) = true) (st_Conditions s);
  ok_state : st_Status s = "" \/ st_Status s = ConfigurationStatusDeployed;
  ok_managed : st_ManagedObjects s = []
}.

Section invariant.
Context `{KL : KubeLib}.

Definition ok_config (c : Configuration) : Prop := ok_status (cfg_Status c).

Lemma ok_noStatus : ok_status noStatus.
Proof. split; cbn; try constructor; done. Qed.

Lemma merge_cases {A} `{EqDecision A} (P : A -> Prop) base new stored :
  P new -> P stored -> P (merge base new stored).
Proof. unfold merge. by destruct (decide _). Qed.

(** The fields of a merge come from two statuses that satisfy the invariant. *)
Lemma ok_merge base new stored :
  ok_status new -> ok_status stored -> ok_status (merge_status base new stored).
Proof. intros [] []. split; cbn; by apply merge_cases. Qed.

Lemma ok_addresses_change c l :
  ok_config c -> StronglySorted String.le l -> Forall (fun a => nonEmpty a = true) l ->
  ok_config (with_MatchingNodeAddresses c l).
Proof. by intros [] ? ?; split. Qed.

Lemma removeElement_sublist l a : sublist (removeElement l a).1 l.
Proof.
  induction l as [|x l IH]; cbn; [done|]. case_bool_decide; [by apply sublist_cons|].
  destruct (removeElement l a) as [l' b]. by apply sublist_skip.
Qed.

Lemma Forall_sublist {A} (P : A -> Prop) l l' : sublist l l' -> Forall P l' -> Forall P l.
Proof. induction 1; intros Hl; [done|inversion_clear Hl; eauto using Forall_cons_2..]. Qed.

Lemma StronglySorted_sublist {A} (R : relation A) l l' :
  sublist l l' -> StronglySorted R l' -> StronglySorted R l.
Proof.
  induction 1 as [|x l l' Hs IH|x l l' Hs IH]; intros Hl;
    [done|inversion_clear Hl..]; [|by apply IH].
  constructor; [by apply IH|]. by eapply Forall_sublist.
Qed.

Lemma Forall_update_first {A} (P : A -> Prop) p f d l :
  Forall P l -> (forall x, p x = true -> P (f x)) -> P d ->
  Forall P (update_first_or_append p f d l).
Proof.
  intros Hl Hf Hd. induction Hl as [|x l Hx Hl IH]; cbn; [by constructor|].
  destruct (p x) eqn:Hp; constructor; auto.
Qed.

#[export] Instance ok_config_stable : Stable ok_config.
Proof.
  split; intros *.
  - intros [] Ht. split; try done.
    + by apply (conditions_wf_SetCondition now c ty st msg reason).
    + apply Forall_update_first; [done| |done]. by intros v <-%has_type_spec.
  - intros Hc. apply ok_addresses_change; [done|apply slices_Sort_Sorted|].
    rewrite slices_Sort_Permutation. by destruct Hc.
  - intros Hc Hl. apply ok_addresses_change; [done|apply slices_Sort_Sorted|].
    by rewrite slices_Sort_Permutation.
  - intros Hc. pose proof (removeElement_sublist (st_MatchingNodeAddresses (cfg_Status c)) a).
    apply ok_addresses_change; [done|..]; destruct Hc.
    + by eapply StronglySorted_sublist.
    + by eapply Forall_sublist.
  - done.
  - intros []. split; try done. by right.
  - done.
Qed.

End invariant.

(** ** The invariant of the system *)

Section system.
Context `{KL : KubeLib, CL : !ControllerLib, RD : !Renderer, CS : !CleanupScripts}.
Context `{BL : !BootstrapLib, BW : !BootstrapLaws, AS : !ApiServer W, AL : !ApiServerLaws}.

(** A task sends only Configurations with a status that satisfies the
    invariant, as long as it reads such ones. *)
Definition safe {A} : op A -> Prop :=
  wp True (given ok_config) (sent ok_config) (fun _ => True).

Lemma safe_worker {A} (p : op A) : safe p -> safe (worker p).
Proof. intros Hp. by apply (wp_seq _ _ _ (fun _ => True)). Qed.

(** An answer to every call. *)
Definition refused : handler callE unit := fun X e w =>
  let err := ENew "" in
  (match e in callE X return X with
   | GetConfiguration _ | GetNamespace _ | GetSecret _ | GetConfigMap _ | GetNode _
   | ListNodes _ | ListPods _ _ | DynList _ => Err err
   | CreateConfiguration _ | PatchConfiguration _ _ | PatchConfigurationStatus _ _
   | CreateNamespace _ | DeleteNamespace _ | PatchNode _ _ | ApplyObject _ _
   | DynNewForConfig | DynDelete _ _ | NewClientset => Some err
   | ExecPod _ _ _ _ => (Some err, "", "")
   | RecordEvent _ _ _ _ => tt
   | Now => zeroTime
   end, w).

Lemma safe_Start b : safe (Start b).
Proof.
  apply (wp_seq _ _ _ (fun _ => True)); [|done]. apply (runs_wp refused).
  intros t o Hr.
  destruct (runs_load b t o Hr) as [_ [Hn|(err & cm & d & spec & tc & -> & _ & _ & _ & Hc & _)]];
    [|constructor; [done|]; constructor; [done|]].
  - eapply Forall_impl; [exact Hn|]. intros [X e x] He. by destruct e.
  - clear Hr. induction Hc; [by apply Forall_nil|apply Forall_cons..];
      (split; [exact ok_noStatus|]); [by apply Forall_nil|done].
Qed.

Record ok_system (s : system) : Prop := {
  ok_versions : Forall ok_config (versions (sys_server s));
  ok_tasks : Forall safe (sys_tasks s)
}.

Lemma ok_current w s : Forall ok_config (versions w) -> current w = Some s -> ok_status s.
Proof.
  unfold current. destruct (versions w) as [|c l]; [done|].
  intros [Hc _]%Forall_cons [= <-]. exact Hc.
Qed.

Lemma ok_new w w' c :
  Forall ok_config (versions w) -> ok_config c ->
  versions w' = versions w \/ versions w' = c :: versions w -> Forall ok_config (versions w').
Proof. intros Hw Hc [->| ->]; [done|by constructor]. Qed.

(** One call of a safe task. *)
Lemma ok_call X (e : callE X) (k : X -> task) w x w' :
  Forall ok_config (versions w) -> safe (Vis e k) -> serve X e w x w' ->
  Forall ok_config (versions w') /\ safe (k x).
Proof.
  intros Hw [He Hk] Hs. split.
  - destruct (serve_stores _ _ _ _ _ Hs) as [->|(c & -> & Hc)]; [done|].
    constructor; [|done]. unfold ok_config.
    destruct e; cbn in Hc, He; try done.
    + rewrite Hc. apply ok_noStatus.
    + by eapply ok_current.
    + destruct Hc as (s0 & Hs0 & ->). apply ok_merge; [apply He|by eapply ok_current].
  - apply Hk. destruct e; cbn; try done. intros c ->. apply serve_reads in Hs.
    rewrite List.Forall_forall in Hw. auto.
Qed.

Lemma ok_step s s' : step s s' -> ok_system s -> ok_system s'.
Proof.
  intros Hs [Hv Ht]. destruct Hs; cbn [sys_server sys_tasks] in *; split; cbn [sys_server sys_tasks]; try done.
  - constructor; [|done]. apply safe_worker, (kept_Reconcile ok_config True). done.
  - constructor; [|done]. apply safe_worker, (kept_NodeReconcile ok_config True).
  - constructor; [|done]. apply safe_worker, (kept_HealthReconcile ok_config True).
  - constructor; [|done]. apply safe_worker, safe_Start.
  - apply Forall_app in Ht as [_ [Ht _]%Forall_cons]. by eapply ok_call.
  - apply Forall_app in Ht as [H1 [Ht H2]%Forall_cons]. apply Forall_app. split; [done|].
    constructor; [|done]. by eapply ok_call.
  - apply Forall_app in Ht as [H1 [_ H2]%Forall_cons]. by apply Forall_app.
  - destruct (others_keep _ _ H) as [->|(c & -> & Hc)]; [done|]. constructor; [|done].
    unfold ok_config. destruct Hc as [->|Hc]; [apply ok_noStatus|by eapply ok_current].
Qed.

(** C4: the status of the Configuration is well formed in every reachable
    state of the operator and its environment. Start with an API server that
    has never stored a Configuration, let any number of workers of the three
    controllers and of the bootstrapper run in any interleaving, reading any
    earlier version, stopping anywhere, with other clients that leave the
    status alone. Then every version stored has sorted, non-empty recorded
    addresses; at most one condition per type, each with a type, status and
    reason of [condition_table]; a state that is empty or Deployed; and no
    managed objects. *)
Theorem status_invariant w0 w l :
  versions w0 = [] -> rtc step (mkSystem w0 []) (mkSystem w l) ->
  Forall (fun c => ok_status (cfg_Status c)) (versions w).
Proof.
  intros H0 Hs. assert (H : ok_system (mkSystem w l)); [|by destruct H].
  assert (Hi : ok_system (mkSystem w0 [])) by (split; cbn; [by rewrite H0|constructor]).
  revert Hs Hi. generalize (mkSystem w0 []) (mkSystem w l).
  induction 1; eauto using ok_step.
Qed.

End system.
