(* ===== verification/Convergence.v ===== *)
(** * The configuration controller reaches a steady state

    Repeated reconciles in an environment that works and does not change: the
    server answers with what it stored, the nodes stay the same, the library
    calls succeed. The world is a parameter; [SteadyServer] states what its
    handler does. *)

From S2P Require Import Prelude GoLib Effects KubeApi ConfigTypes Calls.
From S2P Require Import ConfigurationController ConfigurationFacts ReconcileFacts System.
Local Open Scope kube_scope.

(** ** The environment *)

(** The calls of a reconcile that do not touch the Configuration. *)
Definition is_routine `{KubeLib} {X} (e : callE X) : bool :=
  match e with
  | GetConfiguration _ | GetNamespace _ | CreateNamespace _ | GetSecret _ | ListNodes _
  | ApplyObject _ _ | RecordEvent _ _ _ _ | Now => true
  | _ => false
  end.

(** What is observed of a world: whether it is in order, the Configuration it
    stores, and whether the owner namespace exists. *)
Class Observed `{KubeLib} (W : Type) := {
  steady : W -> Prop;
  stored : W -> Configuration;
  owned : W -> bool
}.

Class SteadyServer `{KL : KubeLib, OW : !Observed W} (h : handler callE W)
    (r : ConfigurationReconciler) (req : NamespacedName) (items : list Node) : Prop := {
  steady_routine X (e : callE X) w :
    steady w -> is_routine e = true ->
    steady (h X e w).2 /\ stored (h X e w).2 = stored w /\
    (owned w = true -> owned (h X e w).2 = true);
  steady_get w : steady w -> (h _ (GetConfiguration req) w).1 = Ok (stored w);
  steady_namespace w :
    steady w ->
    let '(x, w') := h _ (GetNamespace KubeOVNFakeNamespace) w in
    match x with
    | Ok _ => owned w' = true
    | Err err => owned w' = false /\ IsNotFound err = true
    end;
  steady_created w :
    steady w -> owned w = false ->
    let c := CreateNamespace (namespace_named KubeOVNFakeNamespace) in
    (h _ c w).1 = None /\ owned (h _ c w).2 = true;
  steady_secret w :
    steady w ->
    exists s ca,
      (h _ (GetSecret (mkNamespacedName (cr_Namespace r) KubeOVNOperatorWebhookCertSecret)) w).1 =
        Ok s /\ secret_Data s !! "ca.crt" = Some ca;
  steady_nodes w set :
    steady w ->
    ConvertSelectorToLabelsMap (spec_MasterNodesLabel (cfg_Spec (stored w))) = Ok set ->
    (h _ (ListNodes (MatchingLabels set)) w).1 = Ok items;
  steady_applied w obj owner : steady w -> (h _ (ApplyObject obj owner) w).1 = None;
  steady_finalizers w f :
    steady w ->
    let c := stored w in
    let e := PatchConfiguration c (with_Finalizers c f) in
    (h _ e w).1 = None /\ steady (h _ e w).2 /\ stored (h _ e w).2 = with_Finalizers c f;
  steady_status w new :
    steady w ->
    let c := stored w in
    let e := PatchConfigurationStatus c new in
    (h _ e w).1 = None /\ steady (h _ e w).2 /\
    stored (h _ e w).2 =
      with_Status c (merge_status (cfg_Status c) (cfg_Status new) (cfg_Status c))
}.

Section convergence.
Context `{KL : KubeLib, KW : !KubeLaws, CL : !ControllerLib, RD : !Renderer}.
Context `{OW : !Observed W} (h : handler callE W) (r : ConfigurationReconciler).
Context (req : NamespacedName) (items : list Node) `{SS : !SteadyServer h r req items}.

(** Every object of the Configuration can be generated and sent, whatever its
    status and image tag. *)
Definition generates (c : Configuration) : Prop :=
  forall ty l, In (ty, l) OrderedObjectList ->
    (exists b, IsObjectNamespaced ty = Ok b) /\
    forall c' caCert,
      cfg_Spec (with_Tag c' (cr_Version r)) = cfg_Spec (with_Tag c (cr_Version r)) ->
      exists objs, GenerateObjects l c' ty (cr_Version r) caCert = Done (Ok objs) /\
        forall obj owner, In obj objs ->
          exists obj' u, SetControllerReference owner obj = Ok obj' /\ ToUnstructured obj' = Ok u.

(** A Configuration the controller can bring to its steady state. *)
Record live (c : Configuration) : Prop := {
  live_not_deleted : om_DeletionTimestamp (cfg_meta c) = None;
  live_label : exists set,
    ConvertSelectorToLabelsMap (spec_MasterNodesLabel (cfg_Spec c)) = Ok set;
  live_state : st_Status (cfg_Status c) <> ConfigurationStatusDeploying;
  live_generates : generates c
}.

(** The status of the steady state. *)
Record settled (c : Configuration) : Prop := {
  settled_conditions : forall ty, ty ∈ baselineConditions -> ConditionExists c ty = true;
  settled_addresses : st_MatchingNodeAddresses (cfg_Status c) = slices_Sort (usable items);
  settled_state : st_Status (cfg_Status c) = ConfigurationStatusDeployed
}.

(** ** Routine programs *)

(** What routine calls keep of the world. *)
Definition keeps (w w' : W) : Prop :=
  steady w' /\ stored w' = stored w /\ (owned w = true -> owned w' = true).

Definition routine : forall X, callE X -> Prop := fun X e => is_routine e = true.

Lemma keeps_trans w1 w2 w3 : keeps w1 w2 -> keeps w2 w3 -> keeps w1 w3.
Proof. intros (? & H1 & O1) (? & H2 & O2). split_and!; [done|congruence|auto]. Qed.

Lemma routine_keeps {A} (p : op A) w : only routine p -> steady w -> keeps w (exec h p w).2.
Proof.
  revert w. induction p as [a|m|X e k IH]; intros w Hp Hw; [done..|].
  destruct Hp as [He Hk]. pose proof (steady_routine X e w Hw He) as Hs. cbn.
  destruct (h X e w) as [x w1]. cbn in Hs. apply (keeps_trans w w1); [done|].
  apply IH; [apply Hk|apply Hs].
Qed.

(** So only the result of a routine program needs a proof. *)
Lemma ends_routine {A} (p : op A) w (Q : A -> Prop) :
  only routine p -> steady w -> ends h p w (fun a _ => Q a) ->
  ends h p w (fun a w' => Q a /\ keeps w w').
Proof.
  intros Hp Hw He. pose proof (routine_keeps p w Hp Hw) as Hk. revert He Hk. unfold ends.
  by destruct (exec h p w) as [[a|m] w'].
Qed.

Lemma ends_runs {A} (p : op A) w (Q : A -> Prop) :
  (forall t o, runs p t o -> exists a, o = Done a /\ Q a) -> ends h p w (fun a _ => Q a).
Proof.
  intros Hp. destruct (Hp _ _ (exec_runs h p w)) as (a & Ha & Hq). unfold ends.
  destruct (exec h p w) as [o w']. cbn in Ha. by subst o.
Qed.

(** ** The steps *)

Lemma initializeConditions_complete c :
  (forall ty, ty ∈ baselineConditions -> ConditionExists c ty = true) ->
  initializeConditions c = Ret (c, None).
Proof.
  intros Hc. unfold initializeConditions, ensureCondition.
  do 5 (rewrite Hc by (cbn; set_solver); cbn [bind]). done.
Qed.

Lemma initializeConditions_ends c w :
  steady w ->
  ends h (initializeConditions c) w (fun res w' =>
    (res.2 = None /\ (forall ty, ty ∈ baselineConditions -> ConditionExists res.1 ty = true) /\
     with_Conditions res.1 [] = with_Conditions c [] /\ (settled c -> res.1 = c)) /\
    keeps w w').
Proof.
  intros Hw. apply ends_routine; [|done|].
  { unfold initializeConditions, ensureCondition. solve_only. }
  apply ends_runs. intros t o Hr. pose proof Hr as Hr'.
  apply initializeConditions_runs in Hr as (c' & -> & [(_ & _ & Hf) He _ _] & _).
  eexists. split; [done|]. split_and!; try done. intros [Hc _ _].
  rewrite initializeConditions_complete in Hr' by done. by destruct Hr' as [_ [= ->]].
Qed.

Lemma reference_ends c w :
  steady w ->
  ends h (reconcileClusterScopedReference c) w (fun res w' =>
    res = (c, None) /\ keeps w w' /\ owned w' = true).
Proof.
  intros Hw. unfold reconcileClusterScopedReference. apply ends_call.
  pose proof (steady_namespace w Hw) as Hn.
  pose proof (steady_routine _ (GetNamespace KubeOVNFakeNamespace) w Hw eq_refl) as Hk.
  destruct (h _ (GetNamespace KubeOVNFakeNamespace) w) as [[err|ns] w1]; cbn -[steady stored owned] in *;
    [|by split_and!].
  destruct Hn as [Ho ->]. apply ends_call.
  pose proof (steady_created w1 (proj1 Hk) Ho) as [He Hc].
  pose proof (steady_routine _ (CreateNamespace (namespace_named KubeOVNFakeNamespace)) w1
    (proj1 Hk) eq_refl) as Hk1.
  rewrite He. split_and!; [done|by apply (keeps_trans w w1)|exact Hc].
Qed.

(** Discovery in the steady environment. *)
Lemma findMasterNodes_ends c set w :
  steady w -> usable items <> [] ->
  ConvertSelectorToLabelsMap (spec_MasterNodesLabel (cfg_Spec c)) = Ok set ->
  cfg_Spec (stored w) = cfg_Spec c ->
  ends h (findMasterNodes c) w (fun res w' =>
    (res.2 = None /\ exists now, res.1 = discovery now c items) /\ keeps w w').
Proof.
  intros Hw Hu Hl Hc. apply ends_routine; [|done|].
  { unfold findMasterNodes. rewrite Hl. solve_only. }
  unfold findMasterNodes. rewrite Hl. apply ends_call.
  rewrite (steady_nodes w set Hw) by by rewrite Hc. cbn [bind].
  fold (usable items). rewrite (bool_decide_eq_false_2 (usable items = [])) by done. cbn [andb].
  unfold addressArrayEqual, slices_Equal. case_bool_decide as Heq.
  - split; [done|]. exists zeroTime. unfold discovery. by rewrite decide_False, decide_True by tauto.
  - apply ends_call. split; [done|]. eexists. unfold discovery.
    by rewrite !decide_False by tauto.
Qed.

Lemma applyOne_ends owner obj w :
  (exists obj' u, SetControllerReference owner obj = Ok obj' /\ ToUnstructured obj' = Ok u) ->
  steady w ->
  ends h (applyOne owner obj) w (fun e w' => e = None /\ keeps w w').
Proof.
  intros (obj' & u & Ho & Hu) Hw. apply ends_routine; [|done|]; unfold applyOne, reconcileObject;
    rewrite Ho, Hu; [by solve_only|].
  apply ends_call. by rewrite (steady_applied w u _ Hw).
Qed.

Lemma applyType_ends c0 ns caCert e c w :
  generates c0 -> In e OrderedObjectList ->
  cfg_Spec (with_Tag c (cr_Version r)) = cfg_Spec (with_Tag c0 (cr_Version r)) -> steady w ->
  ends h (applyType r ns caCert e c) w (fun res w' =>
    res = (with_Tag c (cr_Version r), None) /\ keeps w w').
Proof.
  intros Hg Hin Hc Hw. destruct e as [ty l]. destruct (Hg ty l Hin) as [[b Hb] Hobj].
  destruct (Hobj c caCert Hc) as (objs & Ho & Hs). unfold applyType. rewrite Hb, Ho.
  eapply ends_seq.
  - apply (ends_for_each h (keeps w)); [|by split_and!]. intros obj w1 Hobj1 Hk.
    eapply ends_mono; [exact (applyOne_ends _ obj w1 (Hs obj _ Hobj1) (proj1 Hk))|].
    intros e w2 [-> Hk2]. split; [done|by apply (keeps_trans w w1)].
  - intros e w1 [-> Hk]. by split.
Qed.

Lemma applyObject_ends c0 order c w :
  generates c0 -> order ≡ₚ OrderedObjectList ->
  cfg_Spec (with_Tag c (cr_Version r)) = cfg_Spec (with_Tag c0 (cr_Version r)) ->
  st_MatchingNodeAddresses (cfg_Status c) <> [] ->
  st_Status (cfg_Status c) <> ConfigurationStatusDeploying ->
  steady w -> owned w = true ->
  ends h (applyObject r order c) w (fun res w' =>
    (res.2 = None /\ cfg_Status res.1 = cfg_Status (with_StatusStatus c ConfigurationStatusDeployed)) /\
    keeps w w').
Proof.
  intros Hg Hp Hc Ha Hd Hw Ho. unfold applyObject. rewrite !bool_decide_eq_false_2 by done.
  apply ends_call. pose proof (steady_namespace w Hw) as Hn.
  pose proof (steady_routine _ (GetNamespace KubeOVNFakeNamespace) w Hw eq_refl) as Hk.
  destruct (h _ (GetNamespace KubeOVNFakeNamespace) w) as [x w1]; cbn [fst snd] in *.
  destruct x as [err|ns]; [destruct Hn as [Hn _], Hk as (_ & _ & Hk); rewrite Hk in Hn; done|].
  apply ends_call. destruct (steady_secret w1 (proj1 Hk)) as (s & ca & Hs & Hca).
  pose proof (steady_routine _ (GetSecret (mkNamespacedName (cr_Namespace r)
    KubeOVNOperatorWebhookCertSecret)) w1 (proj1 Hk) eq_refl) as Hk1.
  rewrite Hs. cbn [bind]. rewrite Hca.
  pose (J := fun c' w' => (cfg_Spec (with_Tag c' (cr_Version r)) = cfg_Spec (with_Tag c0 (cr_Version r)) /\
    cfg_Status c' = cfg_Status c) /\ keeps w w').
  eapply ends_seq.
  - apply (ends_fold_each h J); [|by split_and!; [..|apply (keeps_trans w w1)]].
    intros e c' w' Hin [[Hc' Hs'] Hk'].
    eapply ends_mono; [apply (applyType_ends c0 ns ca e c' w'); try done; [|apply Hk']|].
    + rewrite <- list_elem_of_In, <- Hp. by apply list_elem_of_In.
    + intros res w2 [-> Hk2]. split; [done|]. split; [done|by apply (keeps_trans w w')].
  - intros [c' e] w' [He [[_ Hst] Hk']]. cbn in He, Hst. subst e. split; [|done]. split; [done|].
    cbn. by rewrite Hst.
Qed.

Lemma discovery_settles now c :
  usable items <> [] ->
  (forall ty, ty ∈ baselineConditions -> ConditionExists c ty = true) ->
  let c' := discovery now c items in
  cfg_Spec c' = cfg_Spec c /\ st_MatchingNodeAddresses (cfg_Status c') = slices_Sort (usable items) /\
  (forall ty, ty ∈ baselineConditions -> ConditionExists c' ty = true) /\
  st_Status (cfg_Status c') = st_Status (cfg_Status c) /\
  (st_MatchingNodeAddresses (cfg_Status c) = slices_Sort (usable items) -> cfg_Status c' = cfg_Status c).
Proof.
  intros Hu Hc. unfold discovery. cbn zeta. rewrite decide_False by tauto. case_decide as Hs.
  - split_and!; [done|by cbn|done|done|]. intros Ha. cbn. rewrite Ha, slices_Sort_idemp, <- Ha.
    by destruct (cfg_Status c).
  - split_and!; [done|done| |done|].
    + intros ty Hty.
      change (ConditionExists (with_MatchingNodeAddresses ?a _)) with (ConditionExists a).
      by rewrite ConditionExists_SetCondition, Hc.
    + intros Ha. exfalso. apply Hs. by rewrite Ha, slices_Sort_idemp.
Qed.

(** What one pass over the steps leaves: the steady status, and the status it
    found if that was steady already. *)
Lemma run_steps_ends order w :
  order ≡ₚ OrderedObjectList -> steady w -> live (stored w) -> usable items <> [] ->
  ends h (run_steps (reconcileSteps r order) (stored w)) w (fun res w' =>
    res.2 = None /\ settled res.1 /\
    (settled (stored w) -> cfg_Status res.1 = cfg_Status (stored w)) /\ keeps w w').
Proof.
  intros Hp Hw [_ [set Hl] Hd Hg] Hu. unfold run_steps, reconcileSteps. cbn [fold_each].
  eapply ends_seq; [by apply initializeConditions_ends|].
  intros [c1 e] w1 [(He & Hc1 & Hf1 & Hs1) Hk1]. cbn in He, Hc1, Hf1, Hs1. subst e.
  eapply ends_seq; [apply (reference_ends c1 w1), Hk1|]. intros res w2 (-> & Hk2 & Ho2).
  pose proof (f_equal cfg_Spec Hf1) as Hsp1. cbn in Hsp1.
  apply with_Conditions_status in Hf1 as (Ha1 & Hst1 & _).
  pose proof (keeps_trans _ _ _ Hk1 Hk2) as Hk12.
  eapply ends_seq.
  { apply (findMasterNodes_ends c1 set w2); [apply Hk2|done|by rewrite Hsp1|].
    rewrite (proj1 (proj2 Hk12)). by rewrite Hsp1. }
  intros [c2 e] w3 [(He & now & Hc2) Hk3]. cbn in He, Hc2. subst e.
  destruct (discovery_settles now c1 Hu Hc1) as (Hsp2 & Ha2 & Hc2' & Hst2 & Hs2).
  rewrite <- Hc2 in Hsp2, Ha2, Hc2', Hst2, Hs2.
  pose proof (keeps_trans _ _ _ Hk12 Hk3) as Hk13.
  assert (Ha3 : st_MatchingNodeAddresses (cfg_Status c2) <> []).
  { rewrite Ha2. intros He. apply Hu, Permutation_nil_r. by rewrite <- He, slices_Sort_Permutation. }
  assert (Hsp : cfg_Spec (with_Tag c2 (cr_Version r)) = cfg_Spec (with_Tag (stored w) (cr_Version r)))
    by (cbn; by rewrite Hsp2, Hsp1).
  eapply ends_seq.
  { apply (applyObject_ends (stored w) order c2 w3); try done; [by rewrite Hst2, Hst1|apply Hk3|].
    by apply Hk3. }
  intros [c3 e] w4 [[He Hst3] Hk4]. cbn in He, Hst3. subst e.
  split; [done|]. split; [|split].
  - split; cbn; rewrite ?Hst3; [|done..]. intros ty Hty. unfold ConditionExists. rewrite Hst3.
    by apply Hc2'.
  - intros Hset. cbn. rewrite Hst3, Hs2, (Hs1 Hset); [|rewrite Ha1; by apply Hset].
    destruct Hset as [_ _ Hdep]. destruct (stored w) as [? ? []]. cbn in *. by rewrite <- Hdep.
  - by apply (keeps_trans w w3).
Qed.

(** ** One reconcile *)

Definition has_finalizer (c : Configuration) : Prop :=
  ContainsFinalizer (om_Finalizers (cfg_meta c)) KubeOVNConfigurationFinalizer = true.

Lemma settled_status c c' : cfg_Status c' = cfg_Status c -> settled c -> settled c'.
Proof.
  intros Hs [Hc Ha Hd]. split; [|by rewrite Hs..]. intros ty Hty. unfold ConditionExists.
  rewrite Hs. by apply Hc.
Qed.

(** A patch computed from the stored status stores the new one. *)
Lemma merge_stored s new : merge_status s new s = new.
Proof.
  destruct s as [a c d m], new as [a' c' d' m']. unfold merge_status, merge. cbn.
  by repeat case_decide; subst.
Qed.

Lemma live_same c c' :
  live c -> om_DeletionTimestamp (cfg_meta c') = om_DeletionTimestamp (cfg_meta c) ->
  cfg_Spec c' = cfg_Spec c ->
  st_Status (cfg_Status c') <> ConfigurationStatusDeploying -> live c'.
Proof.
  intros [Hm Hl Hd Hg] Hm' Hs' Hd'. split; [congruence|by rewrite Hs'|done|].
  intros ty l Hin. destruct (Hg ty l Hin) as [Hb Ho]. split; [done|].
  intros c1 ca Hc1. apply Ho. rewrite Hc1. cbn. by rewrite Hs'.
Qed.

(** A reconcile moves the Configuration towards the steady state: the
    finalizer first, then the status, then nothing. *)
Record progress (c c' : Configuration) : Prop := {
  progress_live : live c';
  progress_spec : cfg_Spec c' = cfg_Spec c;
  progress_finalizer : has_finalizer c';
  progress_settles : has_finalizer c -> settled c';
  progress_done : has_finalizer c -> settled c -> c' = c
}.

Lemma Reconcile_ends order w :
  order ≡ₚ OrderedObjectList -> steady w -> live (stored w) -> usable items <> [] ->
  ends h (ConfigurationController.Reconcile r order req) w (fun res w' =>
    res = (emptyResult, None) /\ steady w' /\ progress (stored w) (stored w')).
Proof.
  intros Hp Hw Hlive Hu. apply ends_call. rewrite (steady_get w Hw). cbn [bind].
  pose proof (steady_routine _ (GetConfiguration req) w Hw eq_refl) as (Hw1 & Hc1 & _).
  set (w1 := (h _ (GetConfiguration req) w).2) in *. rewrite <- Hc1 in *.
  rewrite (live_not_deleted _ Hlive).
  destruct (ContainsFinalizer _ _) eqn:Hf; cbn [negb].
  - eapply ends_seq; [by apply run_steps_ends|].
    intros [c' e] w2 (He & Hset & Hsame & Hw2 & Hc2 & _). cbn in He, Hset, Hsame. subst e.
    case_bool_decide as Heq.
    + split; [done|]. split; [done|]. rewrite Hc2. split; try done.
      intros _. by apply (settled_status c').
    + rewrite <- Hc2 in *. apply ends_call.
      destruct (steady_status w2 c' Hw2) as (He & Hw3 & Hc3). cbn zeta in *.
      rewrite He, merge_stored in *. split; [done|]. split; [done|]. cbn [snd fst].
      rewrite Hc3. split; try done.
      * apply (live_same (stored w2)); try done. cbn. by rewrite (settled_state _ Hset).
      * intros _. by apply (settled_status c').
      * intros _ H. exfalso. apply Heq. by rewrite (Hsame H).
  - apply ends_call.
    destruct (steady_finalizers w1 (AddFinalizer (om_Finalizers (cfg_meta (stored w1)))
      KubeOVNConfigurationFinalizer) Hw1) as (He & Hw2 & Hc2). cbn zeta in *.
    rewrite He. split; [done|]. split; [done|]. rewrite Hc2.
    assert (Hnf : ~ has_finalizer (stored w1)) by (unfold has_finalizer; congruence).
    split; try done.
    + apply (live_same (stored w1)); try done. apply Hlive.
    + unfold has_finalizer. apply ContainsFinalizer_spec, AddFinalizer_spec. by left.
Qed.

(** In the steady state only routine calls are left. *)
Lemma Reconcile_quiet order w :
  order ≡ₚ OrderedObjectList -> steady w -> live (stored w) -> usable items <> [] ->
  has_finalizer (stored w) -> settled (stored w) ->
  Forall (obs_of routine) (exec_trace h (ConfigurationController.Reconcile r order req) w).
Proof.
  intros Hp Hw Hlive Hu Hf Hset. unfold ConfigurationController.Reconcile, call.
  cbn [bind exec_trace].
  pose proof (steady_get w Hw) as Hg.
  pose proof (steady_routine _ (GetConfiguration req) w Hw eq_refl) as (Hw1 & Hc1 & _).
  destruct (h _ (GetConfiguration req) w) as [x w1]. cbn [fst snd] in *. subst x.
  constructor; [done|]. rewrite <- Hc1 in *. rewrite (live_not_deleted _ Hlive), Hf. cbn [negb].
  rewrite exec_trace_bind. apply Forall_app. split.
  - eapply only_runs; [|apply exec_runs]. unfold run_steps, reconcileSteps. cbn [fold_each].
    unfold initializeConditions, ensureCondition, reconcileClusterScopedReference,
      findMasterNodes, applyObject, applyType, applyOne, reconcileObject.
    solve_only.
  - pose proof (run_steps_ends order w1 Hp Hw1 Hlive Hu) as He. revert He. unfold ends.
    destruct (exec h (run_steps _ _) w1) as [[[c' e]|m] w2]; [|done].
    cbn. intros (-> & _ & Hsame & _). by rewrite (Hsame Hset), bool_decide_eq_true_2.
Qed.

(** ** Repeated reconciles *)

Section passes.
Context (orders : nat -> list (objectType * list string)).

Definition pass (n : nat) : op (Result * option error) :=
  ConfigurationController.Reconcile r (orders n) req.

(** The world after [n] reconciles. *)
Fixpoint after (n : nat) (w : W) : W :=
  match n with O => w | S n => (exec h (pass n) (after n w)).2 end.

Context (Horders : forall n, orders n ≡ₚ OrderedObjectList) (Hu : usable items <> []).

Lemma pass_ends n w :
  steady w -> live (stored w) ->
  (exec h (pass n) w).1 = Done (emptyResult, None) /\
  steady (exec h (pass n) w).2 /\ progress (stored w) (stored (exec h (pass n) w).2).
Proof.
  intros Hw Hl. pose proof (Reconcile_ends (orders n) w (Horders n) Hw Hl Hu) as He.
  revert He. unfold ends, pass. destruct (exec h _ w) as [[res|m] w']; [|done].
  by intros (-> & ? & ?).
Qed.

Lemma after_steady n w : steady w -> live (stored w) -> steady (after n w) /\ live (stored (after n w)).
Proof.
  intros Hw Hl. induction n as [|n [Hn Hln]]; [done|].
  destruct (pass_ends n _ Hn Hln) as (_ & ? & []). done.
Qed.

Lemma after_spec n w :
  steady w -> live (stored w) -> cfg_Spec (stored (after n w)) = cfg_Spec (stored w).
Proof.
  intros Hw Hl. induction n as [|n IH]; [done|]. destruct (after_steady n w Hw Hl) as [Hn Hln].
  destruct (pass_ends n _ Hn Hln) as (_ & _ & [_ Hs _ _ _]). rewrite <- IH. exact Hs.
Qed.

(** From the second reconcile on, the Configuration is settled and stays. *)
Lemma after_settled n w :
  steady w -> live (stored w) ->
  has_finalizer (stored (after (2 + n) w)) /\ settled (stored (after (2 + n) w)) /\
  stored (after (2 + n) w) = stored (after 2 w).
Proof.
  intros Hw Hl. induction n as [|n (Hf & Hs & He)].
  - destruct (after_steady 0 w Hw Hl) as [H0 L0], (after_steady 1 w Hw Hl) as [H1 L1].
    destruct (pass_ends 0 _ H0 L0) as (_ & _ & [_ _ F1 _ _]).
    destruct (pass_ends 1 _ H1 L1) as (_ & _ & [_ _ F2 S2 _]).
    split; [exact F2|]. split; [by apply S2|done].
  - destruct (after_steady (2 + n) w Hw Hl) as [H2 L2].
    destruct (pass_ends (2 + n) _ H2 L2) as (_ & _ & [_ _ F S D]).
    split; [exact F|]. split; [by apply S|]. rewrite <- He. by apply D.
Qed.

End passes.

(** C3: the controller converges. Let the environment be steady: the server
    stores what it is sent and answers with it, the nodes do not change and one
    of them has a usable address, and every object can be generated and
    applied. Let the Configuration be live: not being deleted, its label
    well formed, its state not Deploying. Reconcile it again and again, with
    any order of the object types each time. Every reconcile succeeds without
    a requeue; after two of them the Configuration has the finalizer, all
    baseline conditions, the sorted addresses of the nodes and the state
    Deployed; from then on it never changes, its spec is the user's, and a
    reconcile sends nothing but routine calls (it applies the objects again,
    and patches nothing). *)
Theorem Reconcile_converges orders w :
  (forall n, orders n ≡ₚ OrderedObjectList) -> usable items <> [] ->
  steady w -> live (stored w) ->
  (forall n, (exec h (pass orders n) (after orders n w)).1 = Done (emptyResult, None)) /\
  forall n, 2 <= n ->
    let c := stored (after orders n w) in
    has_finalizer c /\ settled c /\ cfg_Spec c = cfg_Spec (stored w) /\
    c = stored (after orders 2 w) /\
    Forall (obs_of routine) (exec_trace h (pass orders n) (after orders n w)).
Proof.
  intros Ho Hu Hw Hl. split.
  - intros n. destruct (after_steady orders Ho Hu n w Hw Hl) as [Hn Hln].
    by apply (pass_ends orders Ho Hu n).
  - intros n Hn. replace n with (2 + (n - 2)) by lia. set (m := n - 2).
    destruct (after_steady orders Ho Hu (2 + m) w Hw Hl) as [Hm Hlm].
    destruct (after_settled orders Ho Hu m w Hw Hl) as (Hf & Hs & He). cbn zeta.
    split_and!; [done..|by apply after_spec|done|].
    by apply Reconcile_quiet.
Qed.

End convergence.
