(* ===== verification/OperatorFacts.v ===== *)
(** * The operator as a whole

    The configuration controller with the object generator of [Render] and the
    operator's templates: no reconcile panics for a Configuration whose
    [enableOVNIPSec] is set. *)

From Stdlib Require Import Ascii.
From S2P Require Import Prelude GoLib Effects KubeApi ConfigTypes Calls.
From S2P Require Import ConfigurationController NodeController TextTemplate TemplateText.
From S2P Require Import TemplatesRBAC TemplatesDeployments TemplatesDaemonSets TemplatesServices.
From S2P Require Import Crds Render RenderValues Guarantees.
Local Open Scope kube_scope.
Local Open Scope string_scope.

(** ** The generator *)

Section generator.
Context `{KL : KubeLib, RL : !RenderLib, RW : !RenderLaws}.

Definition parses (t : string) : bool := is_ok (Parse (function_names render_functions) t).

(** Every template of the operator parses. *)
Lemma operator_templates_parse e t : In e objectList -> In t e.2 -> parses t = true.
Proof.
  assert (Hall : forallb (fun e => forallb parses e.2) objectList = true) by by vm_compute.
  rewrite forallb_forall in Hall. intros He. specialize (Hall e He).
  rewrite forallb_forall in Hall. apply Hall.
Qed.

Lemma generateAll_done templates vals ty :
  Forall (fun t => parses t = true) templates -> exists r, generateAll templates vals ty = Done r.
Proof.
  induction 1 as [|t l Ht _ [r IH]]; [by eexists|]. cbn [generateAll].
  unfold generateObject, renderTemplate. unfold parses in Ht.
  destruct (InitialiseNewObject ty); [|by eexists].
  destruct (Parse _ t) as [e|tmpl]; [done|].
  destruct (Execute _ tmpl _) as [e|out]; [by eexists|]. rewrite IH.
  destruct (String.length out =? 0)%nat; [by destruct r; eexists|].
  destruct (yaml_Unmarshal_object _ out); [by eexists|]. by destruct r; eexists.
Qed.

Lemma Render_GenerateObjects_done templates config ty version caCert :
  comp_EnableOVNIPSec (spec_Component (cfg_Spec config)) <> None ->
  Forall (fun t => parses t = true) templates ->
  exists r, Render_GenerateObjects templates config ty version caCert = Done r.
Proof.
  intros Hip Ht. unfold Render_GenerateObjects.
  destruct (comp_EnableOVNIPSec (spec_Component (cfg_Spec (with_Tag config version))))
    as [ipsec|] eqn:Hip'; [|done].
  rewrite (renderValues_eq _ caCert ipsec Hip'). by apply generateAll_done.
Qed.

End generator.

(** ** The controller *)

Section operator.
Context `{KL : KubeLib, RL : !RenderLib, RW : !RenderLaws, CL : !ControllerLib}.
Context (r : ConfigurationReconciler).

Definition ipsec_set (c : Configuration) : Prop :=
  comp_EnableOVNIPSec (spec_Component (cfg_Spec c)) <> None.

#[local] Instance ipsec_set_stable : Stable ipsec_set.
Proof. by split. Qed.

(** C2: no reconcile of the operator panics. With the operator's templates, in
    any order of the object types, every run of [Reconcile] in which the server
    only answers with Configurations whose [enableOVNIPSec] is set (the default
    of the API sets it) returns a result, whatever else the server answers and
    whatever the rest of the Configuration. *)
Theorem operator_never_panics order req t o :
  order ≡ₚ OrderedObjectList ->
  Forall (answers (given ipsec_set)) t ->
  runs (ConfigurationController.Reconcile r order req) t o ->
  exists res err, o = Done (res, err).
Proof.
  intros Ho Ht Hr.
  assert (Hpanic : forall ty l c caCert m,
    In (ty, l) order \/ (ty, l) = (TCustomResourceDefinition, ConfigurationController.CRDList) ->
    ipsec_set c -> GenerateObjects l c ty (cr_Version r) caCert = Panicked m -> False).
  { intros ty l c caCert m Hin Hc Hg.
    assert (He : In (ty, l) objectList).
    { destruct Hin as [Hin|Hin]; [|injection Hin as -> ->; by left].
      revert Hin. rewrite <- !list_elem_of_In. by rewrite Ho. }
    assert (Hl : Forall (fun t => parses t = true) l)
      by (apply List.Forall_forall; intros x; exact (operator_templates_parse _ x He)).
    destruct (Render_GenerateObjects_done l c ty (cr_Version r) caCert Hc Hl) as [objs Hd].
    cbn [GenerateObjects operatorRenderer] in Hg. by rewrite Hd in Hg. }
  pose proof (wp_runs _ _ _ _ _ _ _ (kept_Reconcile ipsec_set False r order Hpanic req) Hr Ht) as Hw.
  destruct o as [[res err]|m]; [by eexists _, _|done].
Qed.

End operator.
