(* ===== verification/ConfigurationWitnesses.v ===== *)
(** * Concrete instances of the theorems on the configuration controller

    Each lemma applies one theorem to a run of the operator against the
    in-memory API server of [TestServer], at inputs where the theorem's
    hypotheses hold. *)

From S2P Require Import Prelude GoLib Effects KubeApi ConfigTypes Calls Webhook.
From S2P Require Import ConfigurationController System TestServer ConfigurationFacts DeletionFacts.
From S2P Require Import ReconcileFacts Watches.

#[local] Existing Instance sampleRenderer.
#[local] Existing Instance sampleRendererLaws.

(** A fresh Configuration gets the CPU request of ovn-central. *)
Lemma Default_spec_witness :
  exists c', Default (RConfiguration liveConfig) = Ok (RConfiguration c') /\
    cfg_meta c' = cfg_meta liveConfig.
Proof.
  destruct (Default_spec liveConfig) as (c' & Hd & _ & Hm & _). by exists c'.
Defined.

Lemma initializeConditions_spec_witness :
  exists c', condition_types c' =
    [WaitingForMatchignNodesCondition; OVNNBLeaderFound; OVNSBLeaderFound; OVNNBDBHealth;
     OVNSBDBHealth].
Proof.
  destruct (initializeConditions_spec liveConfig _ _
    (server_runs (initializeConditions liveConfig) liveCluster)) as (c' & _ & _ & Ht & _).
  by exists c'.
Defined.

(** Node n2 does not match the label: only the address of n1 is recorded. *)
Lemma findMasterNodes_found_witness :
  let c' := step_config (findMasterNodes liveConfig) liveCluster in
  st_MatchingNodeAddresses (cfg_Status c') = slices_Sort ["10.0.0.1"] /\
  IsConditionFalse c' WaitingForMatchignNodesCondition = true.
Proof.
  destruct (findMasterNodes_found liveConfig _ _
    (step_run (findMasterNodes liveConfig) liveCluster ltac:(by vm_compute)))
    as (set & items & t' & _ & Ht & _ & Hu).
  assert (Hi : usable items = ["10.0.0.1"]).
  { apply (f_equal node_listings) in Ht.
    assert (Hl : map usable (node_listings
      (exec_trace server (findMasterNodes liveConfig) liveCluster)) = [["10.0.0.1"]])
      by (vm_compute; reflexivity).
    rewrite Ht in Hl. by injection Hl. }
  rewrite Hi in Hu. destruct (Hu ltac:(done)) as (Ha & _ & Hc & _).
  split; [exact Ha|]. apply Hc. by intros ?%Permutation_nil_r.
Defined.

(** The deletion path with two CRDs whose custom resources are gone. *)
Definition deletion : op (option error) :=
  deleteClusterScopedReference sampleReconciler deletedConfig.

Lemma deletion_runs : runs deletion (exec_trace server deletion liveCluster) (Done None).
Proof. apply done_run. by vm_compute. Qed.

Lemma deletion_waits_for_custom_resources_witness :
  length (listed (exec_trace server deletion liveCluster)) = 2.
Proof.
  destruct (deletion_waits_for_custom_resources sampleReconciler deletedConfig _ _
    deletion_runs (or_intror eq_refl)) as (objs & Hg & -> & _).
  by injection Hg as <-.
Defined.

Lemma deletion_with_finalizer_skips_nodes_witness :
  none_of (@is_PatchNode _) (exec_trace server deletion liveCluster).
Proof.
  apply (deletion_with_finalizer_skips_nodes sampleReconciler deletedConfig _ deletion_runs).
  by vm_compute.
Defined.

(** Without the finalizer, the node finalizer of n2 is removed. *)
Definition release_nodes : op (option error) :=
  deleteClusterScopedReference sampleReconciler (with_Finalizers deletedConfig []).

Lemma release_nodes_runs :
  runs release_nodes (exec_trace server release_nodes liveCluster) (Done None).
Proof. apply done_run. by vm_compute. Qed.

Lemma deletion_without_finalizer_releases_nodes_witness :
  exists t1 items t2,
    exec_trace server release_nodes liveCluster =
    t1 ++ Obs (ListNodes Everything) (Ok items) :: t2.
Proof.
  assert (Hf : ContainsFinalizer (om_Finalizers (cfg_meta (with_Finalizers deletedConfig [])))
    KubeOVNConfigurationFinalizer = false) by done.
  destruct (deletion_without_finalizer_releases_nodes sampleReconciler _ _
    release_nodes_runs Hf) as (t1 & items & t2 & Ht & _).
  by exists t1, items, t2.
Defined.

(** Two objects types are applied, in the order of the list. *)
Definition ownedCluster : cluster :=
  put_fakeNS liveCluster (Some (namespace_named KubeOVNFakeNamespace)).

Definition apply1 : op (Configuration * option error) :=
  applyObject sampleReconciler OrderedObjectList readyConfig.
Definition apply2 : op (Configuration * option error) :=
  applyObject sampleReconciler (reverse OrderedObjectList) readyConfig.

Lemma apply1_runs :
  runs apply1 (exec_trace server apply1 ownedCluster)
    (Done (step_config apply1 ownedCluster, None)).
Proof. apply step_run. by vm_compute. Qed.
Lemma apply2_runs :
  runs apply2 (exec_trace server apply2 ownedCluster)
    (Done (step_config apply2 ownedCluster, None)).
Proof. apply step_run. by vm_compute. Qed.

Lemma applyObject_complete_witness :
  length (applied (exec_trace server apply1 ownedCluster)) = 3.
Proof.
  destruct (applyObject_complete sampleReconciler OrderedObjectList readyConfig _ _ apply1_runs)
    as (ns & secret & caCert & rest & _ & _ & -> & _); by vm_compute.
Defined.

Lemma applyObject_order_irrelevant_witness :
  applied (exec_trace server apply1 ownedCluster) ≡ₚ
  applied (exec_trace server apply2 ownedCluster).
Proof.
  assert (Hp : @OrderedObjectList _ sampleRenderer ≡ₚ reverse OrderedObjectList)
    by (symmetry; apply reverse_Permutation).
  assert (Ha : st_MatchingNodeAddresses (cfg_Status readyConfig) <> []) by done.
  assert (Hb : st_Status (cfg_Status readyConfig) <> ConfigurationStatusDeploying) by done.
  assert (He : reads (exec_trace server apply1 ownedCluster) =
    reads (exec_trace server apply2 ownedCluster)) by (vm_compute; reflexivity).
  apply (applyObject_order_irrelevant sampleReconciler _ _ readyConfig _ _ _ _ Hp Ha Hb
    apply1_runs apply2_runs He).
Defined.

(** ** Whole runs of Reconcile *)

Definition reconcile : op (Result * option error) :=
  Reconcile sampleReconciler OrderedObjectList sampleKey.

Lemma Reconcile_apply_gate_witness :
  exists c, ContainsFinalizer (om_Finalizers (cfg_meta c)) KubeOVNConfigurationFinalizer = true.
Proof.
  destruct (Reconcile_apply_gate sampleReconciler OrderedObjectList sampleKey _ _
    (server_runs reconcile liveCluster))
    as (c & t' & _ & _ & Hf & _).
  - apply some_of_existsb. by vm_compute.
  - by exists c.
Defined.

Lemma Reconcile_reports_failed_writes_witness :
  writes_ok (exec_trace server reconcile liveCluster).
Proof.
  assert (Hok : err_ok reconcile liveCluster = true) by (vm_compute; reflexivity).
  destruct (reconcile_run reconcile liveCluster Hok) as [res Hr].
  by apply (Reconcile_reports_failed_writes sampleReconciler OrderedObjectList sampleKey _ res).
Defined.

Lemma Reconcile_status_patch_witness :
  exists base new, cfg_Status new <> cfg_Status base /\ cfg_meta new = cfg_meta base.
Proof.
  assert (Hin : exists base new e,
    In (Obs (PatchConfigurationStatus base new) e) (exec_trace server reconcile liveCluster)).
  { assert (Hs : existsb (call_of (@is_status_patch _)) (exec_trace server reconcile liveCluster)
      = true) by (vm_compute; reflexivity).
    apply existsb_exists in Hs as ([X e x] & Hin & He).
    destruct e; try discriminate He. by do 3 eexists. }
  destruct Hin as (base & new & e & Hin).
  destruct (Reconcile_status_patch sampleReconciler OrderedObjectList sampleKey _ _ base new e
    (server_runs reconcile liveCluster) Hin) as (_ & _ & Hs & _ & Hm & _).
  by exists base, new.
Defined.

(** The matching node is gone: four reconciles of a Configuration with a
    recorded address, the condition of each run being the next one's. *)
Definition lost_run (c : Configuration) : trace callE :=
  exec_trace server reconcile (put_config emptyCluster (Some c)).
Fixpoint lost (n : nat) : Configuration :=
  match n with
  | O => readyConfig
  | S n => with_Status (lost n) (recorded (lost n) (lost_run (lost n)))
  end.

(** A run succeeds and lists no usable node. *)
Definition lost_ok (c : Configuration) : bool :=
  err_ok reconcile (put_config emptyCluster (Some c)) &&
  bool_decide (Forall (fun items => usable items = []) (node_listings (lost_run c))).

Lemma lost_meta n : cfg_meta (lost n) = cfg_meta readyConfig.
Proof. by induction n. Qed.

Lemma lost_fetched n : head (omap configuration_read (lost_run (lost n))) = Some (lost n).
Proof. pose proof (lost_meta n) as Hm. destruct (lost n) as [m sp st]. cbn in Hm. by subst m. Qed.

Lemma lost_runs n : lost_ok (lost n) = true ->
  exists res, runs reconcile (lost_run (lost n)) (Done (res, None)) /\
    Forall (fun items => usable items = []) (node_listings (lost_run (lost n))).
Proof.
  intros [Ho Hu%bool_decide_eq_true]%andb_true_iff. by destruct (reconcile_run _ _ Ho) as [res Hr]; exists res.
Qed.

Lemma false_not_true c ty : IsConditionFalse c ty = true -> IsConditionTrue c ty = false.
Proof. intros Hf%bool_decide_eq_true. apply bool_decide_eq_false. by rewrite Hf. Qed.

(** The condition is set, falsely cleared, set again, and then stays. *)
Lemma lost_nodes_condition_witness :
  let W := WaitingForMatchignNodesCondition in
  IsConditionTrue (lost 1) W = true /\ IsConditionFalse (lost 2) W = true /\
  IsConditionTrue (lost 3) W = true /\
  LookupCondition (lost 4) W = LookupCondition (lost 3) W.
Proof.
  assert (Ha : st_MatchingNodeAddresses (cfg_Status readyConfig) <> []) by done.
  assert (Hstep : forall n, lost_ok (lost n) = true -> exists res,
    runs reconcile (lost_run (lost n)) (Done (res, None)) /\
    head (omap configuration_read (lost_run (lost n))) = Some (lost n) /\
    om_DeletionTimestamp (cfg_meta (lost n)) = None /\
    ContainsFinalizer (om_Finalizers (cfg_meta (lost n))) KubeOVNConfigurationFinalizer = true /\
    Forall (fun items => usable items = []) (node_listings (lost_run (lost n)))).
  { intros n (res & Hr & Hu)%lost_runs. exists res. split; [exact Hr|].
    split; [apply lost_fetched|]. rewrite lost_meta. split; [reflexivity|]. split; [reflexivity|exact Hu]. }
  destruct (Hstep 0 ltac:(by vm_compute)) as (r0 & R0 & C0 & D0 & F0 & U0).
  destruct (Hstep 1 ltac:(by vm_compute)) as (r1 & R1 & C1 & D1 & F1 & U1).
  destruct (Hstep 2 ltac:(by vm_compute)) as (r2 & R2 & C2 & D2 & F2 & U2).
  destruct (Hstep 3 ltac:(by vm_compute)) as (r3 & R3 & C3 & D3 & F3 & U3).
  destruct (lost_nodes_condition sampleReconciler OrderedObjectList sampleKey _ r0 _ R0 C0 D0 F0 U0)
    as (H0 & _). destruct H0 as [T1 A1]; [done|].
  destruct (lost_nodes_condition sampleReconciler OrderedObjectList sampleKey _ r1 _ R1 C1 D1 F1 U1)
    as (_ & H1 & _).
  destruct H1 as (T2 & _ & _ & A2); [exact T1|exact (fun He => Ha (eq_trans (eq_sym A1) He))|].
  assert (N2 : IsConditionTrue (lost 2) WaitingForMatchignNodesCondition = false).
  { apply false_not_true. exact T2. }
  destruct (lost_nodes_condition sampleReconciler OrderedObjectList sampleKey _ r2 _ R2 C2 D2 F2 U2)
    as (H2 & _). destruct H2 as [T3 A3]; [exact N2|].
  destruct (lost_nodes_condition sampleReconciler OrderedObjectList sampleKey _ r3 _ R3 C3 D3 F3 U3)
    as (_ & _ & H3). destruct H3 as [T4 _]; [exact T3|exact (eq_trans A3 A2)|].
  cbn zeta. split; [exact T1|]. split; [exact T2|]. split; [exact T3|exact T4].
Defined.

Definition unmarkedConfig : Configuration := sampleConfig None ["other"] noStatus.
Definition unmarkedCluster : cluster := sampleCluster (Some unmarkedConfig) [] [].

Lemma Reconcile_adds_finalizer_first_witness :
  exists c' e,
    exec_trace server reconcile unmarkedCluster =
    [Obs (GetConfiguration sampleKey) (Ok unmarkedConfig);
     Obs (PatchConfiguration unmarkedConfig c') e].
Proof.
  destruct (Reconcile_adds_finalizer_first sampleReconciler OrderedObjectList sampleKey
    unmarkedConfig _ _
    (server_runs reconcile unmarkedCluster)
    eq_refl eq_refl) as (c' & e & Ht & _).
  - apply (bool_decide_unpack _). by vm_compute.
  - by exists c', e.
Defined.

(** ** Watches *)

#[local] Instance testWatch : WatchLib := {|
  EnqueueRequestsFromMapFunc A f e := flat_map f (event_objects e)
|}.
#[local] Instance testWatchLaws : WatchLaws.
Proof. split. intros A f e req. apply in_flat_map. Qed.

(** A Service of the Configuration, whose content changes from "1" to "2". *)
Definition ownedMeta : ObjectMeta :=
  mkObjectMeta "ovn-nb" "other" 1 None [] [mkOwnerReference APIVersion Kind "kubeovn"].
Definition contentChange : event string :=
  UpdateEvent (mkClientObject ownedMeta ["a"] "1") (mkClientObject ownedMeta ["b"] "2").

Lemma watch_triggers_witness :
  In sampleKey (watch sampleReconciler contentChange).
Proof.
  destruct (watch_triggers (RD := sampleRenderer) sampleReconciler contentChange sampleKey)
    as (_ & H & _).
  apply H. split; [intros [_ [=]]|].
  exists (mkClientObject ownedMeta ["a"] "1"), (mkOwnerReference APIVersion Kind "kubeovn").
  split; [by left|]. split; [by left|]. split; [reflexivity|]. split; reflexivity.
Defined.
