(* ===== verification/NodeWitnesses.v ===== *)
(** * Concrete instances of the theorems on the node and health check
    controllers and on the bootstrapper

    Each lemma applies one theorem to a run against the in-memory API server of
    [TestServer], with the cleanup scripts of [Render]. *)

From S2P Require Import Prelude GoLib Effects KubeApi ConfigTypes Calls.
From S2P Require Import ConfigurationController Executor NodeController HealthCheck Bootstrap.
From S2P Require Import Render TestServer NodeFacts HealthFacts.
Local Open Scope kube_scope.
Local Open Scope string_scope.

(** ** Nodes *)

Definition nodeReconciler : NodeReconciler := mkNodeReconciler "kube-system".

Definition check_nb : op (string * option error) :=
  executeOVNCentralCommand NBCheckScript NBLeaderLabel "kube-system".

Lemma executeOVNCentralCommand_spec_witness :
  length (exec_trace server check_nb liveCluster) = 3.
Proof.
  assert (Hs : some_of (@is_ExecPod _) (exec_trace server check_nb liveCluster))
    by (apply some_of_existsb; vm_compute; reflexivity).
  destruct (executeOVNCentralCommand_spec _ _ _ _ _ (server_runs check_nb liveCluster))
    as (_ & Hx & _).
  destruct (Hx Hs) as (sel & p & e & so & se & _ & Ht). by rewrite Ht.
Defined.

(** Node n2 is a recorded master that is being deleted. *)
Definition leavingNode : Node :=
  sampleNode "n2" "10.0.0.2" ∅ (Some 7%Z) ["other"; KubeOVNNodeFinalizer].
Definition leavingCluster : cluster := sampleCluster (Some readyConfig) [leavingNode] [].
Definition leavingKey : NamespacedName := mkNamespacedName "" "n2".
Definition reconcileLeaving : op (Result * option error) :=
  NodeController.Reconcile nodeReconciler leavingKey.

(** A patch of a node that is being deleted. *)
Definition is_release {X} (e : callE X) : bool :=
  match e with
  | PatchNode base _ => match om_DeletionTimestamp (node_meta base) with Some _ => true | _ => false end
  | _ => false
  end.

Lemma Reconcile_releases_cleaned_node_witness :
  exists config ip tc, node_cleanup nodeReconciler config ip tc.
Proof.
  assert (Hs : existsb (call_of (@is_release)) (exec_trace server reconcileLeaving leavingCluster)
    = true) by (vm_compute; reflexivity).
  apply existsb_exists in Hs as ([X e x] & Hin & He).
  destruct e; try discriminate He. cbn in He.
  destruct (Reconcile_releases_cleaned_node nodeReconciler leavingKey _ _ _ _ _
    (server_runs reconcileLeaving leavingCluster) Hin) as (config & tc & _ & _ & _ & Hc & _).
  - intros Hd. by rewrite Hd in He.
  - by eexists _, _, _.
Defined.

(** Node n1 matches the label, n3 does not: both get the finalizer. *)
Definition plainNode : Node := sampleNode "n3" "10.0.0.3" ∅ None [].
Definition plainCluster : cluster := sampleCluster (Some readyConfig) [plainNode] [].
Definition plainKey : NamespacedName := mkNamespacedName "" "n3".

Definition configKey : NamespacedName := mkNamespacedName "kube-system" DefaultConfigurationName.
Definition markedNode (n : Node) : Node :=
  node_set_Finalizers n (AddFinalizer (om_Finalizers (node_meta n)) KubeOVNNodeFinalizer).

(** The run that marks a node after a given answer to its read. *)
Lemma marking_run key got n :
  match got with Ok n' => n' = n | Err err => IsNotFound err = false /\ n = emptyNode end ->
  om_DeletionTimestamp (node_meta n) = None ->
  ContainsFinalizer (om_Finalizers (node_meta n)) KubeOVNNodeFinalizer = false ->
  runs (NodeController.Reconcile nodeReconciler key)
    [Obs (GetNode key) got; Obs (GetConfiguration configKey) (Ok readyConfig);
     Obs (PatchNode n (markedNode n)) None] (Done (emptyResult, None)).
Proof.
  intros Hgot Hd Hf. exists got. eexists. split; [reflexivity|].
  assert (Hrec : runs (reconcileNode nodeReconciler n)
    [Obs (GetConfiguration configKey) (Ok readyConfig);
     Obs (PatchNode n (markedNode n)) None] (Done (emptyResult, None))).
  { exists (Ok readyConfig). eexists. split; [reflexivity|]. cbn [readyConfig]. rewrite Hd, Hf.
    exists None. eexists. split; [reflexivity|done]. }
  destruct got as [err|n']; [|by rewrite Hgot]. destruct Hgot as [Hnf ->].
  cbn -[reconcileNode IsNotFound]. rewrite Hnf. exact Hrec.
Qed.

Lemma Reconcile_marks_every_node_witness :
  exists new e, [Obs (PatchNode plainNode (markedNode plainNode)) None] =
    [Obs (PatchNode plainNode new) e] /\ KubeOVNNodeFinalizer ∈ om_Finalizers (node_meta new).
Proof.
  assert (Hf : ContainsFinalizer (om_Finalizers (node_meta plainNode)) KubeOVNNodeFinalizer = false)
    by reflexivity.
  destruct (Reconcile_marks_every_node nodeReconciler plainKey plainNode readyConfig _ _
    (marking_run plainKey (Ok plainNode) plainNode eq_refl eq_refl Hf) eq_refl eq_refl)
    as [(_ & Ht & _)|(_ & new & e & Ht & _ & Hfs & _)]; [discriminate Ht|].
  exists new, e. split; [exact Ht|]. apply Hfs. by left.
Defined.

Definition timeout : error := ELib ("timeout" : string).

Lemma Reconcile_ignores_read_error_witness :
  exists new e, [Obs (PatchNode emptyNode (markedNode emptyNode)) None] =
    [Obs (PatchNode emptyNode new) e] /\ om_Name (node_meta new) = "".
Proof.
  destruct (Reconcile_ignores_read_error nodeReconciler plainKey timeout readyConfig _ _
    (marking_run plainKey (Err timeout) emptyNode (conj eq_refl eq_refl) eq_refl eq_refl)
    eq_refl eq_refl) as (new & e & Ht & _ & Hn & _).
  by exists new, e.
Defined.

(** Without a leader pod the chassis of n2 cannot be cleaned. *)
Definition leaderless : cluster :=
  mkCluster (Some liveConfig) [leavingNode] None None None [] [] [] 5%Z.
Definition silent : op (Result * option error) :=
  reconcileNodeDeletion nodeReconciler liveConfig leavingNode.

Lemma reconcileNodeDeletion_silent_failure_witness :
  (exec server silent leaderless).1 = Done (emptyResult, None).
Proof.
  assert (Hip : nodeInternalIP leavingNode <> "") by (vm_compute; discriminate).
  assert (Hm : nodeInternalIP leavingNode ∉ st_MatchingNodeAddresses (cfg_Status liveConfig))
    by (apply (bool_decide_unpack _); vm_compute; exact I).
  assert (Hf : KubeOVNNodeFinalizer ∈ om_Finalizers (node_meta leavingNode))
    by (apply (bool_decide_unpack _); vm_compute; exact I).
  assert (Hn : none_of (@is_PatchNode _) (exec_trace server silent leaderless))
    by (apply (bool_decide_unpack _); vm_compute; exact I).
  apply (reconcileNodeDeletion_silent_failure nodeReconciler liveConfig leavingNode _ _
    (server_runs silent leaderless) Hip Hm Hf Hn).
Defined.

(** ** Health checks *)

Definition checker : HealthCheckReconciler := mkHealthCheckReconciler "kube-system" 60.
Definition deployedConfig : Configuration :=
  sampleConfig None [KubeOVNConfigurationFinalizer]
    (mkConfigurationStatus ["10.0.0.1"] [] ConfigurationStatusDeployed []).
Definition deployedCluster : cluster := sampleCluster (Some deployedConfig) [masterNode] [].
Definition check : op (Configuration * option error) := reconcileOVNDBHealth checker deployedConfig.

Lemma check_runs :
  runs check (exec_trace server check deployedCluster)
    (Done (step_config check deployedCluster, None)).
Proof. apply step_run. by vm_compute. Qed.

Lemma reconcileOVNDBHealth_spec_witness :
  conditions_wf (step_config check deployedCluster).
Proof.
  assert (Hwf : conditions_wf deployedConfig) by (apply NoDup_nil_2).
  destruct (reconcileOVNDBHealth_spec checker deployedConfig _ _ check_runs)
    as [(now & _ & _ & ->)|(now & seln & sels & nb & sb & n1 & n2 & t1 & t2 & H)]; [exact Hwf|].
  apply H. exact Hwf.
Defined.

Lemma northbound_check_asks_southbound_leader_witness :
  exists q : Pod, om_Name (pod_meta q) = "ovn-central-1".
Proof.
  destruct (northbound_check_asks_southbound_leader checker deployedConfig _ _
    (server_runs check deployedCluster)) as [Hall _].
  assert (Hs : existsb (fun o => match o with
    | Obs e _ => match e with ExecPod _ p _ _ => String.eqb p "ovn-central-1" | _ => false end end)
    (exec_trace server check deployedCluster) = true) by (vm_compute; reflexivity).
  apply existsb_exists in Hs as ([X e x] & Hin & He).
  destruct e; try discriminate He. apply String.eqb_eq in He as ->.
  destruct (Hall _ _ _ _ _ Hin) as (sel & q & _ & _ & _ & Hq & _). by exists q.
Defined.

Definition reconcile_check : op (Result * option error) := HealthCheck.Reconcile checker sampleKey.

Lemma HealthCheck_Reconcile_spec_witness :
  exists c, st_Status (cfg_Status c) = ConfigurationStatusDeployed.
Proof.
  assert (Hs : some_of (@is_check _) (exec_trace server reconcile_check deployedCluster))
    by (apply some_of_existsb; vm_compute; reflexivity).
  destruct (HealthCheck_Reconcile_spec checker sampleKey _ _
    (server_runs reconcile_check deployedCluster)) as [Hx _].
  destruct (Hx Hs) as (c & now & t' & _ & _ & Hst & _). by exists c.
Defined.

(** ** The bootstrapper *)

(** Try the condition at most [steps] times, without waiting. *)
Fixpoint retry (steps : nat) (condition : op (bool * option error)) : op (option error) :=
  match steps with
  | O => Ret (Some (ENew "timed out waiting for the condition"))
  | S n =>
      met <- condition ;;
      match met with
      | (_, Some err) => Ret (Some err)
      | (true, None) => Ret None
      | (false, None) => retry n condition
      end
  end.

#[export] Instance testBootstrapLib : BootstrapLib := {|
  ExponentialBackoffWithContext b condition := retry (bo_Steps b) condition;
  yaml_Unmarshal s :=
    if String.eqb s "" then Err ("empty" : string) else Ok (sampleSpec "ipv4" s)
|}.

Lemma retry_attempts condition n : forall t o,
  runs (retry n condition) t o -> attempts condition n t o.
Proof.
  induction n as [|n IH]; intros t o; cbn [retry].
  - intros [-> ->]. constructor.
  - rewrite runs_bind. intros [((met & err) & t1 & t2 & -> & Hc & Hr)|(m & Hc & ->)];
      [|by apply attempts_panic].
    destruct err as [err|].
    + assert (Hr' : t2 = [] /\ o = Done (Some err)) by (by destruct met). destruct Hr' as [-> ->].
      rewrite app_nil_r. by eapply attempts_failed.
    + destruct met; [|by apply attempts_again; auto].
      destruct Hr as [-> ->]. rewrite app_nil_r. by apply attempts_met.
Qed.

#[export] Instance testBootstrapLaws : BootstrapLaws.
Proof. split. intros b condition t o. apply retry_attempts. Qed.

Definition bootstrapper : ConfigurationBootstrapper := mkConfigurationBootstrapper "kube-system".
Definition bootstrapMap : ConfigMap :=
  mkConfigMap (mkObjectMeta BootstrapConfigMapName "kube-system" 1 None [] [])
    {[ ConfigMapDataKey := "role=master" ]}.
Definition newCluster : cluster :=
  mkCluster None [masterNode] None None (Some bootstrapMap) [] [] [] 5%Z.

Lemma Start_creates_once_witness :
  exists err cm spec tc,
    exec_trace server (Start bootstrapper) newCluster =
      Obs (GetConfiguration configKey) (Err err) ::
      Obs (GetConfigMap (mkNamespacedName "kube-system" BootstrapConfigMapName)) (Ok cm) :: tc /\
    creations (defaultConfiguration bootstrapper spec) 6 tc.
Proof.
  assert (Hw : existsb (call_of (@is_write _)) (exec_trace server (Start bootstrapper) newCluster)
    = true) by (vm_compute; reflexivity).
  destruct (Start_creates_once bootstrapper _ _ (server_runs (Start bootstrapper) newCluster))
    as (_ & [Hn|(err & cm & d & spec & tc & Ht & _ & _ & _ & Hc & _)]).
  - apply existsb_exists in Hw as (o & Hin & Ho). unfold none_of in Hn.
    rewrite List.Forall_forall in Hn.
    by rewrite (Hn o Hin) in Ho.
  - exists err, cm, spec, tc. split; [exact Ht|exact Hc].
Defined.
