(* ===== verification/SystemWitnesses.v ===== *)
(** * Concrete instances of the theorems on the system

    An API server that keeps every version of the Configuration, on top of the
    in-memory cluster of [TestServer], and runs of the operator against it. *)

From S2P Require Import Prelude GoLib Effects KubeApi ConfigTypes Calls Executor.
From S2P Require Import ConfigurationController NodeController HealthCheck Bootstrap.
From S2P Require Import Render Guarantees System TestServer ConfigurationFacts SystemFacts.
From S2P Require Import Convergence NodeWitnesses.
Local Open Scope kube_scope.
Local Open Scope string_scope.
Local Open Scope list_scope.

(** ** A server with a history *)

Record world := mkWorld { w_cluster : cluster; w_versions : list Configuration }.

(** The call stored a version of the Configuration. *)
Definition stored_version {X} (e : callE X) : X -> bool :=
  match e in callE X return X -> bool with
  | CreateConfiguration _ | PatchConfiguration _ _ | PatchConfigurationStatus _ _ =>
      fun err => match err with None => true | Some _ => false end
  | _ => fun _ => false
  end.

Definition remember (b : bool) (cl : cluster) (vs : list Configuration) : list Configuration :=
  match cl_config cl with
  | Some c => if b then c :: vs else vs
  | None => vs
  end.

Lemma remember_false cl vs : remember false cl vs = vs.
Proof. unfold remember. by case_match. Qed.

Definition api : handler callE world := fun X e w =>
  let '(x, cl) := server X e (w_cluster w) in
  (x, mkWorld cl (remember (stored_version e x) cl (w_versions w))).

(** The stored Configuration is the newest version. *)
Definition coherent (w : world) : Prop :=
  forall c, cl_config (w_cluster w) = Some c -> exists l, w_versions w = c :: l.

(** Another client creates the Configuration. *)
Definition created (w : world) (c : Configuration) : world :=
  mkWorld (put_config (w_cluster w) (Some c)) (c :: w_versions w).

#[export] Instance testApi : ApiServer world := {|
  versions := w_versions;
  serve X e w x w' := coherent w /\ api X e w = (x, w');
  others w w' := exists c, cfg_Status c = noStatus /\ w' = created w c
|}.

Lemma api_coherent X (e : callE X) w : coherent w -> coherent (api X e w).2.
Proof.
  intros Hw. unfold api, coherent, remember. destruct e; cbn; try exact Hw.
  all: destruct (cl_config (w_cluster w)) as [c0|] eqn:Hc; cbn; rewrite ?Hc; try done.
  all: try (intros ? [= <-]; by eauto).
  - intros ? Hc'. rewrite Hc'. by eauto.
Qed.

#[export] Instance testApiLaws : ApiServerLaws.
Proof.
  split.
  - intros key w c w' [Hw Hs]. unfold api in Hs. cbn in Hs.
    destruct (cl_config (w_cluster w)) as [c0|] eqn:Hc; [|done].
    case_bool_decide; [|done]. injection Hs as <- _.
    destruct (Hw c0 Hc) as [l Hl]. cbn. rewrite Hl. by left.
  - intros X e w x w' [Hw Hs]. unfold api in Hs.
    destruct (cl_config (w_cluster w)) as [c0|] eqn:Hc; [destruct (Hw c0 Hc) as [l Hl]|];
      destruct e; cbn in Hs; rewrite ?Hc in Hs; injection Hs as <- <-; cbn;
      rewrite ?remember_false; auto; unfold current; cbn; rewrite ?Hl; eauto 7.
    unfold remember; cbn. destruct (collect (keep_status c0 new)) as [c1|] eqn:Hk; [|by left].
    right. exists c1. split; [done|]. revert Hk. unfold collect.
    by repeat case_match; intros [= <-].
  - intros w w' (c & Hc & ->). right. exists c. split; [done|by left].
Qed.

(** ** Runs *)

Section runs.
Context `{RD : !Renderer, CS : !CleanupScripts, BL : !BootstrapLib}.

Abbreviation reaches := (rtc (@step testLib testControllerLib RD CS BL world testApi)).

(** The next worker runs to its end, without interruption. *)
Lemma exec_reaches (t : task) w l :
  coherent w ->
  coherent (exec api t w).2 /\
  exists t', reaches (mkSystem w (t :: l)) (mkSystem (exec api t w).2 (t' :: l)).
Proof.
  revert w. induction t as [a|m|X e k IH]; intros w Hw; cbn; [by split; [|by eexists]..|].
  pose proof (api_coherent X e w Hw) as Hc. destruct (api X e w) as [x w'] eqn:Hs.
  destruct (IH x w' Hc) as [Hc' [t' Ht]]. split; [exact Hc'|]. exists t'.
  eapply rtc_l; [|exact Ht]. by apply (step_call w [] X e k l x w').
Qed.

End runs.

(** The bootstrapper creates the Configuration; two reconciles add the
    finalizer and apply the objects. *)
Definition bootCluster : cluster :=
  mkCluster None [workerNode; masterNode] None (Some sampleSecret)
    (Some (mkConfigMap (mkObjectMeta BootstrapConfigMapName "kube-system" 1 None [] [])
       {[ ConfigMapDataKey := "role=master" ]})) [] [] [] 63000000000000000000%Z.
Definition firstWorld : world := mkWorld bootCluster [].

#[local] Instance sampleRenderer' : Renderer := sampleRenderer.

Definition reconcile_once : task :=
  worker (ConfigurationController.Reconcile sampleReconciler OrderedObjectList sampleKey).
Definition afterStart : world :=
  (exec api (worker (Start (mkConfigurationBootstrapper "kube-system"))) firstWorld).2.
Definition afterFinalizer : world := (exec api reconcile_once afterStart).2.
Definition afterApply : world := (exec api reconcile_once afterFinalizer).2.

Lemma afterApply_reached :
  exists l, rtc step (mkSystem firstWorld []) (mkSystem afterApply l).
Proof.
  assert (H0 : coherent firstWorld) by done.
  destruct (exec_reaches (worker (Start (mkConfigurationBootstrapper "kube-system")))
    firstWorld [] H0) as [H1 [t1 R1]].
  destruct (exec_reaches reconcile_once afterStart [t1] H1) as [H2 [t2 R2]].
  destruct (exec_reaches reconcile_once afterFinalizer [t2; t1] H2) as [_ [t3 R3]].
  exists [t3; t2; t1].
  eapply rtc_l; [apply (step_bootstrap _ _ (mkConfigurationBootstrapper "kube-system"))|].
  etrans; [exact R1|].
  eapply rtc_l; [by apply (step_configuration _ _ sampleReconciler OrderedObjectList sampleKey)|].
  etrans; [exact R2|].
  eapply rtc_l; [by apply (step_configuration _ _ sampleReconciler OrderedObjectList sampleKey)|].
  exact R3.
Qed.

Lemma status_invariant_witness :
  map (fun c => st_Status (cfg_Status c)) (w_versions afterApply) =
    [ConfigurationStatusDeployed; ""; ""] /\
  Forall (fun c => ok_status (cfg_Status c)) (w_versions afterApply).
Proof.
  split; [by vm_compute|]. destruct afterApply_reached as [l Hl].
  exact (status_invariant firstWorld afterApply l eq_refl Hl).
Defined.

(** ** Convergence *)

Definition steadyNodes : list Node := [workerNode; masterNode].

#[local] Instance testObserved : Observed cluster := {|
  steady cl := exists c, cl_config cl = Some c /\ om_Name (cfg_meta c) = "kubeovn" /\
    om_DeletionTimestamp (cfg_meta c) = None /\ spec_MasterNodesLabel (cfg_Spec c) = "role=master" /\
    cl_secret cl = Some sampleSecret /\ cl_nodes cl = steadyNodes;
  stored cl := default liveConfig (cl_config cl);
  owned cl := match cl_fakeNS cl with Some _ => true | None => false end
|}.

#[local] Instance testSteady : SteadyServer server sampleReconciler sampleKey [masterNode].
Proof.
  split; intros *; cbn [steady stored owned testObserved].
  - intros Hw He. by destruct e.
  - intros (c & Hc & Hn & _). cbn. by rewrite Hc, bool_decide_eq_true_2.
  - intros _. cbn. by destruct (cl_fakeNS w).
  - done.
  - intros (c & _ & _ & _ & _ & Hs & _). exists sampleSecret, "CERT". cbn. by rewrite Hs.
  - intros (c & Hc & _ & _ & Hl & _ & Hn). rewrite Hc. change (default liveConfig (Some c)) with c. rewrite Hl.
    intros [= <-]. cbn -[matches]. rewrite Hn. reflexivity.
  - done.
  - intros (c & Hc & Hn & Hd & Hl & Hrest). rewrite Hc. cbn. rewrite Hc. unfold collect. cbn.
    rewrite Hd. split; [done|]. split; [|done]. by eexists.
  - intros (c & Hc & Hrest). rewrite Hc. cbn. rewrite Hc. split; [done|]. split; [|done].
    by eexists.
Qed.

Definition newConfig : Configuration := sampleConfig None [] noStatus.
Definition newCluster : cluster := sampleCluster (Some newConfig) steadyNodes [].

Lemma newConfig_live : live sampleReconciler newConfig.
Proof.
  split; [done|by eexists|done|]. intros ty l _. split; [by eexists|].
  intros c' ca _. eexists. split; [done|]. intros obj owner _. destruct owner; by do 2 eexists.
Qed.

Lemma Reconcile_converges_witness :
  exists c, settled [masterNode] c /\ st_MatchingNodeAddresses (cfg_Status c) = ["10.0.0.1"] /\
    c = stored (after server sampleReconciler sampleKey (fun _ => OrderedObjectList) 7 newCluster).
Proof.
  assert (Hs : steady newCluster) by by eexists.
  assert (Hu : usable [masterNode] <> []) by by vm_compute.
  destruct (Reconcile_converges server sampleReconciler sampleKey [masterNode]
    (fun _ => OrderedObjectList) newCluster (fun _ => reflexivity _) Hu Hs newConfig_live) as [_ H].
  assert (H7 : 2 <= 7) by lia. destruct (H 7 H7) as (_ & Hset & _).
  eexists. split; [exact Hset|]. split; [|reflexivity].
  rewrite (settled_addresses _ _ Hset). by vm_compute.
Defined.
