(* ===== verification/RenderWitnesses.v ===== *)
(** * Concrete instances of the theorems on rendering

    Each lemma applies one theorem to a sample Configuration, with the library
    functions of [TestRender]; the last one runs the whole operator, with its
    own templates, against the in-memory API server of [TestServer]. *)

From Stdlib Require Import Ascii.
From S2P Require Import Prelude GoLib Effects KubeApi ConfigTypes Calls.
From S2P Require Import ConfigurationController NodeController TextTemplate TemplateText.
From S2P Require Import TemplatesRBAC TemplatesDeployments TemplatesDaemonSets TemplatesServices.
From S2P Require Import Render RenderValues TestServer TestRender RenderFacts RenderObjects.
From S2P Require Import NumberFacts CrdFacts Guarantees OperatorFacts.
Local Open Scope string_scope.

(** ** Sample Configurations *)

Definition configOf (s : ConfigurationSpec) : Configuration :=
  mkConfiguration (mkObjectMeta "kubeovn" "kube-system" 1 None [KubeOVNConfigurationFinalizer] [])
    s (mkConfigurationStatus ["10.0.0.1"; "10.0.0.2"] [] "" []).

Definition dualConfig : Configuration := configOf (sampleSpec "dual_stack" "role=master").
Definition unlabelledConfig : Configuration := configOf (sampleSpec "ipv4" "").
Definition idleConfig : Configuration :=
  configOf (sampleSpecOf (sampleNetworking "ipv4") (sampleComponent (Some true))
              (mkPerformanceSpec 0 20 100) "role=master").
Definition nilConfig : Configuration :=
  configOf (sampleSpecOf (sampleNetworking "ipv4") (sampleComponent None)
              (mkPerformanceSpec 360 20 100) "role=master").

(** Every checked template has a text for such a Configuration. *)
Lemma sample_rendered config ipsec b t :
  comp_EnableOVNIPSec (spec_Component (cfg_Spec config)) = Some ipsec ->
  comp_SecureServing (spec_Component (cfg_Spec config)) = Some b ->
  spec_MasterNodesLabel (cfg_Spec config) <> "" ->
  In t checked_templates ->
  exists out, rendered_as config "v1.16.2" "CA" t out.
Proof.
  intros Hip Hss Hl Hin.
  destruct (checked_renders (with_Tag config "v1.16.2") "CA" ipsec b t Hss Hl Hin) as [out Ho].
  exists out. eexists. split; [|exact Ho]. by apply renderValues_eq.
Qed.

Lemma deployment_checked t : In t DeploymentList -> In t checked_templates.
Proof. unfold checked_templates. rewrite !in_app_iff. tauto. Qed.
Lemma daemonset_checked t : In t DaemonsetList -> In t checked_templates.
Proof. unfold checked_templates. rewrite !in_app_iff. tauto. Qed.
Lemma service_checked t : In t ServicesList -> In t checked_templates.
Proof. unfold checked_templates. rewrite !in_app_iff. tauto. Qed.

(** ** The theorems *)

Lemma GenerateObjects_decodes_witness :
  exists texts, length texts = length ServicesList /\
    Render_GenerateObjects ServicesList dualConfig TService "v1.16.2" "CA" =
    Done (decode_all TService texts).
Proof.
  assert (Hin : Forall (fun t => In t checked_templates) ServicesList)
    by (apply List.Forall_forall; exact service_checked).
  assert (Hl : spec_MasterNodesLabel (cfg_Spec dualConfig) <> "") by discriminate.
  destruct (GenerateObjects_decodes ServicesList dualConfig TService TService "v1.16.2" "CA"
    false false eq_refl eq_refl eq_refl Hl Hin) as (texts & Ht & Hg).
  exists texts. split; [symmetry; exact (Forall2_length _ _ _ Ht)|exact Hg].
Defined.

Lemma crds_render_unchanged_witness :
  Render_GenerateObjects Crds.CRDList dualConfig TCustomResourceDefinition "v1.16.2" "CA" =
    Done (decode_all TCustomResourceDefinition Crds.CRDList).
Proof.
  destruct (crds_render_unchanged dualConfig "v1.16.2" "CA" false eq_refl) as (_ & _ & H).
  exact H.
Defined.

Lemma generateMasterNodeAffinity_spec_witness :
  exists text, generateMasterNodeAffinity dualConfig = Ok text.
Proof.
  assert (Hv : "master" <> "") by discriminate.
  destruct (generateMasterNodeAffinity_spec dualConfig "role" "master" eq_refl Hv) as (_ & _ & H).
  eexists. apply H. reflexivity.
Defined.

Lemma empty_label_blocks_deployments_witness :
  exists e, Render_GenerateObjects DeploymentList unlabelledConfig TDeployment "v1.16.2" "CA" =
    Done (Err e).
Proof.
  apply (empty_label_blocks_deployments unlabelledConfig "v1.16.2" "CA" false eq_refl eq_refl).
Defined.

Lemma values_lost_in_templates_witness :
  (exists out before after, rendered_as dualConfig "v1.16.2" "CA" kube_ovn_cni_daemonset out /\
     out = before +:+ "--service-cluster-ip-range=<no value>" +:+ after) /\
  (exists out before after, rendered_as dualConfig "v1.16.2" "CA" ovs_ovn_daemonset out /\
     out = before +:+ tpl "- name: OVN_REMOTE_OPENFLOW_INTERVAL
              value: ^<no value>" +:+ after) /\
  (exists out before after, rendered_as idleConfig "v1.16.2" "CA" kube_ovn_controller_deployment out /\
     out = before +:+ "--gc-interval=<no value>" +:+ after).
Proof.
  assert (Hd : spec_MasterNodesLabel (cfg_Spec dualConfig) <> "") by discriminate.
  assert (Hi : spec_MasterNodesLabel (cfg_Spec idleConfig) <> "") by discriminate.
  split; [|split].
  - assert (Hin : In kube_ovn_cni_daemonset checked_templates)
      by (apply daemonset_checked; right; left; reflexivity).
    destruct (sample_rendered dualConfig false false _ eq_refl eq_refl Hd Hin) as [out Ho].
    destruct (values_lost_in_templates dualConfig "v1.16.2" "CA" out) as (H & _).
    destruct (H eq_refl Ho) as (x & y & Hx). by exists out, x, y.
  - assert (Hin : In ovs_ovn_daemonset checked_templates)
      by (apply daemonset_checked; right; right; left; reflexivity).
    destruct (sample_rendered dualConfig false false _ eq_refl eq_refl Hd Hin) as [out Ho].
    destruct (values_lost_in_templates dualConfig "v1.16.2" "CA" out) as (_ & H & _).
    destruct (H Ho) as (x & y & Hx). by exists out, x, y.
  - assert (Hin : In kube_ovn_controller_deployment checked_templates)
      by (apply deployment_checked; right; left; reflexivity).
    destruct (sample_rendered idleConfig true false _ eq_refl eq_refl Hi Hin) as [out Ho].
    destruct (values_lost_in_templates idleConfig "v1.16.2" "CA" out) as (_ & _ & H).
    destruct (H eq_refl Ho) as (x & y & Hx). by exists out, x, y.
Defined.

Lemma services_dual_stack_witness :
  exists a b c, forall config version caCert out,
    rendered_as config version caCert ovn_nb_service out ->
    out = a +:+ om_Namespace (cfg_meta config) +:+ b +:+ "" +:+ c.
Proof.
  assert (Hin : In (ovn_nb_service, false) dual_stack_services) by (cbn; tauto).
  apply (services_dual_stack ovn_nb_service false Hin).
Defined.

Lemma missing_ipsec_pointer_panics_witness :
  exec_trace server (deleteClusterScopedReference sampleReconciler
    nilConfig) liveCluster = [].
Proof.
  destruct (missing_ipsec_pointer_panics sampleReconciler ServicesList nilConfig TService
    "v1.16.2" "CA" _ _ eq_refl (server_runs _ liveCluster)) as (_ & Ht & _).
  exact Ht.
Defined.

Lemma probe_interval_rendered_witness :
  exists out before after, rendered_as dualConfig "v1.16.2" "CA" ovn_central_deployment out /\
    out = before +:+ tpl "- name: PROBE_INTERVAL
              value: ^180000^
            - name: OVN_NORTHD_PROBE_INTERVAL" +:+ after.
Proof.
  assert (Hl : spec_MasterNodesLabel (cfg_Spec dualConfig) <> "") by discriminate.
  assert (Hin : In ovn_central_deployment checked_templates)
    by (apply deployment_checked; left; reflexivity).
  destruct (sample_rendered dualConfig false false _ eq_refl eq_refl Hl Hin) as [out Ho].
  destruct (probe_interval_rendered dualConfig _ _ out Ho) as (x & text & y & Hx & _ & Ht & _).
  exists out, x, y. split; [exact Ho|]. rewrite Hx, Ht; [reflexivity|]. cbn. lia.
Defined.

Lemma optional_objects_follow_flag_witness :
  rendered_as dualConfig "v1.16.2" "CA" ovn_ic_controller_deployment "".
Proof.
  assert (Hl : spec_MasterNodesLabel (cfg_Spec dualConfig) <> "") by discriminate.
  assert (Hin : In ovn_ic_controller_deployment checked_templates)
    by (apply deployment_checked; right; right; left; reflexivity).
  destruct (sample_rendered dualConfig false false _ eq_refl eq_refl Hl Hin) as [out Ho].
  assert (Hflag : In (ovn_ic_controller_deployment, Some false) (optional_objects dualConfig))
    by (left; reflexivity).
  destruct (optional_objects_follow_flag dualConfig _ _ _ _ out Hflag Ho) as [_ He].
  pose proof (He eq_refl) as Hout. subst out. exact Ho.
Defined.

(** ** The whole operator *)

Definition configured_answer (o : obs callE) : bool :=
  match o with
  | Obs e x =>
      match e in callE X return X -> bool with
      | GetConfiguration _ => fun x =>
          match x with
          | Ok c => match comp_EnableOVNIPSec (spec_Component (cfg_Spec c)) with
                    | Some _ => true | None => false end
          | Err _ => true
          end
      | _ => fun _ => true
      end x
  end.

Lemma configured_answers t :
  forallb configured_answer t = true -> Forall (answers (given ipsec_set)) t.
Proof.
  rewrite forallb_forall, List.Forall_forall. intros H o Hin. specialize (H o Hin).
  destruct o as [X e x]. destruct e; try exact I. intros c ->. cbn in H. unfold ipsec_set.
  by destruct (comp_EnableOVNIPSec _).
Qed.

Definition operator_run : op (Result * option error) :=
  ConfigurationController.Reconcile sampleReconciler objectList sampleKey.

(** A reconcile of the sample Configuration applies 60 objects. *)
Example operator_applies :
  length (List.filter (call_of (@is_ApplyObject _)) (exec_trace server operator_run liveCluster)) = 60.
Proof. vm_compute. reflexivity. Qed.

Lemma operator_never_panics_witness :
  exists res err, (exec server operator_run liveCluster).1 = Done (res, err).
Proof.
  assert (Ha : forallb configured_answer (exec_trace server operator_run liveCluster) = true)
    by (vm_compute; reflexivity).
  apply (operator_never_panics sampleReconciler objectList sampleKey _ _
    (Permutation_refl _) (configured_answers _ Ha) (server_runs operator_run liveCluster)).
Defined.
